(* ===== verification/_CoqProject ===== *)
-Q . S2P
Prelude.v
Xid.v
ItemPtr.v
HeapTuple.v
ComboCid.v
Snapshot.v
Visibility.v
PageMemo.v
VisibilitySpec.v
VacuumSpec.v
UpdateSpec.v
VisibilityThms.v
Slru.v
SlruSpec.v
Clog.v
ClogSpec.v
Subtrans.v
Transam.v
CommitThms.v
ClogGroup.v
ClogGroupSpec.v
ClogGroupThms.v
Fsm.v
FsmSpec.v
FsmThms.v
FsmVacuum.v
FsmExact.v
XactState.v
Xact.v
Session.v
SessionDemo.v
XactView.v
XactOps.v
SessionSpec.v
SessionExec.v
SessionStmts.v
SessionThms.v
XactTrace.v
XactCommit.v
XactIds.v
XactParallel.v
