(* ===== verification/Prelude.v ===== *)
(** * pgrust: transactions, row visibility and free space

    pgrust is a PostgreSQL server in Rust.  This library models the part of it that
    decides what a transaction is: how it begins and ends ([xact], [tcop]), how its
    outcome is recorded ([clog], [subtrans], [slru], [transam]), which row versions it
    sees ([heapam_visibility], [snapshot], [combocid]); and the map that tells an insert
    which page has room ([freespace]).  All paths below are under [src/crates].

    ** The parts and how they interact

    A client message is a list of statements.  The main loop runs them between the start
    and the end of a transaction command and recovers when one fails; the transaction
    statements move the block state machine of the transaction manager, which starts,
    commits, aborts and cleans up transactions and subtransactions.  A commit writes a
    WAL record and then status bits in the commit log, whose pages live in a small
    write-back cache (the SLRU) shared with the table of subtransaction parents.  A
    scan looks at the header of every row version, asks whether its inserter and deleter
    are ours, running or committed, and caches answers as hint bits on the page.

    ** Files

    Shared:
    - [Prelude]: results and errors ([PgResult]), the state-and-error monad with its
      notation, machine integers ([wrap32], bit tests), generic lemmas, tactics and hint
      databases.

    Rows ([_support/types], [backend/access/heap], [backend/utils/time]):
    - [Xid]: transaction ids ([types_core/src/xact.rs]); [ItemPtr]: tuple ids
      ([types_tuple/src/itemptr.rs]); [HeapTuple]: tuple headers and multixact members
      ([types_tuple/src/htup.rs], [types_storage/src/multixact.rs]); [ComboCid]: combo
      command ids ([combocid/src/lib.rs]); [Snapshot]: snapshots, [XidInMVCCSnapshot] and
      the per-page memo ([snapshot/src/lib.rs], [snapmgr/src/lib.rs]).
    - [Visibility]: every [HeapTupleSatisfies...] routine
      ([heapam_visibility/src/lib.rs]); [PageMemo]: [page_collect_tuples]
      ([heapam/src/lib.rs]), a reference scan written without its memo, its iteration
      and its fast paths, and their agreement.
    - [VisibilitySpec], [VacuumSpec], [UpdateSpec]: what the routines mean, by which
      transactions committed, run or are ours; [VisibilityThms]: the claims.

    Transaction outcomes ([backend/access/transam]):
    - [Slru] ([slru/src/lib.rs]) and [SlruSpec], its invariant and transparency;
      [Clog] ([clog/src/lib.rs]) and [ClogSpec], the log as a map; [Subtrans]
      ([subtrans/src/lib.rs]); [Transam] ([transam/src/lib.rs]); [CommitThms]: the claims.
    - [ClogGroup]: the contended group update of the commit log as a step relation over
      any number of backends; [ClogGroupSpec]: its invariant; [ClogGroupThms]: the claims.

    Free space ([backend/storage/freespace/freespace/src]):
    - [Fsm]: pages ([fsmpage.rs]) and operations ([lib.rs]); [FsmSpec]: the page
      invariant; [FsmThms]: search, recording, truncation; [FsmVacuum], [FsmExact]:
      vacuum repairs the upper levels of a map, makes a tidy one accurate, and an
      accurate map is searched exactly.

    Transactions and sessions ([backend/access/transam/xact/src], [backend/tcop]):
    - [XactState]: the stack of transaction nodes ([state.rs]), as records; [Xact]: ids,
      commands and the guards of utility commands ([lib.rs]), and start, commit, prepare,
      abort, cleanup, the block state machine, savepoints and internal subtransactions
      ([engine.rs]), one definition per function.
    - [Session]: [exec_simple_query] ([postgres/src/simple_query.rs]), the recovery of
      the main loop ([postgres/src/main_loop.rs]) and the transaction statements
      ([utility/src/dispatch.rs]); [SessionDemo]: an environment to run it in.
    - [XactView], [XactOps]: weakest preconditions over the part of the state that
      decides the course of a command, and a lemma per operation; [SessionSpec]: the
      abstract machine of blocks and savepoints a client sees; [SessionExec],
      [SessionStmts], [SessionThms]: every statement, then every session, refines it.
    - [XactTrace], [XactCommit]: the order of the calls to other components; [XactIds]:
      the test "is this id mine"; [XactParallel]: the state a leader hands to its parallel
      workers, byte by byte.

    ** What the theorems show

    - Visibility: each routine returns its specified verdict and only ever leaves true
      hint bits, which stay true; what vacuum calls dead, by an aborted inserter or a
      committed deleter, no protected snapshot sees; the page-at-a-time scan agrees with
      examining every line pointer by itself.  Rows a pre-9.0 VACUUM FULL was moving
      (HEAP_MOVED_OFF, HEAP_MOVED_IN) are covered for [HeapTupleSatisfiesUpdate]
      ([RowInv]) and excluded for the other routines ([TupleInv]).
    - Commit log: a tree commit is atomic for readers at every prefix of its writes; the
      SLRU never loses the bytes of a page, whatever is evicted and whichever I/O fails;
      truncation and deletion remove what they may and nothing else, files the file
      system refuses to unlink and the apparent-wraparound exit accounted for; WAL goes
      first.
    - Group update: under any interleaving each request is applied exactly once, and no
      wake-up is lost.
    - Free space: search ends on any map, also a torn one, with an existing page whose
      slot has the room; recording, truncation, vacuum and the category arithmetic.
    - Sessions: for every list of query messages, and whatever calls fail, the client is
      told and left with what the abstract machine says, or the backend ends with a fatal
      error; a failed query reports an error of its surroundings or, with its severity,
      SQLSTATE and message, the one the machine prescribes for the first statement it
      refuses; no tree is marked
      committed before its record, nor synchronously before a flush of it; the steps of
      a commit come in order; the search for own ids is exact across the wrap-around, and
      a parallel worker has the same own ids as its leader.

    ** Modelling decisions

    - A [w]-bit integer is a [Z] with its wrap-around written out.  [Err] is an error
      value, in the transaction code with its severity and SQLSTATE, and [Panic] a Rust
      panic; [debug_assert!] is that of a release build.
    - Code outside of the component is a parameter: a [Context] of a section or a field
      of a record ([XactEnv] of [Visibility] and of [Xact], [SlruCtl], [FsmIo]), with what
      is relied upon as a class ([EnvOk], [Civil], [SlruRunning], [FsmRunning]) or a named
      hypothesis; the examples instantiate them.
    - SLRU and free-space map: one backend at a time, except where a page is searched
      under interference and in the group update, which is a step relation with
      sequentially consistent atomics.
    - Transaction manager: a call into another component leaves the transaction state
      alone and is recorded when it is made, whether or not it then fails, so the theorems
      on traces speak of calls in their order; statements other than transaction
      statements bring their own effect, of which the session theorems ask only that it
      keeps the block state; [xact_started] is passed from call to call.

    ** Fuel

    Every loop that is not structural has fuel, and the theorems show it suffices: 33
    rounds for an SLRU victim (two per slot of a bank and one), 2 for reading past a
    failed I/O and for waiting, [S (2 * slots)] restarts of a truncation, the number of
    ids for the runs of [set_status_by_pages], the distance to the oldest id for a walk
    to the topmost parent; 13 levels up and down a free-space page, 3 levels of pages,
    30010 rounds of [fsm_search] (three times its 10000 retries, and slack); the length
    of the stack for the loops over subtransactions, which pop a node per round; the
    length of the array and one for a bisection.  The 16 attempts at error recovery are
    the source's own.

    ** Not modelled

    - In the modelled parts: shared-memory set-up, WAL redo of the commit log, the walk
      over segment directories, [XLogRecordPageWithFreeSpace], taking and exporting
      snapshots, the callback registry, timestamps and memory contexts of [xact], the
      extended query protocol, and in the main loop what comes before a message is read
      (the ready state, [ReadCommand]) with its errors.
    - Components whose answers are parameters: the process array, multixact storage, id
      assignment, the WAL, the buffer manager, the lock manager, two-phase state.
    - Everything above a row and a statement: parser, planner, executor, indexes,
      catalogs, types, replication, the postmaster and the client programs. *)

From Stdlib Require Export ZArith Lia.
From stdpp Require Export base list gmap strings numbers.

#[global] Open Scope Z_scope.

(** ** Results of fallible code

    [PgResult<T>] of [types_error] is [result T].  A [PgError] carries what the
    code reports; [Panic] is a Rust panic (an index out of range, an [expect]),
    which is an outcome of its own, never confused with an [Err]. *)

(** The severity of a report that ends the operation. *)
Inductive Elevel : Type := ERROR | FATAL | PANIC.

(** The SQLSTATEs the modelled code attaches; [ERRCODE_INTERNAL_ERROR] is the one an
    error gets by default. *)
Inductive SqlState : Type :=
| ERRCODE_INTERNAL_ERROR
| ERRCODE_FEATURE_NOT_SUPPORTED
| ERRCODE_ACTIVE_SQL_TRANSACTION
| ERRCODE_NO_ACTIVE_SQL_TRANSACTION
| ERRCODE_IN_FAILED_SQL_TRANSACTION
| ERRCODE_INVALID_TRANSACTION_STATE
| ERRCODE_S_E_INVALID_SPECIFICATION
| ERRCODE_PROGRAM_LIMIT_EXCEEDED.

(** A [PgError] is a bare message; an error with its severity and SQLSTATE; or a
    report on a file, with its severity, the saved errno ([None] when none is
    attached), the detail text and the numbers that the message and the detail
    print. *)
Inductive PgError : Type :=
| PgErr (msg : string)
| PgRaise (elevel : Elevel) (sqlstate : SqlState) (msg : string)
| PgReport (elevel : Elevel) (errno : option Z) (msg detail : string) (args : list Z).

#[export] Instance Elevel_eq_dec : EqDecision Elevel.
Proof. solve_decision. Defined.
#[export] Instance SqlState_eq_dec : EqDecision SqlState.
Proof. solve_decision. Defined.

Inductive result (A : Type) : Type :=
| Ok (a : A)
| Err (e : PgError)
| Panic.
Arguments Ok {A} a.
Arguments Err {A} e.
Arguments Panic {A}.

#[export] Instance PgError_eq_dec : EqDecision PgError.
Proof. solve_decision. Defined.

Definition rbind {A B : Type} (c : result A) (k : A -> result B) : result B :=
  match c with
  | Ok a => k a
  | Err e => Err e
  | Panic => Panic
  end.

Declare Scope pg_scope.
Delimit Scope pg_scope with pg.

Notation "'let?' x := c 'in' k" := (rbind c (fun x => k))
  (at level 10, x pattern, c at level 100, k at level 200,
   format "'[v' 'let?'  x  :=  c  'in' '/' k ']'") : pg_scope.
#[global] Open Scope pg_scope.

(** ** The state-and-error monad

    A handler that mutates shared state through [&mut] and may return early with
    [?] is a function from the state to a result and the state reached.  The
    writes made before an error stay made, as they do in the source. *)

Definition M (S A : Type) : Type := S -> result A * S.

Definition mret {S A} (a : A) : M S A := fun s => (Ok a, s).
Definition mlift {S A} (r : result A) : M S A := fun s => (r, s).
Definition mget {S} : M S S := fun s => (Ok s, s).
Definition mput {S} (f : S -> S) : M S unit := fun s => (Ok tt, f s).
Definition mbnd {S A B} (c : M S A) (k : A -> M S B) : M S B :=
  fun s =>
    match c s with
    | (Ok a, s') => k a s'
    | (Err e, s') => (Err e, s')
    | (Panic, s') => (Panic, s')
    end.

Notation "'let!' x := c 'in' k" := (mbnd c (fun x => k))
  (at level 10, x pattern, c at level 100, k at level 200,
   format "'[v' 'let!'  x  :=  c  'in' '/' k ']'") : pg_scope.
Notation "c ';!' k" := (mbnd c (fun _ => k))
  (at level 100, k at level 200, right associativity) : pg_scope.

(** An early [return] out of a block: the block yields [Some v] when it returns
    [v] from the function and [None] when control falls through to what follows
    it. *)
Definition early {S A} (c : M S (option A)) (k : M S A) : M S A :=
  let! o := c in
  match o with
  | Some v => mret v
  | None => k
  end.
Definition returning {S A} (a : A) : M S (option A) := mret (Some a).
Definition fall_through {S A} : M S (option A) := mret None.

(** ** Machine integers

    A [u8], [u16], [u32] or [u64] is a [Z]; the wrap-around is written out. *)

Definition U8 : Z := 2 ^ 8.
Definition U16 : Z := 2 ^ 16.
Definition U32 : Z := 2 ^ 32.
Definition U64 : Z := 2 ^ 64.

Definition is_u8 (x : Z) : Prop := 0 <= x < 2 ^ 8.
Definition is_u16 (x : Z) : Prop := 0 <= x < 2 ^ 16.
Definition is_u32 (x : Z) : Prop := 0 <= x < 2 ^ 32.
Definition is_u64 (x : Z) : Prop := 0 <= x < 2 ^ 64.

Definition wrap32 (x : Z) : Z := x mod 2 ^ 32.
Definition wrap64 (x : Z) : Z := x mod 2 ^ 64.

(** [x as i32] for a [u32]. *)
Definition as_i32 (x : Z) : Z := if x <? 2 ^ 31 then x else x - 2 ^ 32.

(** [(flags & mask) != 0]. *)
Definition has (flags mask : Z) : bool := negb (Z.land flags mask =? 0).

Create HintDb pg.

Lemma wrap32_u32 x : is_u32 (wrap32 x).
Proof. unfold is_u32, wrap32. apply Z.mod_pos_bound. lia. Qed.

Lemma wrap32_spec x : exists k, wrap32 x = x + k * 2 ^ 32.
Proof. unfold wrap32. exists (- (x / 2 ^ 32)). pose proof (Z.div_mod x (2 ^ 32) ltac:(lia)). lia. Qed.

Lemma wrap32_small x : is_u32 x -> wrap32 x = x.
Proof. unfold is_u32, wrap32. apply Z.mod_small. Qed.

Lemma wrap64_small x : is_u64 x -> wrap64 x = x.
Proof. unfold is_u64, wrap64. apply Z.mod_small. Qed.

#[export] Hint Resolve wrap32_u32 : pg.

(** ** Arrays

    An array in memory is a function of the index; the bounds are the user's. *)

Definition arr (A : Type) : Type := Z -> A.
Definition set_at {A} (i : Z) (v : A) (f : arr A) : arr A := fun j => if j =? i then v else f j.

Lemma set_at_eq {A} i (v : A) f : set_at i v f i = v.
Proof. unfold set_at. by rewrite Z.eqb_refl. Qed.

Lemma set_at_ne {A} i j (v : A) f : j <> i -> set_at i v f j = f j.
Proof. intros H. unfold set_at. by destruct (Z.eqb_spec j i). Qed.

(** ** Flag words *)

Lemma has_lor m a k : has (Z.lor m a) k = has m k || has a k.
Proof.
  unfold has. rewrite Z.land_lor_distr_l.
  destruct (Z.eqb_spec (Z.land m k) 0) as [E|E].
  - rewrite E, Z.lor_0_l. by destruct (Z.eqb_spec (Z.land a k) 0).
  - destruct (Z.eqb_spec (Z.lor (Z.land m k) (Z.land a k)) 0) as [F|F]; [|done].
    apply Z.lor_eq_0_iff in F. tauto.
Qed.

Lemma has_pow2 m i : 0 <= i -> has m (2 ^ i) = Z.testbit m i.
Proof.
  intros Hi. unfold has. destruct (Z.testbit m i) eqn:E.
  - apply negb_true_iff, Z.eqb_neq. intros H.
    assert (F : Z.testbit (Z.land m (2 ^ i)) i = false) by (rewrite H; apply Z.bits_0).
    rewrite Z.land_spec, E, Z.pow2_bits_true in F by lia. done.
  - apply negb_false_iff, Z.eqb_eq. apply Z.bits_inj'. intros n Hn.
    rewrite Z.land_spec, Z.bits_0.
    destruct (Z.eq_dec n i) as [->|Hne].
    + by rewrite E.
    + rewrite (Z.pow2_bits_false i n) by lia. apply andb_false_r.
Qed.

Lemma has_0 k : has 0 k = false.
Proof. done. Qed.

Lemma has_mask_lor m a b : has m (Z.lor a b) = has m a || has m b.
Proof. unfold has. rewrite !(Z.land_comm m). apply (has_lor a b m). Qed.

Lemma has_false m k : has m k = false <-> Z.land m k = 0.
Proof. unfold has. by rewrite negb_false_iff, Z.eqb_eq. Qed.

Lemma land_bit_eqb m i : 0 <= i -> (Z.land m (2 ^ i) =? 2 ^ i) = has m (2 ^ i).
Proof.
  intros Hi. rewrite has_pow2 by done. destruct (Z.testbit m i) eqn:E.
  - apply Z.eqb_eq, Z.bits_inj'. intros n Hn. rewrite Z.land_spec.
    destruct (Z.eq_dec n i) as [->|Hne]; [by rewrite E|].
    rewrite (Z.pow2_bits_false i n) by lia. apply andb_false_r.
  - apply Z.eqb_neq. intros F.
    assert (G : Z.testbit (Z.land m (2 ^ i)) i = true) by (rewrite F; by apply Z.pow2_bits_true).
    by rewrite Z.land_spec, E in G.
Qed.

Lemma land_mask_split m a b :
  Z.land a b = 0 -> (Z.land m (Z.lor a b) =? b) = negb (has m a) && (Z.land m b =? b).
Proof.
  intros D. rewrite Z.land_lor_distr_r. unfold has. rewrite negb_involutive.
  destruct (Z.eqb_spec (Z.land m a) 0) as [E|E]; [by rewrite E|].
  apply Z.eqb_neq. intros F. apply E.
  apply (f_equal (Z.land a)) in F. rewrite D, Z.land_lor_distr_r in F.
  apply Z.lor_eq_0_iff in F as [F _]. by rewrite Z.land_comm, <- Z.land_assoc, Z.land_diag in F.
Qed.

Lemma land_eq_submask m c :
  Z.land m c = c <-> forall n, 0 <= n -> Z.testbit c n = true -> Z.testbit m n = true.
Proof.
  split.
  - intros E n Hn Hc. apply (f_equal (fun z => Z.testbit z n)) in E.
    rewrite Z.land_spec, Hc, andb_true_r in E. done.
  - intros H. apply Z.bits_inj'. intros n Hn. rewrite Z.land_spec.
    destruct (Z.testbit c n) eqn:E; [by rewrite (H n Hn E) | apply andb_false_r].
Qed.

Lemma land_mask_all m a b :
  (Z.land m (Z.lor a b) =? Z.lor a b) = (Z.land m a =? a) && (Z.land m b =? b).
Proof.
  apply eq_bool_prop_intro. rewrite andb_True, !Is_true_true, !Z.eqb_eq, !land_eq_submask.
  setoid_rewrite Z.lor_spec. setoid_rewrite orb_true_iff. split.
  - intros H. split; intros n Hn Hb; apply H; auto.
  - intros [Ha Hb] n Hn [Hc|Hc]; auto.
Qed.

(** ** Disjoint bit fields *)

Lemma testbit_small b n i : 0 <= b < 2 ^ n -> n <= i -> Z.testbit b i = false.
Proof.
  intros Hb Hi. destruct (Z.lt_ge_cases n 0) as [Hn|Hn].
  - rewrite Z.pow_neg_r in Hb by lia. lia.
  - rewrite <- (Z.mod_small b (2 ^ n)) by lia. apply Z.mod_pow2_bits_high. lia.
Qed.

Lemma land_shiftl_small a b n : 0 <= n -> 0 <= b < 2 ^ n -> Z.land (Z.shiftl a n) b = 0.
Proof.
  intros Hn Hb. apply Z.bits_inj'. intros i Hi.
  rewrite Z.land_spec, Z.bits_0, Z.shiftl_spec by lia.
  destruct (Z.lt_ge_cases i n).
  - by rewrite Z.testbit_neg_r by lia.
  - rewrite (testbit_small b n i) by lia. apply andb_false_r.
Qed.

Lemma shiftl_lor_add a b n : 0 <= n -> 0 <= b < 2 ^ n -> Z.lor (Z.shiftl a n) b = a * 2 ^ n + b.
Proof.
  intros Hn Hb. rewrite <- (Z.shiftl_mul_pow2 a n) by lia.
  rewrite Z.add_nocarry_lxor by (by apply land_shiftl_small).
  symmetry. apply Z.lxor_lor. by apply land_shiftl_small.
Qed.

(** ** Running to an end

    [wp m Q E s]: from [s], [m] never panics; it returns a value and a state that
    satisfy [Q], or fails in a state that satisfies [E]. *)

Definition wp {S A} (m : M S A) (Q : A -> S -> Prop) (E : S -> Prop) (s : S) : Prop :=
  match m s with
  | (Ok a, s') => Q a s'
  | (Err _, s') => E s'
  | (Panic, _) => False
  end.

Section Wp.
Context {S : Type}.

Lemma wp_bind {A B} (m : M S A) (k : A -> M S B) Q E s :
  wp m (fun a => wp (k a) Q E) E s -> wp (mbnd m k) Q E s.
Proof. unfold wp, mbnd. by destruct (m s) as [[a|e|] s']. Qed.

Lemma wp_ret {A} (a : A) Q (E : S -> Prop) s : Q a s -> wp (mret a) Q E s.
Proof. done. Qed.

Lemma wp_get Q (E : S -> Prop) s : Q s s -> wp mget Q E s.
Proof. done. Qed.

Lemma wp_put f Q (E : S -> Prop) s : Q tt (f s) -> wp (mput f) Q E s.
Proof. done. Qed.

Lemma wp_err {A} e (Q : A -> S -> Prop) (E : S -> Prop) s : E s -> wp (mlift (Err e)) Q E s.
Proof. done. Qed.

(** What is known of a run that ended well. *)
Lemma wp_ok {A} (m : M S A) Q E s a s' : wp m Q E s -> m s = (Ok a, s') -> Q a s'.
Proof. unfold wp. intros H E1. by rewrite E1 in H. Qed.

Lemma wp_impl {A} (m : M S A) (Q Q' : A -> S -> Prop) (E E' : S -> Prop) s :
  wp m Q E s -> (forall a s', Q a s' -> Q' a s') -> (forall s', E s' -> E' s') -> wp m Q' E' s.
Proof. unfold wp. destruct (m s) as [[a|e|] s']; auto. Qed.
End Wp.

(** One structural step of such a proof. *)
Ltac wp_step :=
  lazymatch goal with
  | |- wp (mbnd _ _) _ _ _ => apply wp_bind
  | |- wp (mret _) _ _ _ => apply wp_ret
  | |- wp mget _ _ _ => apply wp_get
  | |- wp (mput _) _ _ _ => apply wp_put
  | |- wp (mlift (Err _)) _ _ _ => apply wp_err
  end; cbv beta.

(** ** Proof automation

    [zdiv] is [lia] with divisions and remainders by constants; [mexec] exposes
    the binds of a monadic program and [case_goal] splits on the first undecided
    condition or oracle answer of the goal. *)

Ltac zdiv := Z.div_mod_to_equations; lia.

Ltac mexec :=
  unfold early, returning, fall_through, mbnd, mret, mlift, mget, mput, rbind in *;
  cbn beta iota zeta match in *.

Ltac case_goal :=
  match goal with
  | |- context [match ?x with _ => _ end] =>
      match x with
      | context [match _ with _ => _ end] => fail 1
      | _ => destruct x eqn:?
      end
  end.
