(* ===== verification/Xid.v ===== *)
(** * Transaction identifiers: [types_core/src/xact.rs]

    32-bit transaction ids compared modulo 2^32, and the 64-bit full ids they
    abbreviate. *)

From S2P Require Import Prelude.

Definition InvalidTransactionId : Z := 0.
Definition BootstrapTransactionId : Z := 1.
Definition FrozenTransactionId : Z := 2.
Definition FirstNormalTransactionId : Z := 3.
Definition MaxTransactionId : Z := 0xFFFFFFFF.
Definition InvalidXLogRecPtr : Z := 0.

Definition TRANSACTION_STATUS_IN_PROGRESS : Z := 0.
Definition TRANSACTION_STATUS_COMMITTED : Z := 1.
Definition TRANSACTION_STATUS_ABORTED : Z := 2.
Definition TRANSACTION_STATUS_SUB_COMMITTED : Z := 3.

Definition TransactionIdIsValid (xid : Z) : bool := negb (xid =? InvalidTransactionId).
Definition TransactionIdIsNormal (xid : Z) : bool := FirstNormalTransactionId <=? xid.
Definition TransactionIdEquals (id1 id2 : Z) : bool := id1 =? id2.

(** [id1.wrapping_sub(id2) as i32] *)
Definition xid_diff (id1 id2 : Z) : Z := as_i32 (wrap32 (id1 - id2)).

Definition TransactionIdPrecedes (id1 id2 : Z) : bool :=
  if negb (TransactionIdIsNormal id1) || negb (TransactionIdIsNormal id2)
  then id1 <? id2
  else xid_diff id1 id2 <? 0.

Definition TransactionIdPrecedesOrEquals (id1 id2 : Z) : bool :=
  if negb (TransactionIdIsNormal id1) || negb (TransactionIdIsNormal id2)
  then id1 <=? id2
  else xid_diff id1 id2 <=? 0.

Definition TransactionIdFollows (id1 id2 : Z) : bool :=
  if negb (TransactionIdIsNormal id1) || negb (TransactionIdIsNormal id2)
  then id1 >? id2
  else xid_diff id1 id2 >? 0.

Definition TransactionIdFollowsOrEquals (id1 id2 : Z) : bool :=
  if negb (TransactionIdIsNormal id1) || negb (TransactionIdIsNormal id2)
  then id1 >=? id2
  else xid_diff id1 id2 >=? 0.

Definition MultiXactIdPrecedes (multi1 multi2 : Z) : bool := xid_diff multi1 multi2 <? 0.
Definition MultiXactIdPrecedesOrEquals (multi1 multi2 : Z) : bool :=
  xid_diff multi1 multi2 <=? 0.

(** [FullTransactionId]: epoch in the high 32 bits, xid in the low 32. *)
Module FullTransactionId.

Definition from_epoch_and_xid (epoch xid : Z) : Z := Z.lor (Z.shiftl epoch 32) xid.
Definition epoch (value : Z) : Z := wrap32 (Z.shiftr value 32).
Definition xid (value : Z) : Z := wrap32 value.
Definition is_valid (value : Z) : bool := negb (xid value =? InvalidTransactionId).
Definition is_normal (value : Z) : bool := TransactionIdIsNormal (xid value).
Definition precedes (value other : Z) : bool := value <? other.
Definition precedes_or_equals (value other : Z) : bool := value <=? other.

End FullTransactionId.

(** ** The signed distance *)

Lemma xid_diff_range a b : - 2 ^ 31 <= xid_diff a b < 2 ^ 31.
Proof.
  unfold xid_diff, as_i32. pose proof (wrap32_u32 (a - b)) as H. unfold is_u32 in H.
  destruct (Z.ltb_spec (wrap32 (a - b)) (2 ^ 31)); lia.
Qed.

Lemma xid_diff_spec a b : exists k, xid_diff a b = a - b + k * 2 ^ 32.
Proof.
  unfold xid_diff, as_i32, wrap32.
  pose proof (Z.div_mod (a - b) (2 ^ 32) ltac:(lia)) as E.
  destruct (_ <? _); [exists (- ((a - b) / 2 ^ 32)) | exists (- ((a - b) / 2 ^ 32) - 1)]; lia.
Qed.

(** The distance of two ids is the distance of any two numbers they abbreviate
    that are less than 2^31 apart. *)
Lemma xid_diff_close f g :
  - 2 ^ 31 <= f - g < 2 ^ 31 -> xid_diff (wrap32 f) (wrap32 g) = f - g.
Proof.
  intros H. destruct (xid_diff_spec (wrap32 f) (wrap32 g)) as [k Hk].
  pose proof (xid_diff_range (wrap32 f) (wrap32 g)) as Hr.
  unfold wrap32 in *.
  pose proof (Z.div_mod f (2 ^ 32) ltac:(lia)). pose proof (Z.div_mod g (2 ^ 32) ltac:(lia)).
  lia.
Qed.

Lemma xid_diff_opp a b :
  xid_diff a b <> - 2 ^ 31 -> xid_diff b a = - xid_diff a b.
Proof.
  intros H. destruct (xid_diff_spec a b) as [k Hk]. destruct (xid_diff_spec b a) as [k' Hk'].
  pose proof (xid_diff_range a b). pose proof (xid_diff_range b a). lia.
Qed.

Lemma xid_diff_zero a b : is_u32 a -> is_u32 b -> xid_diff a b = 0 <-> a = b.
Proof.
  unfold is_u32. intros Ha Hb. destruct (xid_diff_spec a b) as [k Hk]. split; intros E.
  - lia.
  - subst b. pose proof (xid_diff_range a a). lia.
Qed.

Lemma normal_true x : TransactionIdIsNormal x = true <-> 3 <= x.
Proof. unfold TransactionIdIsNormal, FirstNormalTransactionId. apply Z.leb_le. Qed.

Lemma normal_false x : TransactionIdIsNormal x = false <-> x < 3.
Proof. unfold TransactionIdIsNormal, FirstNormalTransactionId. apply Z.leb_gt. Qed.

(** Reduce a comparison of ids to the arithmetic behind it. *)
Ltac xid_cmp :=
  unfold TransactionIdPrecedes, TransactionIdPrecedesOrEquals, TransactionIdFollows,
    TransactionIdFollowsOrEquals, TransactionIdEquals in *;
  repeat match goal with
  | |- context [TransactionIdIsNormal ?x] =>
      let E := fresh "N" in destruct (TransactionIdIsNormal x) eqn:E;
      [apply normal_true in E | apply normal_false in E]
  | H : context [TransactionIdIsNormal ?x] |- _ =>
      let E := fresh "N" in destruct (TransactionIdIsNormal x) eqn:E;
      [apply normal_true in E | apply normal_false in E]
  end; cbn [negb orb] in *.

Lemma precedes_irrefl x : is_u32 x -> TransactionIdPrecedes x x = false.
Proof.
  intros Hx. assert (E : xid_diff x x = 0) by (by apply xid_diff_zero).
  xid_cmp; lia.
Qed.

Lemma precedes_not_normal x y :
  TransactionIdIsNormal x = false -> TransactionIdPrecedes x y = (x <? y).
Proof. intros H. unfold TransactionIdPrecedes. by rewrite H. Qed.

Lemma follows_or_equals_negb x y :
  TransactionIdFollowsOrEquals x y = negb (TransactionIdPrecedes x y).
Proof. xid_cmp; lia. Qed.

(** Inside a window of 2^31 the 32-bit comparison decides the 64-bit order. *)
Lemma precedes_full f g :
  FullTransactionId.is_normal f = true -> FullTransactionId.is_normal g = true ->
  Z.abs (f - g) < 2 ^ 31 ->
  TransactionIdPrecedes (FullTransactionId.xid f) (FullTransactionId.xid g) = (f <? g).
Proof.
  unfold FullTransactionId.is_normal, FullTransactionId.xid. intros Hf Hg Hd.
  pose proof (xid_diff_close f g ltac:(lia)) as E. unfold TransactionIdPrecedes.
  rewrite Hf, Hg. cbn [negb orb]. rewrite E. lia.
Qed.

(** C27. Comparing two 32-bit transaction ids modulo 2^32 decides the order of the
    64-bit full ids they abbreviate, whenever both are normal ids and the full ids
    are less than 2^31 apart: the wrap-around of the 32-bit counter is invisible
    to every comparison inside such a window. *)
Theorem precedes_refines_full_order f g :
  FullTransactionId.is_normal f = true ->
  FullTransactionId.is_normal g = true ->
  Z.abs (f - g) < 2 ^ 31 ->
  let a := FullTransactionId.xid f in
  let b := FullTransactionId.xid g in
  TransactionIdPrecedes a b = FullTransactionId.precedes f g /\
  TransactionIdPrecedesOrEquals a b = FullTransactionId.precedes_or_equals f g /\
  TransactionIdFollows a b = FullTransactionId.precedes g f /\
  TransactionIdFollowsOrEquals a b = FullTransactionId.precedes_or_equals g f /\
  TransactionIdEquals a b = (f =? g).
Proof.
  unfold FullTransactionId.is_normal, FullTransactionId.xid, FullTransactionId.precedes,
    FullTransactionId.precedes_or_equals.
  intros Hf Hg Hd. pose proof (xid_diff_close f g ltac:(lia)) as E.
  assert (Z0 : wrap32 f = wrap32 g <-> f = g).
  { rewrite <- (xid_diff_zero (wrap32 f)) by apply wrap32_u32. lia. }
  unfold TransactionIdPrecedes, TransactionIdPrecedesOrEquals, TransactionIdFollows,
    TransactionIdFollowsOrEquals, TransactionIdEquals.
  rewrite Hf, Hg. cbn [negb orb]. rewrite E. lia.
Qed.

Lemma precedes_refines_full_order_witness :
  TransactionIdPrecedes (FullTransactionId.xid (2 ^ 32 - 5)) (FullTransactionId.xid (2 ^ 32 + 7))
  = FullTransactionId.precedes (2 ^ 32 - 5) (2 ^ 32 + 7).
Proof.
  exact (proj1 (precedes_refines_full_order (2 ^ 32 - 5) (2 ^ 32 + 7) eq_refl eq_refl eq_refl)).
Defined.

(** On arbitrary 32-bit ids the four comparisons are consistent with each
    other, any two ids are comparable, and two ids precede one another both ways
    exactly when they are normal and 2^31 apart: the only break of antisymmetry. *)
Lemma comparisons_consistent a b :
  is_u32 a -> is_u32 b ->
  TransactionIdPrecedesOrEquals a b = TransactionIdPrecedes a b || TransactionIdEquals a b /\
  TransactionIdFollows a b = negb (TransactionIdPrecedesOrEquals a b) /\
  TransactionIdFollowsOrEquals a b = negb (TransactionIdPrecedes a b) /\
  (TransactionIdPrecedes a b || TransactionIdPrecedes b a || TransactionIdEquals a b = true) /\
  (TransactionIdPrecedes a b && TransactionIdPrecedes b a = true <->
   TransactionIdIsNormal a = true /\ TransactionIdIsNormal b = true /\ Z.abs (a - b) = 2 ^ 31).
Proof.
  intros Ha Hb. pose proof (xid_diff_zero a b Ha Hb) as E0.
  pose proof (xid_diff_spec a b) as [k Hk]. pose proof (xid_diff_spec b a) as [k' Hk'].
  pose proof (xid_diff_range a b). pose proof (xid_diff_range b a).
  unfold is_u32 in *. xid_cmp; repeat split; try lia.
Qed.

