(* ===== verification/ItemPtr.v ===== *)
(** * Item pointers: [types_tuple/src/itemptr.rs]

    A TID names a tuple by block and line-pointer number; the block number is
    stored as two 16-bit halves. *)

From S2P Require Import Prelude.

Definition InvalidBlockNumber : Z := 0xFFFFFFFF.
Definition InvalidOffsetNumber : Z := 0.
Definition FirstOffsetNumber : Z := 1.
Definition BLCKSZ : Z := 8192.
Definition MaxOffsetNumber : Z := BLCKSZ / 4.
Definition SpecTokenOffsetNumber : Z := 0xfffe.
Definition MovedPartitionsOffsetNumber : Z := 0xfffd.
Definition MovedPartitionsBlockNumber : Z := InvalidBlockNumber.

Definition OffsetNumberIsValid (offsetNumber : Z) : bool :=
  negb (offsetNumber =? InvalidOffsetNumber) && (offsetNumber <=? MaxOffsetNumber).

Record BlockIdData := { bi_hi : Z; bi_lo : Z }.

(** [(blockNumber >> 16) as u16], [(blockNumber & 0xffff) as u16] *)
Definition BlockIdSet (blockNumber : Z) : BlockIdData :=
  {| bi_hi := Z.shiftr blockNumber 16 mod 2 ^ 16;
     bi_lo := Z.land blockNumber 0xffff mod 2 ^ 16 |}.

Definition BlockIdGetBlockNumber (blockId : BlockIdData) : Z :=
  Z.lor (Z.shiftl (bi_hi blockId) 16) (bi_lo blockId).

Record ItemPointerData := { ip_blkid : BlockIdData; ip_posid : Z }.

(** [ItemPointerData::new] and [ItemPointerSet] *)
Definition ItemPointerSet (blockNumber offNum : Z) : ItemPointerData :=
  {| ip_blkid := BlockIdSet blockNumber; ip_posid := offNum |}.

Definition ItemPointerIsValid (pointer : ItemPointerData) : bool :=
  negb (ip_posid pointer =? 0).

Definition ItemPointerGetBlockNumber (pointer : ItemPointerData) : Z :=
  BlockIdGetBlockNumber (ip_blkid pointer).

Definition ItemPointerGetOffsetNumber (pointer : ItemPointerData) : Z := ip_posid pointer.

Definition ItemPointerIndicatesMovedPartitions (pointer : ItemPointerData) : bool :=
  (ItemPointerGetOffsetNumber pointer =? MovedPartitionsOffsetNumber)
  && (ItemPointerGetBlockNumber pointer =? MovedPartitionsBlockNumber).

Definition ItemPointerEquals (pointer1 pointer2 : ItemPointerData) : bool :=
  (ItemPointerGetBlockNumber pointer1 =? ItemPointerGetBlockNumber pointer2)
  && (ItemPointerGetOffsetNumber pointer1 =? ItemPointerGetOffsetNumber pointer2).

(** The [u64] word is below 2^48, so the final [as i64] keeps it. *)
Definition itemptr_encode (itemptr : ItemPointerData) : Z :=
  Z.lor (Z.shiftl (ItemPointerGetBlockNumber itemptr) 16) (ItemPointerGetOffsetNumber itemptr).

Definition itemptr_decode (encoded : Z) : ItemPointerData :=
  ItemPointerSet (wrap32 (Z.shiftr encoded 16)) (Z.land encoded 0xffff mod 2 ^ 16).

Definition ItemPointerCompare (arg1 arg2 : ItemPointerData) : Z :=
  let b1 := ItemPointerGetBlockNumber arg1 in
  let b2 := ItemPointerGetBlockNumber arg2 in
  if b1 <? b2 then -1
  else if b1 >? b2 then 1
  else if ItemPointerGetOffsetNumber arg1 <? ItemPointerGetOffsetNumber arg2 then -1
  else if ItemPointerGetOffsetNumber arg1 >? ItemPointerGetOffsetNumber arg2 then 1
  else 0.

Definition ItemPointerInc (pointer : ItemPointerData) : ItemPointerData :=
  let blk := ItemPointerGetBlockNumber pointer in
  let off := ItemPointerGetOffsetNumber pointer in
  if off =? 0xffff then
    if negb (blk =? InvalidBlockNumber)
    then ItemPointerSet (blk + 1) 0
    else ItemPointerSet blk off
  else ItemPointerSet blk (off + 1).

Definition ItemPointerDec (pointer : ItemPointerData) : ItemPointerData :=
  let blk := ItemPointerGetBlockNumber pointer in
  let off := ItemPointerGetOffsetNumber pointer in
  if off =? 0 then
    if negb (blk =? 0)
    then ItemPointerSet (blk - 1) 0xffff
    else ItemPointerSet blk off
  else ItemPointerSet blk (off - 1).

(** ** Well-formed pointers: every field within its machine width. *)

Definition blockid_wf (b : BlockIdData) : Prop := is_u16 (bi_hi b) /\ is_u16 (bi_lo b).
Definition itemptr_wf (p : ItemPointerData) : Prop :=
  blockid_wf (ip_blkid p) /\ is_u16 (ip_posid p).

Lemma block_number_val b : blockid_wf b -> BlockIdGetBlockNumber b = bi_hi b * 2 ^ 16 + bi_lo b.
Proof. intros [_ Hlo]. apply shiftl_lor_add; [lia | exact Hlo]. Qed.

Lemma block_number_u32 b : blockid_wf b -> is_u32 (BlockIdGetBlockNumber b).
Proof.
  intros H. rewrite (block_number_val _ H). destruct H. unfold is_u32, is_u16 in *. lia.
Qed.

Lemma BlockIdSet_val n : is_u32 n -> BlockIdSet n = {| bi_hi := n / 2 ^ 16; bi_lo := n mod 2 ^ 16 |}.
Proof.
  unfold is_u32, BlockIdSet. intros H. f_equal.
  - rewrite Z.shiftr_div_pow2 by lia. apply Z.mod_small. zdiv.
  - change 0xffff with (Z.ones 16). rewrite Z.land_ones by lia. apply Z.mod_mod. lia.
Qed.

Lemma BlockIdSet_wf n : is_u32 n -> blockid_wf (BlockIdSet n).
Proof.
  intros H. rewrite (BlockIdSet_val _ H). unfold is_u32 in H.
  split; unfold is_u16; cbn [bi_hi bi_lo]; zdiv.
Qed.

Lemma BlockIdSet_get n : is_u32 n -> BlockIdGetBlockNumber (BlockIdSet n) = n.
Proof.
  intros H. rewrite (block_number_val _ (BlockIdSet_wf n H)), (BlockIdSet_val _ H). cbn [bi_hi bi_lo]. zdiv.
Qed.

Lemma BlockIdGet_set b : blockid_wf b -> BlockIdSet (BlockIdGetBlockNumber b) = b.
Proof.
  intros H. rewrite (BlockIdSet_val _ (block_number_u32 _ H)), (block_number_val _ H).
  destruct b as [hi lo], H as [Hh Hl]. cbn in *. unfold is_u16 in *. f_equal; zdiv.
Qed.

#[export] Hint Resolve block_number_u32 BlockIdSet_wf : pg.

Lemma itemptr_encode_val p :
  itemptr_wf p ->
  itemptr_encode p = ItemPointerGetBlockNumber p * 2 ^ 16 + ItemPointerGetOffsetNumber p.
Proof. intros [_ Ho]. apply shiftl_lor_add; [lia | exact Ho]. Qed.

Lemma ItemPointerSet_wf b o : is_u32 b -> is_u16 o -> itemptr_wf (ItemPointerSet b o).
Proof. intros Hb Ho. split; cbn; auto with pg. Qed.

Lemma itemptr_encode_set b o :
  is_u32 b -> is_u16 o -> itemptr_encode (ItemPointerSet b o) = b * 2 ^ 16 + o.
Proof.
  intros Hb Ho. rewrite itemptr_encode_val by (by apply ItemPointerSet_wf).
  unfold ItemPointerGetBlockNumber. cbn. by rewrite BlockIdSet_get.
Qed.

Lemma itemptr_decode_encode p : itemptr_wf p -> itemptr_decode (itemptr_encode p) = p.
Proof.
  intros H. rewrite (itemptr_encode_val _ H). unfold itemptr_decode, ItemPointerSet.
  destruct p as [b o], H as [Hb Ho]. cbn in *. unfold ItemPointerGetBlockNumber. cbn.
  pose proof (block_number_u32 _ Hb) as Hn. unfold is_u32, is_u16 in *.
  rewrite Z.shiftr_div_pow2, Z.div_add_l, (Z.div_small o) by lia.
  rewrite Z.add_0_r, wrap32_small by (exact Hn). rewrite BlockIdGet_set by done. f_equal.
  change 0xffff with (Z.ones 16). rewrite Z.land_ones by lia. zdiv.
Qed.

(** C32. [itemptr_encode] packs a TID into an int8 without losing anything, and
    the order of the packed integers is exactly [ItemPointerCompare]: block
    number first, then offset. *)
Theorem itemptr_encode_sortable p q :
  itemptr_wf p -> itemptr_wf q ->
  itemptr_decode (itemptr_encode p) = p /\
  0 <= itemptr_encode p < 2 ^ 48 /\
  ItemPointerCompare p q = Z.sgn (itemptr_encode p - itemptr_encode q) /\
  (ItemPointerEquals p q = true <-> p = q).
Proof.
  intros Hp Hq. split; [by apply itemptr_decode_encode|].
  assert (Inj : itemptr_encode p = itemptr_encode q -> p = q).
  { intros E. rewrite <- (itemptr_decode_encode p Hp), E. by apply itemptr_decode_encode. }
  rewrite (itemptr_encode_val p Hp), (itemptr_encode_val q Hq) in *.
  pose proof (block_number_u32 _ (proj1 Hp)) as Bp. pose proof (block_number_u32 _ (proj1 Hq)) as Bq.
  pose proof (proj2 Hp) as Op. pose proof (proj2 Hq) as Oq.
  unfold ItemPointerCompare, ItemPointerEquals, ItemPointerGetOffsetNumber,
    ItemPointerGetBlockNumber, is_u32, is_u16 in *.
  split; [lia|]. split.
  - repeat case_match; lia.
  - split; [intros H; apply Inj; lia | intros ->; lia].
Qed.

Lemma itemptr_encode_sortable_witness :
  ItemPointerCompare (ItemPointerSet 7 3) (ItemPointerSet 9 1) = -1.
Proof.
  refine (proj1 (proj2 (proj2 (itemptr_encode_sortable (ItemPointerSet 7 3) (ItemPointerSet 9 1) _ _))));
    apply ItemPointerSet_wf; unfold is_u32, is_u16; lia.
Defined.

(** [ItemPointerInc] and [ItemPointerDec] step to the adjacent TID in encoded
    order, carrying between offset and block, and saturate at the two ends of the
    TID space. *)
Lemma itemptr_inc_dec p :
  itemptr_wf p ->
  itemptr_wf (ItemPointerInc p) /\ itemptr_wf (ItemPointerDec p) /\
  itemptr_encode (ItemPointerInc p) = Z.min (itemptr_encode p + 1) (2 ^ 48 - 1) /\
  itemptr_encode (ItemPointerDec p) = Z.max (itemptr_encode p - 1) 0.
Proof.
  intros Hp. rewrite (itemptr_encode_val p Hp).
  pose proof (block_number_u32 _ (proj1 Hp)) as Bp. pose proof (proj2 Hp) as Op.
  unfold ItemPointerInc, ItemPointerDec.
  change (BlockIdGetBlockNumber (ip_blkid p)) with (ItemPointerGetBlockNumber p) in *.
  change (ip_posid p) with (ItemPointerGetOffsetNumber p) in *.
  unfold InvalidBlockNumber, is_u32, is_u16 in *.
  repeat case_match; (split; [apply ItemPointerSet_wf; unfold is_u32, is_u16; lia|]);
    (split; [apply ItemPointerSet_wf; unfold is_u32, is_u16; lia|]);
    rewrite !itemptr_encode_set by (unfold is_u32, is_u16; lia); lia.
Qed.

