(* ===== verification/HeapTuple.v ===== *)
(** * Heap tuple headers: [types_tuple/src/htup.rs]

    The 23-byte header every stored row carries: who inserted it, who deleted or
    locked it, and the infomask word in which readers cache what they learned
    about those transactions (the hint bits). *)

From S2P Require Import Prelude Xid ItemPtr.

Definition HEAP_XMAX_KEYSHR_LOCK : Z := 0x0010.
Definition HEAP_COMBOCID : Z := 0x0020.
Definition HEAP_XMAX_EXCL_LOCK : Z := 0x0040.
Definition HEAP_XMAX_LOCK_ONLY : Z := 0x0080.
Definition HEAP_XMAX_SHR_LOCK : Z := Z.lor HEAP_XMAX_EXCL_LOCK HEAP_XMAX_KEYSHR_LOCK.
Definition HEAP_LOCK_MASK : Z :=
  Z.lor (Z.lor HEAP_XMAX_SHR_LOCK HEAP_XMAX_EXCL_LOCK) HEAP_XMAX_KEYSHR_LOCK.
Definition HEAP_XMIN_COMMITTED : Z := 0x0100.
Definition HEAP_XMIN_INVALID : Z := 0x0200.
Definition HEAP_XMIN_FROZEN : Z := Z.lor HEAP_XMIN_COMMITTED HEAP_XMIN_INVALID.
Definition HEAP_XMAX_COMMITTED : Z := 0x0400.
Definition HEAP_XMAX_INVALID : Z := 0x0800.
Definition HEAP_XMAX_IS_MULTI : Z := 0x1000.
Definition HEAP_UPDATED : Z := 0x2000.
Definition HEAP_MOVED_OFF : Z := 0x4000.
Definition HEAP_MOVED_IN : Z := 0x8000.
Definition HEAP_MOVED : Z := Z.lor HEAP_MOVED_OFF HEAP_MOVED_IN.

Definition HEAP_XMAX_IS_LOCKED_ONLY (infomask : Z) : bool :=
  has infomask HEAP_XMAX_LOCK_ONLY
  || (Z.land infomask (Z.lor HEAP_XMAX_IS_MULTI HEAP_LOCK_MASK) =? HEAP_XMAX_EXCL_LOCK).

Definition HEAP_LOCKED_UPGRADED (infomask : Z) : bool :=
  has infomask HEAP_XMAX_IS_MULTI
  && has infomask HEAP_XMAX_LOCK_ONLY
  && negb (has infomask (Z.lor HEAP_XMAX_EXCL_LOCK HEAP_XMAX_KEYSHR_LOCK)).

(** The [t_heap] arm of the header union; [t_field3] is the command id or, for a
    tuple moved by an old VACUUM FULL, the moving transaction. *)
Record HeapTupleFields := { t_xmin : Z; t_xmax : Z; t_field3 : Z }.

Record HeapTupleHeaderData := {
  t_choice : HeapTupleFields;
  t_ctid : ItemPointerData;
  t_infomask2 : Z;
  t_infomask : Z;
  t_hoff : Z
}.

Definition xmin_raw (t : HeapTupleHeaderData) : Z := t_xmin (t_choice t).
Definition xmax_raw (t : HeapTupleHeaderData) : Z := t_xmax (t_choice t).
Definition raw_command_id (t : HeapTupleHeaderData) : Z := t_field3 (t_choice t).

Definition xmin_committed (t : HeapTupleHeaderData) : bool :=
  has (t_infomask t) HEAP_XMIN_COMMITTED.
Definition xmin_invalid (t : HeapTupleHeaderData) : bool :=
  Z.land (t_infomask t) (Z.lor HEAP_XMIN_COMMITTED HEAP_XMIN_INVALID) =? HEAP_XMIN_INVALID.
Definition xmin_frozen (t : HeapTupleHeaderData) : bool :=
  Z.land (t_infomask t) HEAP_XMIN_FROZEN =? HEAP_XMIN_FROZEN.

Definition xmin (t : HeapTupleHeaderData) : Z :=
  if xmin_frozen t then FrozenTransactionId else xmin_raw t.

Definition xvac (t : HeapTupleHeaderData) : Z :=
  if has (t_infomask t) HEAP_MOVED then t_field3 (t_choice t) else InvalidTransactionId.

Definition is_speculative (t : HeapTupleHeaderData) : bool :=
  ItemPointerGetOffsetNumber (t_ctid t) =? SpecTokenOffsetNumber.
Definition speculative_token (t : HeapTupleHeaderData) : Z :=
  ItemPointerGetBlockNumber (t_ctid t).

(** [self.t_infomask |= mask] *)
Definition or_infomask (mask : Z) (t : HeapTupleHeaderData) : HeapTupleHeaderData :=
  {| t_choice := t_choice t; t_ctid := t_ctid t; t_infomask2 := t_infomask2 t;
     t_infomask := Z.lor (t_infomask t) mask; t_hoff := t_hoff t |}.

(** [set_cmin] and [set_cmax] store a command id and maintain [HEAP_COMBOCID]. *)
Definition set_command_id (cid : Z) (iscombo : bool) (t : HeapTupleHeaderData)
  : HeapTupleHeaderData :=
  {| t_choice := {| t_xmin := t_xmin (t_choice t); t_xmax := t_xmax (t_choice t);
                    t_field3 := cid |};
     t_ctid := t_ctid t; t_infomask2 := t_infomask2 t;
     t_infomask := if iscombo then Z.lor (t_infomask t) HEAP_COMBOCID
                   else Z.ldiff (t_infomask t) HEAP_COMBOCID;
     t_hoff := t_hoff t |}.

Definition set_cmin (cid : Z) (t : HeapTupleHeaderData) : HeapTupleHeaderData :=
  set_command_id cid false t.
Definition set_cmax (cid : Z) (iscombo : bool) (t : HeapTupleHeaderData)
  : HeapTupleHeaderData := set_command_id cid iscombo t.

(** [HeapTupleData]: the header behind its own TID. *)
Record HeapTupleData := { t_self : ItemPointerData; t_data : HeapTupleHeaderData }.

(** ** Multixacts: [types_storage/src/multixact.rs] *)

Inductive MultiXactStatus :=
| MultiXactStatusForKeyShare
| MultiXactStatusForShare
| MultiXactStatusForNoKeyUpdate
| MultiXactStatusForUpdate
| MultiXactStatusNoKeyUpdate
| MultiXactStatusUpdate.

Definition ISUPDATE_from_mxstatus (status : MultiXactStatus) : bool :=
  match status with
  | MultiXactStatusNoKeyUpdate | MultiXactStatusUpdate => true
  | _ => false
  end.

Record MultiXactMember := { mxid : Z; mxstatus : MultiXactStatus }.

(** The scan of [MultiXactIdGetUpdateXid]: the first member that updates. *)
Fixpoint update_member (members : list MultiXactMember) : Z :=
  match members with
  | [] => InvalidTransactionId
  | m :: rest => if ISUPDATE_from_mxstatus (mxstatus m) then mxid m else update_member rest
  end.

(** ** The infomask bits one by one *)

Lemma xmin_invalid_bits t :
  xmin_invalid t = has (t_infomask t) HEAP_XMIN_INVALID
                   && negb (has (t_infomask t) HEAP_XMIN_COMMITTED).
Proof.
  unfold xmin_invalid. rewrite land_mask_split by reflexivity.
  change HEAP_XMIN_INVALID with (2 ^ 9). rewrite land_bit_eqb by lia. apply andb_comm.
Qed.

Lemma xmin_frozen_bits t :
  xmin_frozen t = has (t_infomask t) HEAP_XMIN_COMMITTED
                  && has (t_infomask t) HEAP_XMIN_INVALID.
Proof.
  unfold xmin_frozen, HEAP_XMIN_FROZEN. rewrite land_mask_all.
  change HEAP_XMIN_COMMITTED with (2 ^ 8). change HEAP_XMIN_INVALID with (2 ^ 9).
  by rewrite !land_bit_eqb by lia.
Qed.

Lemma locked_only_bits m :
  HEAP_XMAX_IS_LOCKED_ONLY m =
  has m HEAP_XMAX_LOCK_ONLY
  || (negb (has m HEAP_XMAX_IS_MULTI || has m HEAP_XMAX_KEYSHR_LOCK) && has m HEAP_XMAX_EXCL_LOCK).
Proof.
  unfold HEAP_XMAX_IS_LOCKED_ONLY. f_equal.
  change (Z.lor HEAP_XMAX_IS_MULTI HEAP_LOCK_MASK)
    with (Z.lor (Z.lor HEAP_XMAX_IS_MULTI HEAP_XMAX_KEYSHR_LOCK) (2 ^ 6)).
  change HEAP_XMAX_EXCL_LOCK with (2 ^ 6).
  rewrite land_mask_split by reflexivity. by rewrite land_bit_eqb, has_mask_lor by lia.
Qed.

(** What a reader may set.  The six tests below are all the visibility routines
    make of the infomask, and a hint bit moves only its own. *)

Lemma infomask_or mask t : t_infomask (or_infomask mask t) = Z.lor (t_infomask t) mask.
Proof. done. Qed.

(** A hint word: any of the four hint bits, nothing else. *)
Definition hint_mask (mask : Z) : Prop :=
  mask = HEAP_XMIN_COMMITTED \/ mask = HEAP_XMIN_INVALID
  \/ mask = HEAP_XMAX_COMMITTED \/ mask = HEAP_XMAX_INVALID.

Lemma locked_only_hint mask m :
  hint_mask mask -> HEAP_XMAX_IS_LOCKED_ONLY (Z.lor m mask) = HEAP_XMAX_IS_LOCKED_ONLY m.
Proof.
  intros H. rewrite !locked_only_bits, !has_lor.
  destruct H as [->|[->|[->| ->]]]; cbn; by rewrite !orb_false_r.
Qed.

Lemma locked_upgraded_hint mask m :
  hint_mask mask -> HEAP_LOCKED_UPGRADED (Z.lor m mask) = HEAP_LOCKED_UPGRADED m.
Proof.
  intros H. unfold HEAP_LOCKED_UPGRADED. rewrite !has_lor.
  destruct H as [->|[->|[->| ->]]]; cbn; by rewrite !orb_false_r.
Qed.

Lemma has_hint mask m k :
  hint_mask mask ->
  has (HEAP_XMIN_COMMITTED + HEAP_XMIN_INVALID + HEAP_XMAX_COMMITTED + HEAP_XMAX_INVALID) k = false ->
  has (Z.lor m mask) k = has m k.
Proof.
  intros H Hk. rewrite has_lor. enough (has mask k = false) as -> by apply orb_false_r.
  change (HEAP_XMIN_COMMITTED + HEAP_XMIN_INVALID + HEAP_XMAX_COMMITTED + HEAP_XMAX_INVALID)
    with (Z.lor (Z.lor HEAP_XMIN_COMMITTED HEAP_XMIN_INVALID) (Z.lor HEAP_XMAX_COMMITTED HEAP_XMAX_INVALID)) in Hk.
  rewrite !has_lor, !orb_false_iff in Hk. destruct Hk as [[? ?] [? ?]].
  by destruct H as [->|[->|[->| ->]]].
Qed.
