(* ===== verification/ComboCid.v ===== *)
(** * Combo command ids: [utils/time/combocid/src/lib.rs]

    A tuple inserted and deleted by the same transaction needs both its cmin and
    its cmax, but the header has one command-id field.  The field then holds a
    combo id, an index into the backend's private table of (cmin, cmax) pairs. *)

From S2P Require Import Prelude Xid ItemPtr HeapTuple.

Record ComboCidState := {
  comboCids : list (Z * Z);
  comboHash : gmap (Z * Z) Z
}.

Definition ComboCidState_default : ComboCidState := {| comboCids := []; comboHash := ∅ |}.

(** [s.comboCids[combocid as usize].0]: the index panics out of range. *)
Definition GetRealCmin (combocid : Z) (s : ComboCidState) : result Z :=
  match comboCids s !! Z.to_nat combocid with
  | Some (cmin, _) => Ok cmin
  | None => Panic
  end.

Definition GetRealCmax (combocid : Z) (s : ComboCidState) : result Z :=
  match comboCids s !! Z.to_nat combocid with
  | Some (_, cmax) => Ok cmax
  | None => Panic
  end.

Definition HeapTupleHeaderGetCmin (tup : HeapTupleHeaderData) (s : ComboCidState) : result Z :=
  let cid := raw_command_id tup in
  if has (t_infomask tup) HEAP_COMBOCID then GetRealCmin cid s else Ok cid.

Definition HeapTupleHeaderGetCmax (tup : HeapTupleHeaderData) (s : ComboCidState) : result Z :=
  let cid := raw_command_id tup in
  if has (t_infomask tup) HEAP_COMBOCID then GetRealCmax cid s else Ok cid.

Definition GetComboCommandId (cmin cmax : Z) (s : ComboCidState) : Z * ComboCidState :=
  let next := wrap32 (Z.of_nat (length (comboCids s))) in
  match comboHash s !! (cmin, cmax) with
  | Some e => (e, s)
  | None =>
      (next, {| comboCids := comboCids s ++ [(cmin, cmax)];
                comboHash := <[(cmin, cmax) := next]> (comboHash s) |})
  end.

(** The cmax to store into a tuple being deleted, and whether it is a combo id. *)
Definition HeapTupleHeaderAdjustCmax (IsCurrent : Z -> bool)
    (tup : HeapTupleHeaderData) (cmax : Z) (s : ComboCidState)
  : result (Z * bool) * ComboCidState :=
  if negb (xmin_committed tup) && IsCurrent (xmin_raw tup) then
    match HeapTupleHeaderGetCmin tup s with
    | Ok cmin => let '(c, s') := GetComboCommandId cmin cmax s in (Ok (c, true), s')
    | Err e => (Err e, s)
    | Panic => (Panic, s)
    end
  else (Ok (cmax, false), s).

Definition AtEOXact_ComboCid (s : ComboCidState) : ComboCidState :=
  {| comboCids := []; comboHash := ∅ |}.

Definition SerializeComboCIDState (s : ComboCidState) : list (Z * Z) := comboCids s.

(** [s.comboHash.extend(state.iter().enumerate().map(..))]: later entries replace
    earlier ones. *)
Fixpoint extend_hash (i : nat) (state : list (Z * Z)) (h : gmap (Z * Z) Z) : gmap (Z * Z) Z :=
  match state with
  | [] => h
  | key :: rest => extend_hash (S i) rest (<[key := wrap32 (Z.of_nat i)]> h)
  end.

Definition RestoreComboCIDState (state : list (Z * Z)) (s : ComboCidState) : ComboCidState :=
  {| comboCids := comboCids s ++ state;
     comboHash := extend_hash 0 state (comboHash s) |}.

(** ** The table invariant: the hash is the inverse of the array. *)

Definition combo_wf (s : ComboCidState) : Prop :=
  Z.of_nat (length (comboCids s)) < 2 ^ 32 /\
  NoDup (comboCids s) /\
  (forall key c, comboHash s !! key = Some c <->
     exists i, c = Z.of_nat i /\ comboCids s !! i = Some key).

Lemma combo_default_wf : combo_wf ComboCidState_default.
Proof.
  split; [cbn; lia|]. split; [constructor|]. intros key c. split.
  - cbn [ComboCidState_default comboHash]. by rewrite lookup_empty.
  - by intros (i & _ & H).
Qed.

Lemma combo_index s i : combo_wf s -> (i <= length (comboCids s))%nat -> wrap32 (Z.of_nat i) = Z.of_nat i.
Proof. intros (H & _) Hi. apply wrap32_small. unfold is_u32. lia. Qed.

Lemma combo_lookup_unique s i j key :
  combo_wf s -> comboCids s !! i = Some key -> comboCids s !! j = Some key -> i = j.
Proof. intros (_ & N & _). apply NoDup_lookup, N. Qed.

(** A freshly allocated combo id names its pair, and old ids keep theirs. *)
Lemma GetCombo_lookup cmin cmax s c s' :
  combo_wf s -> GetComboCommandId cmin cmax s = (c, s') ->
  0 <= c /\ comboCids s' !! Z.to_nat c = Some (cmin, cmax) /\
  (comboCids s) `prefix_of` (comboCids s').
Proof.
  intros W. unfold GetComboCommandId. destruct (comboHash s !! (cmin, cmax)) as [e|] eqn:E; intros [= <- <-].
  - apply W in E as (i & -> & Hi). rewrite Nat2Z.id. repeat split; [lia | done | done].
  - rewrite (combo_index s) by (done || lia). cbn. rewrite Nat2Z.id.
    rewrite lookup_app_r by lia. rewrite Nat.sub_diag. repeat split; [lia|].
    by eexists.
Qed.

Lemma GetCombo_wf cmin cmax s c s' :
  combo_wf s -> Z.of_nat (length (comboCids s)) + 1 < 2 ^ 32 ->
  GetComboCommandId cmin cmax s = (c, s') -> combo_wf s'.
Proof.
  intros W Hlen. unfold GetComboCommandId.
  destruct (comboHash s !! (cmin, cmax)) as [e|] eqn:E; intros [= <- <-]; [done|].
  rewrite (combo_index s) by (done || lia). destruct W as (L & N & I).
  assert (Fresh : (cmin, cmax) ∉ comboCids s).
  { intros H. apply list_elem_of_lookup in H as [i Hi].
    assert (comboHash s !! (cmin, cmax) = Some (Z.of_nat i)) by (apply I; eauto). congruence. }
  split; [cbn; rewrite length_app; cbn; lia|]. split.
  - cbn. apply list.NoDup_app. split; [done|]. split; [|apply list.NoDup_singleton].
    intros x Hx ->%list_elem_of_singleton. done.
  - intros key d. cbn. rewrite lookup_insert. case_decide as D.
    + subst key. split.
      * intros [= <-]. exists (length (comboCids s)). split; [done|].
        by rewrite lookup_app_r, Nat.sub_diag by lia.
      * intros (i & -> & Hi). f_equal. f_equal.
        apply lookup_app_Some in Hi as [Hi|[Hi1 Hi2]].
        -- by apply list_elem_of_lookup_2 in Hi.
        -- apply list_lookup_singleton_Some in Hi2. lia.
    + rewrite I. split; intros (i & -> & Hi); exists i; (split; [done|]).
      * by apply lookup_app_l_Some.
      * apply lookup_app_Some in Hi as [Hi|[Hi1 Hi2]]; [done|].
        apply list_lookup_singleton_Some in Hi2 as [_ Hk]. congruence.
Qed.

(** C30. Deleting a tuple the current transaction inserted: storing the command id
    [HeapTupleHeaderAdjustCmax] returns keeps both command ids readable from the
    one header field, the old cmin and the new cmax, and does not disturb any
    combo id handed out before. *)
Theorem adjust_cmax_roundtrip IsCurrent tup cmin cmax s c s' :
  combo_wf s -> Z.of_nat (length (comboCids s)) + 1 < 2 ^ 32 ->
  xmin_committed tup = false -> IsCurrent (xmin_raw tup) = true ->
  HeapTupleHeaderGetCmin tup s = Ok cmin ->
  HeapTupleHeaderAdjustCmax IsCurrent tup cmax s = (Ok c, s') ->
  let tup' := set_cmax (fst c) (snd c) tup in
  HeapTupleHeaderGetCmin tup' s' = Ok cmin /\
  HeapTupleHeaderGetCmax tup' s' = Ok cmax /\
  combo_wf s' /\
  (forall d, GetRealCmin d s <> Panic ->
     GetRealCmin d s' = GetRealCmin d s /\ GetRealCmax d s' = GetRealCmax d s).
Proof.
  intros W Hl Hc Hcur Hmin. unfold HeapTupleHeaderAdjustCmax. rewrite Hc, Hcur, Hmin. cbn [negb andb].
  destruct (GetComboCommandId cmin cmax s) as [d s1] eqn:G. intros [= <- <-].
  destruct (GetCombo_lookup _ _ _ _ _ W G) as (Hd & Hlk & Hpre). cbn zeta.
  unfold HeapTupleHeaderGetCmin, HeapTupleHeaderGetCmax, GetRealCmin, GetRealCmax. cbn.
  rewrite has_lor, orb_true_r, Hlk. split; [done|]. split; [done|].
  split; [by eapply GetCombo_wf|]. intros d0 Hd0.
  destruct (comboCids s !! Z.to_nat d0) as [[a b]|] eqn:E; [|done].
  by rewrite (prefix_lookup_Some _ _ _ _ E Hpre).
Qed.

Definition combo_example : HeapTupleHeaderData :=
  {| t_choice := {| t_xmin := 700; t_xmax := 0; t_field3 := 4 |};
     t_ctid := ItemPointerSet 0 1; t_infomask2 := 0; t_infomask := HEAP_XMAX_INVALID; t_hoff := 24 |}.

Lemma adjust_cmax_roundtrip_witness :
  HeapTupleHeaderGetCmin (set_cmax 0 true combo_example)
    (snd (GetComboCommandId 4 9 ComboCidState_default)) = Ok 4.
Proof.
  refine (proj1 (adjust_cmax_roundtrip (fun x => x =? 700) combo_example 4 9
                   ComboCidState_default (0, true) _ combo_default_wf _ _ _ _ _)); reflexivity.
Defined.

(** ** Handing the table to a parallel worker *)

Lemma extend_hash_lookup state i h key c :
  NoDup state -> (forall k, k ∈ state -> h !! k = None) ->
  extend_hash i state h !! key = Some c <->
  h !! key = Some c \/ exists j, c = wrap32 (Z.of_nat (i + j)) /\ state !! j = Some key.
Proof.
  revert i h. induction state as [|k state IH]; intros i h N F; cbn.
  { split; [by left | by intros [H|(j & _ & H)]]. }
  apply list.NoDup_cons in N as [Nk N]. rewrite IH; [|done|].
  - rewrite lookup_insert. split.
    + intros [H|(j & -> & Hj)].
      * case_decide as D; [|by left]. subst k. injection H as <-. right. exists 0%nat.
        split; [do 2 f_equal; lia | done].
      * right. exists (S j). split; [do 2 f_equal; lia | done].
    + intros [H|([|j] & -> & Hj)].
      * case_decide as D; [|by left]. subst k. rewrite F in H by set_solver. done.
      * left. cbn in Hj. injection Hj as ->. rewrite decide_True by done. do 3 f_equal. lia.
      * right. exists j. split; [do 2 f_equal; lia | done].
  - intros k' Hk'. rewrite lookup_insert_ne by set_solver. apply F. set_solver.
Qed.

(** C31. A parallel worker that restores the serialized table into its empty state
    has exactly the leader's table: the same array and the same hash. *)
Theorem combo_serialize_restore s :
  combo_wf s ->
  RestoreComboCIDState (SerializeComboCIDState s) ComboCidState_default = s.
Proof.
  intros W. destruct s as [cs h]. unfold RestoreComboCIDState, SerializeComboCIDState. cbn.
  f_equal. destruct W as (L & N & I). cbn in L, N, I. apply map_eq. intros key.
  apply option_eq. intros c. rewrite extend_hash_lookup by (done || (intros; apply lookup_empty)).
  rewrite I, lookup_empty. split.
  - intros [H|(j & -> & Hj)]; [done|]. exists j. split; [|done].
    apply wrap32_small. apply lookup_lt_Some in Hj. unfold is_u32. lia.
  - intros (j & -> & Hj). right. exists j. split; [|done].
    symmetry. apply wrap32_small. apply lookup_lt_Some in Hj. unfold is_u32. lia.
Qed.

Lemma combo_serialize_restore_witness :
  RestoreComboCIDState [(4, 9)] ComboCidState_default = snd (GetComboCommandId 4 9 ComboCidState_default).
Proof.
  refine (combo_serialize_restore (snd (GetComboCommandId 4 9 ComboCidState_default)) _).
  refine (GetCombo_wf 4 9 ComboCidState_default 0 _ combo_default_wf _ _); reflexivity.
Defined.
