(* ===== verification/Snapshot.v ===== *)
(** * Snapshots: [types/snapshot/src/lib.rs] and [XidInMVCCSnapshot] of
    [utils/time/snapmgr/src/lib.rs]

    A snapshot records which transactions were running when it was taken; the
    per-page memo caches, for a handful of xids, what a scan already asked. *)

From S2P Require Import Prelude Xid.

Inductive HTSV_Result :=
| HEAPTUPLE_DEAD
| HEAPTUPLE_LIVE
| HEAPTUPLE_RECENTLY_DEAD
| HEAPTUPLE_INSERT_IN_PROGRESS
| HEAPTUPLE_DELETE_IN_PROGRESS.

#[export] Instance HTSV_Result_eq_dec : EqDecision HTSV_Result.
Proof. solve_decision. Defined.

Inductive SnapshotType :=
| SNAPSHOT_MVCC
| SNAPSHOT_SELF
| SNAPSHOT_ANY
| SNAPSHOT_TOAST
| SNAPSHOT_DIRTY
| SNAPSHOT_HISTORIC_MVCC
| SNAPSHOT_NON_VACUUMABLE.

(** The fields the visibility code reads or writes; reference counts and the
    arena-ownership fields play no part in any answer. *)
Record SnapshotData := {
  snapshot_type : SnapshotType;
  s_xmin : Z;
  s_xmax : Z;
  xip : list Z;
  xcnt : Z;
  subxip : list Z;
  subxcnt : Z;
  suboverflowed : bool;
  takenDuringRecovery : bool;
  curcid : Z;
  speculativeToken : Z;
  vistest : Z
}.

(** [SnapshotDirty] hands its findings back through three fields. *)
Definition set_dirty (x_min x_max token : Z) (s : SnapshotData) : SnapshotData :=
  {| snapshot_type := snapshot_type s; s_xmin := x_min; s_xmax := x_max;
     xip := xip s; xcnt := xcnt s; subxip := subxip s; subxcnt := subxcnt s;
     suboverflowed := suboverflowed s; takenDuringRecovery := takenDuringRecovery s;
     curcid := curcid s; speculativeToken := token; vistest := vistest s |}.

(** [SnapshotData::sentinel]: type-only, rest zeroed. *)
Definition sentinel (ty : SnapshotType) : SnapshotData :=
  {| snapshot_type := ty; s_xmin := 0; s_xmax := 0; xip := []; xcnt := 0; subxip := [];
     subxcnt := 0; suboverflowed := false; takenDuringRecovery := false; curcid := 0;
     speculativeToken := 0; vistest := 0 |}.

(** [&l[..n]]: a slice beyond the end panics. *)
Definition slice_to (l : list Z) (n : Z) : result (list Z) :=
  if n <=? Z.of_nat (length l) then Ok (take (Z.to_nat n) l) else Panic.

Definition contains (l : list Z) (x : Z) : bool := existsb (Z.eqb x) l.

Section XidInMVCCSnapshot.
(** [SubTransGetTopmostTransaction], reached through [subtrans_seams]. *)
Variable SubTransGetTopmostTransaction : Z -> result Z.

Definition XidInMVCCSnapshot (xid : Z) (snapshot : SnapshotData) : result bool :=
  if TransactionIdPrecedes xid (s_xmin snapshot) then Ok false
  else if TransactionIdFollowsOrEquals xid (s_xmax snapshot) then Ok true
  else if negb (takenDuringRecovery snapshot) then
    if negb (suboverflowed snapshot) then
      let? sub := slice_to (subxip snapshot) (Z.max (subxcnt snapshot) 0) in
      if contains sub xid then Ok true
      else
        let? xs := slice_to (xip snapshot) (xcnt snapshot) in
        if contains xs xid then Ok true else Ok false
    else
      let? xid := SubTransGetTopmostTransaction xid in
      if TransactionIdPrecedes xid (s_xmin snapshot) then Ok false
      else
        let? xs := slice_to (xip snapshot) (xcnt snapshot) in
        if contains xs xid then Ok true else Ok false
  else
    let in_subxip (xid : Z) : result bool :=
      let? sub := slice_to (subxip snapshot) (Z.max (subxcnt snapshot) 0) in
      if contains sub xid then Ok true else Ok false in
    if suboverflowed snapshot then
      let? xid := SubTransGetTopmostTransaction xid in
      if TransactionIdPrecedes xid (s_xmin snapshot) then Ok false else in_subxip xid
    else in_subxip xid.
End XidInMVCCSnapshot.

(** ** The page memo *)

Definition XVM_SNAP_VALID : Z := 1.
Definition XVM_IN_SNAPSHOT : Z := 2.
Definition XVM_COMMIT_VALID : Z := 4.
Definition XVM_COMMITTED : Z := 8.
Definition XVM_HINT_OK : Z := 16.

Module XidVisMemo.

Definition N : nat := 4.

Record t := { xids : list Z; flags : list Z; next : nat }.

Definition new : t := {| xids := replicate N 0; flags := replicate N 0; next := 0 |}.

(** The loop [for i in 0..N]: the first slot whose key is [xid]. *)
Fixpoint find_slot (xid : Z) (ks : list Z) : option nat :=
  match ks with
  | [] => None
  | k :: rest => if k =? xid then Some 0%nat else S <$> find_slot xid rest
  end.

Definition get (xid : Z) (m : t) : Z :=
  match find_slot xid (xids m) with
  | Some i => nth i (flags m) 0
  | None => 0
  end.

Definition merge (xid fl : Z) (m : t) : t :=
  match find_slot xid (xids m) with
  | Some i =>
      {| xids := xids m; flags := <[i := Z.lor (nth i (flags m) 0) fl]> (flags m);
         next := next m |}
  | None =>
      let slot := next m in
      {| xids := <[slot := xid]> (xids m); flags := <[slot := fl]> (flags m);
         next := (slot + 1) mod N |}
  end.

End XidVisMemo.

(** ** Slices and membership *)

Lemma contains_spec l x : contains l x = true <-> x ∈ l.
Proof.
  unfold contains. rewrite existsb_exists. setoid_rewrite Z.eqb_eq.
  split; [intros (y & H & ->); by apply list_elem_of_In | intros H; exists x; split; [by apply list_elem_of_In | done]].
Qed.

(** ** The memo as a finite map

    Every slot's flags hold of the slot's key; [get] reads a slot, [merge] ors
    into a matching slot or recycles one.  Whatever property [P xid flag] each
    single flag bit carries, it survives. *)

Section MemoFacts.
Import XidVisMemo.
Variable P : Z -> Z -> Prop.

(** All flags cached for [xid] are sound. *)
Hypothesis P_zero : forall x, P x 0.
Hypothesis P_lor : forall x f g, P x f -> P x g -> P x (Z.lor f g).

Definition memo_wf (m : t) : Prop :=
  length (xids m) = N /\ length (flags m) = N /\ (next m < N)%nat /\
  forall i k f, xids m !! i = Some k -> flags m !! i = Some f -> P k f.

Lemma memo_new_wf : memo_wf new.
Proof.
  repeat split; [cbn; unfold N; lia|]. intros i k f _ Hf.
  apply lookup_replicate in Hf as [-> _]. apply P_zero.
Qed.

Lemma find_slot_Some xid ks i : find_slot xid ks = Some i -> ks !! i = Some xid.
Proof.
  revert i. induction ks as [|k ks IH]; intros i; cbn; [done|].
  destruct (Z.eqb_spec k xid) as [->|_]; [by intros [= <-]|].
  destruct (find_slot xid ks) as [j|]; cbn; [|done]. intros [= <-]. by apply IH.
Qed.

Lemma slot_flags m i k :
  memo_wf m -> xids m !! i = Some k -> flags m !! i = Some (nth i (flags m) 0).
Proof.
  intros (L1 & L2 & _) H. apply lookup_lt_Some in H.
  destruct (lookup_lt_is_Some_2 (flags m) i) as [f Hf]; [lia|].
  rewrite Hf. f_equal. symmetry. by apply nth_lookup_Some.
Qed.

Lemma memo_get m xid : memo_wf m -> P xid (get xid m).
Proof.
  intros W. unfold get. destruct (find_slot xid (xids m)) as [i|] eqn:E; [|apply P_zero].
  apply find_slot_Some in E. pose proof (slot_flags m i xid W E) as F.
  destruct W as (_ & _ & _ & W). by apply (W i).
Qed.

Lemma memo_merge m xid f : memo_wf m -> P xid f -> memo_wf (merge xid f m).
Proof.
  intros W Pf. unfold merge. destruct (find_slot xid (xids m)) as [i|] eqn:E.
  - apply find_slot_Some in E. pose proof (slot_flags m i xid W E) as F.
    destruct W as (L1 & L2 & Hn & W). repeat split; cbn; [done | by rewrite length_insert | done |].
    intros j k g Hk Hg. destruct (decide (i = j)) as [<-|D].
    + rewrite list_lookup_insert_eq in Hg by (apply lookup_lt_Some in F; done).
      injection Hg as <-. assert (k = xid) as -> by congruence. apply P_lor; [|done]. by apply (W i).
    + rewrite list_lookup_insert_ne in Hg by done. by apply (W j).
  - destruct W as (L1 & L2 & Hn & W).
    repeat split; cbn; [by rewrite length_insert | by rewrite length_insert | |].
    { unfold N. lia. }
    intros j k g Hk Hg. destruct (decide (next m = j)) as [<-|D].
    + rewrite list_lookup_insert_eq in Hk, Hg by lia. by simplify_eq.
    + rewrite list_lookup_insert_ne in Hk, Hg by done. by apply (W j).
Qed.
End MemoFacts.

