(* ===== verification/Visibility.v ===== *)
(** * Tuple visibility: [access/heap/heapam_visibility/src/lib.rs]

    Which version of a row a transaction sees, may update, or vacuum may remove.
    The routines read the tuple header, ask other components about transactions
    and cache certain answers as hint bits in the header, on the shared page. *)

From S2P Require Import Prelude Xid ItemPtr HeapTuple ComboCid Snapshot.

(** ** What the rest of the server answers

    One value of this record is the state of the transaction system as one
    backend sees it during one call. *)
Record XactEnv := {
  (** [xact::TransactionIdIsCurrentTransactionId] *)
  IsCurrent : Z -> bool;
  (** [procarray::TransactionIdIsInProgress] *)
  InProgress : Z -> result bool;
  (** [transam::TransactionIdDidCommit] *)
  DidCommit : Z -> result bool;
  (** [multixact::GetMultiXactIdMembers]; [None] is its -1, no members *)
  GetMembers : Z -> bool -> result (option (list MultiXactMember));
  (** the backend's combo command ids *)
  combo : ComboCidState;
  (** [subtrans::SubTransGetTopmostTransaction] *)
  TopXid : Z -> result Z;
  (** [transam::TransactionIdGetCommitLSN], [xlog_needs_flush] *)
  CommitLSN : Z -> result Z;
  NeedsFlush : Z -> bool;
  (** [bufmgr]: permanence, page LSN, [mark_buffer_dirty_hint] *)
  IsPermanent : Z -> bool;
  BufferLSN : Z -> Z;
  MarkDirtyHint : Z -> result unit;
  (** [global_vis_test_is_removable_xid] *)
  IsRemovable : Z -> Z -> result bool;
  (** [reorderbuffer::ResolveCminCmaxDuringDecoding] *)
  ResolveCids : HeapTupleHeaderData -> Z -> result (option (Z * Z))
}.

(** The state a visibility routine mutates: the header on the page, the buffers
    it reported dirty, and the caller's out-parameter. *)
Record VState (R : Type) := { v_tup : HeapTupleHeaderData; v_dirty : list Z; v_res : R }.
Arguments v_tup {R} _.
Arguments v_dirty {R} _.
Arguments v_res {R} _.

Inductive TM_Result :=
| TM_Ok | TM_Invisible | TM_SelfModified | TM_Updated | TM_Deleted | TM_BeingModified
| TM_WouldBlock.

#[export] Instance TM_Result_eq_dec : EqDecision TM_Result.
Proof. solve_decision. Defined.

Definition with_tup {R} (f : HeapTupleHeaderData -> HeapTupleHeaderData) (s : VState R) : VState R :=
  {| v_tup := f (v_tup s); v_dirty := v_dirty s; v_res := v_res s |}.
Definition with_dirty {R} (buffer : Z) (s : VState R) : VState R :=
  {| v_tup := v_tup s; v_dirty := buffer :: v_dirty s; v_res := v_res s |}.
Definition with_res {R} (f : R -> R) (s : VState R) : VState R :=
  {| v_tup := v_tup s; v_dirty := v_dirty s; v_res := f (v_res s) |}.

Section Visibility.
Variable E : XactEnv.

Definition XidInSnapshot (xid : Z) (snapshot : SnapshotData) : result bool :=
  XidInMVCCSnapshot (TopXid E) xid snapshot.

(** *** Multixacts *)

Fixpoint any_in_progress (members : list MultiXactMember) : result bool :=
  match members with
  | [] => Ok false
  | m :: rest =>
      let? p := InProgress E (mxid m) in
      if p then Ok true else any_in_progress rest
  end.

Definition MultiXactIdIsRunning (multi : Z) (is_lock_only : bool) : result bool :=
  let? members := GetMembers E multi is_lock_only in
  match members with
  | None => Ok false
  | Some ms => if existsb (fun m => IsCurrent E (mxid m)) ms then Ok true else any_in_progress ms
  end.

Definition MultiXactIdGetUpdateXid (xmax : Z) : result Z :=
  let? members := GetMembers E xmax false in
  match members with
  | None => Ok InvalidTransactionId
  | Some ms => Ok (update_member ms)
  end.

Definition HeapTupleGetUpdateXid (hdr : HeapTupleHeaderData) : result Z :=
  MultiXactIdGetUpdateXid (xmax_raw hdr).

Definition HeapTupleHeaderGetUpdateXid (hdr : HeapTupleHeaderData) : result Z :=
  let infomask := t_infomask hdr in
  if negb (has infomask HEAP_XMAX_INVALID) && has infomask HEAP_XMAX_IS_MULTI
     && negb (HEAP_XMAX_IS_LOCKED_ONLY infomask)
  then MultiXactIdGetUpdateXid (xmax_raw hdr)
  else Ok (xmax_raw hdr).

Definition GetCmin (t : HeapTupleHeaderData) : result Z := HeapTupleHeaderGetCmin t (combo E).
Definition GetCmax (t : HeapTupleHeaderData) : result Z := HeapTupleHeaderGetCmax t (combo E).

Definition HeapTupleHeaderIsOnlyLocked (tuple : HeapTupleHeaderData) : result bool :=
  if has (t_infomask tuple) HEAP_XMAX_INVALID then Ok true
  else if has (t_infomask tuple) HEAP_XMAX_LOCK_ONLY then Ok true
  else if negb (TransactionIdIsValid (xmax_raw tuple)) then Ok true
  else if negb (has (t_infomask tuple) HEAP_XMAX_IS_MULTI) then Ok false
  else
    let? xmax := HeapTupleGetUpdateXid tuple in
    if IsCurrent E xmax then Ok false
    else
      let? p := InProgress E xmax in
      if p then Ok false
      else
        let? c := DidCommit E xmax in
        if c then Ok false else Ok true.

(** *** Hint bits *)

(** May the commit of [xid] be recorded on the page now?  Not while its commit
    record could still be lost in a crash that the page survives. *)
Definition hint_allowed (buffer xid : Z) : result bool :=
  if TransactionIdIsValid xid then
    let? commit_lsn := CommitLSN E xid in
    Ok (negb (IsPermanent E buffer && NeedsFlush E commit_lsn
              && (BufferLSN E buffer <? commit_lsn)))
  else Ok true.

Section State.
Context {R : Type}.

Definition tup : M (VState R) HeapTupleHeaderData := fun s => (Ok (v_tup s), s).

(** [tuple.t_infomask |= infomask; mark_buffer_dirty_hint(buffer, true)] *)
Definition write_hint (buffer infomask : Z) : M (VState R) unit :=
  mput (with_tup (or_infomask infomask)) ;!
  (let! _ := mlift (MarkDirtyHint E buffer) in mput (with_dirty buffer)).

Definition SetHintBits (buffer infomask xid : Z) : M (VState R) unit :=
  let! ok := mlift (hint_allowed buffer xid) in
  if ok then write_hint buffer infomask else mret tt.

Definition HeapTupleSetHintBits (buffer infomask xid : Z) : M (VState R) unit :=
  SetHintBits buffer infomask xid.

(** The [HEAP_MOVED_OFF] and [HEAP_MOVED_IN] arms that Self, Toast, Update and
    Dirty share; [dead] is what each returns for a tuple that is gone. *)
Definition moved_off {A} (buffer : Z) (dead : A) : M (VState R) (option A) :=
  let! t := tup in
  let x := xvac t in
  if IsCurrent E x then returning dead
  else
    let! p := mlift (InProgress E x) in
    if negb p then
      let! c := mlift (DidCommit E x) in
      if c then SetHintBits buffer HEAP_XMIN_INVALID InvalidTransactionId ;! returning dead
      else SetHintBits buffer HEAP_XMIN_COMMITTED InvalidTransactionId ;! fall_through
    else fall_through.

Definition moved_in {A} (buffer : Z) (dead : A) : M (VState R) (option A) :=
  let! t := tup in
  let x := xvac t in
  if negb (IsCurrent E x) then
    let! p := mlift (InProgress E x) in
    if p then returning dead
    else
      let! c := mlift (DidCommit E x) in
      if c then SetHintBits buffer HEAP_XMIN_COMMITTED InvalidTransactionId ;! fall_through
      else SetHintBits buffer HEAP_XMIN_INVALID InvalidTransactionId ;! returning dead
  else fall_through.

(** The tail of the inserter check: a finished inserter either committed, and
    control falls through, or the tuple never existed for anyone else. *)
Definition xmin_finished {A} (buffer : Z) (dead : A) : M (VState R) (option A) :=
  let! t := tup in
  let! c := mlift (DidCommit E (xmin_raw t)) in
  if c then SetHintBits buffer HEAP_XMIN_COMMITTED (xmin_raw t) ;! fall_through
  else SetHintBits buffer HEAP_XMIN_INVALID InvalidTransactionId ;! returning dead.

(** *** [HeapTupleSatisfiesSelf] *)

Definition self_xmin (buffer : Z) : M (VState R) (option bool) :=
  let! t := tup in
  if negb (xmin_committed t) then
    if xmin_invalid t then returning false
    else if has (t_infomask t) HEAP_MOVED_OFF then moved_off buffer false
    else if has (t_infomask t) HEAP_MOVED_IN then moved_in buffer false
    else if IsCurrent E (xmin_raw t) then
      if has (t_infomask t) HEAP_XMAX_INVALID then returning true
      else if HEAP_XMAX_IS_LOCKED_ONLY (t_infomask t) then returning true
      else if has (t_infomask t) HEAP_XMAX_IS_MULTI then
        let! xmax := mlift (HeapTupleGetUpdateXid t) in
        returning (negb (IsCurrent E xmax))
      else if negb (IsCurrent E (xmax_raw t)) then
        SetHintBits buffer HEAP_XMAX_INVALID InvalidTransactionId ;! returning true
      else returning false
    else
      let! p := mlift (InProgress E (xmin_raw t)) in
      if p then returning false else xmin_finished buffer false
  else fall_through.

Definition self_xmax (buffer : Z) : M (VState R) bool :=
  let! t := tup in
  if has (t_infomask t) HEAP_XMAX_INVALID then mret true
  else if has (t_infomask t) HEAP_XMAX_COMMITTED then
    mret (HEAP_XMAX_IS_LOCKED_ONLY (t_infomask t))
  else if has (t_infomask t) HEAP_XMAX_IS_MULTI then
    if HEAP_XMAX_IS_LOCKED_ONLY (t_infomask t) then mret true
    else
      let! xmax := mlift (HeapTupleGetUpdateXid t) in
      if IsCurrent E xmax then mret false
      else
        let! p := mlift (InProgress E xmax) in
        if p then mret true
        else
          let! c := mlift (DidCommit E xmax) in
          if c then mret false else mret true
  else if IsCurrent E (xmax_raw t) then mret (HEAP_XMAX_IS_LOCKED_ONLY (t_infomask t))
  else
    let! p := mlift (InProgress E (xmax_raw t)) in
    if p then mret true
    else
      let! c := mlift (DidCommit E (xmax_raw t)) in
      if negb c then SetHintBits buffer HEAP_XMAX_INVALID InvalidTransactionId ;! mret true
      else if HEAP_XMAX_IS_LOCKED_ONLY (t_infomask t) then
        SetHintBits buffer HEAP_XMAX_INVALID InvalidTransactionId ;! mret true
      else SetHintBits buffer HEAP_XMAX_COMMITTED (xmax_raw t) ;! mret false.

Definition HeapTupleSatisfiesSelf (buffer : Z) : M (VState R) bool :=
  early (self_xmin buffer) (self_xmax buffer).

Definition HeapTupleSatisfiesAny (buffer : Z) : M (VState R) bool := mret true.

(** *** [HeapTupleSatisfiesToast] *)

Definition HeapTupleSatisfiesToast (buffer : Z) : M (VState R) bool :=
  early
    (let! t := tup in
     if negb (xmin_committed t) then
       if xmin_invalid t then returning false
       else if has (t_infomask t) HEAP_MOVED_OFF then moved_off buffer false
       else if has (t_infomask t) HEAP_MOVED_IN then moved_in buffer false
       else if negb (TransactionIdIsValid (xmin t)) then returning false
       else fall_through
     else fall_through)
    (mret true).

(** *** [HeapTupleSatisfiesUpdate] *)

Definition update_own (curcid buffer : Z) (t : HeapTupleHeaderData)
  : M (VState R) (option TM_Result) :=
  let! cmin := mlift (GetCmin t) in
  if cmin >=? curcid then returning TM_Invisible
  else if has (t_infomask t) HEAP_XMAX_INVALID then returning TM_Ok
  else if HEAP_XMAX_IS_LOCKED_ONLY (t_infomask t) then
    let xmax := xmax_raw t in
    if has (t_infomask t) HEAP_XMAX_IS_MULTI then
      let! r := mlift (MultiXactIdIsRunning xmax true) in
      if r then returning TM_BeingModified else returning TM_Ok
    else
      let! p := mlift (InProgress E xmax) in
      if negb p then returning TM_Ok else returning TM_BeingModified
  else if has (t_infomask t) HEAP_XMAX_IS_MULTI then
    let! xmax := mlift (HeapTupleGetUpdateXid t) in
    if negb (IsCurrent E xmax) then
      let! r := mlift (MultiXactIdIsRunning (xmax_raw t) false) in
      if r then returning TM_BeingModified else returning TM_Ok
    else
      let! cmax := mlift (GetCmax t) in
      if cmax >=? curcid then returning TM_SelfModified else returning TM_Invisible
  else if negb (IsCurrent E (xmax_raw t)) then
    SetHintBits buffer HEAP_XMAX_INVALID InvalidTransactionId ;! returning TM_Ok
  else
    let! cmax := mlift (GetCmax t) in
    if cmax >=? curcid then returning TM_SelfModified else returning TM_Invisible.

Definition update_xmin (curcid buffer : Z) : M (VState R) (option TM_Result) :=
  let! t := tup in
  if negb (xmin_committed t) then
    if xmin_invalid t then returning TM_Invisible
    else if has (t_infomask t) HEAP_MOVED_OFF then moved_off buffer TM_Invisible
    else if has (t_infomask t) HEAP_MOVED_IN then moved_in buffer TM_Invisible
    else if IsCurrent E (xmin_raw t) then update_own curcid buffer t
    else
      let! p := mlift (InProgress E (xmin_raw t)) in
      if p then returning TM_Invisible else xmin_finished buffer TM_Invisible
  else fall_through.

(** A committed deleter left either an updated version elsewhere or none. *)
Definition updated_or_deleted (t_self : ItemPointerData) (t : HeapTupleHeaderData) : TM_Result :=
  if negb (ItemPointerEquals t_self (t_ctid t)) then TM_Updated else TM_Deleted.

Definition update_xmax_multi (t_self : ItemPointerData) (curcid buffer : Z)
    (t : HeapTupleHeaderData) : M (VState R) TM_Result :=
  if HEAP_LOCKED_UPGRADED (t_infomask t) then mret TM_Ok
  else if HEAP_XMAX_IS_LOCKED_ONLY (t_infomask t) then
    let! r := mlift (MultiXactIdIsRunning (xmax_raw t) true) in
    if r then mret TM_BeingModified
    else SetHintBits buffer HEAP_XMAX_INVALID InvalidTransactionId ;! mret TM_Ok
  else
    let! xmax := mlift (HeapTupleGetUpdateXid t) in
    let! orphan := (if negb (TransactionIdIsValid xmax)
                    then mlift (MultiXactIdIsRunning (xmax_raw t) false)
                    else mret false) in
    if orphan then mret TM_BeingModified
    else if IsCurrent E xmax then
      let! cmax := mlift (GetCmax t) in
      if cmax >=? curcid then mret TM_SelfModified else mret TM_Invisible
    else
      let! r := mlift (MultiXactIdIsRunning (xmax_raw t) false) in
      if r then mret TM_BeingModified
      else
        let! c := mlift (DidCommit E xmax) in
        if c then mret (updated_or_deleted t_self t)
        else
          let! r := mlift (MultiXactIdIsRunning (xmax_raw t) false) in
          if negb r then
            SetHintBits buffer HEAP_XMAX_INVALID InvalidTransactionId ;! mret TM_Ok
          else mret TM_BeingModified.

Definition update_xmax (t_self : ItemPointerData) (curcid buffer : Z) : M (VState R) TM_Result :=
  let! t := tup in
  if has (t_infomask t) HEAP_XMAX_INVALID then mret TM_Ok
  else if has (t_infomask t) HEAP_XMAX_COMMITTED then
    if HEAP_XMAX_IS_LOCKED_ONLY (t_infomask t) then mret TM_Ok
    else mret (updated_or_deleted t_self t)
  else if has (t_infomask t) HEAP_XMAX_IS_MULTI then update_xmax_multi t_self curcid buffer t
  else if IsCurrent E (xmax_raw t) then
    if HEAP_XMAX_IS_LOCKED_ONLY (t_infomask t) then mret TM_BeingModified
    else
      let! cmax := mlift (GetCmax t) in
      if cmax >=? curcid then mret TM_SelfModified else mret TM_Invisible
  else
    let! p := mlift (InProgress E (xmax_raw t)) in
    if p then mret TM_BeingModified
    else
      let! c := mlift (DidCommit E (xmax_raw t)) in
      if negb c then SetHintBits buffer HEAP_XMAX_INVALID InvalidTransactionId ;! mret TM_Ok
      else if HEAP_XMAX_IS_LOCKED_ONLY (t_infomask t) then
        SetHintBits buffer HEAP_XMAX_INVALID InvalidTransactionId ;! mret TM_Ok
      else
        SetHintBits buffer HEAP_XMAX_COMMITTED (xmax_raw t) ;!
        (let! t := tup in mret (updated_or_deleted t_self t)).

Definition HeapTupleSatisfiesUpdate (t_self : ItemPointerData) (curcid buffer : Z)
  : M (VState R) TM_Result :=
  early (update_xmin curcid buffer) (update_xmax t_self curcid buffer).
End State.

(** *** [HeapTupleSatisfiesDirty]: the findings go into the snapshot itself *)

Definition set_out (x_min x_max token : Z) : M (VState SnapshotData) unit :=
  mput (with_res (set_dirty x_min x_max token)).

Definition dirty_xmin (buffer : Z) : M (VState SnapshotData) (option bool) :=
  let! t := tup in
  if negb (xmin_committed t) then
    if xmin_invalid t then returning false
    else if has (t_infomask t) HEAP_MOVED_OFF then moved_off buffer false
    else if has (t_infomask t) HEAP_MOVED_IN then moved_in buffer false
    else if IsCurrent E (xmin_raw t) then
      if has (t_infomask t) HEAP_XMAX_INVALID then returning true
      else if HEAP_XMAX_IS_LOCKED_ONLY (t_infomask t) then returning true
      else if has (t_infomask t) HEAP_XMAX_IS_MULTI then
        let! xmax := mlift (HeapTupleGetUpdateXid t) in
        returning (negb (IsCurrent E xmax))
      else if negb (IsCurrent E (xmax_raw t)) then
        SetHintBits buffer HEAP_XMAX_INVALID InvalidTransactionId ;! returning true
      else returning false
    else
      let! p := mlift (InProgress E (xmin_raw t)) in
      if p then
        set_out (xmin_raw t) InvalidTransactionId
          (if is_speculative t then speculative_token t else 0) ;! returning true
      else xmin_finished buffer false
  else fall_through.

Definition dirty_xmax (buffer : Z) : M (VState SnapshotData) bool :=
  let! t := tup in
  if has (t_infomask t) HEAP_XMAX_INVALID then mret true
  else if has (t_infomask t) HEAP_XMAX_COMMITTED then
    mret (HEAP_XMAX_IS_LOCKED_ONLY (t_infomask t))
  else if has (t_infomask t) HEAP_XMAX_IS_MULTI then
    if HEAP_XMAX_IS_LOCKED_ONLY (t_infomask t) then mret true
    else
      let! xmax := mlift (HeapTupleGetUpdateXid t) in
      if IsCurrent E xmax then mret false
      else
        let! p := mlift (InProgress E xmax) in
        if p then set_out InvalidTransactionId xmax 0 ;! mret true
        else
          let! c := mlift (DidCommit E xmax) in
          if c then mret false else mret true
  else if IsCurrent E (xmax_raw t) then mret (HEAP_XMAX_IS_LOCKED_ONLY (t_infomask t))
  else
    let! p := mlift (InProgress E (xmax_raw t)) in
    if p then
      if negb (HEAP_XMAX_IS_LOCKED_ONLY (t_infomask t)) then
        set_out InvalidTransactionId (xmax_raw t) 0 ;! mret true
      else mret true
    else
      let! c := mlift (DidCommit E (xmax_raw t)) in
      if negb c then SetHintBits buffer HEAP_XMAX_INVALID InvalidTransactionId ;! mret true
      else if HEAP_XMAX_IS_LOCKED_ONLY (t_infomask t) then
        SetHintBits buffer HEAP_XMAX_INVALID InvalidTransactionId ;! mret true
      else SetHintBits buffer HEAP_XMAX_COMMITTED (xmax_raw t) ;! mret false.

Definition HeapTupleSatisfiesDirty (buffer : Z) : M (VState SnapshotData) bool :=
  set_out InvalidTransactionId InvalidTransactionId 0 ;!
  early (dirty_xmin buffer) (dirty_xmax buffer).

(** *** The MVCC check and its two resolver seats *)

Record MvccXidResolve (S : Type) := {
  in_snapshot : Z -> SnapshotData -> M (VState S) bool;
  did_commit : Z -> M (VState S) bool;
  set_hint_bits : Z -> Z -> Z -> M (VState S) unit
}.
Arguments in_snapshot {S} _ _ _.
Arguments did_commit {S} _ _.
Arguments set_hint_bits {S} _ _ _ _.

Definition DirectResolve : MvccXidResolve unit := {|
  in_snapshot := fun xid snapshot => mlift (XidInSnapshot xid snapshot);
  did_commit := fun xid => mlift (DidCommit E xid);
  set_hint_bits := SetHintBits
|}.

Definition memo_get_flags (xid : Z) : M (VState XidVisMemo.t) Z :=
  fun s => (Ok (XidVisMemo.get xid (v_res s)), s).
Definition memo_merge_flags (xid flags : Z) : M (VState XidVisMemo.t) unit :=
  mput (with_res (XidVisMemo.merge xid flags)).

Definition page_in_snapshot (xid : Z) (snapshot : SnapshotData) : M (VState XidVisMemo.t) bool :=
  if TransactionIdPrecedes xid (s_xmin snapshot) then mret false
  else
    let! f := memo_get_flags xid in
    if has f XVM_SNAP_VALID then mret (has f XVM_IN_SNAPSHOT)
    else
      let! r := mlift (XidInSnapshot xid snapshot) in
      memo_merge_flags xid (Z.lor XVM_SNAP_VALID (if r then XVM_IN_SNAPSHOT else 0)) ;! mret r.

Definition page_did_commit (xid : Z) : M (VState XidVisMemo.t) bool :=
  if negb (TransactionIdIsNormal xid) then mlift (DidCommit E xid)
  else
    let! f := memo_get_flags xid in
    if has f XVM_COMMIT_VALID then mret (has f XVM_COMMITTED)
    else
      let! r := mlift (DidCommit E xid) in
      memo_merge_flags xid (Z.lor XVM_COMMIT_VALID (if r then XVM_COMMITTED else 0)) ;! mret r.

Definition page_set_hint_bits (buffer infomask xid : Z) : M (VState XidVisMemo.t) unit :=
  let! f := memo_get_flags xid in
  let! denied :=
    (if TransactionIdIsValid xid && negb (has f XVM_HINT_OK) then
       let! commit_lsn := mlift (CommitLSN E xid) in
       if IsPermanent E buffer && NeedsFlush E commit_lsn
          && (BufferLSN E buffer <? commit_lsn)
       then mret true
       else memo_merge_flags xid XVM_HINT_OK ;! mret false
     else mret false) in
  if denied then mret tt else write_hint buffer infomask.

Definition PageMemoResolve : MvccXidResolve XidVisMemo.t := {|
  in_snapshot := page_in_snapshot;
  did_commit := page_did_commit;
  set_hint_bits := page_set_hint_bits
|}.
End Visibility.

Arguments in_snapshot {S} _ _ _.
Arguments did_commit {S} _ _.
Arguments set_hint_bits {S} _ _ _ _.

Section Mvcc.
Variable E : XactEnv.
Context {S : Type} (r : MvccXidResolve S) (snapshot : SnapshotData) (buffer : Z).

(** A command of our own transaction is visible iff it ran before the scan. *)
Definition mvcc_own (t : HeapTupleHeaderData) : M (VState S) (option bool) :=
  let! cmin := mlift (GetCmin E t) in
  if cmin >=? curcid snapshot then returning false
  else if has (t_infomask t) HEAP_XMAX_INVALID then returning true
  else if HEAP_XMAX_IS_LOCKED_ONLY (t_infomask t) then returning true
  else if has (t_infomask t) HEAP_XMAX_IS_MULTI then
    let! xmax := mlift (HeapTupleGetUpdateXid E t) in
    if negb (IsCurrent E xmax) then returning true
    else
      let! cmax := mlift (GetCmax E t) in
      if cmax >=? curcid snapshot then returning true else returning false
  else if negb (IsCurrent E (xmax_raw t)) then
    set_hint_bits r buffer HEAP_XMAX_INVALID InvalidTransactionId ;! returning true
  else
    let! cmax := mlift (GetCmax E t) in
    if cmax >=? curcid snapshot then returning true else returning false.

Definition mvcc_moved_off (x : Z) : M (VState S) (option bool) :=
  if IsCurrent E x then returning false
  else
    let! i := in_snapshot r x snapshot in
    if negb i then
      let! c := did_commit r x in
      if c then
        set_hint_bits r buffer HEAP_XMIN_INVALID InvalidTransactionId ;! returning false
      else set_hint_bits r buffer HEAP_XMIN_COMMITTED InvalidTransactionId ;! fall_through
    else fall_through.

Definition mvcc_moved_in (x : Z) : M (VState S) (option bool) :=
  if negb (IsCurrent E x) then
    let! i := in_snapshot r x snapshot in
    if i then returning false
    else
      let! c := did_commit r x in
      if c then set_hint_bits r buffer HEAP_XMIN_COMMITTED InvalidTransactionId ;! fall_through
      else set_hint_bits r buffer HEAP_XMIN_INVALID InvalidTransactionId ;! returning false
  else fall_through.

Definition mvcc_xmin : M (VState S) (option bool) :=
  let! t := tup in
  if negb (xmin_committed t) then
    if xmin_invalid t then returning false
    else if has (t_infomask t) HEAP_MOVED_OFF then mvcc_moved_off (xvac t)
    else if has (t_infomask t) HEAP_MOVED_IN then mvcc_moved_in (xvac t)
    else if IsCurrent E (xmin_raw t) then mvcc_own t
    else
      let! i := in_snapshot r (xmin_raw t) snapshot in
      if i then returning false
      else
        let! c := did_commit r (xmin_raw t) in
        if c then set_hint_bits r buffer HEAP_XMIN_COMMITTED (xmin_raw t) ;! fall_through
        else set_hint_bits r buffer HEAP_XMIN_INVALID InvalidTransactionId ;! returning false
  else
    let! i := (if negb (xmin_frozen t) then in_snapshot r (xmin_raw t) snapshot else mret false) in
    if i then returning false else fall_through.

Definition mvcc_xmax : M (VState S) bool :=
  let! t := tup in
  if has (t_infomask t) HEAP_XMAX_INVALID then mret true
  else if HEAP_XMAX_IS_LOCKED_ONLY (t_infomask t) then mret true
  else if has (t_infomask t) HEAP_XMAX_IS_MULTI then
    let! xmax := mlift (HeapTupleGetUpdateXid E t) in
    if IsCurrent E xmax then
      let! cmax := mlift (GetCmax E t) in
      if cmax >=? curcid snapshot then mret true else mret false
    else
      let! i := in_snapshot r xmax snapshot in
      if i then mret true
      else
        let! c := did_commit r xmax in
        if c then mret false else mret true
  else if negb (has (t_infomask t) HEAP_XMAX_COMMITTED) then
    if IsCurrent E (xmax_raw t) then
      let! cmax := mlift (GetCmax E t) in
      if cmax >=? curcid snapshot then mret true else mret false
    else
      let! i := in_snapshot r (xmax_raw t) snapshot in
      if i then mret true
      else
        let! c := did_commit r (xmax_raw t) in
        if negb c then
          set_hint_bits r buffer HEAP_XMAX_INVALID InvalidTransactionId ;! mret true
        else set_hint_bits r buffer HEAP_XMAX_COMMITTED (xmax_raw t) ;! mret false
  else
    let! i := in_snapshot r (xmax_raw t) snapshot in
    if i then mret true else mret false.

Definition satisfies_mvcc_res : M (VState S) bool := early mvcc_xmin mvcc_xmax.
End Mvcc.

Definition HeapTupleSatisfiesMVCC (E : XactEnv) (snapshot : SnapshotData) (buffer : Z)
  : M (VState unit) bool :=
  satisfies_mvcc_res E (DirectResolve E) snapshot buffer.

Definition HeapTupleSatisfiesMVCCPage (E : XactEnv) (snapshot : SnapshotData) (buffer : Z)
  : M (VState XidVisMemo.t) bool :=
  satisfies_mvcc_res E (PageMemoResolve E) snapshot buffer.

Section Vacuum.
Variable E : XactEnv.

(** *** [HeapTupleSatisfiesVacuumHorizon]: the out-parameter is [dead_after] *)

Definition horizon_moved_off (buffer : Z) (x : Z) : M (VState Z) (option HTSV_Result) :=
  if IsCurrent E x then returning HEAPTUPLE_DELETE_IN_PROGRESS
  else
    let! p := mlift (InProgress E x) in
    if p then returning HEAPTUPLE_DELETE_IN_PROGRESS
    else
      let! c := mlift (DidCommit E x) in
      if c then
        SetHintBits E buffer HEAP_XMIN_INVALID InvalidTransactionId ;! returning HEAPTUPLE_DEAD
      else SetHintBits E buffer HEAP_XMIN_COMMITTED InvalidTransactionId ;! fall_through.

Definition horizon_moved_in (buffer : Z) (x : Z) : M (VState Z) (option HTSV_Result) :=
  if IsCurrent E x then returning HEAPTUPLE_INSERT_IN_PROGRESS
  else
    let! p := mlift (InProgress E x) in
    if p then returning HEAPTUPLE_INSERT_IN_PROGRESS
    else
      let! c := mlift (DidCommit E x) in
      if c then SetHintBits E buffer HEAP_XMIN_COMMITTED InvalidTransactionId ;! fall_through
      else
        SetHintBits E buffer HEAP_XMIN_INVALID InvalidTransactionId ;! returning HEAPTUPLE_DEAD.

Definition horizon_own (t : HeapTupleHeaderData) : M (VState Z) (option HTSV_Result) :=
  if has (t_infomask t) HEAP_XMAX_INVALID then returning HEAPTUPLE_INSERT_IN_PROGRESS
  else
    let! only_locked :=
      (if HEAP_XMAX_IS_LOCKED_ONLY (t_infomask t) then mret true
       else mlift (HeapTupleHeaderIsOnlyLocked E t)) in
    if only_locked then returning HEAPTUPLE_INSERT_IN_PROGRESS
    else
      let! x := mlift (HeapTupleHeaderGetUpdateXid E t) in
      if IsCurrent E x then returning HEAPTUPLE_DELETE_IN_PROGRESS
      else returning HEAPTUPLE_INSERT_IN_PROGRESS.

Definition horizon_xmin (buffer : Z) : M (VState Z) (option HTSV_Result) :=
  let! t := tup in
  if negb (xmin_committed t) then
    if xmin_invalid t then returning HEAPTUPLE_DEAD
    else if has (t_infomask t) HEAP_MOVED_OFF then horizon_moved_off buffer (xvac t)
    else if has (t_infomask t) HEAP_MOVED_IN then horizon_moved_in buffer (xvac t)
    else if IsCurrent E (xmin_raw t) then horizon_own t
    else
      let! p := mlift (InProgress E (xmin_raw t)) in
      if p then returning HEAPTUPLE_INSERT_IN_PROGRESS
      else xmin_finished E buffer HEAPTUPLE_DEAD
  else fall_through.

Definition set_dead_after (x : Z) : M (VState Z) unit := mput (with_res (fun _ => x)).

Definition horizon_xmax_body (buffer : Z) (t : HeapTupleHeaderData) : M (VState Z) HTSV_Result :=
  if has (t_infomask t) HEAP_XMAX_INVALID then mret HEAPTUPLE_LIVE
  else if HEAP_XMAX_IS_LOCKED_ONLY (t_infomask t) then
    if negb (has (t_infomask t) HEAP_XMAX_COMMITTED) then
      if has (t_infomask t) HEAP_XMAX_IS_MULTI then
        let! running :=
          (if negb (HEAP_LOCKED_UPGRADED (t_infomask t))
           then mlift (MultiXactIdIsRunning E (xmax_raw t) true)
           else mret false) in
        if running then mret HEAPTUPLE_LIVE
        else SetHintBits E buffer HEAP_XMAX_INVALID InvalidTransactionId ;! mret HEAPTUPLE_LIVE
      else
        let! p := mlift (InProgress E (xmax_raw t)) in
        if p then mret HEAPTUPLE_LIVE
        else SetHintBits E buffer HEAP_XMAX_INVALID InvalidTransactionId ;! mret HEAPTUPLE_LIVE
    else mret HEAPTUPLE_LIVE
  else if has (t_infomask t) HEAP_XMAX_IS_MULTI then
    let! xmax := mlift (HeapTupleGetUpdateXid E t) in
    let! p := mlift (InProgress E xmax) in
    if p then mret HEAPTUPLE_DELETE_IN_PROGRESS
    else
      let! c := mlift (DidCommit E xmax) in
      if c then set_dead_after xmax ;! mret HEAPTUPLE_RECENTLY_DEAD
      else
        let! running := mlift (MultiXactIdIsRunning E (xmax_raw t) false) in
        if negb running then
          SetHintBits E buffer HEAP_XMAX_INVALID InvalidTransactionId ;! mret HEAPTUPLE_LIVE
        else mret HEAPTUPLE_LIVE
  else if negb (has (t_infomask t) HEAP_XMAX_COMMITTED) then
    let! p := mlift (InProgress E (xmax_raw t)) in
    if p then mret HEAPTUPLE_DELETE_IN_PROGRESS
    else
      let! c := mlift (DidCommit E (xmax_raw t)) in
      if c then
        SetHintBits E buffer HEAP_XMAX_COMMITTED (xmax_raw t) ;!
        (set_dead_after (xmax_raw t) ;! mret HEAPTUPLE_RECENTLY_DEAD)
      else SetHintBits E buffer HEAP_XMAX_INVALID InvalidTransactionId ;! mret HEAPTUPLE_LIVE
  else set_dead_after (xmax_raw t) ;! mret HEAPTUPLE_RECENTLY_DEAD.

Definition horizon_xmax (buffer : Z) : M (VState Z) HTSV_Result :=
  let! t := tup in horizon_xmax_body buffer t.

Definition HeapTupleSatisfiesVacuumHorizon (buffer : Z) : M (VState Z) HTSV_Result :=
  set_dead_after InvalidTransactionId ;! early (horizon_xmin buffer) (horizon_xmax buffer).

(** [dead_after] is a local of the caller: it starts invalid and is dropped. *)
Definition HeapTupleSatisfiesVacuum (oldest_xmin buffer : Z) : M (VState Z) HTSV_Result :=
  let! res := HeapTupleSatisfiesVacuumHorizon buffer in
  let! s := mget in
  if bool_decide (res = HEAPTUPLE_RECENTLY_DEAD) then
    if TransactionIdPrecedes (v_res s) oldest_xmin then mret HEAPTUPLE_DEAD else mret res
  else mret res.

Definition HeapTupleSatisfiesNonVacuumable (snapshot : SnapshotData) (buffer : Z)
  : M (VState Z) bool :=
  let! res := HeapTupleSatisfiesVacuumHorizon buffer in
  let! s := mget in
  let! res :=
    (if bool_decide (res = HEAPTUPLE_RECENTLY_DEAD) then
       let! removable := mlift (IsRemovable E (vistest snapshot) (v_res s)) in
       if removable then mret HEAPTUPLE_DEAD else mret res
     else mret res) in
  mret (negb (bool_decide (res = HEAPTUPLE_DEAD))).

Definition HeapTupleIsSurelyDead (tuple : HeapTupleHeaderData) (vt : Z) : result bool :=
  if negb (xmin_committed tuple) then Ok (xmin_invalid tuple)
  else if has (t_infomask tuple) HEAP_XMAX_INVALID then Ok false
  else if HEAP_XMAX_IS_LOCKED_ONLY (t_infomask tuple) then Ok false
  else if has (t_infomask tuple) HEAP_XMAX_IS_MULTI then Ok false
  else if negb (has (t_infomask tuple) HEAP_XMAX_COMMITTED) then Ok false
  else IsRemovable E vt (xmax_raw tuple).

(** *** [HeapTupleSatisfiesHistoricMVCC] *)

(** [slice::binary_search(..).is_ok()]: bisection of a sorted array. *)
Fixpoint bisect (fuel : nat) (l : list Z) (x : Z) (lo hi : nat) : bool :=
  match fuel with
  | O => false
  | S fuel =>
      if (hi <=? lo)%nat then false
      else
        let mid := (lo + (hi - lo) / 2)%nat in
        let v := nth mid l 0 in
        if v =? x then true
        else if v <? x then bisect fuel l x (mid + 1) hi
        else bisect fuel l x lo mid
  end.

Definition TransactionIdInArray (xid : Z) (xs : list Z) : bool :=
  bisect (S (length xs)) xs xid 0 (length xs).

Definition historic_xmin (snapshot : SnapshotData) (sub xs : list Z) (buffer : Z)
    (t : HeapTupleHeaderData) : result bool :=
  if xmin_invalid t then Ok false
  else if TransactionIdInArray (xmin t) sub then
    let? resolved := ResolveCids E t buffer in
    match resolved with
    | None => Ok false
    | Some (cmin, _) => if cmin >=? curcid snapshot then Ok false else Ok true
    end
  else if TransactionIdPrecedes (xmin t) (s_xmin snapshot) then
    if negb (xmin_committed t) then DidCommit E (xmin t) else Ok true
  else if TransactionIdFollowsOrEquals (xmin t) (s_xmax snapshot) then Ok false
  else if TransactionIdInArray (xmin t) xs then Ok true
  else Ok false.

Definition historic_xmax (snapshot : SnapshotData) (sub xs : list Z) (buffer : Z)
    (t : HeapTupleHeaderData) : result bool :=
  if has (t_infomask t) HEAP_XMAX_INVALID then Ok true
  else if HEAP_XMAX_IS_LOCKED_ONLY (t_infomask t) then Ok true
  else
    let? xmax := (if has (t_infomask t) HEAP_XMAX_IS_MULTI then HeapTupleGetUpdateXid E t
                  else Ok (xmax_raw t)) in
    if TransactionIdInArray xmax sub then
      let? resolved := ResolveCids E t buffer in
      match resolved with
      | None => Ok true
      | Some (_, cmax) =>
          if cmax =? 0xFFFFFFFF then Ok true else Ok (cmax >=? curcid snapshot)
      end
    else if TransactionIdPrecedes xmax (s_xmin snapshot) then
      if has (t_infomask t) HEAP_XMAX_COMMITTED then Ok false
      else let? c := DidCommit E xmax in Ok (negb c)
    else if TransactionIdFollowsOrEquals xmax (s_xmax snapshot) then Ok true
    else if TransactionIdInArray xmax xs then Ok false
    else Ok true.

Definition HeapTupleSatisfiesHistoricMVCC (snapshot : SnapshotData) (buffer : Z)
    (t : HeapTupleHeaderData) : result bool :=
  let? sub := slice_to (subxip snapshot) (Z.max (subxcnt snapshot) 0) in
  let? xs := slice_to (xip snapshot) (xcnt snapshot) in
  let? visible := historic_xmin snapshot sub xs buffer t in
  if visible then historic_xmax snapshot sub xs buffer t else Ok false.
End Vacuum.

(** *** [HeapTupleSatisfiesVisibility]: dispatch on the snapshot's type.  The
    sub-checks keep their own out-parameter; the dirty check writes its findings
    into the snapshot. *)

(** Run [c] with a private out-parameter [r0], leaving the caller's untouched. *)
Definition scoped {R R' A : Type} (r0 : R') (c : M (VState R') A) : M (VState R) A :=
  fun s =>
    let '(a, s') := c {| v_tup := v_tup s; v_dirty := v_dirty s; v_res := r0 |} in
    (a, {| v_tup := v_tup s'; v_dirty := v_dirty s'; v_res := v_res s |}).

Definition HeapTupleSatisfiesVisibility (E : XactEnv) (buffer : Z) : M (VState SnapshotData) bool :=
  let! s := mget in
  let snapshot := v_res s in
  match snapshot_type snapshot with
  | SNAPSHOT_MVCC => scoped tt (HeapTupleSatisfiesMVCC E snapshot buffer)
  | SNAPSHOT_SELF => HeapTupleSatisfiesSelf E buffer
  | SNAPSHOT_ANY => HeapTupleSatisfiesAny buffer
  | SNAPSHOT_TOAST => HeapTupleSatisfiesToast E buffer
  | SNAPSHOT_DIRTY => HeapTupleSatisfiesDirty E buffer
  | SNAPSHOT_HISTORIC_MVCC => mlift (HeapTupleSatisfiesHistoricMVCC E snapshot buffer (v_tup s))
  | SNAPSHOT_NON_VACUUMABLE =>
      scoped InvalidTransactionId (HeapTupleSatisfiesNonVacuumable E snapshot buffer)
  end.
