(* ===== verification/PageMemo.v ===== *)
(** * The page memo is transparent

    [HeapTupleSatisfiesMVCCPage] caches transaction lookups for one page walk.
    It is shown to give the answers, and leave the hint bits, of the uncached
    [HeapTupleSatisfiesMVCC], by a simulation between the two resolver seats. *)

From S2P Require Import Prelude Xid ItemPtr HeapTuple ComboCid Snapshot Visibility.

(** ** Simulation of monadic programs *)

Section Simulation.
Context {S1 S2 : Type} (Rel : S1 -> S2 -> Prop).

Definition sim {A} (m1 : M S1 A) (m2 : M S2 A) : Prop :=
  forall s1 s2, Rel s1 s2 ->
    fst (m1 s1) = fst (m2 s2) /\ Rel (snd (m1 s1)) (snd (m2 s2)).

Lemma sim_ret {A} (a : A) : sim (mret a) (mret a).
Proof. intros s1 s2 H. done. Qed.

Lemma sim_lift {A} (r : result A) : sim (mlift r) (mlift r).
Proof. intros s1 s2 H. done. Qed.

Lemma sim_bind {A B} (m1 : M S1 A) m2 (k1 : A -> M S1 B) k2 :
  sim m1 m2 -> (forall a, sim (k1 a) (k2 a)) -> sim (mbnd m1 k1) (mbnd m2 k2).
Proof.
  intros Hm Hk s1 s2 H. destruct (Hm s1 s2 H) as [Ea Hs]. unfold mbnd.
  destruct (m1 s1) as [a1 s1'], (m2 s2) as [a2 s2']. cbn in Ea, Hs. subst a2.
  destruct a1 as [a| |]; [by apply Hk | done | done].
Qed.

Lemma sim_early {A} (m1 : M S1 (option A)) m2 k1 k2 :
  sim m1 m2 -> sim k1 k2 -> sim (early m1 k1) (early m2 k2).
Proof.
  intros Hm Hk. apply sim_bind; [done|]. intros [v|]; [apply sim_ret | done].
Qed.

Lemma sim_if {A} (b : bool) (m1 : M S1 A) m2 n1 n2 :
  sim m1 m2 -> sim n1 n2 -> sim (if b then m1 else n1) (if b then m2 else n2).
Proof. by destruct b. Qed.
End Simulation.

Create HintDb sim.
#[export] Hint Resolve sim_ret sim_lift : sim.

(** Walk two programs of the same shape in lock step. *)
Ltac sim_walk :=
  repeat first
    [ progress intros
    | solve [auto with sim]
    | apply sim_early
    | apply sim_bind
    | apply sim_if
    | match goal with |- sim _ (match ?x with _ => _ end) _ => destruct x end ].

Section PageMemo.
Variable E : XactEnv.
Variable snapshot : SnapshotData.
Variable buffer : Z.

(** What each flag of a slot keyed [x] asserts. *)
Definition flags_sound (x f : Z) : Prop :=
  (has f XVM_SNAP_VALID = true -> XidInSnapshot E x snapshot = Ok (has f XVM_IN_SNAPSHOT)) /\
  (has f XVM_IN_SNAPSHOT = true -> has f XVM_SNAP_VALID = true) /\
  (has f XVM_COMMIT_VALID = true -> DidCommit E x = Ok (has f XVM_COMMITTED)) /\
  (has f XVM_COMMITTED = true -> has f XVM_COMMIT_VALID = true) /\
  (has f XVM_HINT_OK = true -> hint_allowed E buffer x = Ok true).

Lemma flags_sound_zero x : flags_sound x 0.
Proof. repeat split; intros H; by rewrite has_0 in H. Qed.

Lemma flags_sound_lor x f g : flags_sound x f -> flags_sound x g -> flags_sound x (Z.lor f g).
Proof.
  intros (F1 & F2 & F3 & F4 & F5) (G1 & G2 & G3 & G4 & G5).
  unfold flags_sound. rewrite !has_lor, !orb_true_iff. repeat split.
  - destruct (has f XVM_SNAP_VALID), (has g XVM_SNAP_VALID), (has f XVM_IN_SNAPSHOT),
      (has g XVM_IN_SNAPSHOT); cbn in *; naive_solver congruence.
  - tauto.
  - destruct (has f XVM_COMMIT_VALID), (has g XVM_COMMIT_VALID), (has f XVM_COMMITTED),
      (has g XVM_COMMITTED); cbn in *; naive_solver congruence.
  - tauto.
  - tauto.
Qed.

Definition memo_ok (m : XidVisMemo.t) : Prop := memo_wf flags_sound m.

Lemma memo_ok_new : memo_ok XidVisMemo.new.
Proof. apply memo_new_wf, flags_sound_zero. Qed.

(** A state of the cached walk and the uncached state it stands for. *)
Definition same_page (s1 : VState XidVisMemo.t) (s2 : VState unit) : Prop :=
  v_tup s1 = v_tup s2 /\ v_dirty s1 = v_dirty s2 /\ memo_ok (v_res s1).

Lemma memo_flags s1 s2 x : same_page s1 s2 -> flags_sound x (XidVisMemo.get x (v_res s1)).
Proof. intros (_ & _ & W). apply memo_get; [apply flags_sound_zero | done]. Qed.

Lemma same_page_merge s1 s2 x f :
  same_page s1 s2 -> flags_sound x f -> same_page (with_res (XidVisMemo.merge x f) s1) s2.
Proof.
  intros (E1 & E2 & W) Hf. split; [done|]. split; [done|]. cbn.
  apply memo_merge; [apply flags_sound_lor | done | done].
Qed.

Lemma sim_tup : sim same_page tup tup.
Proof. intros s1 s2 H. split; [|done]. cbn. by destruct H as [-> _]. Qed.

Lemma sim_write_hint mask : sim same_page (write_hint E buffer mask) (write_hint E buffer mask).
Proof.
  intros s1 s2 (E1 & E2 & W). unfold write_hint. mexec.
  destruct (MarkDirtyHint E buffer); cbn; unfold same_page; cbn; by rewrite E1, E2.
Qed.

Lemma sim_in_snapshot x :
  sim same_page (in_snapshot (PageMemoResolve E) x snapshot)
                (in_snapshot (DirectResolve E) x snapshot).
Proof.
  intros s1 s2 H. pose proof (memo_flags s1 s2 x H) as (F & _). cbn. unfold page_in_snapshot.
  destruct (TransactionIdPrecedes x (s_xmin snapshot)) eqn:P.
  { unfold XidInSnapshot, XidInMVCCSnapshot. by rewrite P. }
  unfold memo_get_flags, memo_merge_flags. mexec.
  destruct (has _ XVM_SNAP_VALID) eqn:V; [by rewrite (F eq_refl)|].
  destruct (XidInSnapshot E x snapshot) as [b| |] eqn:X; cbn; [|done|done].
  split; [done|]. apply same_page_merge; [done|]. by destruct b; repeat split.
Qed.

Lemma sim_did_commit x :
  sim same_page (did_commit (PageMemoResolve E) x) (did_commit (DirectResolve E) x).
Proof.
  intros s1 s2 H. pose proof (memo_flags s1 s2 x H) as (_ & _ & F & _). cbn. unfold page_did_commit.
  destruct (negb (TransactionIdIsNormal x)); [done|].
  unfold memo_get_flags, memo_merge_flags. mexec.
  destruct (has _ XVM_COMMIT_VALID) eqn:V; [by rewrite (F eq_refl)|].
  destruct (DidCommit E x) as [b| |] eqn:X; cbn; [|done|done].
  split; [done|]. apply same_page_merge; [done|]. by destruct b; repeat split.
Qed.

Lemma sim_set_hint_bits mask x :
  sim same_page (set_hint_bits (PageMemoResolve E) buffer mask x)
                (set_hint_bits (DirectResolve E) buffer mask x).
Proof.
  intros s1 s2 H. pose proof (memo_flags s1 s2 x H) as (_ & _ & _ & _ & F).
  cbn. unfold page_set_hint_bits, SetHintBits, memo_get_flags, memo_merge_flags.
  destruct (TransactionIdIsValid x) eqn:V; cbn [andb].
  2:{ unfold hint_allowed. rewrite V. mexec. by apply (sim_write_hint mask s1 s2). }
  destruct (has (XidVisMemo.get x (v_res s1)) XVM_HINT_OK) eqn:K.
  { rewrite (F eq_refl). mexec. by apply (sim_write_hint mask s1 s2). }
  mexec. cbn [negb].
  destruct (CommitLSN E x) as [l| |] eqn:L; unfold hint_allowed; rewrite V, L; mexec; [|done|done].
  destruct (IsPermanent E buffer && NeedsFlush E l && (BufferLSN E buffer <? l)) eqn:A; cbn; [done|].
  apply (sim_write_hint mask (with_res (XidVisMemo.merge x XVM_HINT_OK) s1) s2).
  apply same_page_merge; [done|]. repeat split; try done.
  intros _. unfold hint_allowed. rewrite V, L. cbn. by rewrite A.
Qed.

#[local] Hint Resolve sim_tup sim_in_snapshot sim_did_commit sim_set_hint_bits : sim.

Lemma sim_mvcc :
  sim same_page (HeapTupleSatisfiesMVCCPage E snapshot buffer)
                (HeapTupleSatisfiesMVCC E snapshot buffer).
Proof.
  unfold HeapTupleSatisfiesMVCCPage, HeapTupleSatisfiesMVCC, satisfies_mvcc_res,
    mvcc_xmin, mvcc_xmax, mvcc_own, mvcc_moved_off, mvcc_moved_in, returning, fall_through.
  sim_walk.
Qed.
End PageMemo.

(** ** Page-at-a-time scans: [page_collect_tuples] of [access/heap/heapam/src/lib.rs]

    A page is the list of its line pointers: [Some] header behind a normal line,
    [None] for an unused, dead or redirected one. *)

Section PageScan.
Variable E : XactEnv.
Variable snapshot : SnapshotData.
Variable buffer : Z.
(** [HeapCheckForSerializableConflictOut] on the tuple under the cursor. *)
Variable CheckConflictOut : bool -> M (VState unit) unit.

Abbreviation line := (option HeapTupleHeaderData).

(** The visibility test of one normal line, the MVCC case through [mvcc]. *)
Definition line_check {R : Type} (mvcc : M (VState R) bool)
    (ALL_VISIBLE CHECK_SERIALIZABLE : bool) : M (VState R) bool :=
  if ALL_VISIBLE && negb CHECK_SERIALIZABLE then mret true
  else
    let! valid :=
      (if ALL_VISIBLE then mret true
       else match snapshot_type snapshot with
            | SNAPSHOT_MVCC => mvcc
            | _ => scoped snapshot (HeapTupleSatisfiesVisibility E buffer)
            end) in
    (if CHECK_SERIALIZABLE then scoped tt (CheckConflictOut valid) else mret tt) ;! mret valid.

(** The loop [while lineoff <= lines]: the offsets found visible, and the lines,
    dirtied buffers and check state it leaves; an error stops it where it is. *)
Fixpoint collect_walk {R : Type} (check : M (VState R) bool) (lineoff : Z) (lines : list line)
    (st : R) (dirty : list Z) : result (list Z) * (list line * R * list Z) :=
  match lines with
  | [] => (Ok [], ([], st, dirty))
  | None :: rest =>
      let '(r, (rest', st', dirty')) := collect_walk check (lineoff + 1) rest st dirty in
      (r, (None :: rest', st', dirty'))
  | Some t :: rest =>
      let '(v, s) := check {| v_tup := t; v_dirty := dirty; v_res := st |} in
      match v with
      | Ok valid =>
          let '(r, (rest', st', dirty')) :=
            collect_walk check (lineoff + 1) rest (v_res s) (v_dirty s) in
          (let? offs := r in Ok (if valid then lineoff :: offs else offs),
           (Some (v_tup s) :: rest', st', dirty'))
      | Err e => (Err e, (Some (v_tup s) :: rest, v_res s, v_dirty s))
      | Panic => (Panic, (Some (v_tup s) :: rest, v_res s, v_dirty s))
      end
  end.

Definition all_normal (lines : list line) : bool :=
  forallb (fun l => match l with Some _ => true | None => false end) lines.

(** [1, 2, .., n] *)
Fixpoint offsets_from (lineoff : Z) (n : nat) : list Z :=
  match n with
  | O => []
  | S n => lineoff :: offsets_from (lineoff + 1) n
  end.

Definition page_collect_tuples (ALL_VISIBLE CHECK_SERIALIZABLE : bool) (lines : list line)
  : result (list Z) * (list line * XidVisMemo.t * list Z) :=
  if ALL_VISIBLE && negb CHECK_SERIALIZABLE && all_normal lines then
    (Ok (offsets_from FirstOffsetNumber (length lines)), (lines, XidVisMemo.new, []))
  else
    collect_walk (line_check (HeapTupleSatisfiesMVCCPage E snapshot buffer)
                    ALL_VISIBLE CHECK_SERIALIZABLE)
      FirstOffsetNumber lines XidVisMemo.new [].

(** *** The reference: one line pointer after the other

    No memo, no walk, no fast path, no page flag: offset by offset, look the line
    pointer up on the page, run a verdict on the tuple behind it, put the header
    back. *)

Record PageState := { page_lines : list line; page_dirtied : list Z }.

(** The visibility routine of the snapshot, whatever its kind. *)
Definition plain_verdict : M (VState unit) bool := scoped snapshot (HeapTupleSatisfiesVisibility E buffer).

Definition examine (verdict : M (VState unit) bool) (conflict : bool) : M (VState unit) bool :=
  let! valid := verdict in
  (if conflict then CheckConflictOut valid else mret tt) ;! mret valid.

Definition check_offset (verdict : M (VState unit) bool) (conflict : bool) (off : nat) : M PageState (list Z) :=
  fun p =>
    match page_lines p !! Nat.pred off with
    | Some (Some t) =>
        let '(r, s) := examine verdict conflict {| v_tup := t; v_dirty := page_dirtied p; v_res := tt |} in
        (let? valid := r in Ok (if valid then [Z.of_nat off] else []),
         {| page_lines := <[Nat.pred off := Some (v_tup s)]> (page_lines p); page_dirtied := v_dirty s |})
    | _ => (Ok [], p)
    end.

Fixpoint check_offsets (verdict : M (VState unit) bool) (conflict : bool) (offs : list nat) : M PageState (list Z) :=
  match offs with
  | [] => mret []
  | off :: rest =>
      let! here := check_offset verdict conflict off in
      let! found := check_offsets verdict conflict rest in
      mret (here ++ found)
  end.

(** Offsets 1 to n of a page of n line pointers. *)
Definition page_reference (verdict : M (VState unit) bool) (conflict : bool) (lines : list line)
  : result (list Z) * PageState :=
  check_offsets verdict conflict (seq 1 (length lines)) {| page_lines := lines; page_dirtied := [] |}.

(** The all-visible flag of the page is honest: the visibility routine says yes to
    every tuple on it. *)
Definition flag_honest (lines : list line) : Prop :=
  forall t dirty, Some t ∈ lines -> fst (plain_verdict {| v_tup := t; v_dirty := dirty; v_res := tt |}) = Ok true.

Abbreviation same := (same_page E snapshot buffer).

Lemma sim_scoped {R' A} (r0 : R') (c : M (VState R') A) : sim same (scoped r0 c) (scoped r0 c).
Proof.
  intros s1 s2 (E1 & E2 & W). unfold scoped. rewrite E1, E2.
  destruct (c _) as [a s']. done.
Qed.

Lemma sim_line_check av cs :
  sim same (line_check (HeapTupleSatisfiesMVCCPage E snapshot buffer) av cs)
           (line_check (HeapTupleSatisfiesMVCC E snapshot buffer) av cs).
Proof.
  unfold line_check. apply sim_if; [apply sim_ret|]. apply sim_bind.
  - apply sim_if; [apply sim_ret|]. destruct (snapshot_type snapshot);
      first [apply sim_mvcc | apply sim_scoped].
  - intros valid. apply sim_bind; [|intros; apply sim_ret].
    apply sim_if; [apply sim_scoped | apply sim_ret].
Qed.

(** Walks over checks that simulate each other agree on everything but the
    private check state. *)
Lemma collect_walk_sim {R} (I : R -> Prop) (check : M (VState R) bool) (check' : M (VState unit) bool) :
  (forall s1 s2, v_tup s1 = v_tup s2 -> v_dirty s1 = v_dirty s2 -> I (v_res s1) ->
     fst (check s1) = fst (check' s2) /\ v_tup (snd (check s1)) = v_tup (snd (check' s2)) /\
     v_dirty (snd (check s1)) = v_dirty (snd (check' s2)) /\ I (v_res (snd (check s1)))) ->
  forall lines lineoff st dirty, I st ->
    let w := collect_walk check lineoff lines st dirty in
    let w' := collect_walk check' lineoff lines tt dirty in
    fst w = fst w' /\ fst (fst (snd w)) = fst (fst (snd w')) /\ snd (snd w) = snd (snd w') /\
    I (snd (fst (snd w))).
Proof.
  intros Hsim. induction lines as [|[t|] lines IH]; intros lineoff st dirty HI; cbn.
  - done.
  - destruct (Hsim {| v_tup := t; v_dirty := dirty; v_res := st |}
                   {| v_tup := t; v_dirty := dirty; v_res := tt |} eq_refl eq_refl HI)
      as (Ea & Et & Ed & HI').
    destruct (check _) as [v s] eqn:C. destruct (check' _) as [v' s'] eqn:C'.
    cbn in Ea, Et, Ed, HI'. subst v'. destruct v as [b| |]; cbn; rewrite ?Et, ?Ed; try done.
    destruct (v_res s') in *.
    specialize (IH (lineoff + 1) (v_res s) (v_dirty s') HI').
    destruct (collect_walk check _ _ _ _) as [r [[l m] d]].
    destruct (collect_walk check' _ _ _ _) as [r' [[l' m'] d']].
    cbn in IH. destruct IH as (-> & -> & -> & ?). done.
  - specialize (IH (lineoff + 1) st dirty HI).
    destruct (collect_walk check _ _ _ _) as [r [[l m] d]].
    destruct (collect_walk check' _ _ _ _) as [r' [[l' m'] d']].
    cbn in IH. destruct IH as (-> & -> & -> & ?). done.
Qed.

Lemma walk_all_visible {R} (c : M (VState R) bool) lines lineoff st dirty :
  all_normal lines = true ->
  collect_walk (line_check c true false) lineoff lines st dirty
  = (Ok (offsets_from lineoff (length lines)), (lines, st, dirty)).
Proof.
  revert lineoff. induction lines as [|[t|] lines IH]; intros lineoff H; cbn; [done| |done].
  cbn in H. change (collect_walk _ _ _ _ _) with
    (collect_walk (line_check c true false) (lineoff + 1) lines st dirty).
  by rewrite (IH (lineoff + 1) H).
Qed.

(** What the walk runs on one line is what the reference runs on it. *)
Lemma line_check_plain cs s :
  line_check (HeapTupleSatisfiesMVCC E snapshot buffer) false cs s = examine plain_verdict cs s.
Proof.
  assert (Hs : forall A (c : M (VState unit) A) s, scoped tt c s = c s).
  { intros A c [t d []]. unfold scoped. cbn. destruct (c _) as [a [t' d' []]]. done. }
  assert (Hv : (match snapshot_type snapshot with
                | SNAPSHOT_MVCC => HeapTupleSatisfiesMVCC E snapshot buffer
                | _ => scoped snapshot (HeapTupleSatisfiesVisibility E buffer)
                end) s = plain_verdict s).
  { unfold plain_verdict. destruct (snapshot_type snapshot) eqn:Ty; try done.
    destruct s as [t d []]. unfold scoped, HeapTupleSatisfiesVisibility, mbnd, mget. cbn [v_res v_tup v_dirty]. rewrite Ty.
    unfold scoped. cbn [v_tup v_dirty]. destruct (HeapTupleSatisfiesMVCC _ _ _ _) as [a [t' d' []]]. done. }
  unfold line_check, examine, mbnd. cbn [andb]. rewrite Hv. destruct (plain_verdict s) as [[v| |] s']; [|done|done].
  destruct cs; [by rewrite Hs | done].
Qed.

Lemma line_check_visible (c : M (VState unit) bool) cs s : line_check c true cs s = examine (mret true) cs s.
Proof.
  unfold line_check, examine, mbnd, mret. destruct cs; [|done]. cbn. unfold scoped. destruct s as [t d []]. cbn.
  destruct (CheckConflictOut true _) as [[[]| |] [t' d' []]]; done.
Qed.

(** The walk with its running offset and the look-up by offset are the same scan. *)
Lemma walk_reference check verdict conflict :
  (forall s, check s = examine verdict conflict s) ->
  forall lines pre dirty,
    check_offsets verdict conflict (seq (S (length pre)) (length lines)) {| page_lines := pre ++ lines; page_dirtied := dirty |}
    = let w := collect_walk check (Z.of_nat (S (length pre))) lines tt dirty in
      (fst w, {| page_lines := pre ++ fst (fst (snd w)); page_dirtied := snd (snd w) |}).
Proof.
  intros Hc. induction lines as [|l lines IH]; intros pre dirty; cbn [seq length check_offsets]; [done|].
  assert (Hl : forall x, (pre ++ x :: lines) !! Nat.pred (S (length pre)) = Some x) by (intros x; cbn; by apply list_lookup_middle).
  assert (Hi : forall x y, <[Nat.pred (S (length pre)) := x]> (pre ++ y :: lines) = pre ++ x :: lines).
  { intros x y. pose proof (insert_app_r pre (y :: lines) 0 x) as Hr. by rewrite Nat.add_0_r in Hr. }
  assert (Hn : forall x d, check_offsets verdict conflict (seq (S (S (length pre))) (length lines))
      {| page_lines := pre ++ x :: lines; page_dirtied := d |}
    = let w := collect_walk check (Z.of_nat (S (length pre)) + 1) lines tt d in
      (fst w, {| page_lines := pre ++ x :: fst (fst (snd w)); page_dirtied := snd (snd w) |})).
  { intros x d. specialize (IH (pre ++ [x]) d). rewrite length_app, Nat.add_1_r in IH. rewrite <- !app_assoc in IH. cbn [app] in IH.
    replace (Z.of_nat (S (length pre)) + 1) with (Z.of_nat (S (S (length pre)))) by lia. rewrite IH. cbn zeta.
    by rewrite <- app_assoc. }
  unfold mbnd at 1, check_offset. cbn [page_lines page_dirtied]. rewrite Hl. destruct l as [t|]; cbn [collect_walk].
  2:{ unfold mbnd. rewrite Hn. cbn zeta. destruct (collect_walk _ _ _ _ _) as [r [[l' []] d']]. cbn. by destruct r. }
  rewrite Hc. destruct (examine verdict conflict _) as [[v|e|] [t' d' []]]; cbn [rbind v_tup v_dirty v_res];
    rewrite Hi; [|done|done].
  unfold mbnd. rewrite Hn. cbn zeta. destruct (collect_walk _ _ _ _ _) as [r [[l' []] d'']]. cbn.
  destruct r as [offs| |]; cbn; [|done|done]. by destruct v.
Qed.

(** Two scans agree: on the offsets or the error, on the headers and on what was
    dirtied. *)
Definition agrees {R} (w : result (list Z) * (list line * R * list Z)) (w' : result (list Z) * PageState) : Prop :=
  fst w = fst w' /\ fst (fst (snd w)) = page_lines (snd w') /\ snd (snd w) = page_dirtied (snd w').

(** The memo makes no difference to the walk. *)
Lemma memo_walk av cs lines :
  let w := collect_walk (line_check (HeapTupleSatisfiesMVCCPage E snapshot buffer) av cs) FirstOffsetNumber lines XidVisMemo.new [] in
  let w' := collect_walk (line_check (HeapTupleSatisfiesMVCC E snapshot buffer) av cs) FirstOffsetNumber lines tt [] in
  fst w = fst w' /\ fst (fst (snd w)) = fst (fst (snd w')) /\ snd (snd w) = snd (snd w').
Proof.
  destruct (collect_walk_sim (memo_ok E snapshot buffer)
    (line_check (HeapTupleSatisfiesMVCCPage E snapshot buffer) av cs)
    (line_check (HeapTupleSatisfiesMVCC E snapshot buffer) av cs))
    with (lines := lines) (lineoff := FirstOffsetNumber) (st := XidVisMemo.new) (dirty := @nil Z)
    as (H1 & H2 & H3 & _); [|apply memo_ok_new|done].
  intros s1 s2 Et Ed HI. destruct (sim_line_check av cs s1 s2) as (Ea & ? & ? & ?); done.
Qed.

Lemma collect_agrees av cs lines verdict :
  (forall s, line_check (HeapTupleSatisfiesMVCC E snapshot buffer) av cs s = examine verdict cs s) ->
  agrees (page_collect_tuples av cs lines) (page_reference verdict cs lines).
Proof.
  intros Hc. unfold agrees, page_reference. pose proof (walk_reference _ verdict cs Hc lines [] []) as W. cbn [length app] in W.
  rewrite W. cbn zeta. cbn [fst snd page_lines page_dirtied]. unfold page_collect_tuples.
  change (Z.of_nat 1) with FirstOffsetNumber. destruct (av && negb cs && all_normal lines) eqn:F; [|apply memo_walk].
  apply andb_true_iff in F as [F N]. apply andb_true_iff in F as [-> F]. apply negb_true_iff in F as ->.
  by rewrite (walk_all_visible _ lines _ tt [] N).
Qed.

Lemma mbnd_at {S A B} (m : M S A) (k : A -> M S B) s :
  mbnd m k s = match m s with
               | (Ok a, s') => k a s'
               | (Err e, s') => (Err e, s')
               | (Panic, s') => (Panic, s')
               end.
Proof. done. Qed.

(** On an honestly flagged page the visibility routine, run on every tuple, selects
    the lines the flag selects. *)
Lemma honest_reference offs : forall p p',
  (forall off, off ∈ offs -> forall t d, page_lines p !! Nat.pred off = Some (Some t) ->
     fst (plain_verdict {| v_tup := t; v_dirty := d; v_res := tt |}) = Ok true) ->
  NoDup offs -> Forall (fun off => off <> O) offs ->
  (forall off, off ∈ offs -> page_lines p' !! Nat.pred off = page_lines p !! Nat.pred off) ->
  fst (check_offsets plain_verdict false offs p) = fst (check_offsets (mret true) false offs p').
Proof.
  induction offs as [|off offs IH]; intros p p' Hh ND Nz Hp; cbn [check_offsets]; [done|].
  apply list.NoDup_cons in ND as [Hin ND]. apply Forall_cons_1 in Nz as [Hz Nz].
  rewrite (mbnd_at (check_offset plain_verdict false off)), (mbnd_at (check_offset (mret true) false off)). unfold check_offset.
  rewrite (Hp off) by apply list_elem_of_here.
  assert (Next : forall q q' here,
    (forall off', off' ∈ offs -> page_lines q !! Nat.pred off' = page_lines p !! Nat.pred off') ->
    (forall off', off' ∈ offs -> page_lines q' !! Nat.pred off' = page_lines p' !! Nat.pred off') ->
    fst (mbnd (check_offsets plain_verdict false offs) (fun found => mret (here ++ found)) q) =
    fst (mbnd (check_offsets (mret true) false offs) (fun found => mret (here ++ found)) q')).
  { intros q q' here Hq Hq'. specialize (IH q q'). unfold mbnd.
    assert (Eq : fst (check_offsets plain_verdict false offs q) = fst (check_offsets (mret true) false offs q')).
    { apply IH; [|done|done|].
      - intros o Ho t d Hl. rewrite Hq in Hl by done. apply (Hh o); [by apply list_elem_of_further | done].
      - intros o Ho. rewrite Hq, Hq' by done. by apply Hp, list_elem_of_further. }
    destruct (check_offsets plain_verdict false offs q) as [r1 q1], (check_offsets (mret true) false offs q') as [r2 q2].
    cbn in Eq. subst r2. by destruct r1. }
  destruct (page_lines p !! Nat.pred off) as [[t|]|] eqn:El; [|by apply Next..].
  pose proof (Hh off) as Hv. specialize (Hv ltac:(apply list_elem_of_here) t (page_dirtied p) El).
  unfold examine at 1, mbnd at 1. destruct (plain_verdict _) as [v s]. cbn in Hv. subst v. cbn.
  apply (Next _ _ [Z.of_nat off]); intros o Ho; cbn; apply list_lookup_insert_ne; intros E'; apply Hin.
  all: assert (o <> O) by (by apply (proj1 (list.Forall_forall _ _) Nz)); by replace off with o by lia.
Qed.

(** C16. Scanning a page with the xid memo and the all-visible fast paths agrees
    with examining every line pointer by itself.  On a page not flagged
    all-visible, [page_collect_tuples] finds exactly the offsets, leaves exactly
    the hint bits and dirtied buffers, makes the conflict check of each tuple and
    raises exactly the errors of looking up each offset from 1 to the last and
    running the snapshot's plain visibility routine on the tuple there, every
    transaction looked up afresh.  On a flagged page it selects every normal line
    pointer, makes the conflict check of each with the verdict visible, and
    touches no header itself; and if the flag is honest, these are the offsets
    the plain visibility routine selects when it is run on every tuple. *)
Theorem page_collect_tuples_reference ALL_VISIBLE CHECK_SERIALIZABLE lines :
  let w := page_collect_tuples ALL_VISIBLE CHECK_SERIALIZABLE lines in
  if ALL_VISIBLE then
    agrees w (page_reference (mret true) CHECK_SERIALIZABLE lines) /\
    (CHECK_SERIALIZABLE = false -> flag_honest lines -> fst w = fst (page_reference plain_verdict false lines))
  else agrees w (page_reference plain_verdict CHECK_SERIALIZABLE lines).
Proof.
  cbn zeta. destruct ALL_VISIBLE; [|by apply collect_agrees; intros s; apply line_check_plain].
  assert (A : agrees (page_collect_tuples true CHECK_SERIALIZABLE lines) (page_reference (mret true) CHECK_SERIALIZABLE lines)).
  { apply collect_agrees. intros s. apply line_check_visible. }
  split; [done|]. intros -> Hh. rewrite (proj1 A). symmetry. apply honest_reference; [| apply NoDup_seq | | done].
  - intros off _ t d Hl. cbn in Hl. by apply Hh, (list_elem_of_lookup_2 _ _ _ Hl).
  - apply list.Forall_forall. intros off Ho. apply elem_of_seq in Ho. lia.
Qed.
End PageScan.
