(* ===== verification/VisibilitySpec.v ===== *)
(** * What the visibility routines mean

    An abstract account of visibility in terms of which transactions committed,
    which are running and which are ours, independent of hint bits, and the
    theorems that the routines of [Visibility.v] compute it and only ever set
    hint bits that are true. *)

From S2P Require Import Prelude Xid ItemPtr HeapTuple ComboCid Snapshot Visibility.

(** ** Total correctness of monadic programs *)

Section Post.
Context {S : Type}.

(** [m] returns normally from [s], in a state and with a value satisfying [Q]. *)
Definition post {A} (m : M S A) (Q : A -> S -> Prop) (s : S) : Prop :=
  exists a s', m s = (Ok a, s') /\ Q a s'.

Lemma post_ret {A} (a : A) (Q : A -> S -> Prop) s : Q a s -> post (mret a) Q s.
Proof. intros H. by exists a, s. Qed.

Lemma post_lift {A} (r : result A) a (Q : A -> S -> Prop) s : r = Ok a -> Q a s -> post (mlift r) Q s.
Proof. intros -> H. by exists a, s. Qed.

Lemma post_put f (Q : unit -> S -> Prop) s : Q tt (f s) -> post (mput f) Q s.
Proof. intros H. by exists tt, (f s). Qed.

Lemma post_bind {A B} (m : M S A) (k : A -> M S B) (Q : B -> S -> Prop) s :
  post m (fun a => post (k a) Q) s -> post (mbnd m k) Q s.
Proof. intros (a & s' & E & H). unfold post, mbnd. by rewrite E. Qed.

Lemma post_early {A} (m : M S (option A)) k (Q : A -> S -> Prop) s :
  post m (fun o s' => match o with Some v => Q v s' | None => post k Q s' end) s ->
  post (early m k) Q s.
Proof.
  intros (o & s' & E & H). apply post_bind. exists o, s'. split; [done|].
  destruct o; [by apply post_ret | done].
Qed.

Lemma post_impl {A} (m : M S A) (Q Q' : A -> S -> Prop) s :
  post m Q s -> (forall a s', Q a s' -> Q' a s') -> post m Q' s.
Proof. intros (a & s' & E & H) HQ. exists a, s'. eauto. Qed.
End Post.

(** ** The transaction system behind the oracles *)

(** What the visibility code relies on.  [committed] and [running] are the state
    of every transaction; [IsCurrent] singles out our own (sub)transactions.  The
    answers of [TransactionIdDidCommit] are only used for transactions that are
    not running, and only those are constrained. *)
Class EnvOk (E : XactEnv) (committed running : Z -> bool) : Prop := {
  env_in_progress : forall x, InProgress E x = Ok (running x);
  env_did_commit : forall x, running x = false -> DidCommit E x = Ok (committed x);
  env_current : forall x, IsCurrent E x = true -> running x = true;
  env_committed : forall x, committed x = true -> running x = false;
  env_invalid : committed InvalidTransactionId = false /\ running InvalidTransactionId = false;
  env_members : forall m b, exists o, GetMembers E m b = Ok o;
  env_members_invalid : forall b, GetMembers E InvalidTransactionId b = Ok None;
  env_commit_lsn : forall x, committed x = true -> exists l, CommitLSN E x = Ok l;
  env_mark_dirty : forall b, MarkDirtyHint E b = Ok tt
}.

(** The deleting transaction named by the header, whatever its infomask. *)
Definition deleter (E : XactEnv) (t : HeapTupleHeaderData) : Z :=
  if has (t_infomask t) HEAP_XMAX_IS_MULTI then
    match GetMembers E (xmax_raw t) false with
    | Ok (Some ms) => update_member ms
    | _ => InvalidTransactionId
    end
  else xmax_raw t.

Section Spec.
Context (E : XactEnv) (committed running : Z -> bool).
Context `{!EnvOk E committed running}.

Definition aborted (x : Z) : Prop := committed x = false /\ running x = false.

(** Somebody still holds the row through its xmax: the transaction, or some
    member of the multixact, is running. *)
Definition held (t : HeapTupleHeaderData) : bool :=
  if has (t_infomask t) HEAP_XMAX_IS_MULTI then
    match MultiXactIdIsRunning E (xmax_raw t) (HEAP_XMAX_IS_LOCKED_ONLY (t_infomask t)) with
    | Ok b => b
    | _ => false
    end
  else running (xmax_raw t).

(** What the hint bits on xmin stand for: the row is there for good, or it never
    was.  It is the inserter's fate, but for a row that a pre-9.0 VACUUM FULL
    [xvac] was moving: the old copy is there if the move failed, the new one if it
    succeeded. *)
Definition settled_in (t : HeapTupleHeaderData) : Prop :=
  if has (t_infomask t) HEAP_MOVED_OFF then aborted (xvac t)
  else if has (t_infomask t) HEAP_MOVED_IN then committed (xvac t) = true
  else committed (xmin_raw t) = true.

Definition settled_out (t : HeapTupleHeaderData) : Prop :=
  if has (t_infomask t) HEAP_MOVED_OFF then committed (xvac t) = true
  else if has (t_infomask t) HEAP_MOVED_IN then aborted (xvac t)
  else aborted (xmin_raw t).

(** Every hint bit on the tuple is true. *)
Record HintsOk (t : HeapTupleHeaderData) : Prop := {
  hint_xmin_committed :
    has (t_infomask t) HEAP_XMIN_COMMITTED = true ->
    has (t_infomask t) HEAP_XMIN_INVALID = false -> settled_in t;
  hint_xmin_invalid :
    has (t_infomask t) HEAP_XMIN_INVALID = true ->
    has (t_infomask t) HEAP_XMIN_COMMITTED = false -> settled_out t;
  hint_xmax_invalid :
    has (t_infomask t) HEAP_XMAX_INVALID = true ->
    HEAP_XMAX_IS_LOCKED_ONLY (t_infomask t) = true \/ aborted (deleter E t);
  hint_xmax_free :
    has (t_infomask t) HEAP_XMAX_INVALID = true -> held t = false;
  hint_xmax_committed :
    has (t_infomask t) HEAP_XMAX_COMMITTED = true ->
    (HEAP_XMAX_IS_LOCKED_ONLY (t_infomask t) = true /\ held t = false) \/
    (has (t_infomask t) HEAP_XMAX_IS_MULTI = false /\ committed (xmax_raw t) = true)
}.

(** The row carries a relocation mark of a pre-9.0 VACUUM FULL. *)
Definition moved (t : HeapTupleHeaderData) : bool :=
  has (t_infomask t) HEAP_MOVED_OFF || has (t_infomask t) HEAP_MOVED_IN.

(** A tuple our own transaction inserted can have been deleted only by one of
    our own subtransactions, alive or rolled back; and a multixact carried over
    from before 9.3 has no running member. *)
Record RowOk (t : HeapTupleHeaderData) : Prop := {
  row_upgraded : HEAP_LOCKED_UPGRADED (t_infomask t) = true -> held t = false;
  row_own : moved t = false -> IsCurrent E (xmin_raw t) = true -> xmin_frozen t = false ->
    HEAP_XMAX_IS_LOCKED_ONLY (t_infomask t) = false ->
    IsCurrent E (deleter E t) = true \/ aborted (deleter E t)
}.

(** The same of a tuple without relocation marks. *)
Record TupleOk (t : HeapTupleHeaderData) : Prop := {
  tuple_not_moved_off : has (t_infomask t) HEAP_MOVED_OFF = false;
  tuple_not_moved_in : has (t_infomask t) HEAP_MOVED_IN = false;
  tuple_upgraded : HEAP_LOCKED_UPGRADED (t_infomask t) = true -> held t = false;
  tuple_own : IsCurrent E (xmin_raw t) = true -> xmin_frozen t = false ->
    HEAP_XMAX_IS_LOCKED_ONLY (t_infomask t) = false ->
    IsCurrent E (deleter E t) = true \/ aborted (deleter E t)
}.

(** The invariant of any row, and of a row without relocation marks. *)
Definition RowInv (t : HeapTupleHeaderData) : Prop := RowOk t /\ HintsOk t.
Definition TupleInv (t : HeapTupleHeaderData) : Prop := TupleOk t /\ HintsOk t.

Lemma TupleInv_row t : TupleInv t -> RowInv t.
Proof. intros [[A B U C] H]. split; [split; [done|]|done]. auto. Qed.

Lemma TupleInv_moved t : TupleInv t -> moved t = false.
Proof. intros [[A B _ _] _]. unfold moved. by rewrite A, B. Qed.

Lemma TupleInv_intro t : moved t = false -> RowInv t -> TupleInv t.
Proof. intros M [[U C] H]. unfold moved in M. pose proof M as [A B]%orb_false_iff. split; [split|]; auto. Qed.

Lemma settled_in_plain t : moved t = false -> settled_in t = (committed (xmin_raw t) = true).
Proof. unfold moved, settled_in. intros [-> ->]%orb_false_iff. done. Qed.

Lemma settled_out_plain t : moved t = false -> settled_out t = aborted (xmin_raw t).
Proof. unfold moved, settled_out. intros [-> ->]%orb_false_iff. done. Qed.

(** The xmin hints of a row without relocation marks. *)
Lemma plain_hints t :
  TupleInv t ->
  (has (t_infomask t) HEAP_XMIN_COMMITTED = true -> has (t_infomask t) HEAP_XMIN_INVALID = false -> committed (xmin_raw t) = true) /\
  (has (t_infomask t) HEAP_XMIN_INVALID = true -> has (t_infomask t) HEAP_XMIN_COMMITTED = false -> aborted (xmin_raw t)).
Proof.
  intros I. pose proof (TupleInv_moved t I) as M. destruct I as [_ [A B _ _ _]].
  by rewrite settled_in_plain in A; rewrite settled_out_plain in B.
Qed.

(** [t'] is [t] with hint bits added. *)
Definition hinted : HeapTupleHeaderData -> HeapTupleHeaderData -> Prop :=
  rtc (fun t t' => exists mask, hint_mask mask /\ t' = or_infomask mask t).

Lemma deleter_hint mask t : hint_mask mask -> deleter E (or_infomask mask t) = deleter E t.
Proof. intros H. unfold deleter. cbn. by rewrite (has_hint mask) by done. Qed.

Lemma held_hint mask t : hint_mask mask -> held (or_infomask mask t) = held t.
Proof.
  intros H. unfold held. cbn [t_infomask or_infomask]. unfold xmax_raw. cbn [t_choice or_infomask].
  by rewrite locked_only_hint, (has_hint mask) by done.
Qed.

(** *** Setting a hint bit that is true keeps the invariant *)

Lemma moved_hint mask t : hint_mask mask -> moved (or_infomask mask t) = moved t.
Proof. intros H. unfold moved. cbn. by rewrite !(has_hint mask) by done. Qed.

Lemma settled_hint mask t :
  hint_mask mask -> settled_in (or_infomask mask t) = settled_in t /\ settled_out (or_infomask mask t) = settled_out t.
Proof.
  intros H. unfold settled_in, settled_out, xvac, xmin_raw. cbn [t_infomask t_choice or_infomask]. by rewrite !(has_hint mask) by done.
Qed.

Lemma RowOk_hint mask t :
  hint_mask mask ->
  (xmin_frozen (or_infomask mask t) = false -> xmin_frozen t = false) ->
  RowOk t -> RowOk (or_infomask mask t).
Proof.
  intros Hm Hf [U C]. split.
  - rewrite held_hint by done. cbn. by rewrite locked_upgraded_hint.
  - rewrite deleter_hint, moved_hint by done. cbn. rewrite locked_only_hint by done. auto.
Qed.

Lemma set_xmin_committed t :
  has (t_infomask t) HEAP_XMIN_INVALID = false -> settled_in t ->
  RowInv t -> RowInv (or_infomask HEAP_XMIN_COMMITTED t).
Proof.
  intros Hi Hc [T [A B C F D]]. assert (Hm : hint_mask HEAP_XMIN_COMMITTED) by (by left). split.
  { apply RowOk_hint; [done| |done]. intros _. by rewrite xmin_frozen_bits, Hi, andb_false_r. }
  destruct (settled_hint _ t Hm) as [Si So].
  split; rewrite ?Si, ?So; cbn [t_infomask or_infomask].
  - done.
  - rewrite !has_lor. intros _ H. by apply orb_false_iff in H as [_ H].
  - rewrite has_lor, orb_false_r, locked_only_hint, deleter_hint by done. done.
  - rewrite has_lor, orb_false_r, held_hint by done. done.
  - rewrite !has_lor, !orb_false_r, locked_only_hint, held_hint by done. done.
Qed.

Lemma set_xmin_invalid t :
  has (t_infomask t) HEAP_XMIN_COMMITTED = false -> settled_out t ->
  RowInv t -> RowInv (or_infomask HEAP_XMIN_INVALID t).
Proof.
  intros Hi Hc [T [A B C F D]]. assert (Hm : hint_mask HEAP_XMIN_INVALID) by (by right; left). split.
  { apply RowOk_hint; [done| |done]. intros _. by rewrite xmin_frozen_bits, Hi. }
  destruct (settled_hint _ t Hm) as [Si So].
  split; rewrite ?Si, ?So; cbn [t_infomask or_infomask].
  - rewrite !has_lor. intros _ H. by apply orb_false_iff in H as [_ H].
  - done.
  - rewrite has_lor, orb_false_r, locked_only_hint, deleter_hint by done. done.
  - rewrite has_lor, orb_false_r, held_hint by done. done.
  - rewrite !has_lor, !orb_false_r, locked_only_hint, held_hint by done. done.
Qed.

Lemma set_xmax_invalid t :
  HEAP_XMAX_IS_LOCKED_ONLY (t_infomask t) = true \/ aborted (deleter E t) -> held t = false ->
  RowInv t -> RowInv (or_infomask HEAP_XMAX_INVALID t).
Proof.
  intros Hd Hf [T [A B C F D]]. assert (Hm : hint_mask HEAP_XMAX_INVALID) by (by right; right; right).
  split.
  { apply RowOk_hint; [done| |done]. rewrite !xmin_frozen_bits. cbn. by rewrite !has_lor, !orb_false_r. }
  destruct (settled_hint _ t Hm) as [Si So].
  split; rewrite ?Si, ?So; cbn [t_infomask or_infomask].
  - rewrite !has_lor, !orb_false_r. done.
  - rewrite !has_lor, !orb_false_r. done.
  - intros _. by rewrite locked_only_hint, deleter_hint.
  - intros _. by rewrite held_hint.
  - rewrite !has_lor, !orb_false_r, locked_only_hint, held_hint by done. done.
Qed.

Lemma set_xmax_committed t :
  has (t_infomask t) HEAP_XMAX_IS_MULTI = false -> committed (xmax_raw t) = true ->
  RowInv t -> RowInv (or_infomask HEAP_XMAX_COMMITTED t).
Proof.
  intros Hm' Hc [T [A B C F D]]. assert (Hm : hint_mask HEAP_XMAX_COMMITTED) by (by right; right; left).
  split.
  { apply RowOk_hint; [done| |done]. rewrite !xmin_frozen_bits. cbn. by rewrite !has_lor, !orb_false_r. }
  destruct (settled_hint _ t Hm) as [Si So].
  split; rewrite ?Si, ?So; cbn [t_infomask or_infomask].
  - rewrite !has_lor, !orb_false_r. done.
  - rewrite !has_lor, !orb_false_r. done.
  - rewrite !has_lor, !orb_false_r, locked_only_hint, deleter_hint by done. done.
  - rewrite !has_lor, !orb_false_r, held_hint by done. done.
  - intros _. right. by rewrite has_lor, Hm'.
Qed.

Lemma hinted_or mask t t' : hinted t t' -> hint_mask mask -> hinted t (or_infomask mask t').
Proof. intros H Hm. eapply rtc_r; [done|]. by exists mask. Qed.

Lemma hinted_fields t t' :
  hinted t t' ->
  t_choice t' = t_choice t /\ t_ctid t' = t_ctid t /\ t_infomask2 t' = t_infomask2 t /\
  t_hoff t' = t_hoff t /\
  HEAP_XMAX_IS_LOCKED_ONLY (t_infomask t') = HEAP_XMAX_IS_LOCKED_ONLY (t_infomask t) /\
  HEAP_LOCKED_UPGRADED (t_infomask t') = HEAP_LOCKED_UPGRADED (t_infomask t) /\
  has (t_infomask t') HEAP_XMAX_IS_MULTI = has (t_infomask t) HEAP_XMAX_IS_MULTI /\
  has (t_infomask t') HEAP_COMBOCID = has (t_infomask t) HEAP_COMBOCID.
Proof.
  induction 1 as [|t1 t2 t3 (mask & Hm & ->) _ IH]; [done|].
  destruct IH as (-> & -> & -> & -> & -> & -> & -> & ->). cbn.
  rewrite locked_only_hint, locked_upgraded_hint, !(has_hint mask) by done. done.
Qed.

Lemma hinted_moved t t' : hinted t t' -> moved t' = moved t.
Proof.
  induction 1 as [|t1 t2 t3 (mask & Hm & ->) _ IH]; [done|]. by rewrite IH, moved_hint.
Qed.

Lemma hinted_settled t t' : hinted t t' -> settled_in t' = settled_in t /\ settled_out t' = settled_out t.
Proof.
  induction 1 as [|t1 t2 t3 (mask & Hm & ->) _ [IH1 IH2]]; [done|].
  destruct (settled_hint _ t1 Hm) as [<- <-]. by rewrite IH1, IH2.
Qed.

Lemma hinted_deleter t t' : hinted t t' -> deleter E t' = deleter E t.
Proof.
  intros (Hc & _ & _ & _ & _ & _ & Hm & _)%hinted_fields. unfold deleter, xmax_raw. by rewrite Hm, Hc.
Qed.

Lemma hinted_cids t t' : hinted t t' -> GetCmin E t' = GetCmin E t /\ GetCmax E t' = GetCmax E t.
Proof.
  intros (Hc & _ & _ & _ & _ & _ & _ & Hm)%hinted_fields.
  unfold GetCmin, GetCmax, HeapTupleHeaderGetCmin, HeapTupleHeaderGetCmax, raw_command_id.
  by rewrite Hm, Hc.
Qed.

Lemma deleter_single t :
  has (t_infomask t) HEAP_XMAX_IS_MULTI = false -> deleter E t = xmax_raw t.
Proof. intros H. unfold deleter. by rewrite H. Qed.

Lemma hinted_held t t' : hinted t t' -> held t' = held t.
Proof.
  intros (Hc & _ & _ & _ & LO & _ & MU & _)%hinted_fields. unfold held, xmax_raw. by rewrite LO, MU, Hc.
Qed.

(** An ended deleter is free to be hinted away, be it our own rolled-back
    subtransaction or anybody's aborted transaction. *)
Lemma aborted_free t :
  has (t_infomask t) HEAP_XMAX_IS_MULTI = false -> aborted (deleter E t) -> held t = false.
Proof. intros MU [_ H]. unfold held. by rewrite MU, <- (deleter_single t MU). Qed.

(** *** Rules for the steps of a routine *)

Lemma post_tup {R} (Q : HeapTupleHeaderData -> VState R -> Prop) s :
  Q (v_tup s) s -> post tup Q s.
Proof. intros H. by exists (v_tup s), s. Qed.

Lemma post_SetHintBits {R} buffer mask x (Q : unit -> VState R -> Prop) s :
  x = InvalidTransactionId \/ committed x = true ->
  Q tt s ->
  (forall s', v_tup s' = or_infomask mask (v_tup s) -> v_res s' = v_res s -> Q tt s') ->
  post (SetHintBits E buffer mask x) Q s.
Proof.
  intros Hx Qs Qh. assert (exists b, hint_allowed E buffer x = Ok b) as [b Hb].
  { unfold hint_allowed. destruct (TransactionIdIsValid x) eqn:V; [|by eexists].
    destruct Hx as [->|Hx]; [done|]. destruct (env_commit_lsn x Hx) as [l ->]. by eexists. }
  apply post_bind, (post_lift _ b); [done|]. destruct b; [|by apply post_ret].
  unfold write_hint. apply post_bind, post_put, post_bind, (post_lift _ tt); [apply env_mark_dirty|].
  apply post_put. by apply Qh.
Qed.

Lemma HeapTupleGetUpdateXid_multi t :
  has (t_infomask t) HEAP_XMAX_IS_MULTI = true -> HeapTupleGetUpdateXid E t = Ok (deleter E t).
Proof.
  intros H. unfold HeapTupleGetUpdateXid, MultiXactIdGetUpdateXid, deleter. rewrite H.
  destruct (env_members (xmax_raw t) false) as [[ms|] ->]; done.
Qed.

Lemma running_ok multi b : exists r, MultiXactIdIsRunning E multi b = Ok r.
Proof.
  unfold MultiXactIdIsRunning. destruct (env_members multi b) as [o ->]. cbn.
  destruct o as [ms|]; [|by eexists]. destruct (existsb _ ms); [by eexists|].
  induction ms as [|m ms [r IH]]; cbn; [by eexists|]. rewrite env_in_progress. cbn.
  destruct (running (mxid m)); [by eexists | by exists r].
Qed.

Lemma held_multi t lo :
  has (t_infomask t) HEAP_XMAX_IS_MULTI = true -> HEAP_XMAX_IS_LOCKED_ONLY (t_infomask t) = lo ->
  MultiXactIdIsRunning E (xmax_raw t) lo = Ok (held t).
Proof.
  intros MU <-. unfold held. rewrite MU.
  by destruct (running_ok (xmax_raw t) (HEAP_XMAX_IS_LOCKED_ONLY (t_infomask t))) as [b ->].
Qed.

Lemma any_in_progress_false ms :
  any_in_progress E ms = Ok false -> Forall (fun m => running (mxid m) = false) ms.
Proof.
  induction ms as [|m ms IH]; cbn; [done|]. rewrite env_in_progress. cbn.
  destruct (running (mxid m)) eqn:Rn; [done|]. auto.
Qed.

(** The updater of a multixact nobody holds has finished. *)
Lemma held_deleter t :
  has (t_infomask t) HEAP_XMAX_IS_MULTI = true -> HEAP_XMAX_IS_LOCKED_ONLY (t_infomask t) = false ->
  held t = false -> running (deleter E t) = false.
Proof.
  intros MU LO H. pose proof (held_multi t false MU LO) as HR. rewrite H in HR.
  unfold MultiXactIdIsRunning in HR. unfold deleter. rewrite MU.
  destruct (env_members (xmax_raw t) false) as [[ms|] Hm]; rewrite Hm in *; cbn in *; [|apply env_invalid].
  destruct (existsb _ ms); [done|]. apply any_in_progress_false in HR.
  clear Hm. induction HR as [|m ms Hn _ IH]; cbn; [apply env_invalid|].
  by destruct (ISUPDATE_from_mxstatus (mxstatus m)).
Qed.

Lemma held_single t :
  has (t_infomask t) HEAP_XMAX_IS_MULTI = false -> held t = running (xmax_raw t).
Proof. intros MU. unfold held. by rewrite MU. Qed.

Lemma not_current_committed x : committed x = true -> IsCurrent E x = false.
Proof.
  intros H. destruct (IsCurrent E x) eqn:C; [|done].
  apply env_current in C. apply env_committed in H. congruence.
Qed.

Lemma not_current_aborted x : aborted x -> IsCurrent E x = false.
Proof.
  intros [_ H]. destruct (IsCurrent E x) eqn:C; [|done]. apply env_current in C. congruence.
Qed.
End Spec.

#[export] Hint Resolve not_current_committed not_current_aborted set_xmin_committed set_xmin_invalid
  set_xmax_invalid set_xmax_committed : pg.

(** One structural step of a routine: read the header, return, branch.  Oracle
    calls and hint writes are left to the caller. *)
Ltac post_step :=
  lazymatch goal with
  | |- post (mbnd tup _) _ _ => apply post_bind, post_tup
  | |- post tup _ _ => apply post_tup
  | |- post (mret _) _ _ => apply post_ret
  | |- post (returning _) _ _ => apply post_ret
  | |- post fall_through _ _ => apply post_ret
  | |- post (mbnd (mret _) _) _ _ => apply post_bind, post_ret
  | |- post (mbnd (if ?b then _ else _) _) _ _ => destruct b eqn:?
  | |- post (if ?b then _ else _) _ _ => destruct b eqn:?
  | |- post (early _ _) _ _ => apply post_early
  end.

(** Answer a call to an oracle with the equation [H : r = Ok v]. *)
Ltac post_call H := apply post_bind; eapply post_lift; [apply H|].

Ltac bool_hyps :=
  repeat match goal with
  | H : negb _ = true |- _ => apply negb_true_iff in H
  | H : negb _ = false |- _ => apply negb_false_iff in H
  end.

(** ** Where a routine may be *)

Section AtRow.
Context (E : XactEnv) (committed running : Z -> bool).
Context `{!EnvOk E committed running}.
Context {R : Type} (t : HeapTupleHeaderData) (r0 : R) (buffer : Z).

(** A routine that started on [t]: the same row, true hints, and the
    out-parameter at [r0]. *)
Definition at_row (s : VState R) : Prop :=
  hinted t (v_tup s) /\ RowInv E committed running (v_tup s) /\ v_res s = r0.

Lemma at_row_start s : v_tup s = t -> v_res s = r0 -> RowInv E committed running t -> at_row s.
Proof. intros Ht Hr H. unfold at_row. rewrite Ht. split; [apply rtc_refl | done]. Qed.

(** On a row without relocation marks. *)
Lemma at_row_tuple s : TupleInv E committed running t -> at_row s -> TupleInv E committed running (v_tup s).
Proof.
  intros I (H & J & _). apply TupleInv_intro; [|done]. rewrite (hinted_moved _ _ H). by apply (TupleInv_moved E committed running).
Qed.

Lemma at_row_settled s :
  at_row s ->
  settled_in committed running (v_tup s) = settled_in committed running t /\ settled_out committed running (v_tup s) = settled_out committed running t.
Proof. intros (H & _). by apply hinted_settled. Qed.

Lemma at_row_xmin s : at_row s -> xmin_raw (v_tup s) = xmin_raw t.
Proof. intros (H & _). apply hinted_fields in H as (H & _). unfold xmin_raw. by rewrite H. Qed.

Lemma at_row_xmax s : at_row s -> xmax_raw (v_tup s) = xmax_raw t.
Proof. intros (H & _). apply hinted_fields in H as (H & _). unfold xmax_raw. by rewrite H. Qed.

(** Writing a true hint and returning: whether or not the write is allowed now,
    the routine stays on the row. *)
Lemma post_hint {A} mask x (a : A) (Q : A -> VState R -> Prop) s :
  at_row s -> hint_mask mask -> RowInv E committed running (or_infomask mask (v_tup s)) ->
  x = InvalidTransactionId \/ committed x = true ->
  (forall s', at_row s' -> Q a s') ->
  post (mbnd (SetHintBits E buffer mask x) (fun _ => mret a)) Q s.
Proof.
  intros (H1 & H2 & H3) Hm Hi Hx HQ. apply post_bind. apply (post_SetHintBits E committed running); [done| |].
  - apply post_ret, HQ. done.
  - intros s' Ht Hr. apply post_ret, HQ. unfold at_row. rewrite Ht, Hr. split; [|done]. by apply hinted_or.
Qed.

Lemma post_xmin_committed {A} x (a : A) (Q : A -> VState R -> Prop) s :
  at_row s -> has (t_infomask (v_tup s)) HEAP_XMIN_INVALID = false -> settled_in committed running t ->
  x = InvalidTransactionId \/ committed x = true -> (forall s', at_row s' -> Q a s') ->
  post (mbnd (SetHintBits E buffer HEAP_XMIN_COMMITTED x) (fun _ => mret a)) Q s.
Proof.
  intros H Hi Hc. apply post_hint; [done | by left |].
  apply (set_xmin_committed E committed running); [done | by rewrite (proj1 (at_row_settled _ H)) | apply H].
Qed.

Lemma post_xmin_invalid {A} (a : A) (Q : A -> VState R -> Prop) s :
  at_row s -> has (t_infomask (v_tup s)) HEAP_XMIN_COMMITTED = false ->
  settled_out committed running t -> (forall s', at_row s' -> Q a s') ->
  post (mbnd (SetHintBits E buffer HEAP_XMIN_INVALID InvalidTransactionId) (fun _ => mret a)) Q s.
Proof.
  intros H Hi Hc. apply post_hint; [done | by right; left | | by left].
  apply (set_xmin_invalid E committed running); [done | by rewrite (proj2 (at_row_settled _ H)) | apply H].
Qed.

Lemma post_xmax_invalid {A} (a : A) (Q : A -> VState R -> Prop) s :
  at_row s ->
  HEAP_XMAX_IS_LOCKED_ONLY (t_infomask t) = true \/ aborted committed running (deleter E t) ->
  held E running t = false -> (forall s', at_row s' -> Q a s') ->
  post (mbnd (SetHintBits E buffer HEAP_XMAX_INVALID InvalidTransactionId) (fun _ => mret a)) Q s.
Proof.
  intros H Hd Hf. apply post_hint; [done | by right; right; right | | by left].
  destruct H as (H1 & H2 & _).
  apply (set_xmax_invalid E committed running); [|by rewrite (hinted_held E running t)|done].
  rewrite (hinted_deleter E t) by done. by apply hinted_fields in H1 as (_ & _ & _ & _ & -> & _).
Qed.

Lemma post_xmax_committed {A} (a : A) (Q : A -> VState R -> Prop) s :
  at_row s -> has (t_infomask t) HEAP_XMAX_IS_MULTI = false -> committed (xmax_raw t) = true ->
  (forall s', at_row s' -> Q a s') ->
  post (mbnd (SetHintBits E buffer HEAP_XMAX_COMMITTED (xmax_raw t)) (fun _ => mret a)) Q s.
Proof.
  intros H Hm Hc. apply post_hint; [done | by right; right; left | | by right].
  apply (set_xmax_committed E committed running); [|by rewrite at_row_xmax | apply H].
  destruct H as (H1 & _). by apply hinted_fields in H1 as (_ & _ & _ & _ & _ & _ & -> & _).
Qed.
End AtRow.

(** ** MVCC visibility *)

Section MvccSpec.
Context (E : XactEnv) (committed running : Z -> bool).
Context `{!EnvOk E committed running}.
Context (snapshot : SnapshotData) (insnap : Z -> bool).

(** [insnap] is the snapshot's verdict; a foreign transaction the snapshot does
    not hold as running has finished. *)
Definition SnapOk : Prop :=
  forall x, XidInSnapshot E x snapshot = Ok (insnap x) /\
    (insnap x = false -> IsCurrent E x = false -> running x = false).

(** Effects of [x], stamped with command id [cid] if [x] is ours, are visible. *)
Definition sees (x cid : Z) : bool :=
  if IsCurrent E x then cid <? curcid snapshot else negb (insnap x) && committed x.

Definition cid_or_0 (r : result Z) : Z := match r with Ok c => c | _ => 0 end.
Definition cmin_of (t : HeapTupleHeaderData) : Z := cid_or_0 (GetCmin E t).
Definition cmax_of (t : HeapTupleHeaderData) : Z := cid_or_0 (GetCmax E t).

(** The inserter's effects are visible and no deleter's are; locking a row is
    not deleting it.  No hint bit enters, apart from the frozen mark. *)
Definition mvcc_visible (t : HeapTupleHeaderData) : bool :=
  (xmin_frozen t || sees (xmin_raw t) (cmin_of t))
  && negb (negb (HEAP_XMAX_IS_LOCKED_ONLY (t_infomask t))
           && sees (deleter E t) (cmax_of t)).

(** The command ids of our own insertions and deletions are on record. *)
Definition CidsOk (t : HeapTupleHeaderData) : Prop :=
  (IsCurrent E (xmin_raw t) = true -> GetCmin E t = Ok (cmin_of t)) /\
  (IsCurrent E (deleter E t) = true -> GetCmax E t = Ok (cmax_of t)).


Hypothesis SnapH : SnapOk.
Variable buffer : Z.

Abbreviation at_row := (at_row E committed running).
Abbreviation TupleInv := (TupleInv E committed running).
Abbreviation RowInv := (RowInv E committed running).

(** Two readings of the cutoff [cid >= curcid]. *)
Lemma cid_cutoff cid : (cid >=? curcid snapshot) = negb (cid <? curcid snapshot).
Proof. lia. Qed.

Lemma sees_aborted x cid : aborted committed running x -> sees x cid = false.
Proof.
  intros H. unfold sees. rewrite (not_current_aborted E committed running x H), (proj1 H). apply andb_false_r.
Qed.

Lemma sees_committed x cid : committed x = true -> sees x cid = negb (insnap x).
Proof.
  intros H. unfold sees. rewrite (not_current_committed E committed running x H), H. apply andb_true_r.
Qed.

Lemma sees_own x cid : IsCurrent E x = true -> sees x cid = (cid <? curcid snapshot).
Proof. intros H. unfold sees. by rewrite H. Qed.

(** A foreign transaction the snapshot does not hold as running has finished. *)
Lemma foreign_finished x cid :
  IsCurrent E x = false -> insnap x = false ->
  DidCommit E x = Ok (committed x) /\ sees x cid = committed x /\
  (committed x = false -> aborted committed running x).
Proof.
  intros C I. pose proof (proj2 (SnapH x) I C) as Rn. split; [by apply env_did_commit|].
  unfold sees. by rewrite C, I.
Qed.

Lemma foreign_running x cid : IsCurrent E x = false -> insnap x = true -> sees x cid = false.
Proof. intros C I. unfold sees. by rewrite C, I. Qed.

(** A deletion by our own transaction, read off the recorded cmax. *)
Lemma post_own_cmax {R A} t (a b : A) (Q : A -> VState R -> Prop) s :
  CidsOk t -> IsCurrent E (deleter E t) = true ->
  Q (if cmax_of t <? curcid snapshot then b else a) s ->
  post (mbnd (mlift (GetCmax E t))
          (fun c => if c >=? curcid snapshot then mret a else mret b)) Q s.
Proof.
  intros [_ H] HC HQ. apply post_bind, (post_lift _ (cmax_of t)); [by apply H|]. rewrite cid_cutoff.
  destruct (cmax_of t <? curcid snapshot); by apply post_ret.
Qed.

Lemma post_own_cmax_sees {R} {A : Type} (P : VState R -> Prop) t (f : bool -> A) s :
  CidsOk t -> IsCurrent E (deleter E t) = true -> P s ->
  post (mbnd (mlift (GetCmax E t))
          (fun c => if c >=? curcid snapshot then mret (f true) else mret (f false)))
    (fun v s' => P s' /\ v = f (negb (sees (deleter E t) (cmax_of t)))) s.
Proof.
  intros HC CD HP. apply post_own_cmax; [done..|]. split; [done|].
  rewrite (sees_own _ _ CD). by destruct (cmax_of t <? curcid snapshot).
Qed.

Lemma mvcc_own_post t (s : VState unit) :
  v_tup s = t -> TupleInv t -> CidsOk t ->
  xmin_frozen t = false -> IsCurrent E (xmin_raw t) = true ->
  post (mvcc_own E (DirectResolve E) snapshot buffer t)
    (fun o s' => at_row t tt s' /\ o = Some (mvcc_visible t)) s.
Proof.
  intros Ht I HC Fr Cur.
  assert (A : at_row t tt s) by (apply at_row_start; [done | by destruct (v_res s) | by apply TupleInv_row]).
  destruct I as [[_ _ _ Own] [_ _ XI _ _]]. specialize (Own Cur Fr).
  unfold mvcc_visible. rewrite Fr, (sees_own (xmin_raw t)) by done. cbn [orb].
  unfold mvcc_own. apply post_bind, (post_lift _ (cmin_of t)); [by apply HC|]. rewrite cid_cutoff.
  destruct (cmin_of t <? curcid snapshot); cbn [negb andb]; [|by post_step].
  destruct (HEAP_XMAX_IS_LOCKED_ONLY (t_infomask t)); cbn [negb andb].
  { destruct (has (t_infomask t) HEAP_XMAX_INVALID); by post_step. }
  specialize (Own eq_refl).
  destruct (has (t_infomask t) HEAP_XMAX_INVALID).
  { post_step. destruct (XI eq_refl) as [?|HA]; [done|]. by rewrite (sees_aborted _ _ HA). }
  destruct (has (t_infomask t) HEAP_XMAX_IS_MULTI) eqn:MU.
  - apply post_bind, (post_lift _ (deleter E t)); [by apply (HeapTupleGetUpdateXid_multi E committed running)|].
    destruct (IsCurrent E (deleter E t)) eqn:CD; cbn [negb].
    + by apply post_own_cmax_sees with (f := Some).
    + destruct Own as [?|HA]; [congruence|]. post_step. by rewrite (sees_aborted _ _ HA).
  - rewrite <- (deleter_single E t MU). destruct (IsCurrent E (deleter E t)) eqn:CD; cbn [negb].
    + by apply post_own_cmax_sees with (f := Some).
    + destruct Own as [?|HA]; [congruence|]. apply (post_xmax_invalid E committed running t tt); [done | by right | by apply (aborted_free E committed) |].
      intros s' Hs. by rewrite (sees_aborted _ _ HA).
Qed.

Lemma mvcc_xmin_post t (s : VState unit) :
  v_tup s = t -> TupleInv t -> CidsOk t ->
  post (mvcc_xmin E (DirectResolve E) snapshot buffer)
    (fun o s' => at_row t tt s' /\
       match o with
       | Some v => v = mvcc_visible t
       | None => xmin_frozen t || sees (xmin_raw t) (cmin_of t) = true
       end) s.
Proof.
  intros Ht I HC. unfold mvcc_xmin. post_step. rewrite Ht.
  assert (A : at_row t tt s) by (apply at_row_start; [done | by destruct (v_res s) | by apply TupleInv_row]).
  pose proof (TupleInv_moved _ _ _ _ I) as Mv. destruct (plain_hints _ _ _ _ I) as [H1 H2]. pose proof I as [[T1 T2 _ _] _].
  unfold xmin_committed. rewrite xmin_invalid_bits, xmin_frozen_bits.
  destruct (has (t_infomask t) HEAP_XMIN_COMMITTED) eqn:XC,
    (has (t_infomask t) HEAP_XMIN_INVALID) eqn:XI; cbn [negb andb orb].
  - by repeat post_step.
  - rewrite (sees_committed _ _ (H1 eq_refl eq_refl)). cbn. apply post_bind. eapply post_lift; [apply SnapH|].
    destruct (insnap (xmin_raw t)) eqn:IS; post_step; (split; [done|]); [|done].
    unfold mvcc_visible. by rewrite xmin_frozen_bits, XC, XI, (sees_committed _ _ (H1 eq_refl eq_refl)), IS.
  - post_step. split; [done|]. unfold mvcc_visible.
    by rewrite xmin_frozen_bits, XC, (sees_aborted _ _ (H2 eq_refl eq_refl)).
  - rewrite T1, T2. assert (Fr : xmin_frozen t = false) by (by rewrite xmin_frozen_bits, XC).
    destruct (IsCurrent E (xmin_raw t)) eqn:Cur.
    { eapply post_impl; [by apply (mvcc_own_post t)|]. intros o s' [? ->]. done. }
    unfold mvcc_visible. rewrite Fr. cbn [orb]. cbn. apply post_bind. eapply post_lift; [apply SnapH|].
    destruct (insnap (xmin_raw t)) eqn:IS; [by post_step; rewrite foreign_running|].
    destruct (foreign_finished (xmin_raw t) (cmin_of t) Cur IS) as (HD & -> & HA).
    apply post_bind. eapply post_lift; [done|]. destruct (committed (xmin_raw t)) eqn:Com.
    + apply (post_xmin_committed E committed running t tt); try done; [by rewrite Ht | by rewrite settled_in_plain | by right].
    + apply (post_xmin_invalid E committed running t tt); try done; [by rewrite Ht | rewrite settled_out_plain by done; by apply HA].
Qed.

Lemma mvcc_xmax_post t (s : VState unit) :
  v_tup s = t -> RowInv t -> CidsOk t ->
  post (mvcc_xmax E (DirectResolve E) snapshot buffer)
    (fun v s' => at_row t tt s' /\
       v = negb (negb (HEAP_XMAX_IS_LOCKED_ONLY (t_infomask t)) && sees (deleter E t) (cmax_of t))) s.
Proof.
  intros Ht I HC. unfold mvcc_xmax. post_step. rewrite Ht.
  assert (A : at_row t tt s) by (apply at_row_start; [done | by destruct (v_res s) | done]).
  pose proof I as [_ [_ _ H3 _ H4]].
  destruct (HEAP_XMAX_IS_LOCKED_ONLY (t_infomask t)) eqn:LO; cbn [negb andb].
  { destruct (has (t_infomask t) HEAP_XMAX_INVALID); by post_step. }
  destruct (has (t_infomask t) HEAP_XMAX_INVALID) eqn:XMI.
  { post_step. destruct (H3 eq_refl) as [?|HA]; [done|]. by rewrite (sees_aborted _ _ HA). }
  destruct (has (t_infomask t) HEAP_XMAX_IS_MULTI) eqn:MU.
  - apply post_bind, (post_lift _ (deleter E t)); [by apply (HeapTupleGetUpdateXid_multi E committed running)|].
    destruct (IsCurrent E (deleter E t)) eqn:CD.
    { by apply post_own_cmax_sees with (f := id). }
    cbn. apply post_bind. eapply post_lift; [apply SnapH|].
    destruct (insnap (deleter E t)) eqn:IS; [by post_step; rewrite foreign_running|].
    destruct (foreign_finished (deleter E t) (cmax_of t) CD IS) as (HD & -> & HA).
    apply post_bind. eapply post_lift; [done|]. by destruct (committed (deleter E t)); post_step.
  - rewrite <- (deleter_single E t MU) in *.
    destruct (has (t_infomask t) HEAP_XMAX_COMMITTED) eqn:XMC; cbn [negb].
    + destruct (H4 eq_refl) as [[? _]|[_ Com]]; [done|]. cbn. apply post_bind. eapply post_lift; [apply SnapH|].
      rewrite (sees_committed _ _ Com). by destruct (insnap (deleter E t)); post_step.
    + destruct (IsCurrent E (deleter E t)) eqn:CD.
      { by apply post_own_cmax_sees with (f := id). }
      cbn. apply post_bind. eapply post_lift; [apply SnapH|].
      destruct (insnap (deleter E t)) eqn:IS; [by post_step; rewrite foreign_running|].
      destruct (foreign_finished (deleter E t) (cmax_of t) CD IS) as (HD & -> & HA).
      apply post_bind. eapply post_lift; [done|]. destruct (committed (deleter E t)) eqn:Com; cbn [negb].
      * rewrite (deleter_single E t MU) in *. by apply (post_xmax_committed E committed running t tt).
      * apply (post_xmax_invalid E committed running t tt); try done.
        -- right. by apply HA.
        -- apply (aborted_free E committed); [done | by apply HA].
Qed.

Lemma at_row_trans {R} t t' (r0 : R) s : hinted t t' -> at_row t' r0 s -> at_row t r0 s.
Proof. intros H (H1 & H2 & H3). split; [by etrans | done]. Qed.

Lemma CidsOk_hinted t t' : hinted t t' -> CidsOk t -> CidsOk t'.
Proof.
  intros Hh [H1 H2]. destruct (hinted_cids E _ _ Hh) as [C1 C2].
  pose proof (hinted_fields _ _ Hh) as (Hc & _).
  unfold CidsOk, cmin_of, cmax_of, xmin_raw in *. by rewrite C1, C2, (hinted_deleter E _ _ Hh), Hc.
Qed.

Lemma mvcc_post t (s : VState unit) :
  v_tup s = t -> TupleInv t -> CidsOk t ->
  post (HeapTupleSatisfiesMVCC E snapshot buffer)
    (fun v s' => v = mvcc_visible t /\ at_row t tt s') s.
Proof.
  intros Ht I HC. apply post_early. eapply post_impl; [by apply (mvcc_xmin_post t)|].
  intros [v|] s1 [A HV]; [done|]. pose proof A as (Hh & I1 & _).
  eapply post_impl; [apply (mvcc_xmax_post (v_tup s1) s1 eq_refl I1); by eapply CidsOk_hinted|].
  intros v s2 [A2 ->]. split; [|by eapply at_row_trans].
  unfold mvcc_visible. rewrite HV, (hinted_deleter E _ _ Hh).
  unfold cmax_of. rewrite (proj2 (hinted_cids E _ _ Hh)).
  by apply hinted_fields in Hh as (_ & _ & _ & _ & -> & _).
Qed.
End MvccSpec.
