(* ===== verification/VacuumSpec.v ===== *)
(** * What vacuum may remove

    [HeapTupleSatisfiesVacuumHorizon] classifies a tuple by the state of its
    inserter and its deleter; what it calls dead is invisible to every snapshot
    the removal horizon protects. *)

From S2P Require Import Prelude Xid ItemPtr HeapTuple ComboCid Snapshot Visibility VisibilitySpec.

Section Horizon.
Context (E : XactEnv) (committed running : Z -> bool).
Context `{!EnvOk E committed running}.
Variable buffer : Z.

Abbreviation at_row := (at_row E committed running).
Abbreviation TupleInv := (TupleInv E committed running).
Abbreviation RowInv := (RowInv E committed running).
Abbreviation aborted := (aborted committed running).

(** The classification, free of hint bits and of evaluation order. *)
Definition htsv (t : HeapTupleHeaderData) : HTSV_Result :=
  let d := deleter E t in
  let deletes := negb (HEAP_XMAX_IS_LOCKED_ONLY (t_infomask t)) in
  if xmin_frozen t || committed (xmin_raw t) then
    if deletes && running d then HEAPTUPLE_DELETE_IN_PROGRESS
    else if deletes && committed d then HEAPTUPLE_RECENTLY_DEAD
    else HEAPTUPLE_LIVE
  else if running (xmin_raw t) then
    if IsCurrent E (xmin_raw t) && deletes && IsCurrent E d then HEAPTUPLE_DELETE_IN_PROGRESS
    else HEAPTUPLE_INSERT_IN_PROGRESS
  else HEAPTUPLE_DEAD.

(** The transaction to compare with the horizon, if any. *)
Definition htsv_dead_after (t : HeapTupleHeaderData) : Z :=
  if bool_decide (htsv t = HEAPTUPLE_RECENTLY_DEAD) then deleter E t else InvalidTransactionId.

Lemma current_running x : IsCurrent E x = true -> running x = true /\ committed x = false.
Proof.
  intros H. apply env_current in H. split; [done|].
  destruct (committed x) eqn:C; [|done]. apply env_committed in C. congruence.
Qed.

Lemma invalid_aborted : aborted InvalidTransactionId.
Proof. apply env_invalid. Qed.

Lemma deleter_invalid t : xmax_raw t = InvalidTransactionId -> deleter E t = InvalidTransactionId.
Proof.
  intros H. unfold deleter. rewrite H, env_members_invalid. by destruct (has _ _).
Qed.

(** Our own uncommitted tuple is merely locked, unless one of our own live
    subtransactions deleted it. *)
Lemma own_only_locked t :
  TupleOk E committed running t -> IsCurrent E (xmin_raw t) = true -> xmin_frozen t = false ->
  has (t_infomask t) HEAP_XMAX_INVALID = false ->
  HEAP_XMAX_IS_LOCKED_ONLY (t_infomask t) = false ->
  exists b, HeapTupleHeaderIsOnlyLocked E t = Ok b /\
    (b = true -> IsCurrent E (deleter E t) = false) /\
    HeapTupleHeaderGetUpdateXid E t = Ok (deleter E t).
Proof.
  intros [_ _ _ Own] Cur Fr XI LO. specialize (Own Cur Fr LO).
  assert (LK : has (t_infomask t) HEAP_XMAX_LOCK_ONLY = false).
  { unfold HEAP_XMAX_IS_LOCKED_ONLY in LO. by apply orb_false_iff in LO as [? _]. }
  unfold HeapTupleHeaderIsOnlyLocked, HeapTupleHeaderGetUpdateXid. rewrite XI, LK, LO. cbn [negb andb].
  assert (UX : (if has (t_infomask t) HEAP_XMAX_IS_MULTI && true
                then MultiXactIdGetUpdateXid E (xmax_raw t) else Ok (xmax_raw t)) = Ok (deleter E t)).
  { destruct (has (t_infomask t) HEAP_XMAX_IS_MULTI) eqn:MU; cbn.
    - by apply (HeapTupleGetUpdateXid_multi E committed running).
    - by rewrite deleter_single. }
  rewrite UX. clear UX. destruct (TransactionIdIsValid (xmax_raw t)) eqn:V; cbn [negb].
  2:{ exists true. split; [done|]. split; [|done]. intros _. rewrite deleter_invalid.
      - apply (not_current_aborted E committed running), invalid_aborted.
      - unfold TransactionIdIsValid in V. lia. }
  destruct (has (t_infomask t) HEAP_XMAX_IS_MULTI) eqn:MU; cbn [negb]; [|by exists false].
  rewrite (HeapTupleGetUpdateXid_multi E committed running) by done. cbn [rbind].
  destruct (IsCurrent E (deleter E t)) eqn:CD; [by exists false|].
  destruct Own as [?|[HA HB]]; [congruence|].
  rewrite env_in_progress, HB. cbn. rewrite (env_did_commit _ HB), HA. by exists true.
Qed.

Lemma horizon_own_post t s :
  v_tup s = t -> TupleInv t -> at_row t InvalidTransactionId s ->
  xmin_frozen t = false -> IsCurrent E (xmin_raw t) = true ->
  post (horizon_own E t) (fun o s' => at_row t InvalidTransactionId s' /\ o = Some (htsv t)) s.
Proof.
  intros Ht [T H] A Fr Cur. destruct (current_running _ Cur) as [Rn Cm].
  unfold htsv. rewrite Fr, Cm, Rn, Cur. cbn [orb andb]. unfold horizon_own.
  destruct (has (t_infomask t) HEAP_XMAX_INVALID) eqn:XI.
  { post_step. split; [done|]. destruct (hint_xmax_invalid _ _ _ _ H XI) as [->|HA]; [done|].
    by rewrite (not_current_aborted E committed running _ HA), andb_false_r. }
  destruct (HEAP_XMAX_IS_LOCKED_ONLY (t_infomask t)) eqn:LO.
  { by repeat post_step. }
  destruct (own_only_locked t T Cur Fr XI LO) as (b & Hb & Hd & Hu).
  apply post_bind, (post_lift _ b); [done|]. destruct b.
  { post_step. by rewrite (Hd eq_refl). }
  apply post_bind, (post_lift _ (deleter E t)); [done|].
  by destruct (IsCurrent E (deleter E t)); post_step.
Qed.

Lemma horizon_xmin_post t s :
  v_tup s = t -> TupleInv t -> at_row t InvalidTransactionId s ->
  post (horizon_xmin E buffer)
    (fun o s' => at_row t InvalidTransactionId s' /\
       match o with
       | Some v => v = htsv t /\ v <> HEAPTUPLE_RECENTLY_DEAD
       | None => xmin_frozen t || committed (xmin_raw t) = true
       end) s.
Proof.
  intros Ht I A. pose proof (TupleInv_moved _ _ _ _ I) as Mv. destruct (plain_hints _ _ _ _ I) as [H1 H2].
  pose proof I as [[T1 T2 _ _] _]. unfold horizon_xmin. post_step. rewrite Ht.
  unfold xmin_committed. rewrite xmin_invalid_bits, (xmin_frozen_bits t).
  destruct (has (t_infomask t) HEAP_XMIN_COMMITTED) eqn:XC,
    (has (t_infomask t) HEAP_XMIN_INVALID) eqn:XI; cbn [negb andb orb].
  - by repeat post_step.
  - post_step. split; [done|]. by apply H1.
  - post_step. split; [done|]. destruct (H2 eq_refl eq_refl) as [HA HB].
    unfold htsv. by rewrite (xmin_frozen_bits t), XC, HA, HB.
  - rewrite T1, T2. assert (Fr : xmin_frozen t = false) by (by rewrite xmin_frozen_bits, XC).
    destruct (IsCurrent E (xmin_raw t)) eqn:Cur.
    { eapply post_impl; [by apply horizon_own_post|]. intros o s' [? ->]. split; [done|]. split; [done|].
      destruct (current_running _ Cur) as [Rn Cm]. unfold htsv. rewrite Fr, Cm, Rn. cbn. by destruct (_ && _). }
    apply post_bind, (post_lift _ (running (xmin_raw t))); [apply env_in_progress|].
    destruct (running (xmin_raw t)) eqn:Rn.
    { post_step. split; [done|]. unfold htsv. rewrite Fr, Rn, Cur.
      destruct (committed (xmin_raw t)) eqn:Cm; [|done]. apply env_committed in Cm. congruence. }
    unfold xmin_finished. post_step. rewrite Ht.
    apply post_bind, (post_lift _ (committed (xmin_raw t))); [by apply env_did_commit|].
    destruct (committed (xmin_raw t)) eqn:Cm.
    + apply (post_xmin_committed E committed running t InvalidTransactionId); try done;
        [by rewrite Ht | by rewrite settled_in_plain | by right].
    + apply (post_xmin_invalid E committed running t InvalidTransactionId); try done; [by rewrite Ht | by rewrite settled_out_plain |].
      intros s' Hs. split; [done|]. unfold htsv. by rewrite Fr, Cm, Rn.
Qed.

(** A row that is only locked is live; its lock may be hinted away. *)
Lemma horizon_locked_post t s :
  RowInv t -> at_row t InvalidTransactionId s -> HEAP_XMAX_IS_LOCKED_ONLY (t_infomask t) = true ->
  post (horizon_xmax_body E buffer t)
    (fun v s' => v = HEAPTUPLE_LIVE /\ at_row t InvalidTransactionId s') s.
Proof.
  intros I A LO. unfold horizon_xmax_body. rewrite LO.
  assert (H : held E running t = false ->
              post (mbnd (SetHintBits E buffer HEAP_XMAX_INVALID InvalidTransactionId)
                      (fun _ => mret HEAPTUPLE_LIVE))
                (fun v s' => v = HEAPTUPLE_LIVE /\ at_row t InvalidTransactionId s') s).
  { intros Hf. apply (post_xmax_invalid E committed running t InvalidTransactionId);
      [done | by left | done | done]. }
  destruct (has (t_infomask t) HEAP_XMAX_INVALID); [by post_step|].
  destruct (has (t_infomask t) HEAP_XMAX_COMMITTED); cbn [negb]; [by post_step|].
  destruct (has (t_infomask t) HEAP_XMAX_IS_MULTI) eqn:MU.
  - destruct (HEAP_LOCKED_UPGRADED (t_infomask t)) eqn:UP; cbn [negb].
    { post_step. apply H. by apply (row_upgraded _ _ _ _ (proj1 I)). }
    apply post_bind; eapply post_lift; [by apply (held_multi E committed running)|].
    destruct (held E running t); [by post_step | by apply H].
  - apply post_bind, (post_lift _ (running (xmax_raw t))); [apply env_in_progress|].
    rewrite <- (held_single E running t MU).
    destruct (held E running t); [by post_step | by apply H].
Qed.

(** The deleter half, for a tuple whose inserter committed. *)
Lemma horizon_xmax_post t s :
  v_tup s = t -> RowInv t -> at_row t InvalidTransactionId s ->
  xmin_frozen t || committed (xmin_raw t) = true ->
  post (horizon_xmax E buffer)
    (fun v s' => v = htsv t /\ at_row t (htsv_dead_after t) s') s.
Proof.
  intros Ht I A Ins. pose proof I as [_ [_ _ H3 _ H4]]. unfold horizon_xmax. post_step. rewrite Ht.
  unfold htsv_dead_after, htsv. rewrite Ins.
  destruct (HEAP_XMAX_IS_LOCKED_ONLY (t_infomask t)) eqn:LO; cbn [negb andb].
  { by apply horizon_locked_post. }
  unfold horizon_xmax_body. rewrite LO.
  destruct (has (t_infomask t) HEAP_XMAX_INVALID) eqn:XI.
  { post_step. destruct (H3 eq_refl) as [?|[HA HB]]; [done|]. by rewrite HA, HB. }
  assert (Dead : forall s', at_row t InvalidTransactionId s' -> committed (deleter E t) = true ->
    post (mbnd (set_dead_after (deleter E t)) (fun _ => mret HEAPTUPLE_RECENTLY_DEAD))
      (fun v s1 => v = HEAPTUPLE_RECENTLY_DEAD /\ at_row t (deleter E t) s1) s').
  { intros s' (B1 & B2 & _) _. apply post_bind, post_put, post_ret. done. }
  destruct (has (t_infomask t) HEAP_XMAX_IS_MULTI) eqn:MU.
  - apply post_bind, (post_lift _ (deleter E t)); [by apply (HeapTupleGetUpdateXid_multi E committed running)|].
    apply post_bind, (post_lift _ (running (deleter E t))); [apply env_in_progress|].
    destruct (running (deleter E t)) eqn:Rn; [by post_step|].
    apply post_bind, (post_lift _ (committed (deleter E t))); [by apply env_did_commit|].
    destruct (committed (deleter E t)) eqn:Cm; [by apply Dead|].
    apply post_bind; eapply post_lift; [by apply (held_multi E committed running)|].
    destruct (held E running t) eqn:HL; cbn [negb]; [by post_step|].
    apply (post_xmax_invalid E committed running t InvalidTransactionId); try done. by right.
  - rewrite <- (deleter_single E t MU) in *.
    destruct (has (t_infomask t) HEAP_XMAX_COMMITTED) eqn:XMC; cbn [negb].
    { destruct (H4 eq_refl) as [[? _]|[_ Cm]]; [done|]. rewrite (env_committed _ Cm), Cm. by apply Dead. }
    apply post_bind, (post_lift _ (running (deleter E t))); [apply env_in_progress|].
    destruct (running (deleter E t)) eqn:Rn; [by post_step|].
    apply post_bind, (post_lift _ (committed (deleter E t))); [by apply env_did_commit|].
    destruct (committed (deleter E t)) eqn:Cm.
    + rewrite (deleter_single E t MU) in *. apply post_bind.
      apply (post_SetHintBits E committed running); [by right | by apply Dead |].
      intros s' Ht' Hr'. apply Dead; [|done]. destruct A as (B1 & B2 & B3).
      unfold at_row. rewrite Ht', Hr'. split; [|split; [|done]].
      * apply hinted_or; [done | by right; right; left].
      * rewrite Ht. by apply (set_xmax_committed E committed running).
    + apply (post_xmax_invalid E committed running t InvalidTransactionId); try done; [by right|].
      by apply (aborted_free E committed).
Qed.

Lemma hinted_frozen t t' : hinted t t' -> xmin_frozen t = true -> xmin_frozen t' = true.
Proof.
  rewrite !xmin_frozen_bits. induction 1 as [|t1 t2 t3 (mask & _ & ->) _ IH]; [done|].
  intros [A B]%andb_true_iff. apply IH. cbn. by rewrite !has_lor, A, B.
Qed.

Lemma htsv_hinted t t' :
  hinted t t' -> xmin_frozen t || committed (xmin_raw t) = true ->
  xmin_frozen t' || committed (xmin_raw t') = true /\ htsv t' = htsv t /\
  htsv_dead_after t' = htsv_dead_after t.
Proof.
  intros Hh Ins. pose proof (hinted_frozen _ _ Hh) as Fr. pose proof (hinted_deleter E _ _ Hh) as D.
  apply hinted_fields in Hh as (Hc & _ & _ & _ & LO & _).
  assert (Ins' : xmin_frozen t' || committed (xmin_raw t') = true).
  { unfold xmin_raw in *. rewrite Hc. apply orb_true_iff in Ins as [H|H]; [by rewrite Fr|].
    rewrite H. apply orb_true_r. }
  split; [done|]. unfold htsv_dead_after.
  assert (htsv t' = htsv t) as -> by (unfold htsv; by rewrite Ins, Ins', D, LO).
  by rewrite D.
Qed.

Lemma horizon_post t s :
  v_tup s = t -> TupleInv t ->
  post (HeapTupleSatisfiesVacuumHorizon E buffer)
    (fun v s' => v = htsv t /\ at_row t (htsv_dead_after t) s') s.
Proof.
  intros Ht I. apply post_bind, post_put, post_early.
  eapply post_impl; [apply (horizon_xmin_post t); [done | done | by apply at_row_start, TupleInv_row]|].
  intros [v|] s1 [A HV].
  - destruct HV as [-> Hv]. split; [done|]. unfold htsv_dead_after. by rewrite bool_decide_false.
  - destruct A as (Hh & I1 & R1). destruct (htsv_hinted _ _ Hh HV) as (Ins & E1 & E2).
    eapply post_impl; [apply (horizon_xmax_post (v_tup s1)); [done | done | by apply at_row_start | done]|].
    intros v s2 [-> (Hh2 & I2 & R2)]. rewrite E1, E2 in *. split; [done|]. split; [by etrans | done].
Qed.

(** [HeapTupleSatisfiesVacuum] against a horizon. *)
Definition vacuum_verdict (oldest_xmin : Z) (t : HeapTupleHeaderData) : HTSV_Result :=
  if bool_decide (htsv t = HEAPTUPLE_RECENTLY_DEAD) && TransactionIdPrecedes (deleter E t) oldest_xmin
  then HEAPTUPLE_DEAD else htsv t.

Lemma vacuum_post oldest_xmin t s :
  v_tup s = t -> TupleInv t ->
  post (HeapTupleSatisfiesVacuum E oldest_xmin buffer)
    (fun v s' => v = vacuum_verdict oldest_xmin t /\ at_row t (htsv_dead_after t) s') s.
Proof.
  intros Ht I. apply post_bind. eapply post_impl; [by apply (horizon_post t)|].
  intros v s' [-> A]. apply post_bind. exists s', s'. split; [done|]. destruct A as (A1 & A2 & A3).
  rewrite A3. unfold vacuum_verdict, htsv_dead_after.
  destruct (bool_decide (htsv t = HEAPTUPLE_RECENTLY_DEAD)) eqn:B; cbn [andb].
  - destruct (TransactionIdPrecedes (deleter E t) oldest_xmin); apply post_ret; (split; [done|]);
      unfold at_row; rewrite A3; unfold htsv_dead_after; by rewrite B.
  - apply post_ret. split; [done|]. unfold at_row. rewrite A3. unfold htsv_dead_after. by rewrite B.
Qed.

(** What the hint bits alone prove dead. *)
Lemma surely_dead_htsv t vt :
  TupleInv t -> HeapTupleIsSurelyDead E t vt = Ok true ->
  htsv t = HEAPTUPLE_DEAD \/
  (htsv t = HEAPTUPLE_RECENTLY_DEAD /\ IsRemovable E vt (deleter E t) = Ok true).
Proof.
  intros I. destruct (plain_hints _ _ _ _ I) as [H1 H2]. destruct I as [_ [_ _ _ _ H5]]. unfold HeapTupleIsSurelyDead, htsv, xmin_committed.
  rewrite xmin_invalid_bits, xmin_frozen_bits.
  destruct (has (t_infomask t) HEAP_XMIN_COMMITTED) eqn:XC; cbn [negb andb].
  - assert (Ins : has (t_infomask t) HEAP_XMIN_INVALID || committed (xmin_raw t) = true).
    { destruct (has (t_infomask t) HEAP_XMIN_INVALID); [done|]. by apply H1. }
    rewrite Ins. destruct (has (t_infomask t) HEAP_XMAX_INVALID); [done|].
    destruct (HEAP_XMAX_IS_LOCKED_ONLY (t_infomask t)) eqn:LO; [done|].
    destruct (has (t_infomask t) HEAP_XMAX_IS_MULTI) eqn:MU; [done|].
    destruct (has (t_infomask t) HEAP_XMAX_COMMITTED); [|done]. cbn [negb andb].
    destruct (H5 eq_refl) as [[? _]|[_ Com]]; [done|].
    rewrite (deleter_single E t MU), (env_committed (running := running) _ Com), Com. by right.
  - rewrite andb_true_r. intros [= XI]. left. destruct (H2 XI eq_refl) as [-> ->]. done.
Qed.
End Horizon.
