(* ===== verification/UpdateSpec.v ===== *)
(** * Who may update, and what the other snapshots see

    [HeapTupleSatisfiesUpdate] decides whether the current command may modify a
    row version; [HeapTupleSatisfiesSelf] and [HeapTupleSatisfiesDirty] look at
    the row with no snapshot at all. *)

From S2P Require Import Prelude Xid ItemPtr HeapTuple ComboCid Snapshot Visibility VisibilitySpec.

Section UpdateSpec.
Context (E : XactEnv) (committed running : Z -> bool).
Context `{!EnvOk E committed running}.
Context {R : Type}.
Variable buffer : Z.

Abbreviation at_row := (at_row E committed running).
Abbreviation RowInv := (RowInv E committed running).
Abbreviation aborted := (aborted committed running).
Abbreviation held := (held E running).
Abbreviation cmin_of := (cmin_of E).
Abbreviation cmax_of := (cmax_of E).
Abbreviation CidsOk := (CidsOk E).
Implicit Types (t : HeapTupleHeaderData) (s : VState R).

(** The row is there, whoever looks: it is frozen, or its inserter committed.  Of
    a row being moved by a pre-9.0 VACUUM FULL, the old copy is there until the
    move commits or is our own, the new copy once it commits or is our own. *)
Definition placed (t : HeapTupleHeaderData) : bool :=
  xmin_frozen t ||
  (if has (t_infomask t) HEAP_MOVED_OFF then negb (IsCurrent E (xvac t) || committed (xvac t))
   else if has (t_infomask t) HEAP_MOVED_IN then IsCurrent E (xvac t) || committed (xvac t)
   else committed (xmin_raw t)).

(** The inserter's effect exists for the current command. *)
Definition inserted (t : HeapTupleHeaderData) : bool :=
  placed t || (negb (moved t) && IsCurrent E (xmin_raw t)).

(** [HeapTupleSatisfiesUpdate], free of hint bits.  A row whose inserter is
    visible may be updated unless a transaction still running holds it, it was
    already changed by us, or a committed transaction changed it. *)
Definition xmax_verdict (t_self : ItemPointerData) (curcid : Z) (t : HeapTupleHeaderData) : TM_Result :=
  if HEAP_XMAX_IS_LOCKED_ONLY (t_infomask t) then
    if held t then TM_BeingModified else TM_Ok
  else if IsCurrent E (deleter E t) then
    if cmax_of t >=? curcid then TM_SelfModified else TM_Invisible
  else if held t then TM_BeingModified
  else if committed (deleter E t) then updated_or_deleted t_self t
  else TM_Ok.

Definition update_verdict (t_self : ItemPointerData) (curcid : Z) (t : HeapTupleHeaderData) : TM_Result :=
  if placed t || (negb (moved t) && IsCurrent E (xmin_raw t) && (cmin_of t <? curcid))
  then xmax_verdict t_self curcid t
  else TM_Invisible.

Lemma running_not_committed x : running x = true -> committed x = false.
Proof.
  intros H. destruct (committed x) eqn:C; [|done]. by rewrite (env_committed _ C) in H.
Qed.

Lemma current_not_committed x : IsCurrent E x = true -> committed x = false.
Proof.
  intros H. destruct (committed x) eqn:C; [|done].
  by rewrite (not_current_committed E committed running x C) in H.
Qed.

Lemma placed_plain t : moved t = false -> placed t = xmin_frozen t || committed (xmin_raw t).
Proof. unfold moved, placed. by intros [-> ->]%orb_false_iff. Qed.

(** What the xmin hints say of it. *)
Lemma settled_in_placed t : settled_in committed running t -> placed t = true.
Proof.
  unfold settled_in, placed. destruct (xmin_frozen t); [done|].
  destruct (has (t_infomask t) HEAP_MOVED_OFF); [|destruct (has (t_infomask t) HEAP_MOVED_IN); intros ->; [apply orb_true_r | done]].
  intros HA. by rewrite (not_current_aborted E committed running _ HA), (proj1 HA).
Qed.

Lemma settled_out_placed t :
  xmin_frozen t = false -> settled_out committed running t ->
  placed t = false /\ (moved t = true \/ aborted (xmin_raw t)).
Proof.
  unfold settled_out, placed, moved. intros ->. destruct (has (t_infomask t) HEAP_MOVED_OFF).
  { intros ->. rewrite orb_true_r. auto. }
  destruct (has (t_infomask t) HEAP_MOVED_IN); intros HA; [|by rewrite (proj1 HA); auto].
  rewrite (not_current_aborted E committed running _ HA), (proj1 HA). auto.
Qed.

Lemma absent_own t : moved t = true \/ aborted (xmin_raw t) -> negb (moved t) && IsCurrent E (xmin_raw t) = false.
Proof.
  intros [->|HA]; [done|]. rewrite (not_current_aborted E committed running _ HA). apply andb_false_r.
Qed.

Lemma post_cmax {A} t curcid (a b : A) (Q : A -> VState R -> Prop) s :
  CidsOk t -> IsCurrent E (deleter E t) = true -> Q (if cmax_of t >=? curcid then a else b) s ->
  post (mbnd (mlift (GetCmax E t)) (fun c => if c >=? curcid then mret a else mret b)) Q s.
Proof.
  intros [_ H] HC HQ. apply post_bind, (post_lift _ (cmax_of t)); [by apply H|].
  by destruct (cmax_of t >=? curcid); apply post_ret.
Qed.

Lemma update_own_post t_self curcid t (r0 : R) s :
  v_tup s = t -> RowInv t -> CidsOk t -> at_row t r0 s -> moved t = false ->
  xmin_frozen t = false -> IsCurrent E (xmin_raw t) = true ->
  post (update_own E curcid buffer t)
    (fun o s' => at_row t r0 s' /\ o = Some (update_verdict t_self curcid t)) s.
Proof.
  intros Ht I HC A Mv Fr Cur. pose proof I as [[_ Own] [_ _ XI XF _]].
  specialize (Own Mv Cur Fr). unfold update_verdict, xmax_verdict.
  rewrite placed_plain, Mv, Fr, (current_not_committed _ Cur), Cur by done. cbn [orb andb negb].
  unfold update_own. apply post_bind, (post_lift _ (cmin_of t)); [by apply HC|].
  replace (cmin_of t >=? curcid) with (negb (cmin_of t <? curcid)) by lia.
  destruct (cmin_of t <? curcid); cbn [negb]; [|by post_step].
  destruct (has (t_infomask t) HEAP_XMAX_INVALID) eqn:XMI.
  { post_step. split; [done|]. rewrite (XF eq_refl).
    destruct (HEAP_XMAX_IS_LOCKED_ONLY (t_infomask t)); [done|].
    destruct (XI eq_refl) as [?|HA]; [done|].
    by rewrite (not_current_aborted E committed running _ HA), (proj1 HA). }
  destruct (HEAP_XMAX_IS_LOCKED_ONLY (t_infomask t)) eqn:LO.
  - destruct (has (t_infomask t) HEAP_XMAX_IS_MULTI) eqn:MU.
    + apply post_bind; eapply post_lift; [by apply (held_multi E committed running)|].
      by destruct (held t); post_step.
    + apply post_bind, (post_lift _ (running (xmax_raw t))); [apply env_in_progress|].
      rewrite <- (held_single E running t MU). by destruct (held t); cbn [negb]; post_step.
  - specialize (Own eq_refl). destruct (has (t_infomask t) HEAP_XMAX_IS_MULTI) eqn:MU.
    + apply post_bind, (post_lift _ (deleter E t)); [by apply (HeapTupleGetUpdateXid_multi E committed running)|].
      destruct (IsCurrent E (deleter E t)) eqn:CD; cbn [negb].
      * apply post_cmax; [done..|]. by destruct (cmax_of t >=? curcid).
      * destruct Own as [?|HA]; [congruence|]. rewrite (proj1 HA).
        apply post_bind; eapply post_lift; [by apply (held_multi E committed running)|].
        by destruct (held t); post_step.
    + rewrite <- (deleter_single E t MU). destruct (IsCurrent E (deleter E t)) eqn:CD; cbn [negb].
      * apply post_cmax; [done..|]. by destruct (cmax_of t >=? curcid).
      * destruct Own as [?|HA]; [congruence|]. rewrite (proj1 HA).
        pose proof (aborted_free E committed running t MU HA) as HF. rewrite HF.
        apply (post_xmax_invalid E committed running t r0); [done | by right | done | done].
Qed.

(** A routine's inserter half: it decides, as [P] says, or the inserter
    committed. *)
Definition xmin_half {A} (t : HeapTupleHeaderData) (r0 : R) (P : A -> VState R -> Prop)
    (o : option A) s' : Prop :=
  match o with
  | Some a => P a s'
  | None => at_row t r0 s' /\ placed t = true
  end.

(** A row with a relocation mark and no xmin hint: [xvac] decides. *)
Lemma moved_off_post {A} t (r0 : R) P (dead : A) s :
  v_tup s = t -> at_row t r0 s -> has (t_infomask t) HEAP_MOVED_OFF = true ->
  has (t_infomask t) HEAP_XMIN_COMMITTED = false -> has (t_infomask t) HEAP_XMIN_INVALID = false ->
  (placed t = false -> forall s', at_row t r0 s' -> P dead s') ->
  post (moved_off E buffer dead) (xmin_half t r0 P) s.
Proof.
  intros Ht AR Mo XC XI Hdead. assert (Fr : xmin_frozen t = false) by (by rewrite xmin_frozen_bits, XC).
  unfold placed in *. rewrite Fr, Mo in *. unfold moved_off. post_step. rewrite Ht.
  destruct (IsCurrent E (xvac t)) eqn:Cur; [by post_step; apply Hdead|]. cbn [orb] in *.
  apply post_bind, (post_lift _ (running (xvac t))); [apply env_in_progress|].
  destruct (running (xvac t)) eqn:Rn; cbn [negb].
  { post_step. split; [done|]. unfold placed. by rewrite Fr, Mo, Cur, (running_not_committed _ Rn). }
  apply post_bind, (post_lift _ (committed (xvac t))); [by apply env_did_commit|].
  destruct (committed (xvac t)) eqn:Com.
  - apply (post_xmin_invalid E committed running t r0); [done | by rewrite Ht | unfold settled_out; by rewrite Mo | by apply Hdead].
  - apply (post_xmin_committed E committed running t r0); [done | by rewrite Ht | unfold settled_in; by rewrite Mo | by left|].
    intros s' Hs. split; [done|]. unfold placed. by rewrite Fr, Mo, Cur, Com.
Qed.

Lemma moved_in_post {A} t (r0 : R) P (dead : A) s :
  v_tup s = t -> at_row t r0 s ->
  has (t_infomask t) HEAP_MOVED_OFF = false -> has (t_infomask t) HEAP_MOVED_IN = true ->
  has (t_infomask t) HEAP_XMIN_COMMITTED = false -> has (t_infomask t) HEAP_XMIN_INVALID = false ->
  (placed t = false -> forall s', at_row t r0 s' -> P dead s') ->
  post (moved_in E buffer dead) (xmin_half t r0 P) s.
Proof.
  intros Ht AR Mo Mi XC XI Hdead. assert (Fr : xmin_frozen t = false) by (by rewrite xmin_frozen_bits, XC).
  unfold placed in *. rewrite Fr, Mo, Mi in *. unfold moved_in. post_step. rewrite Ht.
  destruct (IsCurrent E (xvac t)) eqn:Cur; cbn [orb negb] in *.
  { post_step. split; [done|]. unfold placed. by rewrite Fr, Mo, Mi, Cur. }
  apply post_bind, (post_lift _ (running (xvac t))); [apply env_in_progress|].
  destruct (running (xvac t)) eqn:Rn.
  { post_step. apply Hdead; [by apply running_not_committed | done]. }
  apply post_bind, (post_lift _ (committed (xvac t))); [by apply env_did_commit|].
  destruct (committed (xvac t)) eqn:Com.
  - apply (post_xmin_committed E committed running t r0);
      [done | by rewrite Ht | unfold settled_in; by rewrite Mo, Mi | by left|].
    intros s' Hs. split; [done|]. unfold placed. by rewrite Fr, Mo, Mi, Com, orb_true_r.
  - apply (post_xmin_invalid E committed running t r0);
      [done | by rewrite Ht | unfold settled_out; by rewrite Mo, Mi | by apply Hdead].
Qed.

(** The part of the inserter half every routine shares: [own] handles our own
    tuple, [busy] one in insertion by another, [dead] one that is not there. *)
Lemma xmin_half_post {A} t (r0 : R) P (dead : A) (own busy : M (VState R) (option A)) s :
  v_tup s = t -> RowInv t -> at_row t r0 s ->
  (moved t = false -> xmin_frozen t = false -> IsCurrent E (xmin_raw t) = true -> post own (xmin_half t r0 P) s) ->
  (moved t = false -> xmin_frozen t = false -> IsCurrent E (xmin_raw t) = false -> running (xmin_raw t) = true ->
   post busy (xmin_half t r0 P) s) ->
  (placed t = false -> moved t = true \/ aborted (xmin_raw t) -> forall s', at_row t r0 s' -> P dead s') ->
  post (if negb (xmin_committed t) then
          if xmin_invalid t then returning dead
          else if has (t_infomask t) HEAP_MOVED_OFF then moved_off E buffer dead
          else if has (t_infomask t) HEAP_MOVED_IN then moved_in E buffer dead
          else if IsCurrent E (xmin_raw t) then own
          else let! p := mlift (InProgress E (xmin_raw t)) in
               if p then busy else xmin_finished E buffer dead
        else fall_through) (xmin_half t r0 P) s.
Proof.
  intros Ht I AR Hown Hbusy Hdead. pose proof I as [_ [H1 H2 _ _ _]].
  assert (Fb := xmin_frozen_bits t). unfold xmin_committed. rewrite xmin_invalid_bits.
  destruct (has (t_infomask t) HEAP_XMIN_COMMITTED) eqn:XC,
    (has (t_infomask t) HEAP_XMIN_INVALID) eqn:XI; cbn [negb andb orb] in *.
  - post_step. split; [done|]. unfold placed. by rewrite Fb.
  - post_step. split; [done|]. by apply settled_in_placed, H1.
  - post_step. destruct (settled_out_placed t Fb (H2 eq_refl eq_refl)). by apply Hdead.
  - destruct (has (t_infomask t) HEAP_MOVED_OFF) eqn:Mo.
    { apply moved_off_post; try done. intros Pl. apply Hdead; [done|]. left. unfold moved. by rewrite Mo. }
    destruct (has (t_infomask t) HEAP_MOVED_IN) eqn:Mi.
    { apply moved_in_post; try done. intros Pl. apply Hdead; [done|]. left. unfold moved. by rewrite Mo, Mi. }
    assert (Mv : moved t = false) by (unfold moved; by rewrite Mo, Mi). pose proof (placed_plain t Mv) as Pl. rewrite Fb in Pl.
    destruct (IsCurrent E (xmin_raw t)) eqn:Cur; [by apply Hown|].
    apply post_bind, (post_lift _ (running (xmin_raw t))); [apply env_in_progress|].
    destruct (running (xmin_raw t)) eqn:Rn; [by apply Hbusy|].
    unfold xmin_finished. post_step. rewrite Ht.
    apply post_bind, (post_lift _ (committed (xmin_raw t))); [by apply env_did_commit|].
    destruct (committed (xmin_raw t)) eqn:Com.
    + apply (post_xmin_committed E committed running t r0); try done; [by rewrite Ht | by rewrite settled_in_plain | by right].
    + apply (post_xmin_invalid E committed running t r0); try done; [by rewrite Ht | by rewrite settled_out_plain|].
      intros s' Hs. apply Hdead; [done | by right | done].
Qed.

Lemma update_multi_post t_self curcid t (r0 : R) s :
  RowInv t -> CidsOk t -> at_row t r0 s ->
  has (t_infomask t) HEAP_XMAX_IS_MULTI = true ->
  has (t_infomask t) HEAP_XMAX_INVALID = false ->
  post (update_xmax_multi E t_self curcid buffer t)
    (fun v s' => v = xmax_verdict t_self curcid t /\ at_row t r0 s') s.
Proof.
  intros I HC A MU XMI. unfold update_xmax_multi, xmax_verdict.
  destruct (HEAP_LOCKED_UPGRADED (t_infomask t)) eqn:UP.
  { post_step. rewrite (row_upgraded _ _ _ _ (proj1 I) UP).
    unfold HEAP_LOCKED_UPGRADED in UP. rewrite !andb_true_iff in UP.
    unfold HEAP_XMAX_IS_LOCKED_ONLY. by rewrite (proj2 (proj1 UP)). }
  destruct (HEAP_XMAX_IS_LOCKED_ONLY (t_infomask t)) eqn:LO.
  { apply post_bind; eapply post_lift; [by apply (held_multi E committed running)|].
    destruct (held t) eqn:HL; [by post_step|].
    apply (post_xmax_invalid E committed running t r0); [done | by left | done | done]. }
  apply post_bind, (post_lift _ (deleter E t)); [by apply (HeapTupleGetUpdateXid_multi E committed running)|].
  assert (Rest : post
    (if IsCurrent E (deleter E t) then
       let! cmax := mlift (GetCmax E t) in
       if cmax >=? curcid then mret TM_SelfModified else mret TM_Invisible
     else
       let! r := mlift (MultiXactIdIsRunning E (xmax_raw t) false) in
       if r then mret TM_BeingModified
       else
         let! c := mlift (DidCommit E (deleter E t)) in
         if c then mret (updated_or_deleted t_self t)
         else
           let! r := mlift (MultiXactIdIsRunning E (xmax_raw t) false) in
           if negb r then SetHintBits E buffer HEAP_XMAX_INVALID InvalidTransactionId ;! mret TM_Ok
           else mret TM_BeingModified)
    (fun v s' => v = (if IsCurrent E (deleter E t)
                      then if cmax_of t >=? curcid then TM_SelfModified else TM_Invisible
                      else if held t then TM_BeingModified
                      else if committed (deleter E t) then updated_or_deleted t_self t else TM_Ok)
                 /\ at_row t r0 s') s).
  { destruct (IsCurrent E (deleter E t)) eqn:CD; [by apply post_cmax|].
    apply post_bind; eapply post_lift; [by apply (held_multi E committed running)|].
    destruct (held t) eqn:HL; [by post_step|].
    assert (Rn : running (deleter E t) = false) by (by apply (held_deleter E committed running)).
    apply post_bind, (post_lift _ (committed (deleter E t))); [by apply env_did_commit|].
    destruct (committed (deleter E t)) eqn:Com; [by post_step|].
    apply post_bind; eapply post_lift; [by apply (held_multi E committed running)|]. rewrite HL. cbn [negb].
    apply (post_xmax_invalid E committed running t r0); [done | by right | done | done]. }
  destruct (TransactionIdIsValid (deleter E t)) eqn:V; cbn [negb].
  { post_step. apply Rest. }
  apply post_bind; eapply post_lift; [by apply (held_multi E committed running)|].
  destruct (held t) eqn:HL; [|done].
  post_step. assert (D : deleter E t = InvalidTransactionId) by (unfold TransactionIdIsValid in V; lia).
  rewrite D. rewrite (not_current_aborted E committed running); [done | apply env_invalid].
Qed.

Lemma update_xmax_post t_self curcid t (r0 : R) s :
  v_tup s = t -> RowInv t -> CidsOk t -> at_row t r0 s ->
  post (update_xmax E t_self curcid buffer)
    (fun v s' => v = xmax_verdict t_self curcid t /\ at_row t r0 s') s.
Proof.
  intros Ht I HC A. unfold update_xmax. post_step. rewrite Ht.
  pose proof I as [_ [_ _ XI XF XC]].
  destruct (has (t_infomask t) HEAP_XMAX_INVALID) eqn:XMI.
  { post_step. split; [|done]. unfold xmax_verdict. rewrite (XF eq_refl).
    destruct (HEAP_XMAX_IS_LOCKED_ONLY (t_infomask t)); [done|].
    destruct (XI eq_refl) as [?|HA]; [done|].
    by rewrite (not_current_aborted E committed running _ HA), (proj1 HA). }
  destruct (has (t_infomask t) HEAP_XMAX_COMMITTED) eqn:XMC.
  { unfold xmax_verdict. destruct (XC eq_refl) as [[LO HF]|[MU Com]].
    { rewrite LO, HF. by post_step. }
    rewrite (deleter_single E t MU), (not_current_committed E committed running _ Com), Com,
      (held_single E running t MU), (env_committed _ Com).
    by destruct (HEAP_XMAX_IS_LOCKED_ONLY (t_infomask t)); post_step. }
  destruct (has (t_infomask t) HEAP_XMAX_IS_MULTI) eqn:MU; [by apply update_multi_post|].
  unfold xmax_verdict. rewrite (held_single E running t MU). rewrite <- (deleter_single E t MU).
  destruct (IsCurrent E (deleter E t)) eqn:CD.
  { rewrite (env_current _ CD). destruct (HEAP_XMAX_IS_LOCKED_ONLY (t_infomask t)); [by post_step|].
    by apply post_cmax. }
  apply post_bind, (post_lift _ (running (deleter E t))); [apply env_in_progress|].
  destruct (running (deleter E t)) eqn:Rn.
  { post_step. by destruct (HEAP_XMAX_IS_LOCKED_ONLY (t_infomask t)). }
  apply post_bind, (post_lift _ (committed (deleter E t))); [by apply env_did_commit|].
  assert (HF : held t = false) by (by rewrite (held_single E running t MU), <- (deleter_single E t MU)).
  destruct (committed (deleter E t)) eqn:Com; cbn [negb].
  - destruct (HEAP_XMAX_IS_LOCKED_ONLY (t_infomask t)) eqn:LO.
    + apply (post_xmax_invalid E committed running t r0); [done | by left | done | done].
    + rewrite (deleter_single E t MU) in *. apply post_bind.
      apply (post_SetHintBits E committed running); [by right | by repeat post_step; rewrite Ht |].
      intros s' Hs Hr. repeat post_step. rewrite Hs, Ht. split; [done|].
      destruct A as (A1 & A2 & A3). unfold at_row, VisibilitySpec.at_row. rewrite Hs, Hr. split; [|split; [|done]].
      * apply hinted_or; [done | by right; right; left].
      * rewrite Ht. by apply (set_xmax_committed E committed running).
  - destruct (HEAP_XMAX_IS_LOCKED_ONLY (t_infomask t)) eqn:LO;
      (apply (post_xmax_invalid E committed running t r0); [done | | done | done]); [by left | by right].
Qed.

Lemma update_post t_self curcid t (r0 : R) s :
  v_tup s = t -> v_res s = r0 -> RowInv t -> CidsOk t ->
  post (HeapTupleSatisfiesUpdate E t_self curcid buffer)
    (fun v s' => v = update_verdict t_self curcid t /\ at_row t r0 s') s.
Proof.
  intros Ht Hr I HC. assert (A : at_row t r0 s) by (by apply at_row_start).
  apply post_early. unfold update_xmin. apply post_bind, post_tup. rewrite Ht.
  eapply post_impl.
  { eapply (xmin_half_post t r0 (fun v s' => v = update_verdict t_self curcid t /\ at_row t r0 s')); try done.
    - intros Mv Fr Cur. eapply post_impl; [by apply (update_own_post t_self)|]. by intros o s' [? ->].
    - intros Mv Fr Cur Rn. post_step. split; [|done]. unfold update_verdict.
      by rewrite placed_plain, Mv, Fr, Cur, (running_not_committed _ Rn).
    - intros Pl HA s' Hs. split; [|done]. unfold update_verdict. rewrite Pl. by rewrite (absent_own t HA). }
  intros [v|] s1 HV; [done|]. destruct HV as [A1 HV]. pose proof A1 as (Hh & I1 & _).
  eapply post_impl.
  { apply (update_xmax_post t_self curcid (v_tup s1) r0 s1 eq_refl I1).
    - by eapply (CidsOk_hinted E).
    - apply at_row_start; [done | apply A1 | done]. }
  intros v s2 [-> A2]. split; [|by eapply (at_row_trans E)].
  unfold update_verdict. rewrite HV. cbn [orb]. unfold xmax_verdict, cmax_of.
  rewrite (hinted_deleter E _ _ Hh), (hinted_held E running _ _ Hh), (proj2 (hinted_cids E _ _ Hh)).
  unfold updated_or_deleted.
  by apply hinted_fields in Hh as (_ & -> & _ & _ & -> & _).
Qed.

(** *** Self: what the current command sees with no snapshot *)

Definition deleted_for_self (t : HeapTupleHeaderData) : bool :=
  negb (HEAP_XMAX_IS_LOCKED_ONLY (t_infomask t))
  && (IsCurrent E (deleter E t) || committed (deleter E t)).

Definition self_visible (t : HeapTupleHeaderData) : bool := inserted t && negb (deleted_for_self t).

(** Our own insertion: visible unless we deleted it too. *)
Lemma own_deletion t :
  RowInv t -> moved t = false -> xmin_frozen t = false -> IsCurrent E (xmin_raw t) = true ->
  deleted_for_self t = negb (HEAP_XMAX_IS_LOCKED_ONLY (t_infomask t)) && IsCurrent E (deleter E t).
Proof.
  intros [[_ Own] _] Mv Fr Cur. unfold deleted_for_self.
  destruct (HEAP_XMAX_IS_LOCKED_ONLY (t_infomask t)); [done|]. cbn.
  destruct (Own Mv Cur Fr eq_refl) as [->|HA]; [done|]. by rewrite (proj1 HA), orb_false_r.
Qed.

(** The two hints on xmax, read as verdicts on the deletion. *)
Lemma hinted_away t :
  RowInv t -> has (t_infomask t) HEAP_XMAX_INVALID = true -> deleted_for_self t = false.
Proof.
  intros [_ [_ _ XI _ _]] H. unfold deleted_for_self. destruct (XI H) as [->|HA]; [done|].
  by rewrite (not_current_aborted E committed running _ HA), (proj1 HA), andb_false_r.
Qed.

Lemma hinted_committed t :
  RowInv t -> has (t_infomask t) HEAP_XMAX_COMMITTED = true ->
  deleted_for_self t = negb (HEAP_XMAX_IS_LOCKED_ONLY (t_infomask t)).
Proof.
  intros [_ [_ _ _ _ XC]] H. unfold deleted_for_self. destruct (XC H) as [[-> _]|[MU Com]]; [done|].
  by rewrite (deleter_single E t MU), Com, orb_true_r, andb_true_r.
Qed.

Lemma hinted_deleted t t' : hinted t t' -> deleted_for_self t' = deleted_for_self t.
Proof.
  intros Hh. unfold deleted_for_self. rewrite (hinted_deleter E _ _ Hh).
  by apply hinted_fields in Hh as (_ & _ & _ & _ & -> & _).
Qed.

Lemma own_half_post t (r0 : R) s :
  RowInv t -> at_row t r0 s -> moved t = false -> xmin_frozen t = false -> IsCurrent E (xmin_raw t) = true ->
  post
    (if has (t_infomask t) HEAP_XMAX_INVALID then returning true
     else if HEAP_XMAX_IS_LOCKED_ONLY (t_infomask t) then returning true
     else if has (t_infomask t) HEAP_XMAX_IS_MULTI then
       let! xmax := mlift (HeapTupleGetUpdateXid E t) in
       returning (negb (IsCurrent E xmax))
     else if negb (IsCurrent E (xmax_raw t)) then
       SetHintBits E buffer HEAP_XMAX_INVALID InvalidTransactionId ;! returning true
     else returning false)
    (fun o s' => o = Some (negb (deleted_for_self t)) /\ at_row t r0 s') s.
Proof.
  intros I A Mv Fr Cur. rewrite (own_deletion t I Mv Fr Cur). pose proof I as [[_ Own] [_ _ XI _ _]].
  destruct (has (t_infomask t) HEAP_XMAX_INVALID) eqn:XMI.
  { post_step. destruct (HEAP_XMAX_IS_LOCKED_ONLY (t_infomask t)); [done|].
    destruct (XI eq_refl) as [?|HA]; [done|]. by rewrite (not_current_aborted E committed running _ HA). }
  destruct (HEAP_XMAX_IS_LOCKED_ONLY (t_infomask t)) eqn:LO; [by post_step|].
  destruct (has (t_infomask t) HEAP_XMAX_IS_MULTI) eqn:MU.
  { apply post_bind, (post_lift _ (deleter E t)); [by apply (HeapTupleGetUpdateXid_multi E committed running)|].
    by post_step. }
  rewrite <- (deleter_single E t MU). destruct (Own Mv Cur Fr eq_refl) as [->|HA]; [by cbn [negb]; post_step|].
  rewrite (not_current_aborted E committed running _ HA). cbn [negb].
  apply (post_xmax_invalid E committed running t r0); [done | by right | by apply (aborted_free E committed) | done].
Qed.

(** A finished deleter, found through the commit log. *)
Lemma finished_deleter_post t (r0 : R) s :
  RowInv t -> at_row t r0 s -> has (t_infomask t) HEAP_XMAX_IS_MULTI = false ->
  IsCurrent E (deleter E t) = false -> running (deleter E t) = false ->
  post
    (let! c := mlift (DidCommit E (deleter E t)) in
     if negb c then SetHintBits E buffer HEAP_XMAX_INVALID InvalidTransactionId ;! mret true
     else if HEAP_XMAX_IS_LOCKED_ONLY (t_infomask t) then
       SetHintBits E buffer HEAP_XMAX_INVALID InvalidTransactionId ;! mret true
     else SetHintBits E buffer HEAP_XMAX_COMMITTED (deleter E t) ;! mret false)
    (fun v s' => v = negb (deleted_for_self t) /\ at_row t r0 s') s.
Proof.
  intros I A MU CD Rn. unfold deleted_for_self. rewrite CD. cbn [orb].
  apply post_bind, (post_lift _ (committed (deleter E t))); [by apply env_did_commit|].
  assert (HF : held t = false) by (by rewrite (held_single E running t MU), <- (deleter_single E t MU)).
  destruct (committed (deleter E t)) eqn:Com; cbn [negb].
  - destruct (HEAP_XMAX_IS_LOCKED_ONLY (t_infomask t)) eqn:LO; cbn.
    + apply (post_xmax_invalid E committed running t r0); [done | by left | done | done].
    + rewrite (deleter_single E t MU) in *. by apply (post_xmax_committed E committed running t r0).
  - rewrite andb_false_r. apply (post_xmax_invalid E committed running t r0); [done | by right | done | done].
Qed.

Lemma self_xmax_post t (r0 : R) s :
  v_tup s = t -> RowInv t -> at_row t r0 s ->
  post (self_xmax E buffer) (fun v s' => v = negb (deleted_for_self t) /\ at_row t r0 s') s.
Proof.
  intros Ht I A. unfold self_xmax. post_step. rewrite Ht. pose proof I as [_ [_ _ XI _ XC]].
  destruct (has (t_infomask t) HEAP_XMAX_INVALID) eqn:XMI.
  { post_step. by rewrite (hinted_away t I XMI). }
  destruct (has (t_infomask t) HEAP_XMAX_COMMITTED) eqn:XMC.
  { post_step. by rewrite (hinted_committed t I XMC), negb_involutive. }
  destruct (has (t_infomask t) HEAP_XMAX_IS_MULTI) eqn:MU.
  { destruct (HEAP_XMAX_IS_LOCKED_ONLY (t_infomask t)) eqn:LO.
    { post_step. unfold deleted_for_self. by rewrite LO. }
    unfold deleted_for_self. rewrite LO. cbn [negb andb].
    apply post_bind, (post_lift _ (deleter E t)); [by apply (HeapTupleGetUpdateXid_multi E committed running)|].
    destruct (IsCurrent E (deleter E t)) eqn:CD; [by post_step|]. cbn [orb].
    apply post_bind, (post_lift _ (running (deleter E t))); [apply env_in_progress|].
    destruct (running (deleter E t)) eqn:Rn.
    { post_step. by rewrite (running_not_committed _ Rn). }
    apply post_bind, (post_lift _ (committed (deleter E t))); [by apply env_did_commit|].
    by destruct (committed (deleter E t)); post_step. }
  rewrite <- (deleter_single E t MU). destruct (IsCurrent E (deleter E t)) eqn:CD.
  { post_step. unfold deleted_for_self. rewrite CD, andb_true_r. by rewrite negb_involutive. }
  apply post_bind, (post_lift _ (running (deleter E t))); [apply env_in_progress|].
  destruct (running (deleter E t)) eqn:Rn; [|by apply finished_deleter_post].
  post_step. unfold deleted_for_self. by rewrite CD, (running_not_committed _ Rn), andb_false_r.
Qed.

Lemma self_post t (r0 : R) s :
  v_tup s = t -> v_res s = r0 -> RowInv t ->
  post (HeapTupleSatisfiesSelf E buffer) (fun v s' => v = self_visible t /\ at_row t r0 s') s.
Proof.
  intros Ht Hr I. assert (A : at_row t r0 s) by (by apply at_row_start).
  apply post_early. unfold self_xmin. apply post_bind, post_tup. rewrite Ht. eapply post_impl.
  { eapply (xmin_half_post t r0 (fun v s' => v = self_visible t /\ at_row t r0 s')); try done.
    - intros Mv Fr Cur. eapply post_impl; [by apply own_half_post|]. intros o s' [-> ?]. split; [|done].
      unfold self_visible, inserted. by rewrite Mv, Cur, orb_true_r.
    - intros Mv Fr Cur Rn. post_step. split; [|done]. unfold self_visible, inserted.
      by rewrite placed_plain, Mv, Fr, Cur, (running_not_committed _ Rn).
    - intros Pl HA s' Hs. split; [|done]. unfold self_visible, inserted. by rewrite Pl, (absent_own t HA). }
  intros [v|] s1 HV; [done|]. destruct HV as [A1 HV]. pose proof A1 as (Hh & I1 & _).
  eapply post_impl; [apply (self_xmax_post (v_tup s1) r0 s1 eq_refl I1)|].
  { apply at_row_start; [done | apply A1 | done]. }
  intros v s2 [-> A2]. split; [|by eapply (at_row_trans E)].
  unfold self_visible, inserted. rewrite HV. cbn [orb andb]. by rewrite (hinted_deleted _ _ Hh).
Qed.

(** A row cleared for update exists for us and nobody running holds it. *)
Lemma update_ok_self t_self curcid t :
  update_verdict t_self curcid t = TM_Ok -> held t = false /\ self_visible t = true.
Proof.
  unfold update_verdict, xmax_verdict, self_visible, inserted, deleted_for_self, updated_or_deleted.
  destruct (placed t), (moved t), (IsCurrent E (xmin_raw t)), (cmin_of t <? curcid),
    (HEAP_XMAX_IS_LOCKED_ONLY (t_infomask t)), (held t), (IsCurrent E (deleter E t)),
    (committed (deleter E t)), (cmax_of t >=? curcid); cbn; try done;
    by destruct (negb (ItemPointerEquals _ _)).
Qed.
End UpdateSpec.

(** *** Dirty: uncommitted effects of others, reported through the snapshot *)

Section DirtySpec.
Context (E : XactEnv) (committed running : Z -> bool).
Context `{!EnvOk E committed running}.
Variable buffer : Z.

Abbreviation at_row := (at_row E committed running).
Abbreviation RowInv := (RowInv E committed running).
Abbreviation inserted := (inserted E committed).
Abbreviation deleted_for_self := (deleted_for_self E committed).

Definition no_dirty : SnapshotData -> SnapshotData :=
  set_dirty InvalidTransactionId InvalidTransactionId 0.

(** The deleter half: a deletion in progress elsewhere is reported, and does
    not count yet. *)
Definition dirty_deletion (t : HeapTupleHeaderData) (snap : SnapshotData) : bool * SnapshotData :=
  (negb (deleted_for_self t),
   if negb (HEAP_XMAX_IS_LOCKED_ONLY (t_infomask t)) && negb (IsCurrent E (deleter E t))
      && running (deleter E t)
   then set_dirty InvalidTransactionId (deleter E t) 0 snap else snap).

(** Visible, and the transaction the caller may have to wait for. *)
Definition dirty_verdict (t : HeapTupleHeaderData) (snap : SnapshotData) : bool * SnapshotData :=
  if inserted t then dirty_deletion t (no_dirty snap)
  else if negb (moved t) && running (xmin_raw t) then
    (true, set_dirty (xmin_raw t) InvalidTransactionId
             (if is_speculative t then speculative_token t else 0) (no_dirty snap))
  else (false, no_dirty snap).

Lemma post_set_out {A} t r0 x_min x_max token (a : A) (Q : A -> VState SnapshotData -> Prop) s :
  at_row t r0 s -> (forall s', at_row t (set_dirty x_min x_max token r0) s' -> Q a s') ->
  post (set_out x_min x_max token ;! mret a) Q s.
Proof.
  intros (A1 & A2 & A3) HQ. apply post_bind, post_put, post_ret, HQ.
  split; [done|]. split; [done|]. cbn. by rewrite A3.
Qed.

Lemma dirty_xmax_post t r0 s :
  v_tup s = t -> RowInv t -> at_row t r0 s ->
  post (dirty_xmax E buffer)
    (fun v s' => v = fst (dirty_deletion t r0) /\ at_row t (snd (dirty_deletion t r0)) s') s.
Proof.
  intros Ht I A. unfold dirty_xmax. post_step. rewrite Ht. pose proof I as [_ [_ _ XI _ XC]].
  unfold dirty_deletion. cbn [fst snd].
  destruct (has (t_infomask t) HEAP_XMAX_INVALID) eqn:XMI.
  { post_step. rewrite (hinted_away E committed running t I XMI). split; [done|].
    destruct (XI eq_refl) as [->|[_ ->]]; [done|]. by rewrite andb_false_r. }
  destruct (has (t_infomask t) HEAP_XMAX_COMMITTED) eqn:XMC.
  { post_step. rewrite (hinted_committed E committed running t I XMC), negb_involutive. split; [done|].
    destruct (XC eq_refl) as [[-> _]|[MU Com]]; [done|].
    by rewrite (deleter_single E t MU), (env_committed (running := running) (xmax_raw t) Com), andb_false_r. }
  destruct (has (t_infomask t) HEAP_XMAX_IS_MULTI) eqn:MU.
  { unfold UpdateSpec.deleted_for_self.
    destruct (HEAP_XMAX_IS_LOCKED_ONLY (t_infomask t)) eqn:LO; [by post_step|].
    cbn [negb andb].
    apply post_bind, (post_lift _ (deleter E t)); [by apply (HeapTupleGetUpdateXid_multi E committed running)|].
    destruct (IsCurrent E (deleter E t)) eqn:CD; [by post_step|]. cbn [orb negb andb].
    apply post_bind, (post_lift _ (running (deleter E t))); [apply env_in_progress|].
    destruct (running (deleter E t)) eqn:Rn.
    { rewrite (running_not_committed E committed running _ Rn). by apply (post_set_out t r0). }
    apply post_bind, (post_lift _ (committed (deleter E t))); [by apply env_did_commit|].
    by destruct (committed (deleter E t)); post_step. }
  rewrite <- (deleter_single E t MU). destruct (IsCurrent E (deleter E t)) eqn:CD.
  { post_step. unfold UpdateSpec.deleted_for_self. rewrite CD. cbn [orb negb].
    by rewrite andb_true_r, andb_false_r, negb_involutive. }
  apply post_bind, (post_lift _ (running (deleter E t))); [apply env_in_progress|].
  destruct (running (deleter E t)) eqn:Rn.
  - unfold UpdateSpec.deleted_for_self. rewrite CD, (running_not_committed E committed running _ Rn), andb_false_r, !andb_true_r.
    destruct (HEAP_XMAX_IS_LOCKED_ONLY (t_infomask t)) eqn:LO; cbn [negb]; [by post_step|].
    by apply (post_set_out t r0).
  - rewrite andb_false_r. by apply (finished_deleter_post E committed running).
Qed.

Lemma dirty_post t snap s :
  v_tup s = t -> v_res s = snap -> RowInv t ->
  post (HeapTupleSatisfiesDirty E buffer)
    (fun v s' => v = fst (dirty_verdict t snap) /\ at_row t (snd (dirty_verdict t snap)) s') s.
Proof.
  intros Ht Hr I. unfold HeapTupleSatisfiesDirty. apply post_bind, post_put.
  set (s0 := with_res _ s).
  assert (A : at_row t (no_dirty snap) s0) by (apply at_row_start; [done | cbn; by rewrite Hr | done]).
  apply post_early. unfold dirty_xmin. apply post_bind, post_tup.
  replace (v_tup s0) with t by done. eapply post_impl.
  { eapply (xmin_half_post E committed running buffer t (no_dirty snap)
      (fun v s' => v = fst (dirty_verdict t snap) /\ at_row t (snd (dirty_verdict t snap)) s')); try done.
    - intros Mv Fr Cur. eapply post_impl; [by apply (own_half_post E committed running buffer t (no_dirty snap))|].
      intros o s' [-> HA]. cbn. unfold dirty_verdict, UpdateSpec.inserted.
      rewrite Mv, Cur, orb_true_r. unfold dirty_deletion. cbn [fst snd]. split; [done|].
      pose proof I as [[_ Own] _].
      destruct (HEAP_XMAX_IS_LOCKED_ONLY (t_infomask t)); [done|]. cbn [negb andb].
      destruct (Own Mv Cur Fr eq_refl) as [->|[_ ->]]; [done|]. by rewrite andb_false_r.
    - intros Mv Fr Cur Rn. unfold dirty_verdict, UpdateSpec.inserted.
      rewrite placed_plain, Mv, Fr, Cur, (running_not_committed E committed running _ Rn), Rn by done. cbn [orb andb negb fst snd].
      by apply (post_set_out t (no_dirty snap)).
    - intros Pl HA s' Hs. unfold dirty_verdict, UpdateSpec.inserted. rewrite Pl, (absent_own E committed running t HA). cbn [orb].
      by destruct HA as [->|[_ ->]]; rewrite ?andb_false_r. }
  intros [v|] s1 HV; [done|]. destruct HV as [A1 HV]. pose proof A1 as (Hh & I1 & _).
  eapply post_impl; [apply (dirty_xmax_post (v_tup s1) (no_dirty snap) s1 eq_refl I1)|].
  { apply at_row_start; [done | apply A1 | done]. }
  intros v s2 [-> A2]. unfold dirty_verdict, UpdateSpec.inserted. rewrite HV. cbn [orb].
  unfold dirty_deletion in *. cbn [fst snd] in *.
  rewrite (hinted_deleted E committed _ _ Hh) in *. split; [done|].
  rewrite (hinted_deleter E _ _ Hh) in A2. pose proof Hh as (_ & _ & _ & _ & LO & _)%hinted_fields.
  rewrite LO in A2. by eapply (at_row_trans E).
Qed.
End DirtySpec.
