(* ===== verification/VisibilityThms.v ===== *)
(** * The visibility theorems

    The claims about the row-visibility routines, each stated of the routine
    itself, and a small concrete transaction system that meets every assumption. *)

From S2P Require Import Prelude Xid ItemPtr HeapTuple ComboCid Snapshot Visibility PageMemo VisibilitySpec VacuumSpec UpdateSpec.

(** ** Time passing

    Between two looks at a row, transactions may finish; what committed or
    aborted stays so. *)

Record later (committed running committed' running' : Z -> bool) : Prop := {
  later_committed : forall x, committed x = true -> committed' x = true;
  later_aborted : forall x, aborted committed running x -> aborted committed' running' x
}.

(** Both looks read the same multixact contents. *)
Definition same_members (E E' : XactEnv) : Prop := forall m b, GetMembers E m b = GetMembers E' m b.

Section Later.
Context (E E' : XactEnv) (committed running committed' running' : Z -> bool).
Context `{!EnvOk E committed running, !EnvOk E' committed' running'}.
Hypothesis Hl : later committed running committed' running'.
Hypothesis Hm : same_members E E'.

Lemma later_finished x : running x = false -> running' x = false.
Proof.
  intros H. destruct (committed x) eqn:C.
  - apply (env_committed (E := E') (committed := committed')). by apply Hl.
  - by apply (later_aborted _ _ _ _ Hl).
Qed.

Lemma deleter_same t : deleter E' t = deleter E t.
Proof. unfold deleter. by rewrite Hm. Qed.

Lemma any_in_progress_later ms :
  any_in_progress E ms = Ok false ->
  existsb (fun m => IsCurrent E' (mxid m)) ms = false /\ any_in_progress E' ms = Ok false.
Proof.
  intros H%(any_in_progress_false E committed running). induction H as [|m ms Hn _ [IH1 IH2]]; [done|].
  cbn. rewrite (env_in_progress (mxid m)). cbn. pose proof (later_finished _ Hn) as Hn'. rewrite Hn'.
  split; [|done]. rewrite IH1, orb_false_r. destruct (IsCurrent E' (mxid m)) eqn:C; [|done].
  apply env_current in C. congruence.
Qed.

Lemma held_later t : held E running t = false -> held E' running' t = false.
Proof.
  destruct (has (t_infomask t) HEAP_XMAX_IS_MULTI) eqn:MU.
  2:{ rewrite !held_single by done. apply later_finished. }
  pose proof (held_multi E committed running t _ MU eq_refl) as HR. intros H. rewrite H in HR.
  unfold held. rewrite MU. unfold MultiXactIdIsRunning in *. rewrite Hm in HR.
  destruct (GetMembers E' _ _) as [[ms|]| |]; cbn in *; try done.
  destruct (existsb _ ms); [done|]. by destruct (any_in_progress_later _ HR) as [-> ->].
Qed.

Lemma settled_in_later t : settled_in committed running t -> settled_in committed' running' t.
Proof. unfold settled_in. destruct (has _ _); [apply Hl|]. destruct (has _ _); apply Hl. Qed.

Lemma settled_out_later t : settled_out committed running t -> settled_out committed' running' t.
Proof. unfold settled_out. destruct (has _ _); [apply Hl|]. destruct (has _ _); apply Hl. Qed.

Lemma HintsOk_later t : HintsOk E committed running t -> HintsOk E' committed' running' t.
Proof.
  intros [A B C F D]. split.
  - intros H1 H2. by apply settled_in_later, A.
  - intros H1 H2. by apply settled_out_later, B.
  - intros H. rewrite deleter_same. destruct (C H) as [?|HA]; [by left|]. right. by apply (later_aborted _ _ _ _ Hl).
  - intros H. by apply held_later, F.
  - intros H. destruct (D H) as [[? ?]|[? ?]]; [left | right]; split; try done; [by apply held_later | by apply Hl].
Qed.
End Later.

(** ** A concrete transaction system

    Transaction 100 committed, 101 runs in another backend, 102 is ours, every
    other one aborted; multixact 500 holds 100 as updater and 101 as locker. *)

Definition demo_committed (x : Z) : bool := x =? 100.
Definition demo_running (x : Z) : bool := (x =? 101) || (x =? 102).

Definition demo_env : XactEnv := {|
  IsCurrent x := x =? 102;
  InProgress x := Ok (demo_running x);
  DidCommit x := Ok (demo_committed x);
  GetMembers m _ :=
    Ok (if m =? 500 then Some [{| mxid := 100; mxstatus := MultiXactStatusUpdate |};
                               {| mxid := 101; mxstatus := MultiXactStatusForKeyShare |}]
        else None);
  combo := ComboCidState_default;
  TopXid x := Ok x;
  CommitLSN _ := Ok 0;
  NeedsFlush _ := false;
  IsPermanent _ := true;
  BufferLSN _ := 0;
  MarkDirtyHint _ := Ok tt;
  IsRemovable _ x := Ok (TransactionIdPrecedes x 101);
  ResolveCids _ _ := Ok None
|}.

#[export] Instance demo_env_ok : EnvOk demo_env demo_committed demo_running.
Proof.
  split; cbn; unfold demo_committed, demo_running; try done; intros; try lia; by eexists.
Qed.

Definition demo_snapshot : SnapshotData :=
  {| snapshot_type := SNAPSHOT_MVCC; s_xmin := 101; s_xmax := 103; xip := [101]; xcnt := 1; subxip := [];
     subxcnt := 0; suboverflowed := false; takenDuringRecovery := false; curcid := 5;
     speculativeToken := 0; vistest := 0 |}.

(** A row inserted by [xmin] and deleted or locked by [xmax], with hint bits and
    lock bits [mask], stamped with command id [cid]. *)
Definition demo_row (xmin xmax cid mask : Z) : HeapTupleHeaderData :=
  {| t_choice := {| t_xmin := xmin; t_xmax := xmax; t_field3 := cid |};
     t_ctid := ItemPointerSet 0 1; t_infomask2 := 0; t_infomask := mask; t_hoff := 24 |}.

Definition at_start {R} (t : HeapTupleHeaderData) (r : R) : VState R :=
  {| v_tup := t; v_dirty := []; v_res := r |}.

Definition demo_insnap (x : Z) : bool :=
  negb (TransactionIdPrecedes x 101) && (TransactionIdFollowsOrEquals x 103 || (x =? 101)).

Lemma demo_snap_ok : SnapOk demo_env demo_running demo_snapshot demo_insnap.
Proof.
  intros x. split.
  - unfold XidInSnapshot, XidInMVCCSnapshot, demo_insnap. cbn [demo_snapshot s_xmin s_xmax].
    destruct (TransactionIdPrecedes x 101); [done|]. destruct (TransactionIdFollowsOrEquals x 103); [done|].
    cbn. change (slice_to [] (0 `max` 0)) with (Ok (A := list Z) []). change (slice_to [101] 1) with (Ok [101]).
    cbn. unfold contains. cbn. rewrite orb_false_r. by destruct (x =? 101).
  - cbn. unfold demo_running. intros H C. rewrite C, orb_false_r.
    destruct (Z.eqb_spec x 101) as [->|]; done.
Qed.

(** Invariants of a concrete row, by evaluation of its bits. *)
Ltac demo_inv :=
  repeat split; cbn; try done; try (by intros); try (by left); try (by right; split); try (by right).

Lemma post_run {S A} (m : M S A) a (P : S -> Prop) s :
  post m (fun v s' => v = a /\ P s') s -> exists s', m s = (Ok a, s') /\ P s'.
Proof. intros (v & s' & E & -> & H). by exists s'. Qed.

(** ** The claims *)

(** C1. [HeapTupleSatisfiesMVCC] computes MVCC visibility.  On every row whose
    hint bits are true, and whatever they are, it returns normally with the
    verdict of the specification: the inserter is frozen or its effects are
    visible to the snapshot (our own earlier commands, or a transaction that
    committed and that the snapshot does not hold as running), and no deleter's
    effects are.  It changes nothing but hint bits of the row, and every hint
    bit afterwards is true. *)
Theorem mvcc_correct E committed running snapshot insnap buffer (s : VState unit) :
  EnvOk E committed running -> SnapOk E running snapshot insnap ->
  TupleInv E committed running (v_tup s) -> CidsOk E (v_tup s) ->
  exists s',
    HeapTupleSatisfiesMVCC E snapshot buffer s
      = (Ok (mvcc_visible E committed snapshot insnap (v_tup s)), s') /\
    hinted (v_tup s) (v_tup s') /\ TupleInv E committed running (v_tup s').
Proof.
  intros HE HS HI HC. apply post_run. eapply post_impl; [by apply (mvcc_post E committed running)|].
  intros v s' [-> A]. split; [done|]. split; [apply A | by eapply at_row_tuple].
Qed.

Lemma mvcc_correct_witness :
  exists s',
    HeapTupleSatisfiesMVCC demo_env demo_snapshot 1 (at_start (demo_row 100 101 0 0) tt) = (Ok true, s') /\
    hinted (demo_row 100 101 0 0) (v_tup s') /\ TupleInv demo_env demo_committed demo_running (v_tup s').
Proof.
  apply (mvcc_correct demo_env demo_committed demo_running demo_snapshot demo_insnap 1
    (at_start (demo_row 100 101 0 0) tt)).
  - apply demo_env_ok.
  - apply demo_snap_ok.
  - demo_inv.
  - demo_inv.
Defined.

(** The horizon [oldest_xmin] protects [snapshot] from the removal of rows that
    [d] deleted: on the 64-bit ids behind them, the horizon is not past the
    snapshot's xmin, and [d], if it is an ordinary transaction at all, lies within
    half the id space of both.  Of a row nobody deleted ([d] invalid) nothing is
    asked. *)
Record protects (oldest_xmin : Z) (snapshot : SnapshotData) (d fo fs : Z) : Prop := {
  protects_oldest : oldest_xmin = FullTransactionId.xid fo /\ FullTransactionId.is_normal fo = true;
  protects_xmin : s_xmin snapshot = FullTransactionId.xid fs /\ FullTransactionId.is_normal fs = true;
  protects_order : fo <= fs;
  protects_window : TransactionIdIsNormal d = true ->
    exists fd, d = FullTransactionId.xid fd /\ FullTransactionId.is_normal fd = true /\
      Z.abs (fd - fo) < 2 ^ 31 /\ Z.abs (fd - fs) < 2 ^ 31
}.

Lemma protected_deleter oldest_xmin snapshot d fo fs :
  protects oldest_xmin snapshot d fo fs -> TransactionIdPrecedes d oldest_xmin = true ->
  TransactionIdPrecedes d (s_xmin snapshot) = true.
Proof.
  intros [[-> No] [-> Ns] Ho W]. destruct (TransactionIdIsNormal d) eqn:Nd.
  - destruct W as (fd & -> & Nfd & W1 & W2); [done|]. rewrite !precedes_full by done. lia.
  - intros _. unfold TransactionIdPrecedes. rewrite Nd. cbn [negb orb].
    unfold FullTransactionId.is_normal in Ns. unfold TransactionIdIsNormal in *. lia.
Qed.

(** Hint bits do not change what the specification sees, as long as they do not
    freeze the row. *)
Lemma visible_hinted E committed snapshot insnap t t' :
  hinted t t' -> xmin_frozen t' = xmin_frozen t ->
  mvcc_visible E committed snapshot insnap t' = mvcc_visible E committed snapshot insnap t.
Proof.
  intros Hh Fr. unfold mvcc_visible, cmin_of, cmax_of. destruct (hinted_cids E _ _ Hh) as [-> ->].
  rewrite Fr, (hinted_deleter E _ _ Hh). apply hinted_fields in Hh as (Hc & _ & _ & _ & -> & _).
  unfold xmin_raw. by rewrite Hc.
Qed.

(** A row vacuum calls dead is invisible to the specification of MVCC. *)
Lemma dead_invisible E E' committed running committed' running' snapshot insnap oldest_xmin t fo fs :
  EnvOk E committed running -> EnvOk E' committed' running' ->
  later committed running committed' running' -> same_members E E' ->
  SnapOk E' running' snapshot insnap ->
  protects oldest_xmin snapshot (deleter E t) fo fs ->
  vacuum_verdict E committed running oldest_xmin t = HEAPTUPLE_DEAD ->
  mvcc_visible E' committed' snapshot insnap t = false.
Proof.
  intros HE HE' Hl Hm HS HP. unfold vacuum_verdict, htsv, mvcc_visible.
  rewrite (deleter_same E E' Hm t). set (d := deleter E t) in *.
  destruct (xmin_frozen t || committed (xmin_raw t)) eqn:Ins.
  - destruct (HEAP_XMAX_IS_LOCKED_ONLY (t_infomask t)); cbn [negb andb]; [done|].
    destruct (running d); [done|]. destruct (committed d) eqn:Com; [|done].
    rewrite bool_decide_true by done. cbn [andb].
    destruct (TransactionIdPrecedes d oldest_xmin) eqn:Pr; [|done]. intros _.
    assert (Hin : insnap d = false).
    { pose proof (proj1 (HS d)) as HX. unfold XidInSnapshot, XidInMVCCSnapshot in HX.
      rewrite (protected_deleter _ _ _ _ _ HP Pr) in HX. by simplify_eq. }
    rewrite (sees_committed E' committed' running' snapshot insnap d), Hin by (by apply Hl). apply andb_false_r.
  - apply orb_false_iff in Ins as [Fr Com]. rewrite Fr. cbn [orb].
    destruct (running (xmin_raw t)) eqn:Rn.
    { destruct (IsCurrent E (xmin_raw t) && _ && _); by rewrite bool_decide_false. }
    intros _. rewrite (sees_aborted E' committed' running'); [done|].
    by apply (later_aborted _ _ _ _ Hl).
Qed.

(** C2. Vacuum is safe.  If [HeapTupleSatisfiesVacuum] says [HEAPTUPLE_DEAD] of a
    row, whether its inserter aborted and nobody ever deleted it or a deleter
    committed, then for every backend, now or later, whose snapshot the horizon
    protects, [HeapTupleSatisfiesMVCC] says the row is not visible: removing it
    takes nothing from any reader.  The reader may find the header as vacuum found
    it, as vacuum left it, or with any other true hint bits somebody added; only
    freezing the row in between is excluded. *)
Theorem vacuum_dead_safe E E' committed running committed' running' snapshot insnap buffer buffer'
    oldest_xmin (s s1 : VState Z) (s' : VState unit) fo fs :
  EnvOk E committed running -> TupleInv E committed running (v_tup s) ->
  HeapTupleSatisfiesVacuum E oldest_xmin buffer s = (Ok HEAPTUPLE_DEAD, s1) ->
  EnvOk E' committed' running' -> later committed running committed' running' -> same_members E E' ->
  SnapOk E' running' snapshot insnap -> protects oldest_xmin snapshot (deleter E (v_tup s)) fo fs ->
  hinted (v_tup s) (v_tup s') -> xmin_frozen (v_tup s') = xmin_frozen (v_tup s) ->
  TupleInv E' committed' running' (v_tup s') -> CidsOk E' (v_tup s') ->
  fst (HeapTupleSatisfiesMVCC E' snapshot buffer' s') = Ok false.
Proof.
  intros HE HI HV HE' Hl Hm HS HP Hh Fr HI' HC'.
  destruct (vacuum_post E committed running buffer oldest_xmin (v_tup s) s eq_refl HI) as (v & s2 & Hr & Hv & _).
  rewrite HV in Hr. injection Hr as <- _.
  destruct (mvcc_post E' committed' running' snapshot insnap HS buffer' (v_tup s') s' eq_refl HI' HC')
    as (b & s3 & -> & -> & _). cbn. f_equal. rewrite (visible_hinted E' committed' snapshot insnap (v_tup s)) by done.
  by eapply (dead_invisible E E' committed running committed' running').
Qed.

Lemma demo_later : later demo_committed demo_running demo_committed demo_running.
Proof. by split. Qed.

Lemma demo_protects d : d <= 101 -> protects 101 demo_snapshot d 101 101.
Proof.
  intros Hd. split; [done | done | lia |]. unfold TransactionIdIsNormal. change FirstNormalTransactionId with 3. intros Hn.
  assert (Ed : FullTransactionId.xid d = d) by (apply wrap32_small; unfold is_u32; lia).
  exists d. unfold FullTransactionId.is_normal, TransactionIdIsNormal. rewrite Ed. change FirstNormalTransactionId with 3.
  split; [done|]. split; [done|]. lia.
Qed.

(** A committed deletion, read with the header vacuum found; and a row of an
    aborted inserter that nobody deleted, read with the header vacuum left. *)
Lemma vacuum_dead_safe_witness :
  fst (HeapTupleSatisfiesMVCC demo_env demo_snapshot 1 (at_start (demo_row 100 100 0 0) tt)) = Ok false /\
  fst (HeapTupleSatisfiesMVCC demo_env demo_snapshot 1
    (at_start (demo_row 99 0 0 (Z.lor HEAP_XMIN_INVALID HEAP_XMAX_INVALID)) tt)) = Ok false.
Proof.
  split.
  - eapply (vacuum_dead_safe demo_env demo_env demo_committed demo_running demo_committed demo_running
      demo_snapshot demo_insnap 1 1 101 (at_start (demo_row 100 100 0 0) 0) _
      (at_start (demo_row 100 100 0 0) tt) 101 101);
      [apply demo_env_ok | demo_inv | vm_compute; reflexivity | apply demo_env_ok | apply demo_later | done |
       apply demo_snap_ok | apply demo_protects; vm_compute; discriminate | apply rtc_refl | done | demo_inv | demo_inv].
  - eapply (vacuum_dead_safe demo_env demo_env demo_committed demo_running demo_committed demo_running
      demo_snapshot demo_insnap 1 1 101 (at_start (demo_row 99 0 0 HEAP_XMAX_INVALID) 0) _
      (at_start (demo_row 99 0 0 (Z.lor HEAP_XMIN_INVALID HEAP_XMAX_INVALID)) tt) 101 101);
      [apply demo_env_ok | demo_inv | vm_compute; reflexivity | apply demo_env_ok | apply demo_later | done |
       apply demo_snap_ok | apply demo_protects; vm_compute; discriminate | | done | demo_inv | demo_inv].
    apply rtc_once. exists HEAP_XMIN_INVALID. split; [by right; left | done].
Defined.

(** C15. [HeapTupleSatisfiesVacuum] classifies: a row whose inserter aborted is
    dead, one being inserted or deleted is reported so, a locked row is live, and
    a deleted one is dead once its deleter precedes the horizon and recently dead
    until then; the out-parameter names the deleter exactly for the latter two
    verdicts of a committed deletion. *)
Theorem vacuum_classifies E committed running oldest_xmin buffer (s : VState Z) :
  EnvOk E committed running -> TupleInv E committed running (v_tup s) ->
  exists s',
    HeapTupleSatisfiesVacuum E oldest_xmin buffer s
      = (Ok (vacuum_verdict E committed running oldest_xmin (v_tup s)), s') /\
    v_res s' = htsv_dead_after E committed running (v_tup s) /\
    hinted (v_tup s) (v_tup s') /\ TupleInv E committed running (v_tup s').
Proof.
  intros HE HI. apply post_run. eapply post_impl; [by apply (vacuum_post E committed running)|].
  intros v s' [-> A]. split; [done|]. split; [apply A|]. split; [apply A | by eapply at_row_tuple].
Qed.

Lemma vacuum_classifies_witness :
  exists s',
    HeapTupleSatisfiesVacuum demo_env 100 1 (at_start (demo_row 100 100 0 0) 0)
      = (Ok HEAPTUPLE_RECENTLY_DEAD, s') /\ v_res s' = 100 /\
    hinted (demo_row 100 100 0 0) (v_tup s') /\ TupleInv demo_env demo_committed demo_running (v_tup s').
Proof.
  apply (vacuum_classifies demo_env demo_committed demo_running 100 1 (at_start (demo_row 100 100 0 0) 0)).
  - apply demo_env_ok.
  - demo_inv.
Defined.

(** C14. [HeapTupleSatisfiesUpdate] answers as specified on every branch, for every
    row whose hint bits are true, those a pre-9.0 VACUUM FULL was moving included:
    invisible if the row is not there for command [curcid] (its inserter neither
    is frozen, nor committed, nor is an earlier command of ours; or, for a row
    marked HEAP_MOVED_OFF, the move committed or is ours, and for one marked
    HEAP_MOVED_IN, it neither committed nor is ours); otherwise the verdict on
    xmax, which tells a row we may change from one that another transaction holds,
    that a committed transaction updated or deleted, or that an earlier or later
    command of ours already changed.  It changes nothing but hint bits, and leaves
    only true ones. *)
Theorem update_correct E committed running t_self curcid buffer {R} (s : VState R) :
  EnvOk E committed running -> RowInv E committed running (v_tup s) -> CidsOk E (v_tup s) ->
  exists s',
    HeapTupleSatisfiesUpdate E t_self curcid buffer s
      = (Ok (update_verdict E committed running t_self curcid (v_tup s)), s') /\
    v_res s' = v_res s /\ hinted (v_tup s) (v_tup s') /\ RowInv E committed running (v_tup s').
Proof.
  intros HE HI HC. apply post_run. eapply post_impl; [by apply (update_post E committed running)|].
  intros v s' [-> (? & ? & ?)]. done.
Qed.

(** A row held by a running member of a multixact; the old copy of a row whose move
    by 100 committed; and the new copy of one. *)
Lemma update_correct_witness :
  (exists s',
    HeapTupleSatisfiesUpdate demo_env (ItemPointerSet 0 1) 5 1
        (at_start (demo_row 100 500 0 HEAP_XMAX_IS_MULTI) tt) = (Ok TM_BeingModified, s') /\
    v_res s' = tt /\ hinted (demo_row 100 500 0 HEAP_XMAX_IS_MULTI) (v_tup s') /\
    RowInv demo_env demo_committed demo_running (v_tup s')) /\
  (exists s',
    HeapTupleSatisfiesUpdate demo_env (ItemPointerSet 0 1) 5 1
        (at_start (demo_row 99 0 100 HEAP_MOVED_OFF) tt) = (Ok TM_Invisible, s') /\
    v_res s' = tt /\ hinted (demo_row 99 0 100 HEAP_MOVED_OFF) (v_tup s') /\
    RowInv demo_env demo_committed demo_running (v_tup s')) /\
  (exists s',
    HeapTupleSatisfiesUpdate demo_env (ItemPointerSet 0 1) 5 1
        (at_start (demo_row 99 0 100 HEAP_MOVED_IN) tt) = (Ok TM_Ok, s') /\
    v_res s' = tt /\ hinted (demo_row 99 0 100 HEAP_MOVED_IN) (v_tup s') /\
    RowInv demo_env demo_committed demo_running (v_tup s')).
Proof.
  split; [|split].
  - apply (update_correct demo_env demo_committed demo_running (ItemPointerSet 0 1) 5 1
      (at_start (demo_row 100 500 0 HEAP_XMAX_IS_MULTI) tt)); [apply demo_env_ok | demo_inv | demo_inv].
  - apply (update_correct demo_env demo_committed demo_running (ItemPointerSet 0 1) 5 1
      (at_start (demo_row 99 0 100 HEAP_MOVED_OFF) tt)); [apply demo_env_ok | demo_inv | demo_inv].
  - apply (update_correct demo_env demo_committed demo_running (ItemPointerSet 0 1) 5 1
      (at_start (demo_row 99 0 100 HEAP_MOVED_IN) tt)); [apply demo_env_ok | demo_inv | demo_inv].
Defined.

(** C6. A row [HeapTupleSatisfiesUpdate] clears for modification is one the
    current command sees ([HeapTupleSatisfiesSelf] says so of the same row) and
    that no running transaction holds: no lost update. *)
Theorem update_ok_safe E committed running t_self curcid buffer (s s1 : VState unit) :
  EnvOk E committed running -> TupleInv E committed running (v_tup s) -> CidsOk E (v_tup s) ->
  HeapTupleSatisfiesUpdate E t_self curcid buffer s = (Ok TM_Ok, s1) ->
  held E running (v_tup s) = false /\ fst (HeapTupleSatisfiesSelf E buffer s) = Ok true.
Proof.
  intros HE HI HC HU.
  destruct (update_post E committed running buffer t_self curcid (v_tup s) tt s) as (v & s2 & Hr & Hv & _);
    [done | by destruct (v_res s) | by apply TupleInv_row | done |].
  destruct (self_post E committed running buffer (v_tup s) tt s) as (b & s3 & -> & -> & _);
    [done | by destruct (v_res s) | by apply TupleInv_row |].
  rewrite HU in Hr. injection Hr as <- _. cbn [fst].
  destruct (update_ok_self E committed running t_self curcid (v_tup s) (eq_sym Hv)) as [-> ->]. done.
Qed.

Lemma update_ok_safe_witness :
  held demo_env demo_running (demo_row 100 103 0 0) = false /\
  fst (HeapTupleSatisfiesSelf demo_env 1 (at_start (demo_row 100 103 0 0) tt)) = Ok true.
Proof.
  eapply (update_ok_safe demo_env demo_committed demo_running (ItemPointerSet 0 1) 5 1
    (at_start (demo_row 100 103 0 0) tt)).
  - apply demo_env_ok.
  - demo_inv.
  - demo_inv.
  - vm_compute. reflexivity.
Defined.

(** C25. [HeapTupleSatisfiesSelf]: the row exists for us (its inserter is frozen,
    committed or ours) and neither we nor a committed transaction deleted it. *)
Theorem self_correct E committed running buffer {R} (s : VState R) :
  EnvOk E committed running -> TupleInv E committed running (v_tup s) ->
  exists s',
    HeapTupleSatisfiesSelf E buffer s = (Ok (self_visible E committed (v_tup s)), s') /\
    v_res s' = v_res s /\ hinted (v_tup s) (v_tup s') /\ TupleInv E committed running (v_tup s').
Proof.
  intros HE HI. apply post_run. eapply post_impl; [apply (self_post E committed running); [done | done | by apply TupleInv_row]|].
  intros v s' [-> A]. split; [done|]. split; [apply A|]. split; [apply A | by eapply at_row_tuple].
Qed.

Lemma self_correct_witness :
  exists s',
    HeapTupleSatisfiesSelf demo_env 1 (at_start (demo_row 102 102 0 0) tt) = (Ok false, s') /\
    v_res s' = tt /\ hinted (demo_row 102 102 0 0) (v_tup s') /\
    TupleInv demo_env demo_committed demo_running (v_tup s').
Proof.
  apply (self_correct demo_env demo_committed demo_running 1 (at_start (demo_row 102 102 0 0) tt)).
  - apply demo_env_ok.
  - demo_inv.
Defined.

(** C24. [HeapTupleSatisfiesDirty] also counts rows others are still inserting, and
    hands back through the snapshot exactly the transaction a caller must wait
    for: the running inserter with its speculative token, or the running
    deleter, or nobody. *)
Theorem dirty_correct E committed running buffer (s : VState SnapshotData) :
  EnvOk E committed running -> TupleInv E committed running (v_tup s) ->
  exists s',
    HeapTupleSatisfiesDirty E buffer s
      = (Ok (fst (dirty_verdict E committed running (v_tup s) (v_res s))), s') /\
    v_res s' = snd (dirty_verdict E committed running (v_tup s) (v_res s)) /\
    hinted (v_tup s) (v_tup s') /\ TupleInv E committed running (v_tup s').
Proof.
  intros HE HI. apply post_run. eapply post_impl; [apply (dirty_post E committed running); [done | done | by apply TupleInv_row]|].
  intros v s' [-> A]. split; [done|]. split; [apply A|]. split; [apply A | by eapply at_row_tuple].
Qed.

Lemma dirty_correct_witness :
  exists s',
    HeapTupleSatisfiesDirty demo_env 1 (at_start (demo_row 101 0 0 0) (sentinel SNAPSHOT_DIRTY))
      = (Ok true, s') /\
    v_res s' = set_dirty 101 0 0 (sentinel SNAPSHOT_DIRTY) /\
    hinted (demo_row 101 0 0 0) (v_tup s') /\ TupleInv demo_env demo_committed demo_running (v_tup s').
Proof.
  apply (dirty_correct demo_env demo_committed demo_running 1
    (at_start (demo_row 101 0 0 0) (sentinel SNAPSHOT_DIRTY))).
  - apply demo_env_ok.
  - demo_inv.
Defined.

(** C26. [HeapTupleIsSurelyDead], which looks at hint bits alone, never calls dead a
    row that the full check [HeapTupleSatisfiesNonVacuumable] would keep. *)
Theorem surely_dead_removable E committed running snapshot buffer (s : VState Z) :
  EnvOk E committed running -> TupleInv E committed running (v_tup s) ->
  HeapTupleIsSurelyDead E (v_tup s) (vistest snapshot) = Ok true ->
  fst (HeapTupleSatisfiesNonVacuumable E snapshot buffer s) = Ok false.
Proof.
  intros HE HI HD. unfold HeapTupleSatisfiesNonVacuumable, mbnd at 1.
  destruct (horizon_post E committed running buffer (v_tup s) s eq_refl HI) as (v & s1 & -> & -> & _ & _ & HR).
  unfold mbnd, mget. rewrite HR.
  destruct (surely_dead_htsv E committed running _ _ HI HD) as [H|[H HRm]].
  - rewrite H. done.
  - rewrite bool_decide_true by done. unfold htsv_dead_after. rewrite bool_decide_true by done.
    unfold mlift. by rewrite HRm.
Qed.

Lemma surely_dead_removable_witness :
  fst (HeapTupleSatisfiesNonVacuumable demo_env demo_snapshot 1
         (at_start (demo_row 100 100 0 (Z.lor HEAP_XMIN_COMMITTED HEAP_XMAX_COMMITTED)) 0)) = Ok false.
Proof.
  apply (surely_dead_removable demo_env demo_committed demo_running demo_snapshot 1
    (at_start (demo_row 100 100 0 (Z.lor HEAP_XMIN_COMMITTED HEAP_XMAX_COMMITTED)) 0)).
  - apply demo_env_ok.
  - demo_inv.
  - vm_compute. reflexivity.
Defined.

(** C17. Hint bits can be trusted by others and later: what one backend's
    [HeapTupleSatisfiesMVCC] leaves on a shared page is true in every backend and
    stays true as transactions finish. *)
Theorem hints_stable E E' committed running committed' running' snapshot insnap buffer (s s1 : VState unit) r :
  EnvOk E committed running -> SnapOk E running snapshot insnap ->
  TupleInv E committed running (v_tup s) -> CidsOk E (v_tup s) ->
  HeapTupleSatisfiesMVCC E snapshot buffer s = (r, s1) ->
  EnvOk E' committed' running' -> later committed running committed' running' -> same_members E E' ->
  HintsOk E' committed' running' (v_tup s1).
Proof.
  intros HE HS HI HC Hr HE' Hl Hm.
  destruct (mvcc_post E committed running snapshot insnap HS buffer (v_tup s) s eq_refl HI HC)
    as (v & s2 & Hr2 & _ & _ & [_ HH] & _).
  rewrite Hr in Hr2. injection Hr2 as _ <-.
  by apply (HintsOk_later E E' committed running committed' running' Hl Hm).
Qed.

(** The state after transaction 101 committed. *)
Definition demo_committed' (x : Z) : bool := (x =? 100) || (x =? 101).
Definition demo_running' (x : Z) : bool := x =? 102.

Definition demo_env' : XactEnv := {|
  IsCurrent x := x =? 102; InProgress x := Ok (demo_running' x); DidCommit x := Ok (demo_committed' x);
  GetMembers := GetMembers demo_env; combo := ComboCidState_default; TopXid x := Ok x;
  CommitLSN _ := Ok 0; NeedsFlush _ := false; IsPermanent _ := true; BufferLSN _ := 0;
  MarkDirtyHint _ := Ok tt; IsRemovable _ x := Ok (TransactionIdPrecedes x 101); ResolveCids _ _ := Ok None
|}.

Lemma hints_stable_witness :
  HintsOk demo_env' demo_committed' demo_running' (demo_row 100 99 0 (Z.lor HEAP_XMIN_COMMITTED HEAP_XMAX_INVALID)).
Proof.
  refine (hints_stable demo_env demo_env' demo_committed demo_running demo_committed' demo_running'
    demo_snapshot demo_insnap 1 (at_start (demo_row 100 99 0 0) tt)
    {| v_tup := demo_row 100 99 0 (Z.lor HEAP_XMIN_COMMITTED HEAP_XMAX_INVALID); v_dirty := [1; 1]; v_res := tt |}
    (Ok true) _ _ _ _ _ _ _ _).
  - apply demo_snap_ok.
  - demo_inv.
  - demo_inv.
  - vm_compute. reflexivity.
  - split; cbn; unfold demo_committed', demo_running'; try done; intros; try lia; by eexists.
  - unfold demo_committed, demo_running, demo_committed', demo_running'.
    split; unfold aborted; intros; lia.
  - done.
Defined.

(** A page with a visible row, a dead line pointer, a row of an aborted inserter and
    a row that a running transaction deleted, scanned with the conflict check; and
    a page of visible rows that is flagged so. *)
Definition demo_lines : list (option HeapTupleHeaderData) :=
  [Some (demo_row 100 0 0 0); None; Some (demo_row 99 0 0 0); Some (demo_row 100 101 0 0)].

Definition demo_flagged : list (option HeapTupleHeaderData) :=
  [Some (demo_row 100 0 0 HEAP_XMAX_INVALID); Some (demo_row 100 99 0 0)].

Lemma demo_flag_honest : flag_honest demo_env demo_snapshot 1 demo_flagged.
Proof.
  intros t dirty Ht. apply elem_of_cons in Ht as [[= ->]|Ht]; [done|]. apply list_elem_of_singleton in Ht as [= ->]. done.
Qed.

Lemma page_collect_tuples_reference_witness :
  fst (page_collect_tuples demo_env demo_snapshot 1 (fun _ => mret tt) false true demo_lines) = Ok [1; 4] /\
  agrees (page_collect_tuples demo_env demo_snapshot 1 (fun _ => mret tt) false true demo_lines)
    (page_reference (fun _ => mret tt) (plain_verdict demo_env demo_snapshot 1) true demo_lines) /\
  fst (page_collect_tuples demo_env demo_snapshot 1 (fun _ => mret tt) true false demo_flagged) =
    fst (page_reference (fun _ => mret tt) (plain_verdict demo_env demo_snapshot 1) false demo_flagged).
Proof.
  split; [by vm_compute|]. split.
  - apply (page_collect_tuples_reference demo_env demo_snapshot 1 (fun _ => mret tt) false true demo_lines).
  - apply (page_collect_tuples_reference demo_env demo_snapshot 1 (fun _ => mret tt) true false demo_flagged); [done|].
    apply demo_flag_honest.
Defined.
