(* ===== verification/Slru.v ===== *)
(** * The SLRU page cache: [access/transam/slru/src/lib.rs]

    A small write-back cache of fixed-size pages over segment files, in banks of
    sixteen slots.  [clog], [subtrans] and [multixact] keep their data in it.

    The model is that of one backend: nobody else touches a bank while its lock
    is released for I/O.  The I/O states that a failed operation leaves behind
    are modelled, and so is what the next caller does about them. *)

From S2P Require Import Prelude Xid ItemPtr Snapshot.

Definition SLRU_PAGES_PER_SEGMENT : Z := 32.
Definition SLRU_BANK_BITSHIFT : Z := 4.
Definition SLRU_BANK_SIZE : Z := Z.shiftl 1 SLRU_BANK_BITSHIFT.
Definition MAX_WRITEALL_BUFFERS : nat := 16.

Definition SlotGetBankNumber (slotno : Z) : Z := Z.shiftr slotno SLRU_BANK_BITSHIFT.

Inductive SlruPageStatus :=
| SLRU_PAGE_EMPTY
| SLRU_PAGE_READ_IN_PROGRESS
| SLRU_PAGE_VALID
| SLRU_PAGE_WRITE_IN_PROGRESS.

#[export] Instance SlruPageStatus_eq_dec : EqDecision SlruPageStatus.
Proof. solve_decision. Defined.

Inductive SlruErrorCause :=
| SLRU_OPEN_FAILED
| SLRU_SEEK_FAILED
| SLRU_READ_FAILED
| SLRU_WRITE_FAILED
| SLRU_FSYNC_FAILED
| SLRU_CLOSE_FAILED.

(** [SlruIoError]: what failed, and the errno it left. *)
Record SlruIoError := { cause : SlruErrorCause; errno : Z }.

Definition ENOENT : Z := 2.
Definition ENOSPC : Z := 28.

(** [SlruSharedData], the segment files it caches (their length in whole pages
    and the bytes in them) and how far the WAL is known flushed. *)
Record SlruShared := {
  page_status : arr SlruPageStatus;
  page_dirty : arr bool;
  page_number : arr Z;
  page_lru_count : arr Z;
  bank_cur_lru_count : arr Z;
  group_lsn : arr Z;
  pages : arr (arr Z);
  latest_page_number : Z;
  seg_pages : gmap Z Z;
  disk : arr (arr Z);
  flushed : Z
}.

Definition with_status (f : arr SlruPageStatus -> arr SlruPageStatus) (s : SlruShared) : SlruShared :=
  {| page_status := f (page_status s); page_dirty := page_dirty s; page_number := page_number s;
     page_lru_count := page_lru_count s; bank_cur_lru_count := bank_cur_lru_count s;
     group_lsn := group_lsn s; pages := pages s; latest_page_number := latest_page_number s;
     seg_pages := seg_pages s; disk := disk s; flushed := flushed s |}.
Definition with_page_dirty (f : arr bool -> arr bool) (s : SlruShared) : SlruShared :=
  {| page_status := page_status s; page_dirty := f (page_dirty s); page_number := page_number s;
     page_lru_count := page_lru_count s; bank_cur_lru_count := bank_cur_lru_count s;
     group_lsn := group_lsn s; pages := pages s; latest_page_number := latest_page_number s;
     seg_pages := seg_pages s; disk := disk s; flushed := flushed s |}.
Definition with_number (f : arr Z -> arr Z) (s : SlruShared) : SlruShared :=
  {| page_status := page_status s; page_dirty := page_dirty s; page_number := f (page_number s);
     page_lru_count := page_lru_count s; bank_cur_lru_count := bank_cur_lru_count s;
     group_lsn := group_lsn s; pages := pages s; latest_page_number := latest_page_number s;
     seg_pages := seg_pages s; disk := disk s; flushed := flushed s |}.
Definition with_lru (f : arr Z -> arr Z) (g : arr Z -> arr Z) (s : SlruShared) : SlruShared :=
  {| page_status := page_status s; page_dirty := page_dirty s; page_number := page_number s;
     page_lru_count := f (page_lru_count s); bank_cur_lru_count := g (bank_cur_lru_count s);
     group_lsn := group_lsn s; pages := pages s; latest_page_number := latest_page_number s;
     seg_pages := seg_pages s; disk := disk s; flushed := flushed s |}.
Definition with_group_lsn (f : arr Z -> arr Z) (s : SlruShared) : SlruShared :=
  {| page_status := page_status s; page_dirty := page_dirty s; page_number := page_number s;
     page_lru_count := page_lru_count s; bank_cur_lru_count := bank_cur_lru_count s;
     group_lsn := f (group_lsn s); pages := pages s; latest_page_number := latest_page_number s;
     seg_pages := seg_pages s; disk := disk s; flushed := flushed s |}.
Definition with_pages (f : arr (arr Z) -> arr (arr Z)) (s : SlruShared) : SlruShared :=
  {| page_status := page_status s; page_dirty := page_dirty s; page_number := page_number s;
     page_lru_count := page_lru_count s; bank_cur_lru_count := bank_cur_lru_count s;
     group_lsn := group_lsn s; pages := f (pages s); latest_page_number := latest_page_number s;
     seg_pages := seg_pages s; disk := disk s; flushed := flushed s |}.
Definition set_latest_page_number (pageno : Z) (s : SlruShared) : SlruShared :=
  {| page_status := page_status s; page_dirty := page_dirty s; page_number := page_number s;
     page_lru_count := page_lru_count s; bank_cur_lru_count := bank_cur_lru_count s;
     group_lsn := group_lsn s; pages := pages s; latest_page_number := pageno;
     seg_pages := seg_pages s; disk := disk s; flushed := flushed s |}.
Definition with_files (f : gmap Z Z -> gmap Z Z) (g : arr (arr Z) -> arr (arr Z)) (s : SlruShared)
  : SlruShared :=
  {| page_status := page_status s; page_dirty := page_dirty s; page_number := page_number s;
     page_lru_count := page_lru_count s; bank_cur_lru_count := bank_cur_lru_count s;
     group_lsn := group_lsn s; pages := pages s; latest_page_number := latest_page_number s;
     seg_pages := f (seg_pages s); disk := g (disk s); flushed := flushed s |}.
Definition with_flushed (lsn : Z) (s : SlruShared) : SlruShared :=
  {| page_status := page_status s; page_dirty := page_dirty s; page_number := page_number s;
     page_lru_count := page_lru_count s; bank_cur_lru_count := bank_cur_lru_count s;
     group_lsn := group_lsn s; pages := pages s; latest_page_number := latest_page_number s;
     seg_pages := seg_pages s; disk := disk s; flushed := lsn |}.

(** [page_status.set], [page_dirty.set] *)
Definition set_status (slotno : Z) (st : SlruPageStatus) : SlruShared -> SlruShared :=
  with_status (set_at slotno st).
Definition set_page_dirty (slotno : Z) (b : bool) : SlruShared -> SlruShared :=
  with_page_dirty (set_at slotno b).

(** ** The control block and the world outside *)

Inductive OpenOutcome :=
| OpenRaise (e : PgError)  (* [open_transient_file] reports an error of its own *)
| OpenErrno                (* it fails, not because the file is missing *)
| OpenOk.

Inductive WriteOutcome := WriteOk | WriteShort | WriteErr.

(** [SlruCtlData], and what the file system, the sync queue and the WAL answer.
    A read that fails may leave anything in the buffer, a short write may leave
    anything in that page of the file.  [current_errno cause segno] is the errno a
    failed call on that segment sets, [data_sync_elevel] the severity of a failed
    fsync; [unlink_fails segno] is the unlink of a segment file that the file system
    refuses. *)
Record SlruCtl := {
  num_slots : Z;
  nbanks : Z;
  lsn_groups_per_page : Z;
  PagePrecedes : Z -> Z -> bool;
  has_sync_handler : bool;
  in_recovery : bool;
  open_read : Z -> OpenOutcome;
  open_write : Z -> OpenOutcome;
  read_fails : Z -> bool;
  garbage : Z -> arr Z;
  write_page : Z -> WriteOutcome;
  close_fails : Z -> bool;
  register_sync_request : Z -> result bool;
  fsync_fails : Z -> bool;
  unlink_fails : Z -> bool;
  size_fails : Z -> bool;
  current_errno : SlruErrorCause -> Z -> Z;
  data_sync_elevel : Elevel;
  fsync_dir : result unit;
  xlog_flush : Z -> Z -> result Z
}.

Definition mraise {A} (e : PgError) : M SlruShared A := mlift (Err e).
Definition zero_page : arr Z := fun _ => 0.

Section Slru.
Variable ctl : SlruCtl.

Definition bank_of (pageno : Z) : Z := Z.rem pageno (nbanks ctl).

(** [bankstart..bankend] *)
Definition bank_slots (bankno : Z) : list Z :=
  map (fun i => bankno * SLRU_BANK_SIZE + Z.of_nat i) (seq 0 (Z.to_nat SLRU_BANK_SIZE)).

Definition all_slots : list Z := map Z.of_nat (seq 0 (Z.to_nat (num_slots ctl))).

(** The report for a failed access: the message names the transaction, the
    detail the segment file and, for reads and writes, the offset in it. *)
Definition io_report (pageno xid : Z) (io_err : SlruIoError) : PgError :=
  let segno := Z.quot pageno SLRU_PAGES_PER_SEGMENT in
  let rpageno := Z.rem pageno SLRU_PAGES_PER_SEGMENT in
  let offset := rpageno * BLCKSZ in
  let msg := "could not access status of transaction"%string in
  let en := errno io_err in
  match cause io_err with
  | SLRU_OPEN_FAILED => PgReport ERROR (Some en) msg "Could not open file" [xid; segno]
  | SLRU_SEEK_FAILED => PgReport ERROR (Some en) msg "Could not seek in file to offset" [xid; segno; offset]
  | SLRU_READ_FAILED =>
      if negb (en =? 0)
      then PgReport ERROR (Some en) msg "Could not read from file at offset" [xid; segno; offset]
      else PgReport ERROR None msg "Could not read from file at offset: read too few bytes" [xid; segno; offset]
  | SLRU_WRITE_FAILED =>
      if negb (en =? 0)
      then PgReport ERROR (Some en) msg "Could not write to file at offset" [xid; segno; offset]
      else PgReport ERROR None msg "Could not write to file at offset: wrote too few bytes" [xid; segno; offset]
  | SLRU_FSYNC_FAILED => PgReport (data_sync_elevel ctl) (Some en) msg "Could not fsync file" [xid; segno]
  | SLRU_CLOSE_FAILED => PgReport ERROR (Some en) msg "Could not close file" [xid; segno]
  end.

Definition SlruReportIOError {A} (pageno xid : Z) (io_err : SlruIoError) : M SlruShared A :=
  mraise (io_report pageno xid io_err).

(** [for i in slotno * groups..(slotno + 1) * groups] *)
Definition SimpleLruZeroLSNs (slotno : Z) : M SlruShared unit :=
  let groups := lsn_groups_per_page ctl in
  mput (with_group_lsn (fun f i =>
    if (slotno * groups <=? i) && (i <? (slotno + 1) * groups) then InvalidXLogRecPtr else f i)).

Definition i32_add (a b : Z) : Z := as_i32 (wrap32 (a + b)).
Definition i32_sub (a b : Z) : Z := as_i32 (wrap32 (a - b)).

Definition SlruRecentlyUsed (slotno : Z) : M SlruShared unit :=
  let bankno := SlotGetBankNumber slotno in
  let! s := mget in
  let cur := bank_cur_lru_count s bankno in
  if negb (cur =? page_lru_count s slotno) then
    let new_count := i32_add cur 1 in
    mput (with_lru (set_at slotno new_count) (set_at bankno new_count))
  else mret tt.

(** Nobody else holds the buffer lock, so the conditional acquire succeeds. *)
Definition SimpleLruWaitIO (slotno : Z) : M SlruShared unit :=
  let! s := mget in
  if bool_decide (page_status s slotno = SLRU_PAGE_READ_IN_PROGRESS)
     || bool_decide (page_status s slotno = SLRU_PAGE_WRITE_IN_PROGRESS) then
    if bool_decide (page_status s slotno = SLRU_PAGE_READ_IN_PROGRESS) then
      mput (set_status slotno SLRU_PAGE_EMPTY)
    else
      mput (set_status slotno SLRU_PAGE_VALID) ;! mput (set_page_dirty slotno true)
  else mret tt.

(** *** Physical I/O *)

Definition failed {A} (c : SlruErrorCause) (en : Z) : M A (option SlruIoError) :=
  mret (Some {| cause := c; errno := en |}).

Definition SlruPhysicalReadPage (pageno slotno : Z) : M SlruShared (option SlruIoError) :=
  let segno := Z.quot pageno SLRU_PAGES_PER_SEGMENT in
  let rpageno := Z.rem pageno SLRU_PAGES_PER_SEGMENT in
  let! s := mget in
  match open_read ctl segno with
  | OpenRaise e => mraise e
  | OpenErrno => failed SLRU_OPEN_FAILED (current_errno ctl SLRU_OPEN_FAILED segno)
  | OpenOk =>
      match seg_pages s !! segno with
      | None =>
          if negb (in_recovery ctl) then failed SLRU_OPEN_FAILED ENOENT
          else mput (with_pages (set_at slotno zero_page)) ;! mret None
      | Some len =>
          if (len <=? rpageno) || read_fails ctl pageno then
            mput (with_pages (set_at slotno (garbage ctl pageno))) ;!
            failed SLRU_READ_FAILED
              (if read_fails ctl pageno then current_errno ctl SLRU_READ_FAILED segno else 0)
          else
            mput (with_pages (set_at slotno (disk s pageno))) ;!
            (if close_fails ctl segno
             then failed SLRU_CLOSE_FAILED (current_errno ctl SLRU_CLOSE_FAILED segno)
             else mret None)
      end
  end.

(** The largest of the [n] group LSNs that follow [lsnindex]. *)
Fixpoint max_group_lsn (s : SlruShared) (lsnindex : Z) (n : nat) : Z :=
  match n with
  | O => group_lsn s lsnindex
  | S n =>
      let max_lsn := max_group_lsn s lsnindex n in
      let this_lsn := group_lsn s (lsnindex + Z.of_nat (S n)) in
      if max_lsn <? this_lsn then this_lsn else max_lsn
  end.

Definition flush_group_lsns (slotno : Z) : M SlruShared unit :=
  let groups := lsn_groups_per_page ctl in
  let! s := mget in
  if groups >? 0 then
    let max_lsn := max_group_lsn s (slotno * groups) (Z.to_nat (groups - 1)) in
    if negb (max_lsn =? InvalidXLogRecPtr) then
      let! f := mlift (xlog_flush ctl max_lsn (flushed s)) in mput (with_flushed f)
    else mret tt
  else mret tt.

(** The descriptor for a segment: one that this flush already opened, or a new
    one, which creates a missing file and is remembered while there is room.
    The flag says whether the descriptor stays with the flush. *)
Definition open_segment (segno : Z) (fdata : option (list Z))
  : M SlruShared (option (bool * option (list Z))) :=
  match fdata with
  | Some segs =>
      if contains segs segno then mret (Some (true, fdata)) else
      match open_write ctl segno with
      | OpenRaise e => mraise e
      | OpenErrno => mret None
      | OpenOk =>
          mput (with_files (fun m => match m !! segno with Some _ => m | None => <[segno := 0]> m end) id) ;!
          (if (length segs <? MAX_WRITEALL_BUFFERS)%nat
           then mret (Some (true, Some (segs ++ [segno]))) else mret (Some (false, fdata)))
      end
  | None =>
      match open_write ctl segno with
      | OpenRaise e => mraise e
      | OpenErrno => mret None
      | OpenOk =>
          mput (with_files (fun m => match m !! segno with Some _ => m | None => <[segno := 0]> m end) id) ;!
          mret (Some (false, None))
      end
  end.

(** [pwrite]: a gap before the page reads as zeroes from then on. *)
Definition grow (segno n : Z) (m : gmap Z Z) : gmap Z Z :=
  <[segno := Z.max n (default 0 (m !! segno))]> m.

(** From [vfs::pwrite] to the end of [SlruPhysicalWritePage]. *)
Definition write_bytes (pageno slotno : Z) (keep : bool) : M SlruShared (option SlruIoError) :=
  let segno := Z.quot pageno SLRU_PAGES_PER_SEGMENT in
  let rpageno := Z.rem pageno SLRU_PAGES_PER_SEGMENT in
  let! s := mget in
  match write_page ctl pageno with
  | WriteErr =>
      let en := current_errno ctl SLRU_WRITE_FAILED segno in
      failed SLRU_WRITE_FAILED (if en =? 0 then ENOSPC else en)
  | WriteShort =>
      mput (with_files (grow segno rpageno) (set_at pageno (garbage ctl pageno))) ;!
      failed SLRU_WRITE_FAILED ENOSPC
  | WriteOk =>
      mput (with_files (grow segno (rpageno + 1)) (set_at pageno (pages s slotno))) ;!
      (let! synced :=
         (if has_sync_handler ctl then
            let! queued := mlift (register_sync_request ctl segno) in
            mret (queued || negb (fsync_fails ctl segno))
          else mret true) in
       if negb synced then failed SLRU_FSYNC_FAILED (current_errno ctl SLRU_FSYNC_FAILED segno)
       else if negb keep && close_fails ctl segno
       then failed SLRU_CLOSE_FAILED (current_errno ctl SLRU_CLOSE_FAILED segno)
       else mret None)
  end.

Definition SlruPhysicalWritePage (pageno slotno : Z) (fdata : option (list Z))
  : M SlruShared (option SlruIoError * option (list Z)) :=
  flush_group_lsns slotno ;!
  (let! o := open_segment (Z.quot pageno SLRU_PAGES_PER_SEGMENT) fdata in
   match o with
   | None =>
       mret (Some {| cause := SLRU_OPEN_FAILED;
                     errno := current_errno ctl SLRU_OPEN_FAILED (Z.quot pageno SLRU_PAGES_PER_SEGMENT) |},
             fdata)
   | Some (keep, fdata) =>
       let! ok := write_bytes pageno slotno keep in mret (ok, fdata)
   end).

(** *** Writing out a slot *)

(** [while status == WRITE_IN_PROGRESS && number == pageno] *)
Fixpoint wait_write (fuel : nat) (pageno slotno : Z) : M SlruShared unit :=
  match fuel with
  | O => mlift Panic
  | S fuel =>
      let! s := mget in
      if bool_decide (page_status s slotno = SLRU_PAGE_WRITE_IN_PROGRESS)
         && (page_number s slotno =? pageno)
      then SimpleLruWaitIO slotno ;! wait_write fuel pageno slotno
      else mret tt
  end.

Definition SlruInternalWritePage (slotno : Z) (fdata : option (list Z))
  : M SlruShared (option (list Z)) :=
  let! s := mget in
  let pageno := page_number s slotno in
  wait_write 2 pageno slotno ;!
  (let! s := mget in
   if negb (page_dirty s slotno) || negb (bool_decide (page_status s slotno = SLRU_PAGE_VALID))
      || negb (page_number s slotno =? pageno)
   then mret fdata
   else
     mput (set_status slotno SLRU_PAGE_WRITE_IN_PROGRESS) ;!
     (mput (set_page_dirty slotno false) ;!
      (let! r := SlruPhysicalWritePage pageno slotno fdata in
       let ok := fst r in
       let fdata := snd r in
       (match ok with Some _ => mput (set_page_dirty slotno true) | None => mret tt end) ;!
       (mput (set_status slotno SLRU_PAGE_VALID) ;!
        match ok with
        | Some io_err => SlruReportIOError pageno InvalidTransactionId io_err
        | None => mret fdata
        end)))).

Definition SimpleLruWritePage (slotno : Z) : M SlruShared unit :=
  SlruInternalWritePage slotno None ;! mret tt.

(** *** Choosing a slot *)

Definition holds_page (s : SlruShared) (pageno slotno : Z) : bool :=
  negb (bool_decide (page_status s slotno = SLRU_PAGE_EMPTY)) && (page_number s slotno =? pageno).

Record Best := {
  bestvalidslot : Z; best_valid_delta : Z; best_valid_page_number : Z;
  bestinvalidslot : Z; best_invalid_delta : Z; best_invalid_page_number : Z
}.

Definition no_best : Best :=
  {| bestvalidslot := 0; best_valid_delta := -1; best_valid_page_number := 0;
     bestinvalidslot := 0; best_invalid_delta := -1; best_invalid_page_number := 0 |}.

Definition consider (s : SlruShared) (slotno this_delta : Z) (b : Best) : Best :=
  let this_page_number := page_number s slotno in
  if this_page_number =? latest_page_number s then b
  else if bool_decide (page_status s slotno = SLRU_PAGE_VALID) then
    if (this_delta >? best_valid_delta b)
       || (this_delta =? best_valid_delta b)
          && PagePrecedes ctl this_page_number (best_valid_page_number b)
    then {| bestvalidslot := slotno; best_valid_delta := this_delta;
            best_valid_page_number := this_page_number;
            bestinvalidslot := bestinvalidslot b; best_invalid_delta := best_invalid_delta b;
            best_invalid_page_number := best_invalid_page_number b |}
    else b
  else if (this_delta >? best_invalid_delta b)
          || (this_delta =? best_invalid_delta b)
             && PagePrecedes ctl this_page_number (best_invalid_page_number b)
  then {| bestvalidslot := bestvalidslot b; best_valid_delta := best_valid_delta b;
          best_valid_page_number := best_valid_page_number b;
          bestinvalidslot := slotno; best_invalid_delta := this_delta;
          best_invalid_page_number := this_page_number |}
  else b.

(** The victim scan: an empty slot ends it at once. *)
Fixpoint scan (cur_count : Z) (slots : list Z) (b : Best) : M SlruShared (Z + Best) :=
  match slots with
  | [] => mret (inr b)
  | slotno :: rest =>
      let! s := mget in
      if bool_decide (page_status s slotno = SLRU_PAGE_EMPTY) then mret (inl slotno)
      else
        let this_delta := i32_sub cur_count (page_lru_count s slotno) in
        if this_delta <? 0 then
          mput (with_lru (set_at slotno cur_count) id) ;!
          scan cur_count rest (consider s slotno 0 b)
        else scan cur_count rest (consider s slotno this_delta b)
  end.

Fixpoint select_loop (fuel : nat) (pageno : Z) : M SlruShared Z :=
  match fuel with
  | O => mlift Panic
  | S fuel =>
      let bankno := bank_of pageno in
      let! s := mget in
      match List.find (holds_page s pageno) (bank_slots bankno) with
      | Some slotno => mret slotno
      | None =>
          let cur_count := bank_cur_lru_count s bankno in
          mput (with_lru id (set_at bankno (i32_add cur_count 1))) ;!
          (let! r := scan cur_count (bank_slots bankno) no_best in
           match r with
           | inl slotno => mret slotno
           | inr b =>
               if best_valid_delta b <? 0 then
                 SimpleLruWaitIO (bestinvalidslot b) ;! select_loop fuel pageno
               else
                 let! s := mget in
                 if negb (page_dirty s (bestvalidslot b)) then mret (bestvalidslot b)
                 else SlruInternalWritePage (bestvalidslot b) None ;! select_loop fuel pageno
           end)
      end
  end.

(** Every pass that does not end settles a busy slot or cleans a dirty one, and
    a bank has sixteen slots: 33 passes are enough. *)
Definition SlruSelectLRUPage (pageno : Z) : M SlruShared Z := select_loop 33 pageno.

(** *** The operations *)

Definition SimpleLruZeroPage (pageno : Z) : M SlruShared Z :=
  let! slotno := SlruSelectLRUPage pageno in
  mput (with_number (set_at slotno pageno)) ;!
  (mput (set_status slotno SLRU_PAGE_VALID) ;!
   (mput (set_page_dirty slotno true) ;!
    (SlruRecentlyUsed slotno ;!
     (mput (with_pages (set_at slotno zero_page)) ;!
      (SimpleLruZeroLSNs slotno ;!
       (mput (set_latest_page_number pageno) ;! mret slotno)))))).

(** Load page [pageno] into slot [slotno]. *)
Definition load_page (pageno xid slotno : Z) : M SlruShared Z :=
  mput (with_number (set_at slotno pageno)) ;!
  (mput (set_status slotno SLRU_PAGE_READ_IN_PROGRESS) ;!
   (mput (set_page_dirty slotno false) ;!
    (let! ok := SlruPhysicalReadPage pageno slotno in
     SimpleLruZeroLSNs slotno ;!
     (mput (set_status slotno (match ok with None => SLRU_PAGE_VALID | Some _ => SLRU_PAGE_EMPTY end)) ;!
      match ok with
      | Some io_err => SlruReportIOError pageno xid io_err
      | None => SlruRecentlyUsed slotno ;! mret slotno
      end)))).

Fixpoint read_loop (fuel : nat) (pageno : Z) (write_ok : bool) (xid : Z) : M SlruShared Z :=
  match fuel with
  | O => mlift Panic
  | S fuel =>
      let! slotno := SlruSelectLRUPage pageno in
      let! s := mget in
      if holds_page s pageno slotno then
        if bool_decide (page_status s slotno = SLRU_PAGE_READ_IN_PROGRESS)
           || bool_decide (page_status s slotno = SLRU_PAGE_WRITE_IN_PROGRESS) && negb write_ok
        then SimpleLruWaitIO slotno ;! read_loop fuel pageno write_ok xid
        else SlruRecentlyUsed slotno ;! mret slotno
      else load_page pageno xid slotno
  end.

(** A wait settles the slot for good: two passes are enough. *)
Definition SimpleLruReadPage (pageno : Z) (write_ok : bool) (xid : Z) : M SlruShared Z :=
  read_loop 2 pageno write_ok xid.

Definition SimpleLruReadPage_ReadOnly (pageno xid : Z) : M SlruShared Z :=
  let! s := mget in
  match List.find (fun slotno =>
      holds_page s pageno slotno
      && negb (bool_decide (page_status s slotno = SLRU_PAGE_READ_IN_PROGRESS)))
    (bank_slots (bank_of pageno)) with
  | Some slotno => SlruRecentlyUsed slotno ;! mret slotno
  | None => SimpleLruReadPage pageno true xid
  end.

Fixpoint write_all (slots : list Z) (fdata : option (list Z)) : M SlruShared (option (list Z)) :=
  match slots with
  | [] => mret fdata
  | slotno :: rest =>
      let! s := mget in
      if bool_decide (page_status s slotno = SLRU_PAGE_EMPTY) then write_all rest fdata
      else let! fdata := SlruInternalWritePage slotno fdata in write_all rest fdata
  end.

Definition SimpleLruWriteAll : M SlruShared unit :=
  let! fdata := write_all all_slots (Some []) in
  let failed := fold_left (fun acc segno => if close_fails ctl segno then Some segno else acc)
                  (default [] fdata) None in
  match failed with
  | Some segno =>
      SlruReportIOError (segno * SLRU_PAGES_PER_SEGMENT) InvalidTransactionId
        {| cause := SLRU_CLOSE_FAILED; errno := current_errno ctl SLRU_CLOSE_FAILED segno |}
  | None => if has_sync_handler ctl then mlift (fsync_dir ctl) else mret tt
  end.

(** *** Truncation *)

Definition SlruMayDeleteSegment (segpage cutoffPage : Z) : bool :=
  let seg_last_page := segpage + SLRU_PAGES_PER_SEGMENT - 1 in
  PagePrecedes ctl segpage cutoffPage && PagePrecedes ctl seg_last_page cutoffPage.

(** [vfs::unlink] of a segment file: a refused one leaves the file as it is. *)
Definition unlink (segno : Z) (s : SlruShared) : SlruShared :=
  if unlink_fails ctl segno then s
  else with_files (delete segno) (fun d p => if Z.quot p SLRU_PAGES_PER_SEGMENT =? segno then zero_page else d p) s.

(** The answer of the unlink is not looked at. *)
Definition SlruInternalDeleteSegment (segno : Z) : M SlruShared unit :=
  (if has_sync_handler ctl then mlift (register_sync_request ctl segno) ;! mret tt else mret tt) ;!
  mput (unlink segno).

(** One pass over the buffers; [true] asks for a restart. *)
Fixpoint truncate_pass (cutoffPage : Z) (slots : list Z) : M SlruShared bool :=
  match slots with
  | [] => mret false
  | slotno :: rest =>
      let! s := mget in
      if bool_decide (page_status s slotno = SLRU_PAGE_EMPTY) then truncate_pass cutoffPage rest
      else if negb (PagePrecedes ctl (page_number s slotno) cutoffPage) then truncate_pass cutoffPage rest
      else if bool_decide (page_status s slotno = SLRU_PAGE_VALID) && negb (page_dirty s slotno) then
        mput (set_status slotno SLRU_PAGE_EMPTY) ;! truncate_pass cutoffPage rest
      else if bool_decide (page_status s slotno = SLRU_PAGE_VALID) then
        SlruInternalWritePage slotno None ;! mret true
      else SimpleLruWaitIO slotno ;! mret true
  end.

(** [None]: apparent wraparound, nothing is truncated. *)
Fixpoint truncate_loop (fuel : nat) (cutoffPage : Z) : M SlruShared (option unit) :=
  match fuel with
  | O => mlift Panic
  | S fuel =>
      let! s := mget in
      if PagePrecedes ctl (latest_page_number s) cutoffPage then mret None
      else
        let! restart := truncate_pass cutoffPage all_slots in
        if restart then truncate_loop fuel cutoffPage else mret (Some tt)
  end.

Fixpoint delete_cutoff (cutoffPage : Z) (segs : list Z) : M SlruShared unit :=
  match segs with
  | [] => mret tt
  | segno :: rest =>
      (if SlruMayDeleteSegment (segno * SLRU_PAGES_PER_SEGMENT) cutoffPage
       then SlruInternalDeleteSegment segno else mret tt) ;!
      delete_cutoff cutoffPage rest
  end.

Definition SimpleLruTruncate (cutoffPage : Z) : M SlruShared unit :=
  let! o := truncate_loop (S (2 * length all_slots)) cutoffPage in
  match o with
  | None => mret tt
  | Some _ =>
      let! s := mget in
      delete_cutoff cutoffPage (map fst (map_to_list (seg_pages s)))
  end.

(** *** Dropping one segment *)

(** One pass over the buffers, settling and emptying the slots of the segment;
    the flag says whether some I/O was needed. *)
Fixpoint delete_pass (segno : Z) (slots : list Z) (did_write : bool) : M SlruShared bool :=
  match slots with
  | [] => mret did_write
  | slotno :: rest =>
      let! s := mget in
      if bool_decide (page_status s slotno = SLRU_PAGE_EMPTY) then delete_pass segno rest did_write
      else if negb (Z.quot (page_number s slotno) SLRU_PAGES_PER_SEGMENT =? segno)
      then delete_pass segno rest did_write
      else if bool_decide (page_status s slotno = SLRU_PAGE_VALID) && negb (page_dirty s slotno) then
        mput (set_status slotno SLRU_PAGE_EMPTY) ;! delete_pass segno rest did_write
      else if bool_decide (page_status s slotno = SLRU_PAGE_VALID) then
        SlruInternalWritePage slotno None ;! delete_pass segno rest true
      else SimpleLruWaitIO slotno ;! delete_pass segno rest true
  end.

Fixpoint delete_loop (fuel : nat) (segno : Z) : M SlruShared unit :=
  match fuel with
  | O => mlift Panic
  | S fuel =>
      let! did_write := delete_pass segno all_slots false in
      if did_write then delete_loop fuel segno else mret tt
  end.

Definition SlruDeleteSegment (segno : Z) : M SlruShared unit :=
  delete_loop (S (2 * length all_slots)) segno ;! SlruInternalDeleteSegment segno.

(** *** What is on disk *)

Definition SimpleLruDoesPhysicalPageExist (pageno : Z) : M SlruShared bool :=
  let segno := Z.quot pageno SLRU_PAGES_PER_SEGMENT in
  let rpageno := Z.rem pageno SLRU_PAGES_PER_SEGMENT in
  let offset := rpageno * BLCKSZ in
  let! s := mget in
  match open_read ctl segno with
  | OpenRaise e => mraise e
  | OpenErrno =>
      SlruReportIOError pageno 0
        {| cause := SLRU_OPEN_FAILED; errno := current_errno ctl SLRU_OPEN_FAILED segno |}
  | OpenOk =>
      match seg_pages s !! segno with
      | None => mret false
      | Some len =>
          if size_fails ctl segno then
            SlruReportIOError pageno 0
              {| cause := SLRU_SEEK_FAILED; errno := current_errno ctl SLRU_SEEK_FAILED segno |}
          else
            let endpos := len * BLCKSZ in
            let result := endpos >=? offset + BLCKSZ in
            if close_fails ctl segno then mret false else mret result
      end
  end.
End Slru.
