(* ===== verification/SlruSpec.v ===== *)
(** * The SLRU cache is transparent

    Whatever the cache evicts, writes or reloads, a page keeps the bytes its last
    writer gave it, also across failed I/O. *)

From Stdlib Require Import FunctionalExtensionality.
From S2P Require Import Prelude Xid ItemPtr Snapshot Slru.

(** Normal running: a WAL flush reaches its target and never goes back, the seams
    fail by returning errors, the banks tile the slots, and recovery is over (in
    recovery a missing segment reads as zeroes). *)
Class SlruRunning (ctl : SlruCtl) : Prop := {
  FlushOk : forall lsn f f', xlog_flush ctl lsn f = Ok f' -> lsn <= f' /\ f <= f';
  FlushNoPanic : forall lsn f, xlog_flush ctl lsn f <> Panic;
  SyncNoPanic : forall segno, register_sync_request ctl segno <> Panic;
  FsyncNoPanic : fsync_dir ctl <> Panic;
  Banks : 0 < nbanks ctl /\ num_slots ctl = nbanks ctl * SLRU_BANK_SIZE;
  NotInRecovery : in_recovery ctl = false
}.

Section SlruSpec.
Context (ctl : SlruCtl).

(** ** Invariant and abstraction *)

Definition in_bank (slotno pageno : Z) : Prop :=
  bank_of ctl pageno * SLRU_BANK_SIZE <= slotno < (bank_of ctl pageno + 1) * SLRU_BANK_SIZE.

Definition on_disk (s : SlruShared) (p : Z) : option (arr Z) :=
  match seg_pages s !! Z.quot p SLRU_PAGES_PER_SEGMENT with
  | Some len => if Z.rem p SLRU_PAGES_PER_SEGMENT <? len then Some (disk s p) else None
  | None => None
  end.

Definition occupied (s : SlruShared) (slotno : Z) : Prop := page_status s slotno <> SLRU_PAGE_EMPTY.

Definition holds (s : SlruShared) (slotno p : Z) : Prop :=
  (page_status s slotno = SLRU_PAGE_VALID \/ page_status s slotno = SLRU_PAGE_WRITE_IN_PROGRESS) /\
  page_number s slotno = p.

(** A page sits in one slot of its bank at most, and a clean page is the page on
    disk. *)
Record cache_ok (s : SlruShared) : Prop := {
  ok_bank : forall i, occupied s i -> 0 <= page_number s i /\ in_bank i (page_number s i);
  ok_unique : forall i j, occupied s i -> occupied s j -> page_number s i = page_number s j -> i = j;
  ok_clean : forall i, page_status s i = SLRU_PAGE_VALID -> page_dirty s i = false ->
    on_disk s (page_number s i) = Some (pages s i)
}.

(** The bytes of page [p], wherever they are. *)
Definition content (s : SlruShared) (p : Z) (pg : arr Z) : Prop :=
  (exists i, holds s i p /\ pages s i = pg) \/
  ((forall i, ~ holds s i p) /\ on_disk s p = Some pg).

(** No page loses its bytes and the WAL stays flushed. *)
Definition keeps (s s' : SlruShared) : Prop :=
  cache_ok s' /\ (forall p pg, content s p pg -> content s' p pg) /\ flushed s <= flushed s'.

Lemma keeps_refl s : cache_ok s -> keeps s s.
Proof. intros H. split; [done|]. split; [done | lia]. Qed.

Lemma keeps_trans s1 s2 s3 : keeps s1 s2 -> keeps s2 s3 -> keeps s1 s3.
Proof. intros (_ & H1 & L1) (C & H2 & L2). split; [done|]. split; [eauto | lia]. Qed.

(** Counters, LSNs and the latest page number do not matter. *)
Lemma keeps_same s s' :
  page_status s' = page_status s -> page_dirty s' = page_dirty s -> page_number s' = page_number s ->
  pages s' = pages s -> seg_pages s' = seg_pages s -> disk s' = disk s -> flushed s <= flushed s' ->
  cache_ok s -> keeps s s'.
Proof.
  intros E1 E2 E3 E4 E5 E6 Hf [B U D]. unfold keeps, content, holds, occupied, on_disk in *.
  rewrite E1, E3, E4, E5, E6. split; [|done].
  split; unfold occupied, on_disk; rewrite ?E1, ?E2, ?E3, ?E4, ?E5, ?E6; done.
Qed.

Lemma content_fun s p pg pg' : cache_ok s -> content s p pg -> content s p pg' -> pg = pg'.
Proof.
  intros C [(i & Hi & <-)|[Hn Hd]] [(j & Hj & <-)|[Hn' Hd']].
  - destruct Hi as [Si Ni], Hj as [Sj Nj].
    assert (i = j) as ->; [|done]. apply (ok_unique s C); [destruct Si; congruence | destruct Sj; congruence | congruence].
  - by destruct (Hn' i).
  - by destruct (Hn j).
  - congruence.
Qed.

(** *** How each write to the shared state affects it *)

(** Split on whether a slot is the one just written. *)
Ltac slots :=
  unfold occupied, holds, set_status, set_page_dirty, with_status, with_page_dirty, with_number, with_pages,
    set_at, on_disk in *; cbn in *;
  repeat match goal with
  | |- context [if ?a =? ?b then _ else _] => destruct (Z.eqb_spec a b); subst
  | H : context [if ?a =? ?b then _ else _] |- _ => destruct (Z.eqb_spec a b); subst
  end.

(** Giving a free or clean slot to a page nobody has. *)
Lemma begin_read s i p :
  cache_ok s -> 0 <= p -> in_bank i p -> (forall j, occupied s j -> page_number s j <> p) ->
  page_status s i = SLRU_PAGE_EMPTY \/ (page_status s i = SLRU_PAGE_VALID /\ page_dirty s i = false) ->
  keeps s (set_page_dirty i false (set_status i SLRU_PAGE_READ_IN_PROGRESS (with_number (set_at i p) s))).
Proof.
  intros [B U D] Hp Hb Hf Hv. split; [split|split].
  - intros j. slots; [done | by apply B].
  - intros j k. slots; intros; try done; [| | by apply U].
    + exfalso. by apply (Hf k).
    + exfalso. by apply (Hf j).
  - intros j. slots; [done|]. apply D.
  - intros q pg [(j & [S N] & <-)|[Hn Hd]].
    + destruct (decide (j = i)) as [->|Hji].
      * right. destruct Hv as [Hv|[Hv Hc]]; [destruct S; congruence|]. split.
        { intros k. slots; [by intros [[?|?] ?]|]. intros [Sk Nk]. apply n. apply U; [destruct Sk; congruence | congruence | done]. }
        rewrite <- N. by apply D.
      * left. exists j. slots; done.
    + right. split; [|done]. intros j. slots; [by intros [[?|?] ?] | by apply Hn].
  - done.
Qed.

(** Scribbling on a buffer that no page owns. *)
Lemma scribble s i v :
  cache_ok s -> page_status s i = SLRU_PAGE_READ_IN_PROGRESS -> keeps s (with_pages (set_at i v) s).
Proof.
  intros [B U D] Hs. split; [split|split]; [done | done | | | done].
  - intros j. slots; [congruence | apply D].
  - intros q pg [(j & [S N] & <-)|?]; [left; exists j | by right]. slots; [destruct S; congruence | done].
Qed.

Lemma finish_read s i :
  cache_ok s -> page_status s i = SLRU_PAGE_READ_IN_PROGRESS -> on_disk s (page_number s i) = Some (pages s i) ->
  keeps s (set_status i SLRU_PAGE_VALID s).
Proof.
  intros [B U D] Hs Hd. split; [split|split].
  - intros j. slots; [intros _; apply B; congruence | apply B].
  - intros j k. slots; intros; try done; apply U; unfold occupied; congruence.
  - intros j. slots; [done | apply D].
  - intros q pg [(j & [S N] & <-)|[Hn Hq]].
    + left. exists j. slots; [destruct S; congruence | done].
    + destruct (decide (page_number s i = q)) as [<-|Hne].
      * left. exists i. split; [slots; [|congruence]; split; [by left | done] | cbn; congruence].
      * right. split; [|done]. intros j. slots; [by intros [_ ?] | apply Hn].
  - done.
Qed.

Lemma drop_read s i :
  cache_ok s -> page_status s i = SLRU_PAGE_READ_IN_PROGRESS -> keeps s (set_status i SLRU_PAGE_EMPTY s).
Proof.
  intros [B U D] Hs. split; [split|split].
  - intros j. slots; [done | apply B].
  - intros j k. slots; intros; try done. by apply U.
  - intros j. slots; [done | apply D].
  - intros q pg [(j & [S N] & <-)|[Hn Hq]].
    + left. exists j. slots; [destruct S; congruence | done].
    + right. split; [|done]. intros j. slots; [by intros [[?|?] ?] | apply Hn].
  - done.
Qed.

(** Dropping a clean page: the disk has it. *)
Lemma drop_clean s i :
  cache_ok s -> page_status s i = SLRU_PAGE_VALID -> page_dirty s i = false ->
  keeps s (set_status i SLRU_PAGE_EMPTY s).
Proof.
  intros [B U D] Hs Hc. split; [split|split].
  - intros j. slots; [done | apply B].
  - intros j k. slots; intros; try done. by apply U.
  - intros j. slots; [done | apply D].
  - intros q pg [(j & [S N] & <-)|[Hn Hq]].
    + destruct (decide (j = i)) as [->|Hji].
      * right. split; [|rewrite <- N; by apply D]. intros k. slots; [by intros [[?|?] ?]|].
        intros [Sk Nk]. apply n, U; unfold occupied; [destruct Sk; congruence | congruence | congruence].
      * left. exists j. slots; done.
    + right. split; [|done]. intros j. slots; [by intros [[?|?] ?] | apply Hn].
  - done.
Qed.

(** Moving a held page between the valid and the being-written state; making it
    dirty is always allowed, making it clean only while it is being written. *)
Lemma restatus s i st d :
  cache_ok s -> (page_status s i = SLRU_PAGE_VALID \/ page_status s i = SLRU_PAGE_WRITE_IN_PROGRESS) ->
  (st = SLRU_PAGE_VALID /\ (d = true \/ on_disk s (page_number s i) = Some (pages s i)) \/
   st = SLRU_PAGE_WRITE_IN_PROGRESS) ->
  keeps s (set_page_dirty i d (set_status i st s)).
Proof.
  intros [B U D] Hs Hst. split; [split|split].
  - intros j. slots; [intros _; apply B; unfold occupied; destruct Hs; congruence | apply B].
  - intros j k. slots; intros; try done; apply U; unfold occupied; try done; destruct Hs; congruence.
  - intros j. slots; [|apply D]. intros -> ->. by destruct Hst as [[_ [?|?]]|?].
  - intros q pg [(j & [S N] & <-)|[Hn Hq]].
    + left. exists j. slots; [|done]. split; [|done]. split; [|done]. destruct Hst as [[-> _]| ->]; auto.
    + right. split; [|done]. intros j. slots; [|apply Hn]. intros [_ N]. by apply (Hn i).
  - done.
Qed.

(** Changing the files under a page that is being written. *)
Lemma file_change s i f g :
  cache_ok s -> page_status s i = SLRU_PAGE_WRITE_IN_PROGRESS ->
  (forall q pg, q <> page_number s i -> on_disk s q = Some pg -> on_disk (with_files f g s) q = Some pg) ->
  keeps s (with_files f g s).
Proof.
  intros [B U D] Hs Hd. split; [split|split]; [done | done | | | done].
  - intros j Hj Hc. apply Hd; [|by apply D]. intros E. cbn in *.
    assert (j = i) as ->; [|congruence]. apply U; unfold occupied; congruence.
  - intros q pg [H|[Hn Hq]]; [by left|]. right. split; [done|]. apply Hd; [|done].
    intros ->. apply (Hn i). split; [by right | done].
Qed.

Lemma on_disk_grow s p n q pg (g : arr (arr Z)) :
  q <> p -> (forall x, x <> p -> g x = disk s x) -> on_disk s q = Some pg ->
  on_disk (with_files (grow (Z.quot p SLRU_PAGES_PER_SEGMENT) n) (fun _ => g) s) q = Some pg.
Proof.
  intros Hq Hg. unfold on_disk, grow. cbn. rewrite Hg by done.
  destruct (decide (Z.quot q SLRU_PAGES_PER_SEGMENT = Z.quot p SLRU_PAGES_PER_SEGMENT)) as [->|Hne].
  - rewrite lookup_insert_eq. destruct (seg_pages s !! _) as [len|]; [|done]. cbn.
    destruct (Z.ltb_spec (Z.rem q SLRU_PAGES_PER_SEGMENT) len); [|done].
    destruct (Z.ltb_spec (Z.rem q SLRU_PAGES_PER_SEGMENT) (n `max` len)); [by intros | lia].
  - by rewrite lookup_insert_ne by done.
Qed.

Lemma on_disk_create s segno q pg :
  on_disk s q = Some pg ->
  on_disk (with_files (fun m => match m !! segno with Some _ => m | None => <[segno := 0]> m end) id s) q = Some pg.
Proof.
  unfold on_disk. cbn. destruct (seg_pages s !! segno) eqn:E; [done|].
  destruct (decide (Z.quot q SLRU_PAGES_PER_SEGMENT = segno)) as [->|Hne]; [by rewrite E|].
  by rewrite lookup_insert_ne by done.
Qed.

Lemma on_disk_written s p n v :
  0 <= n -> Z.rem p SLRU_PAGES_PER_SEGMENT < n ->
  on_disk (with_files (grow (Z.quot p SLRU_PAGES_PER_SEGMENT) n) (set_at p v) s) p = Some v.
Proof.
  intros Hn Hr. unfold on_disk, grow. cbn. rewrite lookup_insert_eq, set_at_eq.
  destruct (Z.ltb_spec (Z.rem p SLRU_PAGES_PER_SEGMENT) (n `max` default 0 (seg_pages s !! Z.quot p SLRU_PAGES_PER_SEGMENT)));
    [done | lia].
Qed.

(** ** The operations *)

Context `{!SlruRunning ctl}.

(** The slots other than [i] keep their page, state and dirty mark. *)
Definition others (i : Z) (s s' : SlruShared) : Prop :=
  forall j, j <> i ->
    page_status s' j = page_status s j /\ page_dirty s' j = page_dirty s j /\ page_number s' j = page_number s j.

Lemma others_refl i s : others i s s.
Proof. done. Qed.

Lemma others_trans i s1 s2 s3 : others i s1 s2 -> others i s2 s3 -> others i s1 s3.
Proof.
  intros H1 H2 j Hj. destruct (H2 j Hj) as (-> & -> & ->). by apply H1.
Qed.

(** The state of slot [i] is that in [s]. *)
Definition slot_same (i : Z) (s s' : SlruShared) : Prop :=
  page_status s' i = page_status s i /\ page_dirty s' i = page_dirty s i /\
  page_number s' i = page_number s i /\ pages s' i = pages s i.

(** Only the files and the WAL changed. *)
Definition outside (s s' : SlruShared) : Prop :=
  page_status s' = page_status s /\ page_dirty s' = page_dirty s /\ page_number s' = page_number s /\
  pages s' = pages s /\ group_lsn s' = group_lsn s.

Lemma flush_wp i s (Q : unit -> SlruShared -> Prop) E :
  (forall f, flushed s <= f -> Q tt (with_flushed f s)) -> Q tt s -> E s ->
  wp (flush_group_lsns ctl i) Q E s.
Proof.
  intros HQ H0 HE. unfold flush_group_lsns. repeat wp_step.
  destruct (lsn_groups_per_page ctl >? 0); [|done].
  destruct (negb _); [|done]. wp_step. unfold wp, mlift.
  destruct (xlog_flush ctl _ (flushed s)) as [f| |] eqn:F; [|done|].
  - apply HQ. apply FlushOk in F. tauto.
  - by apply FlushNoPanic in F.
Qed.

Lemma open_segment_wp segno fdata s (Q : _ -> SlruShared -> Prop) E :
  let s1 := with_files (fun m => match m !! segno with Some _ => m | None => <[segno := 0]> m end) id s in
  (forall o, Q o s) -> (forall o, Q o s1) -> E s ->
  wp (open_segment ctl segno fdata) Q E s.
Proof.
  intros s1 Q0 Q1 HE. unfold open_segment.
  destruct fdata as [segs|].
  - destruct (contains segs segno); [apply Q0|].
    destruct (open_write ctl segno); [done | apply Q0 |]. wp_step. wp_step.
    destruct (_ <? _)%nat; wp_step; apply Q1.
  - destruct (open_write ctl segno); [done | apply Q0 |]. wp_step. wp_step. wp_step. apply Q1.
Qed.

Lemma keeps_cache s s' : keeps s s' -> cache_ok s'.
Proof. by intros [H _]. Qed.

Lemma outside_trans s1 s2 s3 : outside s1 s2 -> outside s2 s3 -> outside s1 s3.
Proof. unfold outside. intros H1 (-> & -> & -> & -> & ->). done. Qed.

(** Nothing lost and no buffer touched. *)
Definition safe (s s' : SlruShared) : Prop := keeps s s' /\ outside s s'.

Lemma safe_refl s : cache_ok s -> safe s s.
Proof. intros. split; [by apply keeps_refl | done]. Qed.

Lemma safe_trans s1 s2 s3 : safe s1 s2 -> safe s2 s3 -> safe s1 s3.
Proof. intros [] []. split; [by eapply keeps_trans | by eapply outside_trans]. Qed.

Lemma safe_files s i f g :
  cache_ok s -> page_status s i = SLRU_PAGE_WRITE_IN_PROGRESS ->
  (forall q pg, q <> page_number s i -> on_disk s q = Some pg -> on_disk (with_files f g s) q = Some pg) ->
  safe s (with_files f g s).
Proof. intros. split; [by eapply file_change | done]. Qed.

Lemma write_bytes_wp i keep s :
  cache_ok s -> page_status s i = SLRU_PAGE_WRITE_IN_PROGRESS -> 0 <= page_number s i ->
  wp (write_bytes ctl (page_number s i) i keep)
    (fun o s' => safe s s' /\ (o = None -> on_disk s' (page_number s i) = Some (pages s i))) (safe s) s.
Proof.
  intros C Hs Hp. set (p := page_number s i) in *. unfold write_bytes, failed. repeat wp_step.
  assert (Hr : 0 <= Z.rem p SLRU_PAGES_PER_SEGMENT) by (apply Z.rem_nonneg; [done | lia]).
  assert (Hg : forall n v, safe s (with_files (grow (Z.quot p SLRU_PAGES_PER_SEGMENT) n) (set_at p v) s)).
  { intros n v. apply (safe_files s i); [done..|]. intros q pg Hq. fold p in Hq.
    apply (on_disk_grow s p n q pg (set_at p v (disk s))); [done|]. intros x Hx. by apply set_at_ne. }
  destruct (write_page ctl p).
  - repeat wp_step. set (s1 := with_files _ _ s).
    assert (Hw : on_disk s1 p = Some (pages s i)) by (apply on_disk_written; lia).
    assert (Hgo : forall (e1 e2 : SlruIoError) (synced : bool), wp
      (if negb synced then mret (Some e1)
       else if negb keep && close_fails ctl (Z.quot p SLRU_PAGES_PER_SEGMENT) then mret (Some e2)
       else mret None)
      (fun o s' => safe s s' /\ (o = None -> on_disk s' p = Some (pages s i))) (safe s) s1).
    { intros e1 e2 []; cbn [negb]; [|by split; [apply Hg|]].
      destruct (_ && _); by split; [apply Hg|]. }
    destruct (has_sync_handler ctl); [|wp_step; apply (Hgo _ _ true)]. wp_step. unfold wp at 1, mlift.
    destruct (register_sync_request ctl _) as [b| |] eqn:E; [|apply Hg | by apply SyncNoPanic in E].
    wp_step. apply Hgo.
  - repeat wp_step. by split; [apply Hg|].
  - repeat wp_step. split; [by apply safe_refl | done].
Qed.

(** Writing a page out: either way nothing is lost, and on success the disk has
    the page. *)
Lemma physical_write_wp i fdata s :
  cache_ok s -> page_status s i = SLRU_PAGE_WRITE_IN_PROGRESS -> 0 <= page_number s i ->
  wp (SlruPhysicalWritePage ctl (page_number s i) i fdata)
    (fun r s' => safe s s' /\ (fst r = None -> on_disk s' (page_number s i) = Some (pages s i))) (safe s) s.
Proof.
  intros C Hs Hp. unfold SlruPhysicalWritePage. wp_step.
  assert (Hrest : forall e s1, safe s s1 ->
    wp (let! o := open_segment ctl (Z.quot (page_number s i) SLRU_PAGES_PER_SEGMENT) fdata in
        match o with
        | None => mret (Some e, fdata)
        | Some (keep, fdata) => let! ok := write_bytes ctl (page_number s i) i keep in mret (ok, fdata)
        end) (fun r s' => safe s s' /\ (fst r = None -> on_disk s' (page_number s i) = Some (pages s i))) (safe s) s1).
  { intros e s1 H1. wp_step.
    assert (Hwrite : forall o s2, safe s s2 ->
      wp (match o with
          | None => mret (Some e, fdata)
          | Some (keep, fdata) => let! ok := write_bytes ctl (page_number s i) i keep in mret (ok, fdata)
          end) (fun r s' => safe s s' /\ (fst r = None -> on_disk s' (page_number s i) = Some (pages s i))) (safe s) s2).
    { intros [[keep fd]|] s2 H2; [|by split]. pose proof H2 as [K (O1 & O2 & O3 & O4 & _)]. wp_step.
      rewrite <- O3. eapply wp_impl; [apply write_bytes_wp; [by eapply keeps_cache | by rewrite O1 | by rewrite O3]| |].
      - intros ok s3 [H3 Hd]. wp_step. split; [by eapply safe_trans|]. cbn. rewrite <- O4. done.
      - intros s3 H3. by eapply safe_trans. }
    apply open_segment_wp; [by intros; apply Hwrite | | done].
    intros o. apply Hwrite. eapply safe_trans; [done|].
    destruct H1 as [K (O1 & _)]. apply (safe_files s1 i); [by eapply keeps_cache | by rewrite O1 |].
    intros q pg _. apply on_disk_create. }
  apply flush_wp; [|apply Hrest; by apply safe_refl | by apply safe_refl].
  intros f Hf. apply Hrest. split; [by apply keeps_same | done].
Qed.

(** *** WAL before data *)

Lemma max_group_lsn_ge s base n k :
  0 <= k <= Z.of_nat n -> group_lsn s (base + k) <= max_group_lsn s base n.
Proof.
  induction n as [|n IH]; intros Hk; cbn [max_group_lsn].
  - assert (k = 0) as -> by lia. by rewrite Z.add_0_r.
  - destruct (decide (k = Z.of_nat (S n))) as [->|Hne].
    + destruct (Z.ltb_spec (max_group_lsn s base n) (group_lsn s (base + Z.of_nat (S n)))); lia.
    + specialize (IH ltac:(lia)).
      destruct (Z.ltb_spec (max_group_lsn s base n) (group_lsn s (base + Z.of_nat (S n)))); lia.
Qed.

(** The WAL is flushed past every LSN of slot [i]'s groups. *)
Definition covered_by_wal (s0 : SlruShared) (i : Z) (s : SlruShared) : Prop :=
  forall k, 0 <= k < lsn_groups_per_page ctl ->
    group_lsn s0 (i * lsn_groups_per_page ctl + k) <= flushed s.

Lemma flush_covers i s :
  0 <= flushed s ->
  wp (flush_group_lsns ctl i) (fun _ s' => covered_by_wal s i s') (fun s' => disk s' = disk s) s.
Proof.
  intros Hf. unfold flush_group_lsns. repeat wp_step.
  destruct (Z.gtb_spec (lsn_groups_per_page ctl) 0) as [Hg|Hg]; [|wp_step; intros k Hk; lia].
  assert (Hmax : forall k, 0 <= k < lsn_groups_per_page ctl ->
    group_lsn s (i * lsn_groups_per_page ctl + k) <=
    max_group_lsn s (i * lsn_groups_per_page ctl) (Z.to_nat (lsn_groups_per_page ctl - 1))).
  { intros k Hk. apply max_group_lsn_ge. lia. }
  destruct (Z.eqb_spec (max_group_lsn s (i * lsn_groups_per_page ctl) (Z.to_nat (lsn_groups_per_page ctl - 1)))
    InvalidXLogRecPtr) as [E|E]; cbn [negb].
  - wp_step. intros k Hk. specialize (Hmax k Hk). rewrite E in Hmax. unfold InvalidXLogRecPtr in Hmax. lia.
  - wp_step. unfold wp, mlift. destruct (xlog_flush ctl _ (flushed s)) as [f| |] eqn:F; [|done|].
    + intros k Hk. specialize (Hmax k Hk). apply FlushOk in F. cbn. lia.
    + by apply FlushNoPanic in F.
Qed.

Lemma write_bytes_flushed p i keep s :
  wp (write_bytes ctl p i keep) (fun _ s' => flushed s' = flushed s) (fun s' => flushed s' = flushed s) s.
Proof.
  unfold write_bytes, failed. repeat wp_step. destruct (write_page ctl p); repeat wp_step; try done.
  destruct (has_sync_handler ctl).
  - wp_step. unfold wp at 1, mlift. destruct (register_sync_request ctl _) as [b| |] eqn:E; [|done|by apply SyncNoPanic in E].
    wp_step. destruct (negb _); [by wp_step|]. by destruct (_ && _); wp_step.
  - wp_step. cbn [negb]. by destruct (_ && _); wp_step.
Qed.

(** No byte of a page reaches the disk before the WAL that explains it. *)
Lemma physical_write_wal p i fdata s :
  0 <= flushed s ->
  wp (SlruPhysicalWritePage ctl p i fdata) (fun _ => covered_by_wal s i)
    (fun s' => disk s' = disk s \/ covered_by_wal s i s') s.
Proof.
  intros Hf. unfold SlruPhysicalWritePage. wp_step. eapply wp_impl; [by apply flush_covers | | by left].
  intros [] s1 H1. wp_step.
  assert (Hsame : forall s2, flushed s2 = flushed s1 -> covered_by_wal s i s2)
    by (intros s2 E k Hk; rewrite E; by apply H1).
  assert (Hwrite : forall (e : SlruIoError) o s2, flushed s2 = flushed s1 ->
    wp (match o with
        | None => mret (Some e, fdata)
        | Some (keep, fdata) => let! ok := write_bytes ctl p i keep in mret (ok, fdata)
        end) (fun _ => covered_by_wal s i) (fun s' => disk s' = disk s \/ covered_by_wal s i s') s2).
  { intros e [[keep fd]|] s2 E2; [|wp_step; by apply Hsame]. wp_step.
    eapply wp_impl; [apply write_bytes_flushed | |].
    - intros ok s3 E3. wp_step. apply Hsame. congruence.
    - intros s3 E3. right. apply Hsame. congruence. }
  apply open_segment_wp; [by intros; apply Hwrite | by intros; apply Hwrite | right; by apply Hsame].
Qed.

(** Decide the closed comparisons of the goal. *)
Ltac bd :=
  repeat match goal with
  | |- context [bool_decide ?P] =>
      let b := eval vm_compute in (bool_decide P) in
      match b with true => idtac | false => idtac end; change (bool_decide P) with b
  end.

Lemma keeps_same_dirty s i st :
  page_dirty s i = false -> keeps s (set_page_dirty i false (set_status i st s)) -> keeps s (set_status i st s).
Proof.
  intros Hd ([B U D] & K & F). split; [|done]. split; [done | done |].
  intros j Hj Hc. apply D; [done|]. cbn in *. unfold set_at. by destruct (j =? i).
Qed.

Lemma others_set_status i st s : others i s (set_status i st s).
Proof. intros j Hj. slots; done. Qed.

Lemma others_set i st d s : others i s (set_page_dirty i d (set_status i st s)).
Proof. intros j Hj. slots; done. Qed.

(** Settling the I/O a failed operation left behind. *)
Lemma wait_io_wp i s (Q : unit -> SlruShared -> Prop) E :
  cache_ok s ->
  (page_status s i = SLRU_PAGE_READ_IN_PROGRESS -> Q tt (set_status i SLRU_PAGE_EMPTY s)) ->
  (page_status s i = SLRU_PAGE_WRITE_IN_PROGRESS ->
   Q tt (set_page_dirty i true (set_status i SLRU_PAGE_VALID s))) ->
  (page_status s i = SLRU_PAGE_VALID \/ page_status s i = SLRU_PAGE_EMPTY -> Q tt s) ->
  wp (SimpleLruWaitIO i) Q E s.
Proof.
  intros C H1 H2 H3. unfold SimpleLruWaitIO. repeat wp_step.
  destruct (page_status s i); bd; cbn [orb]; repeat wp_step; auto.
Qed.

(** What an operation on slot [i] may do: lose nothing, and leave the other slots
    and the slot's own page alone. *)
Definition local (i : Z) (s s' : SlruShared) : Prop :=
  keeps s s' /\ others i s s' /\ page_number s' i = page_number s i /\ pages s' = pages s.

Lemma local_refl i s : cache_ok s -> local i s s.
Proof. intros. split; [by apply keeps_refl | done]. Qed.

Lemma local_trans i s1 s2 s3 : local i s1 s2 -> local i s2 s3 -> local i s1 s3.
Proof.
  intros (K1 & O1 & N1 & P1) (K2 & O2 & N2 & P2).
  split; [by eapply keeps_trans|]. split; [by eapply others_trans|]. by rewrite N2, P2.
Qed.

Lemma local_outside i s s' : keeps s s' -> outside s s' -> local i s s'.
Proof. intros K (O1 & O2 & O3 & O4 & _). split; [done|]. split; [|by rewrite O3]. intros j _. by rewrite O1, O2, O3. Qed.

Lemma local_restatus i st d s :
  cache_ok s -> (page_status s i = SLRU_PAGE_VALID \/ page_status s i = SLRU_PAGE_WRITE_IN_PROGRESS) ->
  (st = SLRU_PAGE_VALID /\ (d = true \/ on_disk s (page_number s i) = Some (pages s i)) \/
   st = SLRU_PAGE_WRITE_IN_PROGRESS) ->
  local i s (set_page_dirty i d (set_status i st s)).
Proof. intros. split; [by apply restatus|]. split; [apply others_set | done]. Qed.

Lemma wait_write_wp i s :
  cache_ok s ->
  wp (wait_write 2 (page_number s i) i)
    (fun _ s' => local i s s' /\
       page_status s' i = (if bool_decide (page_status s i = SLRU_PAGE_WRITE_IN_PROGRESS)
                           then SLRU_PAGE_VALID else page_status s i))
    (fun _ => False) s.
Proof.
  intros C. cbn [wait_write]. repeat wp_step. rewrite Z.eqb_refl, andb_true_r.
  destruct (decide (page_status s i = SLRU_PAGE_WRITE_IN_PROGRESS)) as [Hs|Hs].
  - rewrite bool_decide_true by done. wp_step. apply wait_io_wp; [done | congruence | | intros [?|?]; congruence].
    intros _. repeat wp_step. cbn [set_page_dirty set_status with_page_dirty with_status page_status].
    rewrite set_at_eq. bd. cbn [andb]. wp_step. split; [|cbn; by rewrite set_at_eq].
    apply local_restatus; [done | by right | left; split; [done | by left]].
  - rewrite bool_decide_false by done. wp_step. split; [by apply local_refl | done].
Qed.

Lemma valid_after_set i st d s :
  page_status (set_page_dirty i d (set_status i st s)) i = st /\
  page_dirty (set_page_dirty i d (set_status i st s)) i = d.
Proof. split; cbn; by rewrite set_at_eq. Qed.

(** [SlruInternalWritePage]: on return the slot is clean or was not valid. *)
Lemma internal_write_wp i fdata s :
  cache_ok s -> occupied s i ->
  wp (SlruInternalWritePage ctl i fdata)
    (fun _ s' => local i s s' /\
       page_status s' i = (if bool_decide (page_status s i = SLRU_PAGE_WRITE_IN_PROGRESS)
                           then SLRU_PAGE_VALID else page_status s i) /\
       (page_status s' i = SLRU_PAGE_VALID -> page_dirty s' i = false))
    (local i s) s.
Proof.
  intros C Hocc. unfold SlruInternalWritePage. wp_step. wp_step. wp_step.
  eapply wp_impl; [by apply wait_write_wp | | done].
  intros _ s1 [L1 S1]. pose proof L1 as (K1 & _ & N1 & P1). wp_step. wp_step.
  rewrite N1, Z.eqb_refl. cbn [negb]. rewrite orb_false_r.
  destruct (page_dirty s1 i) eqn:D1; cbn [negb orb].
  2:{ wp_step. split; [done|]. by split. }
  destruct (decide (page_status s1 i = SLRU_PAGE_VALID)) as [V1|V1].
  2:{ rewrite bool_decide_false by done. cbn [negb]. wp_step. split; [done|]. by split. }
  rewrite bool_decide_true by done. cbn [negb]. repeat wp_step.
  set (s2 := set_page_dirty i false (set_status i SLRU_PAGE_WRITE_IN_PROGRESS s1)).
  assert (L2 : local i s1 s2).
  { apply local_restatus; [by eapply keeps_cache | by left | by right]. }
  pose proof (local_trans _ _ _ _ L1 L2) as L12. destruct (valid_after_set i SLRU_PAGE_WRITE_IN_PROGRESS false s1) as [V2 D2].
  fold s2 in V2, D2. pose proof L2 as (K2 & _ & N2 & P2). rewrite <- N1, <- N2.
  eapply wp_impl; [apply physical_write_wp; [by eapply keeps_cache | done |]| |].
  { rewrite N2, N1. by apply (ok_bank s C). }
  - intros [ok fd] s3 [[K3 O3] Hd]. pose proof (local_outside i _ _ K3 O3) as L3.
    pose proof (local_trans _ _ _ _ L12 L3) as L123. destruct O3 as (O1 & O2 & O3 & O4 & _).
    cbn [fst snd] in *. wp_step. destruct ok as [cause|]; repeat wp_step.
    + unfold SlruReportIOError, mraise. wp_step. eapply local_trans; [done|].
      apply (local_restatus i SLRU_PAGE_VALID true s3); [by eapply keeps_cache | rewrite O1; by right | left; split; [done | by left]].
    + assert (L4 : local i s3 (set_page_dirty i false (set_status i SLRU_PAGE_VALID s3))).
      { apply local_restatus; [by eapply keeps_cache | rewrite O1; by right |].
        left. split; [done|]. right. rewrite O3, O4. by apply Hd. }
      assert (D3 : page_dirty (set_status i SLRU_PAGE_VALID s3) i = false) by (cbn; by rewrite O2).
      split; [|split].
      * eapply local_trans; [done|]. destruct L4 as (K4 & Oth & N4 & P4).
        split; [|split; [apply others_set_status | done]].
        eapply keeps_same_dirty; [done | done].
      * cbn. rewrite set_at_eq. destruct (bool_decide _); congruence.
      * done.
  - intros s3 [K3 O3]. eapply local_trans; [done|]. by apply local_outside.
Qed.

(** *** Choosing a victim *)

Definition busy (s : SlruShared) (i : Z) : Prop :=
  page_status s i = SLRU_PAGE_READ_IN_PROGRESS \/ page_status s i = SLRU_PAGE_WRITE_IN_PROGRESS.

(** What the scan knows after the slots [seen], none of which was empty. *)
Record best_ok (s : SlruShared) (seen : list Z) (b : Best) : Prop := {
  best_valid : best_valid_delta b = -1 /\
      (forall i, i ∈ seen -> page_status s i = SLRU_PAGE_VALID -> page_number s i = latest_page_number s) \/
    0 <= best_valid_delta b /\ bestvalidslot b ∈ seen /\ page_status s (bestvalidslot b) = SLRU_PAGE_VALID;
  best_invalid : best_invalid_delta b = -1 /\
      (forall i, i ∈ seen -> busy s i -> page_number s i = latest_page_number s) \/
    0 <= best_invalid_delta b /\ bestinvalidslot b ∈ seen /\ busy s (bestinvalidslot b)
}.

Lemma consider_ok s seen i delta b :
  0 <= delta -> occupied s i -> best_ok s seen b -> best_ok s (seen ++ [i]) (consider ctl s i delta b).
Proof.
  intros Hd Ho [V I]. unfold consider.
  assert (Hs : page_status s i = SLRU_PAGE_VALID \/ busy s i).
  { unfold occupied, busy in *. destruct (page_status s i) eqn:?; auto. done. }
  destruct (Z.eqb_spec (page_number s i) (latest_page_number s)) as [Hl|Hl].
  { split; setoid_rewrite elem_of_app; setoid_rewrite list_elem_of_singleton.
    - destruct V as [[? ?]|(? & ? & ?)]; [left | right; auto]. split; [done|]. intros j [?| ->]; auto.
    - destruct I as [[? ?]|(? & ? & ?)]; [left | right; auto]. split; [done|]. intros j [?| ->]; auto. }
  destruct (decide (page_status s i = SLRU_PAGE_VALID)) as [Hv|Hv].
  - rewrite bool_decide_true by done. assert (Nb : ~ busy s i) by (intros [?|?]; congruence).
    assert (I' : forall bi, best_invalid_delta bi = best_invalid_delta b -> bestinvalidslot bi = bestinvalidslot b ->
      best_invalid_delta bi = -1 /\
        (forall j, j ∈ seen ++ [i] -> busy s j -> page_number s j = latest_page_number s) \/
      0 <= best_invalid_delta bi /\ bestinvalidslot bi ∈ seen ++ [i] /\ busy s (bestinvalidslot bi)).
    { intros bi -> ->. setoid_rewrite elem_of_app. setoid_rewrite list_elem_of_singleton.
      destruct I as [[? ?]|(? & ? & ?)]; [left | right; auto]. split; [done|]. intros j [?| ->]; [auto | done]. }
    destruct (_ || _) eqn:B.
    + split; [|by apply I']. right. cbn. split; [done|]. split; [|done].
      rewrite elem_of_app, list_elem_of_singleton. auto.
    + split; [|by apply I']. destruct V as [[Hm ?]|(? & ? & ?)]; [|right].
      { rewrite Hm in B. lia. }
      rewrite elem_of_app. auto.
  - rewrite bool_decide_false by done. destruct Hs as [?|Hb]; [done|].
    assert (V' : forall bi, best_valid_delta bi = best_valid_delta b -> bestvalidslot bi = bestvalidslot b ->
      best_valid_delta bi = -1 /\
        (forall j, j ∈ seen ++ [i] -> page_status s j = SLRU_PAGE_VALID -> page_number s j = latest_page_number s) \/
      0 <= best_valid_delta bi /\ bestvalidslot bi ∈ seen ++ [i] /\ page_status s (bestvalidslot bi) = SLRU_PAGE_VALID).
    { intros bi -> ->. setoid_rewrite elem_of_app. setoid_rewrite list_elem_of_singleton.
      destruct V as [[? ?]|(? & ? & ?)]; [left | right; auto]. split; [done|]. intros j [?| ->]; [auto | done]. }
    destruct (_ || _) eqn:B.
    + split; [by apply V'|]. right. cbn. split; [done|]. split; [|done].
      rewrite elem_of_app, list_elem_of_singleton. auto.
    + split; [by apply V'|]. destruct I as [[Hm ?]|(? & ? & ?)]; [|right].
      { rewrite Hm in B. lia. }
      rewrite elem_of_app. auto.
Qed.

(** Only the usage counters changed. *)
Definition counters (s s' : SlruShared) : Prop := exists f g, s' = with_lru f g s.

Lemma counters_refl s : counters s s.
Proof. exists id, id. by destruct s. Qed.

Lemma counters_trans s1 s2 s3 : counters s1 s2 -> counters s2 s3 -> counters s1 s3.
Proof. intros (f & g & ->) (f' & g' & ->). by exists (f' ∘ f), (g' ∘ g). Qed.

Lemma counters_keeps s s' : cache_ok s -> counters s s' -> keeps s s'.
Proof. intros C (f & g & ->). apply keeps_same; try done. Qed.

Lemma best_ok_counters s s' seen b : counters s s' -> best_ok s' seen b <-> best_ok s seen b.
Proof. intros (f & g & ->). split; intros [V I]; by split. Qed.

Lemma scan_wp cur slots s0 : forall seen b s (E : SlruShared -> Prop),
  counters s0 s -> best_ok s0 seen b ->
  wp (scan ctl cur slots b)
    (fun r s' => counters s0 s' /\
       match r with
       | inl i => i ∈ slots /\ page_status s0 i = SLRU_PAGE_EMPTY
       | inr b' => (forall i, i ∈ slots -> occupied s0 i) /\ best_ok s0 (seen ++ slots) b'
       end) E s.
Proof.
  induction slots as [|i slots IH]; intros seen b s E Hc Hb; cbn [scan].
  { wp_step. split; [done|]. rewrite app_nil_r. split; [|done]. intros i Hi. by apply not_elem_of_nil in Hi. }
  repeat wp_step.
  assert (Hst : page_status s i = page_status s0 i) by (by destruct Hc as (f & g & ->)).
  assert (Hcons : forall d, consider ctl s i d b = consider ctl s0 i d b) by (by destruct Hc as (f & g & ->)).
  destruct (decide (page_status s i = SLRU_PAGE_EMPTY)) as [He|He].
  { rewrite bool_decide_true by done. wp_step. split; [done|]. split; [apply list_elem_of_here | congruence]. }
  rewrite bool_decide_false, !Hcons by done.
  assert (Ho : occupied s0 i) by (unfold occupied; congruence).
  assert (Hgo : forall d s1, 0 <= d -> counters s0 s1 ->
    wp (scan ctl cur slots (consider ctl s0 i d b))
      (fun r s' => counters s0 s' /\
         match r with
         | inl j => j ∈ i :: slots /\ page_status s0 j = SLRU_PAGE_EMPTY
         | inr b' => (forall j, j ∈ i :: slots -> occupied s0 j) /\ best_ok s0 (seen ++ i :: slots) b'
         end) E s1).
  { intros d s1 Hd H1. eapply wp_impl; [apply (IH (seen ++ [i])); [done|]; by apply consider_ok | | done].
    intros [j|b'] s' [Hc' H']; (split; [done|]).
    - destruct H'. split; [by apply list_elem_of_further | done].
    - destruct H' as [H1' H2']. rewrite <- app_assoc in H2'. split; [|done].
      intros j Hj. rewrite elem_of_cons in Hj. destruct Hj as [->|?]; auto. }
  destruct (Z.ltb_spec (i32_sub cur (page_lru_count s i)) 0).
  - repeat wp_step. apply Hgo; [done|]. eapply counters_trans; [done|]. by eexists _, _.
  - by apply Hgo.
Qed.

(** *** Termination: the work left in a bank *)

Definition weight (s : SlruShared) (i : Z) : nat :=
  match page_status s i with
  | SLRU_PAGE_READ_IN_PROGRESS | SLRU_PAGE_WRITE_IN_PROGRESS => 2
  | SLRU_PAGE_VALID => if page_dirty s i then 1 else 0
  | SLRU_PAGE_EMPTY => 0
  end.

Fixpoint work (s : SlruShared) (slots : list Z) : nat :=
  match slots with
  | [] => 0
  | i :: rest => weight s i + work s rest
  end.

Lemma weight_others i j s s' : others i s s' -> j <> i -> weight s' j = weight s j.
Proof. intros H Hj. unfold weight. by destruct (H j Hj) as (-> & -> & _). Qed.

Lemma work_bound s slots : (work s slots <= 2 * length slots)%nat.
Proof.
  induction slots as [|i slots IH]; cbn; [lia|].
  assert (weight s i <= 2)%nat by (unfold weight; destruct (page_status s i), (page_dirty s i); lia). lia.
Qed.

Lemma work_others i s s' slots : others i s s' -> i ∉ slots -> work s' slots = work s slots.
Proof.
  intros H. induction slots as [|j slots IH]; cbn; [done|]. rewrite not_elem_of_cons. intros [Hj Hi].
  by rewrite (weight_others i j s s') by done; rewrite IH.
Qed.

Lemma work_less i s s' slots :
  NoDup slots -> i ∈ slots -> others i s s' -> (weight s' i < weight s i)%nat ->
  (work s' slots < work s slots)%nat.
Proof.
  intros ND Hi H Hw. induction ND as [|j slots Hj ND IH]; [by apply not_elem_of_nil in Hi|]. cbn.
  destruct (decide (j = i)) as [->|Hne].
  - rewrite (work_others i s s') by done. lia.
  - rewrite (weight_others i j s s') by done.
    assert (i ∈ slots) by (rewrite elem_of_cons in Hi; destruct Hi; [congruence | done]).
    specialize (IH ltac:(done)). lia.
Qed.

Lemma work_counters s s' slots : counters s s' -> work s' slots = work s slots.
Proof. intros (f & g & ->). induction slots as [|i slots IH]; [done|]. cbn. by rewrite IH. Qed.

Lemma bank_slots_spec b i : i ∈ bank_slots b <-> b * SLRU_BANK_SIZE <= i < (b + 1) * SLRU_BANK_SIZE.
Proof.
  unfold bank_slots. rewrite list_elem_of_fmap. setoid_rewrite elem_of_seq.
  change SLRU_BANK_SIZE with 16. split.
  - intros (k & -> & Hk). lia.
  - intros H. exists (Z.to_nat (i - b * 16)). lia.
Qed.

Lemma bank_slots_nodup b : NoDup (bank_slots b).
Proof. unfold bank_slots. apply NoDup_fmap_2; [intros x y; lia | apply NoDup_seq]. Qed.

Lemma bank_slots_length b : length (bank_slots b) = 16%nat.
Proof. done. Qed.

(** Two occupied slots of a bank do not both hold the latest page. *)
Lemma some_candidate s b best :
  cache_ok s -> (forall i, i ∈ bank_slots b -> occupied s i) -> best_ok s (bank_slots b) best ->
  best_valid_delta best < 0 -> 0 <= best_invalid_delta best.
Proof.
  intros C Ho [V I] Hv. destruct I as [[_ I]|[? _]]; [|done]. exfalso.
  destruct V as [[_ V]|[? _]]; [|lia].
  assert (Hl : forall i, i ∈ bank_slots b -> page_number s i = latest_page_number s).
  { intros i Hi. specialize (Ho i Hi). unfold occupied, busy in *.
    destruct (page_status s i) eqn:E; [done | | |]; eauto. }
  assert (H0 : b * 16 ∈ bank_slots b) by (apply bank_slots_spec; change SLRU_BANK_SIZE with 16; lia).
  assert (H1 : b * 16 + 1 ∈ bank_slots b) by (apply bank_slots_spec; change SLRU_BANK_SIZE with 16; lia).
  pose proof (ok_unique s C _ _ (Ho _ H0) (Ho _ H1) ltac:(by rewrite !Hl)). lia.
Qed.

(** No slot has page [p]. *)
Definition free (s : SlruShared) (p : Z) : Prop := forall j, occupied s j -> page_number s j <> p.

Definition evictable (s : SlruShared) (i : Z) : Prop :=
  page_status s i = SLRU_PAGE_EMPTY \/ page_status s i = SLRU_PAGE_VALID /\ page_dirty s i = false.

(** What [SlruSelectLRUPage] hands out: the slot that has the page, and then
    nothing changed, or an evictable one when no slot has it. *)
Definition selected (s0 s : SlruShared) (p i : Z) : Prop :=
  in_bank i p /\ (occupied s i /\ page_number s i = p /\ s = s0 \/ free s p /\ evictable s i).

Lemma free_local i p s s' :
  others i s s' -> page_number s' i = page_number s i -> (occupied s' i -> occupied s i) -> free s p -> free s' p.
Proof.
  intros Ho Hn Hi Hf j. destruct (decide (j = i)) as [->|Hj]; [rewrite Hn; auto|].
  unfold occupied. destruct (Ho j Hj) as (-> & _ & ->). apply Hf.
Qed.

Lemma find_none_free s p :
  cache_ok s -> List.find (holds_page s p) (bank_slots (bank_of ctl p)) = None -> free s p.
Proof.
  intros C Hf j Hj Hn. pose proof (ok_bank s C j Hj) as [_ Hb]. rewrite Hn in Hb.
  apply bank_slots_spec, list_elem_of_In in Hb. apply (List.find_none _ _ Hf) in Hb.
  unfold holds_page in Hb. rewrite bool_decide_false, Hn, Z.eqb_refl in Hb by done. done.
Qed.

Lemma weight_waited i s :
  busy s i ->
  (page_status s i = SLRU_PAGE_READ_IN_PROGRESS -> (weight (set_status i SLRU_PAGE_EMPTY s) i < weight s i)%nat) /\
  (page_status s i = SLRU_PAGE_WRITE_IN_PROGRESS ->
   (weight (set_page_dirty i true (set_status i SLRU_PAGE_VALID s)) i < weight s i)%nat).
Proof. intros _. split; intros H; unfold weight; cbn; rewrite !set_at_eq, H; lia. Qed.

Lemma keeps_wait_write i s :
  cache_ok s -> page_status s i = SLRU_PAGE_WRITE_IN_PROGRESS ->
  keeps s (set_page_dirty i true (set_status i SLRU_PAGE_VALID s)).
Proof. intros C H. apply restatus; [done | by right | left; split; [done | by left]]. Qed.

Lemma find_some_slot s p i :
  List.find (holds_page s p) (bank_slots (bank_of ctl p)) = Some i ->
  in_bank i p /\ occupied s i /\ page_number s i = p.
Proof.
  intros F. apply List.find_some in F as [Hi Hh]. apply list_elem_of_In, bank_slots_spec in Hi.
  split; [done|]. unfold holds_page in Hh. apply andb_true_iff in Hh as [H1 H2].
  apply negb_true_iff, bool_decide_eq_false in H1. split; [done | lia].
Qed.

(** One settled or cleaned slot at a time, the loop reaches an evictable one. *)
Lemma select_free_wp p s0 : forall fuel s,
  0 <= p -> keeps s0 s -> free s p -> (work s (bank_slots (bank_of ctl p)) < fuel)%nat ->
  wp (select_loop ctl fuel p)
    (fun i s' => keeps s0 s' /\ in_bank i p /\ free s' p /\ evictable s' i) (keeps s0) s.
Proof.
  induction fuel as [|fuel IH]; intros s Hp K Hfree Hw; [lia|]. cbn [select_loop]. wp_step. wp_step.
  pose proof (keeps_cache _ _ K) as C.
  destruct (List.find _ _) as [i|] eqn:F.
  { apply find_some_slot in F as (_ & Ho & Hn). by destruct (Hfree i Ho). }
  repeat wp_step. set (s1 := with_lru id _ s). assert (C1 : counters s s1) by (by eexists _, _).
  eapply wp_impl; [eapply (scan_wp _ _ s []); [exact C1|] | | done].
  { split; left; (split; [done|]); intros j Hj; by apply not_elem_of_nil in Hj. }
  intros r s2 [C2 Hr]. pose proof (counters_keeps s s2 C C2) as K2. pose proof (keeps_trans _ _ _ K K2) as K02.
  assert (Hc2 : page_status s2 = page_status s /\ page_dirty s2 = page_dirty s /\ page_number s2 = page_number s)
    by (by destruct C2 as (f & g & ->)).
  destruct Hc2 as (E1 & E2 & E3).
  assert (Hf2 : free s2 p) by (unfold free, occupied; by rewrite E1, E3).
  destruct r as [i|b].
  { destruct Hr as [Hi He]. wp_step. split; [done|]. apply bank_slots_spec in Hi. split; [done|]. split; [done|].
    unfold evictable. rewrite E1. by left. }
  destruct Hr as [Ho Hb]. destruct (Z.ltb_spec (best_valid_delta b) 0) as [Hv|Hv].
  - pose proof (some_candidate s _ b C Ho Hb Hv) as Hi. destruct Hb as [_ [[? _]|(_ & Hin & Hbusy)]]; [lia|].
    set (i := bestinvalidslot b) in *. assert (Hb2 : busy s2 i) by (unfold busy in *; by rewrite E1).
    pose proof (weight_waited i s2 Hb2) as [W1 W2]. wp_step.
    assert (Ho2 : occupied s2 i) by (unfold occupied; rewrite E1; by apply Ho).
    apply wait_io_wp; [by eapply keeps_cache | | |].
    + intros H. apply IH; [done | | by eapply (free_local i p s2); [apply others_set_status|..] |].
      * eapply keeps_trans; [done|]. apply drop_read; [by eapply keeps_cache | done].
      * pose proof (work_less i s2 _ _ (bank_slots_nodup _) Hin (others_set_status i _ _) (W1 H)).
        rewrite (work_counters s s2) in * by done. lia.
    + intros H. apply IH; [done | | by eapply (free_local i p s2); [apply others_set|..] |].
      * eapply keeps_trans; [done|]. apply keeps_wait_write; [by eapply keeps_cache | done].
      * pose proof (work_less i s2 _ _ (bank_slots_nodup _) Hin (others_set i _ _ _) (W2 H)).
        rewrite (work_counters s s2) in * by done. lia.
    + intros H. unfold busy in Hb2. destruct Hb2, H; congruence.
  - destruct Hb as [[[? _]|(_ & Hin & Hvalid)] _]; [lia|]. set (i := bestvalidslot b) in *. wp_step. wp_step.
    assert (Ho2 : occupied s2 i) by (unfold occupied; congruence).
    destruct (page_dirty s2 i) eqn:D; cbn [negb].
    + wp_step. eapply wp_impl; [apply internal_write_wp; [by eapply keeps_cache | done]| |].
      * intros fd s3 (L & St & Hd). rewrite E1, Hvalid in St. rewrite bool_decide_false in St by done.
        assert (Hw3 : (weight s3 i < weight s2 i)%nat).
        { unfold weight. rewrite E1, Hvalid, St, (Hd St), D. lia. }
        destruct L as (K3 & Oth & N3 & _). apply IH; [done | by eapply keeps_trans | by eapply (free_local i p s2) |].
        pose proof (work_less i s2 s3 _ (bank_slots_nodup _) Hin Oth Hw3).
        rewrite (work_counters s s2) in * by done. lia.
      * intros s3 L. eapply keeps_trans; [done | apply L].
    + wp_step. split; [done|]. apply bank_slots_spec in Hin. split; [done|]. split; [done|].
      unfold evictable. rewrite E1. by right.
Qed.

Lemma select_found n p s i Q E :
  List.find (holds_page s p) (bank_slots (bank_of ctl p)) = Some i -> Q i s -> wp (select_loop ctl (S n) p) Q E s.
Proof. intros F H. cbn [select_loop]. wp_step. wp_step. by rewrite F. Qed.

Lemma select_page_wp p s :
  cache_ok s -> 0 <= p -> wp (SlruSelectLRUPage ctl p) (fun i s' => keeps s s' /\ selected s s' p i) (keeps s) s.
Proof.
  intros C Hp. unfold SlruSelectLRUPage. remember 33%nat as n eqn:Hn33.
  destruct (List.find (holds_page s p) (bank_slots (bank_of ctl p))) as [i|] eqn:F.
  - destruct n as [|n]; [done|]. apply (select_found n p s i); [done|]. apply find_some_slot in F as (Hi & Ho & Hn).
    split; [by apply keeps_refl|]. split; [done|]. by left.
  - eapply wp_impl; [apply (select_free_wp p s); [done | by apply keeps_refl | by apply find_none_free |] | | done].
    + pose proof (work_bound s (bank_slots (bank_of ctl p))) as H. rewrite bank_slots_length in H. lia.
    + intros i s' (K & Hi & Hf & He). split; [done|]. split; [done|]. by right.
Qed.

(** *** Reading a page *)

Lemma recently_used_wp i s (Q : unit -> SlruShared -> Prop) E :
  (forall s', counters s s' -> Q tt s') -> wp (SlruRecentlyUsed i) Q E s.
Proof.
  intros H. unfold SlruRecentlyUsed. repeat wp_step. destruct (negb _); wp_step; apply H.
  - by eexists _, _.
  - apply counters_refl.
Qed.

Lemma keeps_lsns f s : cache_ok s -> keeps s (with_group_lsn f s).
Proof. intros. by apply keeps_same. Qed.

(** The read itself fills the buffer with the page on disk, or reports failure;
    nothing else changes. *)
Lemma physical_read_wp p i s :
  wp (SlruPhysicalReadPage ctl p i)
    (fun ok s' => exists v, s' = with_pages (set_at i v) s /\ (ok = None -> on_disk s p = Some v))
    (fun s' => s' = s) s.
Proof.
  unfold SlruPhysicalReadPage, mraise, failed. repeat wp_step.
  assert (Same : exists v, s = with_pages (set_at i v) s).
  { exists (pages s i). destruct s. unfold with_pages. cbn. f_equal.
    apply functional_extensionality. intros j. unfold set_at. by destruct (Z.eqb_spec j i) as [->|]. }
  destruct (open_read ctl _); [by wp_step | wp_step; destruct Same as (v & ?); by exists v |]. unfold on_disk.
  destruct (seg_pages s !! _) as [len|] eqn:G.
  - destruct (Z.leb_spec len (Z.rem p SLRU_PAGES_PER_SEGMENT)); cbn [orb].
    { repeat wp_step. by eexists. }
    destruct (read_fails ctl p); [repeat wp_step; by eexists|].
    repeat wp_step. destruct (close_fails ctl _); wp_step; (eexists; split; [done|]); [done|].
    intros _. destruct (Z.ltb_spec (Z.rem p SLRU_PAGES_PER_SEGMENT) len); [done | lia].
  - rewrite NotInRecovery. cbn [negb]. wp_step. destruct Same as (v & ?). by exists v.
Qed.

Lemma load_page_wp p xid i s :
  cache_ok s -> 0 <= p -> in_bank i p -> free s p -> evictable s i ->
  wp (load_page ctl p xid i) (fun j s' => keeps s s' /\ j = i /\ holds s' i p) (keeps s) s.
Proof.
  intros C Hp Hb Hf Hv. unfold load_page. repeat wp_step. set (s1 := set_page_dirty i false _).
  pose proof (begin_read s i p C Hp Hb Hf Hv) as K1. fold s1 in K1. pose proof (keeps_cache _ _ K1) as C1.
  assert (St1 : page_status s1 i = SLRU_PAGE_READ_IN_PROGRESS) by (cbn; by rewrite set_at_eq).
  assert (N1 : page_number s1 i = p) by (cbn; by rewrite set_at_eq).
  eapply wp_impl; [apply physical_read_wp | | by intros s' ->].
  intros ok s2 (v & -> & Hd). pose proof (scribble s1 i v C1 St1) as K2.
  unfold SimpleLruZeroLSNs. repeat wp_step. set (s3 := with_group_lsn _ _).
  pose proof (keeps_lsns (fun f j => if (i * lsn_groups_per_page ctl <=? j) && (j <? (i + 1) * lsn_groups_per_page ctl)
    then InvalidXLogRecPtr else f j) _ (keeps_cache _ _ K2)) as K3. fold s3 in K3.
  pose proof (keeps_trans _ _ _ (keeps_trans _ _ _ K1 K2) K3) as K. pose proof (keeps_cache _ _ K) as C3.
  assert (St3 : page_status s3 i = SLRU_PAGE_READ_IN_PROGRESS) by done.
  destruct ok as [cause|]; repeat wp_step.
  - unfold SlruReportIOError, mraise. wp_step. eapply keeps_trans; [done|]. by apply drop_read.
  - assert (K4 : keeps s3 (set_status i SLRU_PAGE_VALID s3)).
    { apply finish_read; [done | done|]. change (page_number s3 i) with (page_number s1 i). rewrite N1.
      cbn [s3 with_group_lsn pages with_pages]. rewrite set_at_eq. by apply Hd. }
    apply recently_used_wp. intros s5 K5. wp_step. pose proof (keeps_trans _ _ _ K K4) as K04.
    split; [eapply keeps_trans; [done|]; apply counters_keeps; [by eapply keeps_cache | done]|].
    split; [done|]. destruct K5 as (f & g & ->). split; [left; cbn; by rewrite set_at_eq | done].
Qed.

Lemma wait_settles i p s :
  cache_ok s -> occupied s i -> page_number s i = p -> in_bank i p ->
  wp (SimpleLruWaitIO i) (fun _ s' => keeps s s' /\
    (page_status s' i = SLRU_PAGE_VALID /\ page_number s' i = p \/ free s' p)) (fun _ => False) s.
Proof.
  intros C Ho Hn Hb. apply wait_io_wp; [done | | |].
  - intros H. split; [by apply drop_read|]. right.
    intros j. unfold occupied. cbn. destruct (decide (j = i)) as [->|Hne]; [by rewrite set_at_eq|].
    rewrite set_at_ne by done. intros Hj Hp. apply Hne, (ok_unique s C); [done | done | congruence].
  - intros H. split; [by apply keeps_wait_write|]. left. cbn. by rewrite set_at_eq.
  - intros [H|H]; [|done]. split; [by apply keeps_refl|]. by left.
Qed.

(** No I/O is pending on page [p]. *)
Definition settled (s : SlruShared) (p : Z) : Prop :=
  forall i, occupied s i -> page_number s i = p -> page_status s i = SLRU_PAGE_VALID.

Lemma holds_page_true s p i : holds_page s p i = true <-> occupied s i /\ page_number s i = p.
Proof.
  unfold holds_page, occupied. rewrite andb_true_iff, negb_true_iff, bool_decide_eq_false, Z.eqb_eq. done.
Qed.

(** The result of a read: a slot of the page's bank that holds it. *)
Definition has_page (s0 : SlruShared) (p i : Z) (s : SlruShared) : Prop :=
  keeps s0 s /\ in_bank i p /\ holds s i p.

(** One pass of the loop of [SimpleLruReadPage]; [again] is the next. *)
Lemma read_pass_wp p write_ok xid s0 s (again : M SlruShared Z) :
  keeps s0 s -> 0 <= p ->
  (~ settled s p -> forall s', keeps s0 s' -> settled s' p -> wp again (has_page s0 p) (keeps s0) s') ->
  wp (let! slotno := SlruSelectLRUPage ctl p in
      let! s := mget in
      if holds_page s p slotno then
        if bool_decide (page_status s slotno = SLRU_PAGE_READ_IN_PROGRESS)
           || bool_decide (page_status s slotno = SLRU_PAGE_WRITE_IN_PROGRESS) && negb write_ok
        then SimpleLruWaitIO slotno ;! again
        else SlruRecentlyUsed slotno ;! mret slotno
      else load_page ctl p xid slotno) (has_page s0 p) (keeps s0) s.
Proof.
  intros K0 Hp Hagain. wp_step. pose proof (keeps_cache _ _ K0) as C0.
  eapply wp_impl; [by apply select_page_wp | | intros s' ?; by eapply keeps_trans].
  intros i s1 [K [Hb Hsel]]. wp_step. wp_step. pose proof (keeps_cache _ _ K) as C.
  pose proof (keeps_trans _ _ _ K0 K) as K01. destruct (holds_page s1 p i) eqn:H.
  - apply holds_page_true in H as [Ho Hn].
    destruct Hsel as [(_ & _ & ->)|[Hf _]]; [|by destruct (Hf i Ho)].
    destruct (_ || _) eqn:W.
    + wp_step. eapply wp_impl; [by apply (wait_settles i p) | | done].
      intros _ s' [K' Hs]. apply Hagain; [| by eapply keeps_trans |].
      { intros Hset. rewrite (Hset i Ho Hn) in W. revert W. bd. done. }
      intros j Hj Nj. destruct Hs as [[V N]|Hf]; [|by destruct (Hf j)].
      assert (j = i) as ->; [|done]. apply (ok_unique s' (keeps_cache _ _ K')); unfold occupied; congruence.
    + wp_step. apply recently_used_wp. intros s' Cs. wp_step.
      split; [eapply keeps_trans; [done|]; by apply counters_keeps|].
      split; [done|]. destruct Cs as (f & g & ->). unfold holds. cbn. split; [|done].
      unfold occupied in Ho. destruct (page_status s i) eqn:S; auto; try done.
  - destruct Hsel as [(Ho & Hn & _)|[Hf Hv]].
    + assert (holds_page s1 p i = true) by (by apply holds_page_true). congruence.
    + eapply wp_impl; [by apply load_page_wp | | intros s' ?; by eapply keeps_trans].
      intros j s' (K' & -> & Hh). split; [by eapply keeps_trans | done].
Qed.

Lemma read_page_wp p write_ok xid s :
  cache_ok s -> 0 <= p ->
  wp (SimpleLruReadPage ctl p write_ok xid) (has_page s p) (keeps s) s.
Proof.
  intros C Hp. apply read_pass_wp; [by apply keeps_refl | done |].
  intros _ s1 K1 Hset. apply read_pass_wp; [done | done |]. intros Hn. by destruct Hn.
Qed.

Lemma read_only_wp p xid s :
  cache_ok s -> 0 <= p ->
  wp (SimpleLruReadPage_ReadOnly ctl p xid) (has_page s p) (keeps s) s.
Proof.
  intros C Hp. unfold SimpleLruReadPage_ReadOnly. wp_step. wp_step.
  destruct (List.find _ _) as [i|] eqn:F; [|by apply read_page_wp].
  apply List.find_some in F as [Hi Hh]. apply list_elem_of_In, bank_slots_spec in Hi.
  apply andb_true_iff in Hh as [Hh Hr]. apply holds_page_true in Hh as [Ho Hn].
  apply negb_true_iff, bool_decide_eq_false in Hr.
  wp_step. apply recently_used_wp. intros s' Cs. wp_step. split; [by apply counters_keeps|]. split; [done|].
  destruct Cs as (f & g & ->). split; [|done]. cbn. unfold occupied in Ho. destruct (page_status s i) eqn:S; auto; done.
Qed.

(** A slot that holds the page has its bytes. *)
Lemma holds_content s p i pg : cache_ok s -> holds s i p -> content s p pg -> pages s i = pg.
Proof. intros C Hh Hc. eapply (content_fun s p); [done | | done]. left. by exists i. Qed.

(** *** A fresh page *)

(** Every page but [p] keeps its bytes, and [p] now has [v]. *)
Definition updates (p : Z) (v : arr Z) (s s' : SlruShared) : Prop :=
  cache_ok s' /\ (forall q pg, q <> p -> content s q pg -> content s' q pg) /\ content s' p v /\
  flushed s <= flushed s'.

Lemma install s s' i p v :
  cache_ok s -> 0 <= p -> in_bank i p ->
  (occupied s i /\ page_number s i = p \/ free s p /\ evictable s i) ->
  page_status s' = set_at i SLRU_PAGE_VALID (page_status s) -> page_dirty s' = set_at i true (page_dirty s) ->
  page_number s' = set_at i p (page_number s) -> pages s' = set_at i v (pages s) ->
  seg_pages s' = seg_pages s -> disk s' = disk s -> flushed s' = flushed s ->
  updates p v s s'.
Proof.
  intros [B U D] Hp Hb Hsel E1 E2 E3 E4 E5 E6 E7.
  assert (Hother : forall j, j <> i -> occupied s j -> page_number s j <> p).
  { intros j Hj Ho Hn. destruct Hsel as [[Hoi Hni]|[Hf _]]; [|by apply (Hf j)].
    apply Hj, U; [done | done | congruence]. }
  assert (Od : forall q, on_disk s' q = on_disk s q) by (intros q; unfold on_disk; by rewrite E5, E6).
  split; [|split; [|split; [|lia]]].
  - split; unfold occupied; intros j.
    + rewrite E1, E3. unfold set_at. destruct (j =? i) eqn:Ej; [intros _; assert (j = i) as -> by lia; done | apply B].
    + intros k. rewrite E1, E3. unfold set_at. destruct (Z.eqb_spec j i) as [->|Hj], (Z.eqb_spec k i) as [->|Hk]; intros; try done.
      * exfalso. by apply (Hother k).
      * exfalso. by apply (Hother j).
      * by apply U.
    + rewrite E1, E2, E3, E4, Od. unfold set_at. destruct (j =? i); [done | apply D].
  - intros q pg Hq [(j & [S N] & <-)|[Hn Hd]].
    + destruct (decide (j = i)) as [->|Hj].
      * right. destruct Hsel as [[_ ?]|[_ [He|[Hv Hc]]]]; [congruence | destruct S; congruence |].
        rewrite Od. split; [|rewrite <- N; by apply D].
        intros k [Sk Nk]. rewrite E1 in Sk. rewrite E3 in Nk.
        destruct (decide (k = i)) as [->|Hk]; [rewrite set_at_eq in Nk; congruence|].
        rewrite !set_at_ne in Sk by done. rewrite set_at_ne in Nk by done. apply Hk, U; unfold occupied; [destruct Sk; congruence | congruence | congruence].
      * left. exists j. unfold holds. rewrite E1, E3, E4, !set_at_ne by done. done.
    + right. rewrite Od. split; [|done]. intros j [Sj Nj]. rewrite E1 in Sj. rewrite E3 in Nj.
      destruct (decide (j = i)) as [->|Hj]; [rewrite set_at_eq in Nj; congruence|].
      rewrite !set_at_ne in Sj by done. rewrite set_at_ne in Nj by done. by apply (Hn j).
  - left. exists i. unfold holds. rewrite E1, E3, E4, !set_at_eq. split; [|done]. split; [by left | done].
Qed.

Lemma keeps_updates p v s0 s s' : keeps s0 s -> updates p v s s' -> updates p v s0 s'.
Proof.
  intros (_ & K & F) (C & U & V & F'). split; [done|]. split; [|split; [done | lia]]. eauto.
Qed.

Lemma zero_page_wp p s :
  cache_ok s -> 0 <= p ->
  wp (SimpleLruZeroPage ctl p)
    (fun i s' => updates p zero_page s s' /\ holds s' i p /\ latest_page_number s' = p) (keeps s) s.
Proof.
  intros C Hp. unfold SimpleLruZeroPage. wp_step. eapply wp_impl; [by apply select_page_wp | | done].
  intros i s1 [K [Hb Hsel]]. repeat wp_step. apply recently_used_wp. intros s2 (f & g & ->).
  unfold SimpleLruZeroLSNs. repeat wp_step.
  split; [|split; [split; [left; cbn; by rewrite set_at_eq | cbn; by rewrite set_at_eq] | done]].
  eapply keeps_updates; [done|]. eapply (install s1 _ i p); try done; [by eapply keeps_cache|].
  destruct Hsel as [(? & ? & _)|?]; [by left | by right].
Qed.

(** *** Rewriting a page in its buffer *)

(** [s'] is [s] with slot [i]'s buffer rewritten to [pg] and LSNs raised. *)
Definition rewritten (i : Z) (pg : arr Z) (s s' : SlruShared) : Prop :=
  page_status s' = page_status s /\ page_dirty s' = page_dirty s /\ page_number s' = page_number s /\
  pages s' i = pg /\ (forall j, j <> i -> pages s' j = pages s j) /\
  seg_pages s' = seg_pages s /\ disk s' = disk s /\ flushed s' = flushed s.

Lemma rewritten_trans i pg pg' s1 s2 s3 :
  rewritten i pg s1 s2 -> rewritten i pg' s2 s3 -> rewritten i pg' s1 s3.
Proof.
  intros (A1 & A2 & A3 & A4 & A5 & A6 & A7 & A8) (B1 & B2 & B3 & B4 & B5 & B6 & B7 & B8).
  unfold rewritten. rewrite B1, B2, B3, B6, B7, B8. repeat split; try done.
  intros j Hj. by rewrite B5, A5.
Qed.

Lemma rewritten_page i pg s s' : rewritten i pg s s' -> pages s' i = pg.
Proof. by intros (_ & _ & _ & H & _). Qed.

(** A rewritten buffer, marked dirty, is the page's new content. *)
Lemma overwrite i p pg s s1 :
  cache_ok s -> holds s i p -> rewritten i pg s s1 -> updates p pg s (set_page_dirty i true s1).
Proof.
  intros [B U D] [Hs Hn] (E1 & E2 & E3 & E4 & E5 & E6 & E7 & E8).
  assert (Hp : page_status (set_page_dirty i true s1) = page_status s /\
    page_number (set_page_dirty i true s1) = page_number s /\ pages (set_page_dirty i true s1) = pages s1 /\
    seg_pages (set_page_dirty i true s1) = seg_pages s /\ disk (set_page_dirty i true s1) = disk s) by done.
  set (s2 := set_page_dirty i true s1) in *. destruct Hp as (P1 & P3 & P4 & P6 & P7).
  assert (Od : forall q, on_disk s2 q = on_disk s q) by (intros q; unfold on_disk; by rewrite P6, P7).
  assert (Hne : forall j q, q <> p -> holds s j q -> j <> i) by (intros j q Hq [_ Hj] ->; congruence).
  split; [|split; [|split]].
  - split; unfold occupied; rewrite ?P1, ?P3; [done | done|].
    intros j Hj. rewrite Od, P4. destruct (decide (j = i)) as [->|Hji].
    + cbn. rewrite set_at_eq. done.
    + cbn. rewrite set_at_ne, E2, E5 by done. by apply D.
  - intros q pg' Hq [(j & Hj & <-)|[H1 H2]].
    + left. exists j. pose proof (Hne j q Hq Hj). unfold holds. rewrite P1, P3, P4, E5 by done. done.
    + right. rewrite Od. split; [|done]. intros j. unfold holds. rewrite P1, P3. apply H1.
  - left. exists i. unfold holds. rewrite P1, P3, P4. done.
  - cbn. lia.
Qed.

(** *** Writing everything out *)

Definition clean (s : SlruShared) (i : Z) : Prop :=
  page_status s i <> SLRU_PAGE_WRITE_IN_PROGRESS /\
  (page_status s i = SLRU_PAGE_VALID -> page_dirty s i = false).

Lemma clean_others i j s s' : others i s s' -> j <> i -> clean s j -> clean s' j.
Proof. intros H Hj. unfold clean. by destruct (H j Hj) as (-> & -> & _). Qed.

Lemma write_all_wp s0 slots : forall seen fdata s,
  keeps s0 s -> (forall i, i ∈ seen -> clean s i) ->
  wp (write_all ctl slots fdata) (fun _ s' => keeps s0 s' /\ forall i, i ∈ seen ++ slots -> clean s' i) (keeps s0) s.
Proof.
  induction slots as [|i slots IH]; intros seen fdata s K Hs; cbn [write_all].
  { wp_step. by rewrite app_nil_r. }
  assert (Hgo : forall fdata s1, keeps s0 s1 -> others i s s1 -> clean s1 i ->
    wp (write_all ctl slots fdata) (fun _ s' => keeps s0 s' /\ forall j, j ∈ seen ++ i :: slots -> clean s' j) (keeps s0) s1).
  { intros fd s1 K1 Ho Hc. rewrite (cons_middle i seen slots), app_assoc. apply IH; [done|].
    intros j. rewrite elem_of_app, list_elem_of_singleton. intros [Hj| ->]; [|done].
    destruct (decide (j = i)) as [->|Hne]; [done|]. eapply clean_others; eauto. }
  wp_step. wp_step. destruct (decide (page_status s i = SLRU_PAGE_EMPTY)) as [He|He].
  - rewrite bool_decide_true by done. apply Hgo; [done | done |]. split; congruence.
  - rewrite bool_decide_false by done. wp_step.
    eapply wp_impl; [apply internal_write_wp; [by eapply keeps_cache | done] | |].
    + intros fd s1 ((K1 & O1 & _) & St & Hd). apply Hgo; [by eapply keeps_trans | done |].
      split; [|done]. rewrite St. by destruct (decide (page_status s i = SLRU_PAGE_WRITE_IN_PROGRESS));
        [rewrite bool_decide_true | rewrite bool_decide_false].
    + intros s1 (K1 & _). by eapply keeps_trans.
Qed.

Lemma occupied_slot s i : cache_ok s -> occupied s i -> i ∈ all_slots ctl.
Proof.
  intros C Ho. destruct (ok_bank s C i Ho) as [Hp [H1 H2]]. destruct Banks as [Hb Hn].
  assert (0 <= bank_of ctl (page_number s i) < nbanks ctl) as Hr.
  { unfold bank_of. apply Z.rem_bound_pos; lia. }
  unfold all_slots. rewrite list_elem_of_fmap. exists (Z.to_nat i). change SLRU_BANK_SIZE with 16 in *.
  split; [lia|]. apply elem_of_seq. rewrite Hn. lia.
Qed.

Lemma all_clean_on_disk s :
  cache_ok s -> (forall i, i ∈ all_slots ctl -> clean s i) ->
  forall p pg, content s p pg -> on_disk s p = Some pg.
Proof.
  intros C Hc p pg [(i & [S N] & <-)|[_ ?]]; [|done]. destruct (Hc i) as [Hw Hd].
  { apply (occupied_slot s); [done|]. unfold occupied. destruct S; congruence. }
  destruct S as [S|S]; [|done]. rewrite <- N. apply (ok_clean s C); auto.
Qed.

Lemma write_everything_wp s :
  cache_ok s ->
  wp (SimpleLruWriteAll ctl)
    (fun _ s' => keeps s s' /\ forall p pg, content s p pg -> on_disk s' p = Some pg) (keeps s) s.
Proof.
  intros C. unfold SimpleLruWriteAll. wp_step.
  eapply wp_impl; [apply (write_all_wp s (all_slots ctl) []); [by apply keeps_refl | intros i Hi; by apply not_elem_of_nil in Hi] | | done].
  intros fd s' [K Hc]. cbn [app] in Hc. pose proof (all_clean_on_disk s' (keeps_cache _ _ K) Hc) as Hd.
  destruct K as (C' & K & F). assert (K' : keeps s s') by done.
  destruct (fold_left _ _ _) as [segno|]; [by unfold SlruReportIOError, mraise; wp_step|].
  destruct (has_sync_handler ctl); [|wp_step; eauto]. unfold wp, mlift.
  destruct (fsync_dir ctl) as [[]| |] eqn:E; [eauto | done | by apply FsyncNoPanic].
Qed.

(** *** Truncation *)

Lemma all_slots_nodup : NoDup (all_slots ctl).
Proof. unfold all_slots. apply NoDup_fmap_2; [intros x y; lia | apply NoDup_seq]. Qed.

(** The page in slot [i], if any, is one to keep. *)
Definition kept (cutoff : Z) (s : SlruShared) (i : Z) : Prop :=
  occupied s i -> PagePrecedes ctl (page_number s i) cutoff = false.

Lemma kept_others cutoff i j s s' : others i s s' -> j <> i -> kept cutoff s j -> kept cutoff s' j.
Proof. intros H Hj. unfold kept, occupied. by destruct (H j Hj) as (-> & _ & ->). Qed.

Lemma work_le_others i s s' slots :
  NoDup slots -> others i s s' -> (weight s' i <= weight s i)%nat -> (work s' slots <= work s slots)%nat.
Proof.
  intros ND H Hw. destruct (decide (i ∈ slots)) as [Hi|Hi]; [|by rewrite (work_others i s s')].
  destruct (decide (weight s' i = weight s i)) as [He|Hne].
  - induction slots as [|j slots IH]; [done|]. cbn. apply list.NoDup_cons in ND as [Hj ND].
    destruct (decide (j = i)) as [->|Hji]; [by rewrite (work_others i s s'), He|].
    rewrite (weight_others i j s s') by done. rewrite elem_of_cons in Hi. destruct Hi; [congruence|].
    specialize (IH ND ltac:(done)). lia.
  - pose proof (work_less i s s' slots ND Hi H). lia.
Qed.

Lemma truncate_pass_wp cutoff s0 : forall slots seen s,
  seen ++ slots = all_slots ctl -> keeps s0 s -> (forall i, i ∈ seen -> kept cutoff s i) ->
  wp (truncate_pass ctl cutoff slots)
    (fun restart s' => keeps s0 s' /\
       if restart then (work s' (all_slots ctl) < work s (all_slots ctl))%nat
       else forall i, i ∈ all_slots ctl -> kept cutoff s' i) (keeps s0) s.
Proof.
  induction slots as [|i slots IH]; intros seen s Hs K Hk; cbn [truncate_pass].
  { wp_step. rewrite app_nil_r in Hs. by subst seen. }
  assert (ND := all_slots_nodup). rewrite <- Hs in ND. apply list.NoDup_app in ND as (_ & Hdis & ND2).
  assert (Hi : i ∈ all_slots ctl) by (rewrite <- Hs, elem_of_app; right; apply list_elem_of_here).
  assert (Hgo : forall s1, keeps s0 s1 -> others i s s1 -> kept cutoff s1 i -> (weight s1 i <= weight s i)%nat ->
    wp (truncate_pass ctl cutoff slots)
      (fun restart s' => keeps s0 s' /\
         if restart then (work s' (all_slots ctl) < work s (all_slots ctl))%nat
         else forall i, i ∈ all_slots ctl -> kept cutoff s' i) (keeps s0) s1).
  { intros s1 K1 O1 Hk1 Hw. eapply wp_impl; [apply (IH (seen ++ [i]) s1); [by rewrite <- app_assoc | done |] | | done].
    - intros j. rewrite elem_of_app, list_elem_of_singleton. intros [Hj| ->]; [|done].
      eapply kept_others; [done | | by apply Hk]. intros ->. by apply (Hdis i Hj), list_elem_of_here.
    - intros restart s' [K' H']. split; [done|]. destruct restart; [|done].
      pose proof (work_le_others i s s1 (all_slots ctl) all_slots_nodup O1 Hw). lia. }
  wp_step. wp_step. pose proof (keeps_cache _ _ K) as C.
  destruct (decide (page_status s i = SLRU_PAGE_EMPTY)) as [He|He].
  { rewrite bool_decide_true by done. apply Hgo; [done | done | by intros ? | lia]. }
  rewrite bool_decide_false by done. destruct (PagePrecedes ctl (page_number s i) cutoff) eqn:P; cbn [negb].
  2:{ apply Hgo; [done | done | by intros ? | lia]. }
  destruct (decide (page_status s i = SLRU_PAGE_VALID)) as [Hv|Hv].
  - rewrite bool_decide_true by done. cbn [andb]. destruct (page_dirty s i) eqn:D; cbn [negb].
    + wp_step. eapply wp_impl; [by apply internal_write_wp | |].
      * intros fd s1 ((K1 & O1 & _) & St & Hd). wp_step. split; [by eapply keeps_trans|].
        rewrite Hv, bool_decide_false in St by done.
        apply (work_less i); [apply all_slots_nodup | done | done |].
        unfold weight. rewrite Hv, D, St, (Hd St). lia.
      * intros s1 (K1 & _). by eapply keeps_trans.
    + repeat wp_step. apply Hgo; [| apply others_set_status | |].
      * eapply keeps_trans; [done|]. by apply drop_clean.
      * unfold kept, occupied. cbn. rewrite set_at_eq. done.
      * unfold weight. cbn. rewrite set_at_eq. lia.
  - rewrite bool_decide_false by done. cbn [andb]. wp_step.
    assert (Hb : busy s i) by (unfold busy; destruct (page_status s i); auto; done).
    pose proof (weight_waited i s Hb) as [W1 W2]. apply wait_io_wp; [done | | | intros [?|?]; congruence].
    + intros H. wp_step. split; [eapply keeps_trans; [done | by apply drop_read]|].
      apply (work_less i); [apply all_slots_nodup | done | apply others_set_status | by apply W1].
    + intros H. wp_step. split; [eapply keeps_trans; [done | by apply keeps_wait_write]|].
      apply (work_less i); [apply all_slots_nodup | done | apply others_set | by apply W2].
Qed.

Lemma truncate_loop_wp cutoff s0 : forall fuel s,
  keeps s0 s -> (work s (all_slots ctl) < fuel)%nat ->
  wp (truncate_loop ctl fuel cutoff)
    (fun o s' => keeps s0 s' /\ match o with
                                | Some _ => forall i, i ∈ all_slots ctl -> kept cutoff s' i
                                | None => PagePrecedes ctl (latest_page_number s') cutoff = true
                                end) (keeps s0) s.
Proof.
  induction fuel as [|fuel IH]; intros s K Hw; [lia|]. cbn [truncate_loop]. wp_step. wp_step.
  destruct (PagePrecedes ctl _ cutoff) eqn:Pl; [by wp_step|]. wp_step.
  eapply wp_impl; [apply (truncate_pass_wp cutoff s0 (all_slots ctl) []); [done | done |] | | done].
  { intros i Hi. by apply not_elem_of_nil in Hi. }
  intros [|] s' [K' H']; [apply IH; [done | lia] | by wp_step].
Qed.

(** *** Dropping one segment *)

(** The page in slot [i], if any, is not of segment [segno]. *)
Definition absent (segno : Z) (s : SlruShared) (i : Z) : Prop :=
  occupied s i -> Z.quot (page_number s i) SLRU_PAGES_PER_SEGMENT <> segno.

Lemma absent_others segno i j s s' : others i s s' -> j <> i -> absent segno s j -> absent segno s' j.
Proof. intros H Hj. unfold absent, occupied. by destruct (H j Hj) as (-> & _ & ->). Qed.

(** Where a pass of [SlruDeleteSegment] stands: it has done some I/O and so has
    less left to do than the pass before it, or the slots it has seen are free of
    the segment. *)
Definition pass_at (segno : Z) (bound : nat) (seen : list Z) (did_write : bool) (s : SlruShared) : Prop :=
  if did_write then (work s (all_slots ctl) < bound)%nat
  else (work s (all_slots ctl) <= bound)%nat /\ forall i, i ∈ seen -> absent segno s i.

Lemma pass_at_step segno bound seen dw i s s' :
  i ∉ seen -> pass_at segno bound seen dw s -> others i s s' -> (weight s' i <= weight s i)%nat ->
  absent segno s' i -> pass_at segno bound (seen ++ [i]) dw s'.
Proof.
  intros Hi P O W A. pose proof (work_le_others i s s' (all_slots ctl) all_slots_nodup O W).
  destruct dw; cbn in *; [lia|]. destruct P as [P1 P2]. split; [lia|]. intros j.
  rewrite elem_of_app, list_elem_of_singleton. intros [Hj| ->]; [|done].
  eapply absent_others; [done | by intros -> | by apply P2].
Qed.

Lemma pass_at_io segno bound seen seen' dw i s s' :
  pass_at segno bound seen dw s -> i ∈ all_slots ctl -> others i s s' -> (weight s' i < weight s i)%nat ->
  pass_at segno bound seen' true s'.
Proof.
  intros P Hi O W. pose proof (work_less i s s' (all_slots ctl) all_slots_nodup Hi O W).
  destruct dw; cbn in *; lia.
Qed.

Lemma delete_pass_wp segno s0 bound : forall slots seen dw s,
  seen ++ slots = all_slots ctl -> keeps s0 s -> pass_at segno bound seen dw s ->
  wp (delete_pass ctl segno slots dw)
    (fun dw' s' => keeps s0 s' /\ pass_at segno bound (all_slots ctl) dw' s') (keeps s0) s.
Proof.
  induction slots as [|i slots IH]; intros seen dw s Hs K P; cbn [delete_pass].
  { wp_step. rewrite app_nil_r in Hs. by subst seen. }
  assert (ND := all_slots_nodup). rewrite <- Hs in ND. apply list.NoDup_app in ND as (_ & Hdis & _).
  assert (Hi : i ∈ all_slots ctl) by (rewrite <- Hs, elem_of_app; right; apply list_elem_of_here).
  assert (Hn : i ∉ seen) by (intros Hin; by apply (Hdis i Hin), list_elem_of_here).
  assert (Hs' : (seen ++ [i]) ++ slots = all_slots ctl) by by rewrite <- app_assoc.
  wp_step. wp_step. pose proof (keeps_cache _ _ K) as C.
  destruct (decide (page_status s i = SLRU_PAGE_EMPTY)) as [He|He].
  { rewrite bool_decide_true by done. eapply IH; [done | done |]. eapply pass_at_step; [done | done | apply others_refl | done | by intros ?]. }
  rewrite bool_decide_false by done.
  destruct (Z.eqb_spec (Z.quot (page_number s i) SLRU_PAGES_PER_SEGMENT) segno) as [Hq|Hq]; cbn [negb].
  2:{ eapply IH; [done | done |]. eapply pass_at_step; [done | done | apply others_refl | done | by intros ?]. }
  destruct (decide (page_status s i = SLRU_PAGE_VALID)) as [Hv|Hv].
  - rewrite bool_decide_true by done. cbn [andb]. destruct (page_dirty s i) eqn:D; cbn [negb].
    + wp_step. eapply wp_impl; [by apply internal_write_wp | |].
      * intros fd s1 ((K1 & O1 & _) & St & Hd). eapply IH; [done | by eapply keeps_trans|].
        rewrite Hv, bool_decide_false in St by done. eapply pass_at_io; [done | done | done |].
        unfold weight. rewrite Hv, D, St, (Hd St). lia.
      * intros s1 (K1 & _). by eapply keeps_trans.
    + repeat wp_step. eapply IH; [done | eapply keeps_trans; [done | by apply drop_clean] |].
      eapply pass_at_step; [done | done | apply others_set_status | |].
      * unfold weight. cbn. rewrite set_at_eq. lia.
      * unfold absent, occupied. cbn. by rewrite set_at_eq.
  - rewrite bool_decide_false by done. cbn [andb]. wp_step.
    assert (Hb : busy s i) by (unfold busy; destruct (page_status s i); auto; done).
    pose proof (weight_waited i s Hb) as [W1 W2]. apply wait_io_wp; [done | | | intros [?|?]; congruence].
    + intros H. eapply IH; [done | eapply keeps_trans; [done | by apply drop_read] |].
      eapply pass_at_io; [done | done | apply others_set_status | by apply W1].
    + intros H. eapply IH; [done | eapply keeps_trans; [done | by apply keeps_wait_write] |].
      eapply pass_at_io; [done | done | apply others_set | by apply W2].
Qed.

Lemma delete_loop_wp segno s0 : forall fuel s,
  keeps s0 s -> (work s (all_slots ctl) < fuel)%nat ->
  wp (delete_loop ctl fuel segno)
    (fun _ s' => keeps s0 s' /\ forall i, i ∈ all_slots ctl -> absent segno s' i) (keeps s0) s.
Proof.
  induction fuel as [|fuel IH]; intros s K Hw; [lia|]. cbn [delete_loop]. wp_step.
  eapply wp_impl; [apply (delete_pass_wp segno s0 (work s (all_slots ctl)) (all_slots ctl) []); [done | done |] | | done].
  { split; [done|]. intros i Hi. by apply not_elem_of_nil in Hi. }
  intros [|] s' [K' P']; cbn in P'; [apply IH; [done | lia] | wp_step; tauto].
Qed.

(** Every page of the other segments keeps its bytes. *)
Definition keeps_others (segno : Z) (s s' : SlruShared) : Prop :=
  cache_ok s' /\
  forall p pg, Z.quot p SLRU_PAGES_PER_SEGMENT <> segno -> content s p pg -> content s' p pg.

(** No buffer holds a page of the segment; its file is gone, or, when the file
    system refused the unlink, still holds every page it held. *)
Definition segment_dropped (segno : Z) (s s' : SlruShared) : Prop :=
  (forall i, absent segno s' i) /\
  if unlink_fails ctl segno then keeps s s' else seg_pages s' !! segno = None.

(** Pages of the other segments are not affected by an unlink. *)
Lemma unlink_disk segno s p :
  unlink_fails ctl segno = true \/ Z.quot p SLRU_PAGES_PER_SEGMENT <> segno -> on_disk (unlink ctl segno s) p = on_disk s p.
Proof.
  unfold unlink. destruct (unlink_fails ctl segno); [done|]. intros [?|Hp]; [done|]. unfold on_disk. cbn.
  rewrite lookup_delete_ne by congruence. by destruct (Z.eqb_spec (Z.quot p SLRU_PAGES_PER_SEGMENT) segno).
Qed.

Lemma unlink_buffers segno s :
  page_status (unlink ctl segno s) = page_status s /\ page_dirty (unlink ctl segno s) = page_dirty s /\
  page_number (unlink ctl segno s) = page_number s /\ pages (unlink ctl segno s) = pages s.
Proof. unfold unlink. by destruct (unlink_fails ctl segno). Qed.

(** An unlink keeps the bytes of every page whose file stays, provided no buffer
    holds a page of the segment. *)
Lemma unlink_keeps segno s :
  cache_ok s -> (forall i, absent segno s i) ->
  cache_ok (unlink ctl segno s) /\
  forall p pg, unlink_fails ctl segno = true \/ Z.quot p SLRU_PAGES_PER_SEGMENT <> segno ->
    content s p pg -> content (unlink ctl segno s) p pg.
Proof.
  intros [B U D] A. destruct (unlink_buffers segno s) as (Es & Ed & En & Ep). split.
  - split; unfold occupied; rewrite ?Es, ?En, ?Ed, ?Ep; [exact B | exact U |]. intros i Hv Hc.
    rewrite unlink_disk; [by apply D|]. right. apply A. unfold occupied. congruence.
  - intros p pg Hp. unfold content, holds. rewrite Es, En, Ep, unlink_disk by done. done.
Qed.

Lemma unlink_gone segno s : unlink_fails ctl segno = false -> seg_pages (unlink ctl segno s) !! segno = None.
Proof. unfold unlink. intros ->. apply lookup_delete_eq. Qed.

(** The request queue first, then the file. *)
Lemma internal_delete_wp segno (Q : unit -> SlruShared -> Prop) (E : SlruShared -> Prop) s :
  Q tt (unlink ctl segno s) -> E s -> wp (SlruInternalDeleteSegment ctl segno) Q E s.
Proof.
  intros HQ HE. unfold SlruInternalDeleteSegment. wp_step. destruct (has_sync_handler ctl); [|by repeat wp_step].
  wp_step. unfold wp at 1, mlift.
  destruct (register_sync_request ctl segno) as [b| |] eqn:Er; [by repeat wp_step | done | by apply SyncNoPanic in Er].
Qed.

Lemma delete_segment_wp segno s :
  cache_ok s ->
  wp (SlruDeleteSegment ctl segno) (fun _ s' => keeps_others segno s s' /\ segment_dropped segno s s')
    (keeps_others segno s) s.
Proof.
  intros C. unfold SlruDeleteSegment. wp_step.
  assert (Hw : forall s', keeps s s' -> keeps_others segno s s') by (intros s' (C' & K & _); split; [done | eauto]).
  eapply wp_impl; [apply (delete_loop_wp segno s); [by apply keeps_refl |] | | done].
  { pose proof (work_bound s (all_slots ctl)). lia. }
  intros _ s1 [K1 H1]. apply internal_delete_wp; [|by apply Hw]. pose proof K1 as (C1 & Kc & Kf).
  assert (A : forall i, absent segno s1 i). { intros i Ho. apply H1; [|done]. by apply (occupied_slot s1). }
  destruct (unlink_keeps segno s1 C1 A) as [C2 K2]. destruct (unlink_buffers segno s1) as (Es & _ & En & _).
  split; [split; [done | eauto]|]. split; [unfold absent, occupied; by rewrite Es, En|].
  destruct (unlink_fails ctl segno) eqn:F; [|by apply unlink_gone]. split; [done|]. split; [eauto|]. unfold unlink. by rewrite F.
Qed.

(** *** Truncation, of segments that lie before the cutoff *)

(** [PagePrecedes] sees a segment as an interval. *)
Hypothesis Convex : forall p cutoff, 0 <= p ->
  SlruMayDeleteSegment ctl (Z.quot p SLRU_PAGES_PER_SEGMENT * SLRU_PAGES_PER_SEGMENT) cutoff = true ->
  PagePrecedes ctl p cutoff = true.

(** Every page at or past the cutoff keeps its bytes, and so does every page in a
    file that cannot be unlinked. *)
Definition keeps_from (cutoff : Z) (s s' : SlruShared) : Prop :=
  cache_ok s' /\
  forall p pg, 0 <= p ->
    PagePrecedes ctl p cutoff = false \/ unlink_fails ctl (Z.quot p SLRU_PAGES_PER_SEGMENT) = true ->
    content s p pg -> content s' p pg.

Definition trimmed (cutoff : Z) (s : SlruShared) : Prop := forall i, kept cutoff s i.

Lemma delete_segment_ok cutoff segno s :
  cache_ok s -> trimmed cutoff s ->
  SlruMayDeleteSegment ctl (segno * SLRU_PAGES_PER_SEGMENT) cutoff = true ->
  keeps_from cutoff s (unlink ctl segno s) /\ trimmed cutoff (unlink ctl segno s).
Proof.
  intros C Ht Hm. assert (A : forall i, absent segno s i).
  { intros i Ho E. pose proof (ok_bank s C i Ho) as [Hp _]. specialize (Ht i Ho). rewrite <- E in Hm.
    by rewrite (Convex _ cutoff Hp Hm) in Ht. }
  destruct (unlink_keeps segno s C A) as [C2 K2], (unlink_buffers segno s) as (Es & _ & En & _). split.
  - split; [done|]. intros p pg Hp Hor. apply K2. destruct Hor as [Hn|Hf].
    + right. intros E. rewrite <- E in Hm. by rewrite (Convex p cutoff Hp Hm) in Hn.
    + destruct (decide (Z.quot p SLRU_PAGES_PER_SEGMENT = segno)) as [<-|]; auto.
  - intros i. unfold kept, occupied. rewrite Es, En. apply Ht.
Qed.

(** What the directory scan leaves: a file that is there was there before, and is
    one that must stay or that could not be unlinked; and these are there. *)
Definition dealt_with (cutoff : Z) (segs : list Z) (s s' : SlruShared) : Prop :=
  forall segno, is_Some (seg_pages s' !! segno) <->
    is_Some (seg_pages s !! segno) /\
    (segno ∈ segs -> SlruMayDeleteSegment ctl (segno * SLRU_PAGES_PER_SEGMENT) cutoff = false \/ unlink_fails ctl segno = true).

Lemma unlink_files segno x s :
  is_Some (seg_pages (unlink ctl segno s) !! x) <-> is_Some (seg_pages s !! x) /\ (x = segno -> unlink_fails ctl segno = true).
Proof.
  unfold unlink. destruct (unlink_fails ctl segno); [tauto|]. cbn. rewrite lookup_delete_is_Some.
  split; [intros [? ?]; split; [done | intros ->; done] | intros [? H]; split; [intros ->; by discriminate H | done]].
Qed.

Lemma delete_cutoff_wp cutoff s0 : forall segs s,
  keeps_from cutoff s0 s -> trimmed cutoff s ->
  wp (delete_cutoff ctl cutoff segs)
    (fun _ s' => keeps_from cutoff s0 s' /\ trimmed cutoff s' /\ dealt_with cutoff segs s s')
    (keeps_from cutoff s0) s.
Proof.
  induction segs as [|segno segs IH]; intros s [C K] Ht; cbn [delete_cutoff].
  { wp_step. split; [done|]. split; [done|]. intros x. split; [intros Hx; split; [done|]; intros Hn; by apply not_elem_of_nil in Hn | tauto]. }
  wp_step. destruct (SlruMayDeleteSegment _ _ _) eqn:Hm.
  2:{ wp_step. eapply wp_impl; [by apply IH | | done]. intros _ s' (K' & T' & D'). split; [done|]. split; [done|].
      intros x. rewrite (D' x), elem_of_cons. split; intros [? Hx]; (split; [done|]); [intros [->|?]; auto | auto]. }
  destruct (delete_segment_ok cutoff segno s C Ht Hm) as [[C2 K2] T2]. apply internal_delete_wp; [|done].
  eapply wp_impl; [apply IH; [split; [done | eauto] | done] | | done].
  intros _ s' (K' & T' & D'). split; [done|]. split; [done|]. intros x. rewrite (D' x), unlink_files, elem_of_cons.
  split.
  - intros [[? Hu] Hx]. split; [done|]. intros [->|?]; auto.
  - intros [? Hx]. split; [split; [done|]|auto]. intros ->. destruct (Hx (or_introl eq_refl)); [congruence | done].
Qed.

(** What a truncation that took place leaves of the state [s]: no buffer holds a
    page before the cutoff, and the files left are those of [s], the ones made
    while buffers were written out included, that must stay or that could not be
    unlinked. *)
Definition truncated (cutoff : Z) (s : SlruShared) : Prop :=
  (forall i, kept cutoff s i) /\
  forall segno, is_Some (seg_pages s !! segno) ->
    SlruMayDeleteSegment ctl (segno * SLRU_PAGES_PER_SEGMENT) cutoff = false \/ unlink_fails ctl segno = true.

Lemma truncate_wp cutoff s :
  cache_ok s ->
  wp (SimpleLruTruncate ctl cutoff)
    (fun _ s' => keeps_from cutoff s s' /\
       (PagePrecedes ctl (latest_page_number s) cutoff = true /\ s' = s \/
        PagePrecedes ctl (latest_page_number s') cutoff = true /\ keeps s s' \/
        PagePrecedes ctl (latest_page_number s) cutoff = false /\ truncated cutoff s'))
    (keeps_from cutoff s) s.
Proof.
  intros C. unfold SimpleLruTruncate. wp_step.
  assert (Hw : forall s', keeps s s' -> keeps_from cutoff s s') by (intros s' (C' & K & _); split; [done | eauto]).
  destruct (PagePrecedes ctl (latest_page_number s) cutoff) eqn:Pl.
  { cbn [truncate_loop]. wp_step. wp_step. rewrite Pl. repeat wp_step. split; [by apply Hw, keeps_refl | auto]. }
  eapply wp_impl; [apply (truncate_loop_wp cutoff s); [by apply keeps_refl |] | | done].
  { pose proof (work_bound s (all_slots ctl)). lia. }
  intros [u|] s1 [K1 H1]; [|wp_step; auto]. wp_step. wp_step.
  assert (T1 : trimmed cutoff s1). { intros i Ho. apply H1; [|done]. apply (occupied_slot s1); [by destruct K1 | done]. }
  eapply wp_impl; [apply delete_cutoff_wp; [auto | done] | | done].
  intros _ s' (K2 & T2 & D2). split; [done|]. right. right. split; [done|]. split; [done|].
  intros segno Hs. destruct (proj1 (D2 segno) Hs) as [[n Hn] D3]. apply D3.
  apply list_elem_of_fmap. exists (segno, n). split; [done | by apply elem_of_map_to_list].
Qed.
End SlruSpec.
