(* ===== verification/Clog.v ===== *)
(** * The commit log: [access/transam/clog/src/lib.rs]

    Two status bits per transaction, four transactions to a byte, in the pages of
    an SLRU.  The commit of a transaction tree that spans pages is several page
    updates; their order is what keeps it atomic for readers. *)

From S2P Require Import Prelude Xid ItemPtr Snapshot Slru SlruSpec.

Definition CLOG_BITS_PER_XACT : Z := 2.
Definition CLOG_XACTS_PER_BYTE : Z := 4.
Definition CLOG_XACTS_PER_PAGE : Z := BLCKSZ * CLOG_XACTS_PER_BYTE.
Definition CLOG_XACT_BITMASK : Z := Z.shiftl 1 CLOG_BITS_PER_XACT - 1.
Definition CLOG_XACTS_PER_LSN_GROUP : Z := 32.
Definition CLOG_LSNS_PER_PAGE : Z := CLOG_XACTS_PER_PAGE / CLOG_XACTS_PER_LSN_GROUP.

Definition TransactionIdToPage (xid : Z) : Z := Z.quot xid CLOG_XACTS_PER_PAGE.
Definition TransactionIdToPgIndex (xid : Z) : Z := xid mod CLOG_XACTS_PER_PAGE.
Definition TransactionIdToByte (xid : Z) : Z := TransactionIdToPgIndex xid / CLOG_XACTS_PER_BYTE.
Definition TransactionIdToBIndex (xid : Z) : Z := xid mod CLOG_XACTS_PER_BYTE.
Definition GetLSNIndex (slotno xid : Z) : Z :=
  slotno * CLOG_LSNS_PER_PAGE + (xid mod CLOG_XACTS_PER_PAGE) / CLOG_XACTS_PER_LSN_GROUP.

Definition CLOGPagePrecedes (page1 page2 : Z) : bool :=
  let xid1 := wrap32 (wrap32 (wrap32 page1 * CLOG_XACTS_PER_PAGE) + (FirstNormalTransactionId + 1)) in
  let xid2 := wrap32 (wrap32 (wrap32 page2 * CLOG_XACTS_PER_PAGE) + (FirstNormalTransactionId + 1)) in
  TransactionIdPrecedes xid1 xid2
  && TransactionIdPrecedes xid1 (wrap32 (xid2 + (CLOG_XACTS_PER_PAGE - 1))).

Section Clog.
Variable ctl : SlruCtl.

(** The two bits of [xid] in a page. *)
Definition status_bits (page : arr Z) (xid : Z) : Z :=
  let bshift := TransactionIdToBIndex xid * CLOG_BITS_PER_XACT in
  Z.land (Z.shiftr (page (TransactionIdToByte xid)) bshift) CLOG_XACT_BITMASK.

Definition write_bits (xid status : Z) (page : arr Z) : arr Z :=
  let byteno := TransactionIdToByte xid in
  let bshift := TransactionIdToBIndex xid * CLOG_BITS_PER_XACT in
  let byteval := page byteno in
  let byteval := Z.ldiff byteval (Z.shiftl (Z.shiftl 1 CLOG_BITS_PER_XACT - 1) bshift) in
  let byteval := Z.lor byteval (Z.shiftl status bshift) in
  set_at byteno (byteval mod 2 ^ 8) page.

Definition TransactionIdSetStatusBit (xid status lsn slotno : Z) : M SlruShared unit :=
  let! s := mget in
  let curval := status_bits (pages s slotno) xid in
  if in_recovery ctl && (status =? TRANSACTION_STATUS_SUB_COMMITTED)
     && (curval =? TRANSACTION_STATUS_COMMITTED)
  then mret tt
  else
    mput (with_pages (set_at slotno (write_bits xid status (pages s slotno)))) ;!
    (if negb (lsn =? InvalidXLogRecPtr) then
       let lsnindex := GetLSNIndex slotno xid in
       let! s := mget in
       if group_lsn s lsnindex <? lsn then mput (with_group_lsn (set_at lsnindex lsn)) else mret tt
     else mret tt).

(** [for &sub in subxids { TransactionIdSetStatusBit(sub, status, lsn, slotno) }] *)
Fixpoint set_all (subxids : list Z) (status lsn slotno : Z) : M SlruShared unit :=
  match subxids with
  | [] => mret tt
  | sub :: rest => TransactionIdSetStatusBit sub status lsn slotno ;! set_all rest status lsn slotno
  end.

Definition TransactionIdSetPageStatusInternal (xid : Z) (subxids : list Z) (status lsn pageno : Z)
  : M SlruShared unit :=
  let! slotno := SimpleLruReadPage ctl pageno (lsn =? InvalidXLogRecPtr) xid in
  (if TransactionIdIsValid xid then
     (if status =? TRANSACTION_STATUS_COMMITTED
      then set_all subxids TRANSACTION_STATUS_SUB_COMMITTED lsn slotno else mret tt) ;!
     TransactionIdSetStatusBit xid status lsn slotno
   else mret tt) ;!
  (set_all subxids status lsn slotno ;! mput (set_page_dirty slotno true)).

(** Nobody contends for the bank lock, so the group update is never entered and
    both ways through take the lock and do the same. *)
Definition TransactionIdSetPageStatus (xid : Z) (subxids : list Z) (status lsn pageno : Z)
    (all_xact_same_page : bool) : M SlruShared unit :=
  TransactionIdSetPageStatusInternal xid subxids status lsn pageno.

(** The subxids on page [pageno] at the head of the list, and the others. *)
Fixpoint on_page (pageno : Z) (subxids : list Z) : list Z * list Z :=
  match subxids with
  | [] => ([], [])
  | sub :: rest =>
      if TransactionIdToPage sub =? pageno
      then let '(run, others) := on_page pageno rest in (sub :: run, others)
      else ([], subxids)
  end.

(** One page update per run of subxids that share a page. *)
Fixpoint by_pages (fuel : nat) (subxids : list Z) (status lsn : Z) : M SlruShared unit :=
  match fuel, subxids with
  | _, [] => mret tt
  | O, _ => mlift Panic
  | S fuel, sub :: _ =>
      let pageno := TransactionIdToPage sub in
      let '(run, others) := on_page pageno subxids in
      TransactionIdSetPageStatus InvalidTransactionId run status lsn pageno false ;!
      by_pages fuel others status lsn
  end.

(** Every run is non-empty: the length of the list is enough fuel. *)
Definition set_status_by_pages (subxids : list Z) (status lsn : Z) : M SlruShared unit :=
  match subxids with
  | [] => mlift Panic
  | _ => by_pages (length subxids) subxids status lsn
  end.

Definition TransactionIdSetTreeStatus (xid : Z) (subxids : list Z) (status lsn : Z)
  : M SlruShared unit :=
  let pageno := TransactionIdToPage xid in
  let '(first, others) := on_page pageno subxids in
  match others with
  | [] => TransactionIdSetPageStatus xid subxids status lsn pageno true
  | _ =>
      (if status =? TRANSACTION_STATUS_COMMITTED
       then set_status_by_pages others TRANSACTION_STATUS_SUB_COMMITTED lsn else mret tt) ;!
      (TransactionIdSetPageStatus xid first status lsn pageno false ;!
       set_status_by_pages others status lsn)
  end.

Definition TransactionIdGetStatus (xid : Z) : M SlruShared (Z * Z) :=
  let! slotno := SimpleLruReadPage_ReadOnly ctl (TransactionIdToPage xid) xid in
  let! s := mget in
  mret (status_bits (pages s slotno) xid, group_lsn s (GetLSNIndex slotno xid)).

(** *** Housekeeping *)

(** [xloginsert_seams::xlog_insert] for the zero-page record. *)
Variable xlog_zero_page : Z -> result unit.

Definition ZeroCLOGPage (pageno : Z) (writeXlog : bool) : M SlruShared Z :=
  let! slotno := SimpleLruZeroPage ctl pageno in
  (if writeXlog then mlift (xlog_zero_page pageno) else mret tt) ;! mret slotno.

Definition BootStrapCLOG : M SlruShared unit :=
  let! slotno := ZeroCLOGPage 0 false in
  SimpleLruWritePage ctl slotno.

Definition StartupCLOG (nextXid : Z) : M SlruShared unit :=
  mput (set_latest_page_number (TransactionIdToPage nextXid)).

(** [buffer[byteno] &= ..; buffer[byteno + 1..BLCKSZ].fill(0)] *)
Definition trim_page (byteno bshift : Z) (page : arr Z) : arr Z :=
  fun i => if (byteno <? i) && (i <? BLCKSZ) then 0
           else if i =? byteno then Z.land (page byteno) ((Z.shiftl 1 bshift - 1) mod 2 ^ 8)
           else page i.

Definition TrimCLOG (nextXid : Z) : M SlruShared unit :=
  let pageno := TransactionIdToPage nextXid in
  if negb (TransactionIdToPgIndex nextXid =? 0) then
    let byteno := TransactionIdToByte nextXid in
    let bshift := TransactionIdToBIndex nextXid * CLOG_BITS_PER_XACT in
    let! slotno := SimpleLruReadPage ctl pageno false nextXid in
    let! s := mget in
    mput (with_pages (set_at slotno (trim_page byteno bshift (pages s slotno)))) ;!
    mput (set_page_dirty slotno true)
  else mret tt.

Definition CheckPointCLOG : M SlruShared unit := SimpleLruWriteAll ctl.

Definition ExtendCLOG (newestXact : Z) : M SlruShared unit :=
  if negb (TransactionIdToPgIndex newestXact =? 0)
     && negb (TransactionIdEquals newestXact FirstNormalTransactionId)
  then mret tt
  else ZeroCLOGPage (TransactionIdToPage newestXact) true ;! mret tt.

(** [varsup_seams::advance_oldest_clog_xid] and [WriteTruncateXlogRec] *)
Variable advance_oldest_clog_xid : Z -> result unit.
Variable WriteTruncateXlogRec : Z -> Z -> result unit.

Definition TruncateCLOG (oldestXact : Z) : M SlruShared unit :=
  let cutoffPage := TransactionIdToPage oldestXact in
  let! s := mget in
  if negb (existsb (fun segno => SlruMayDeleteSegment ctl (segno * SLRU_PAGES_PER_SEGMENT) cutoffPage)
             (map fst (map_to_list (seg_pages s))))
  then mret tt
  else
    mlift (advance_oldest_clog_xid oldestXact) ;!
    (mlift (WriteTruncateXlogRec cutoffPage oldestXact) ;! SimpleLruTruncate ctl cutoffPage).
End Clog.
