(* ===== verification/ClogSpec.v ===== *)
(** * The commit log as a map from transactions to statuses

    The bit updates of [Clog.v] are writes to an abstract map; a tree update is a
    sequence of such writes whose every prefix is consistent. *)

From S2P Require Import Prelude Xid ItemPtr Snapshot Slru SlruSpec Clog.

(** ** Two bits in a byte *)

Definition is_status (st : Z) : Prop := 0 <= st < 4.

Lemma status_testbit st k : is_status st -> 2 <= k -> Z.testbit st k = false.
Proof. intros H Hk. apply (testbit_small st 2); unfold is_status in *; lia. Qed.

(** Reading field [b'] of a byte in which field [b] was set to [st]. *)
Lemma field_set v st b b' :
  is_status st -> 0 <= b < 4 -> 0 <= b' < 4 ->
  Z.land (Z.shiftr (Z.lor (Z.ldiff v (Z.shiftl 3 (b * 2))) (Z.shiftl st (b * 2)) mod 2 ^ 8) (b' * 2)) 3
  = if b' =? b then st else Z.land (Z.shiftr v (b' * 2)) 3.
Proof.
  intros Hst Hb Hb'. apply Z.bits_inj'. intros n Hn.
  assert (H3 : forall k, 2 <= k -> Z.testbit 3 k = false) by (intros k Hk; apply (testbit_small 3 2); lia).
  destruct (Z.lt_ge_cases n 2) as [Hlt|Hge].
  2:{ rewrite Z.land_spec, H3, andb_false_r by done. destruct (b' =? b).
      - by rewrite status_testbit.
      - by rewrite Z.land_spec, H3, andb_false_r. }
  rewrite Z.land_spec, Z.shiftr_spec, Z.mod_pow2_bits_low, Z.lor_spec, Z.ldiff_spec, !Z.shiftl_spec by lia.
  destruct (Z.eqb_spec b' b) as [->|Hne].
  - replace (n + b * 2 - b * 2) with n by lia. assert (Z.testbit 3 n = true) as ->.
    { assert (n = 0 \/ n = 1) as [-> | ->] by lia; done. }
    by rewrite andb_false_r, andb_true_r.
  - rewrite Z.land_spec, Z.shiftr_spec by lia.
    assert (Z.testbit 3 (n + b' * 2 - b * 2) = false /\ Z.testbit st (n + b' * 2 - b * 2) = false) as [-> ->].
    { destruct (Z.lt_ge_cases b' b).
      - rewrite !Z.testbit_neg_r by lia. done.
      - rewrite H3, status_testbit by (done || lia). done. }
    by rewrite andb_true_r, orb_false_r.
Qed.

Lemma pgindex_split xid :
  TransactionIdToPgIndex xid = TransactionIdToByte xid * 4 + TransactionIdToBIndex xid.
Proof.
  unfold TransactionIdToByte, TransactionIdToBIndex, TransactionIdToPgIndex.
  change CLOG_XACTS_PER_PAGE with 32768. change CLOG_XACTS_PER_BYTE with 4. zdiv.
Qed.

(** The bits of one transaction of a page do not disturb the others'. *)
Lemma status_write xid xid' st pg :
  is_status st ->
  status_bits (write_bits xid st pg) xid' =
  if TransactionIdToPgIndex xid' =? TransactionIdToPgIndex xid then st else status_bits pg xid'.
Proof.
  intros Hst. unfold status_bits, write_bits, set_at.
  change CLOG_XACT_BITMASK with 3. change CLOG_BITS_PER_XACT with 2. change (Z.shiftl 1 2 - 1) with 3.
  assert (Hb : forall x, 0 <= TransactionIdToBIndex x < 4) by (intros x; apply Z.mod_pos_bound; lia).
  pose proof (Hb xid) as B1. pose proof (Hb xid') as B2. rewrite !pgindex_split.
  destruct (Z.eqb_spec (TransactionIdToByte xid') (TransactionIdToByte xid)) as [->|Hne].
  - rewrite field_set by done.
    destruct (Z.eqb_spec (TransactionIdToBIndex xid') (TransactionIdToBIndex xid)), (Z.eqb_spec
      (TransactionIdToByte xid * 4 + TransactionIdToBIndex xid') (TransactionIdToByte xid * 4 + TransactionIdToBIndex xid));
      try done; lia.
  - destruct (Z.eqb_spec (TransactionIdToByte xid' * 4 + TransactionIdToBIndex xid')
      (TransactionIdToByte xid * 4 + TransactionIdToBIndex xid)); [lia | done].
Qed.

Lemma same_xid xid xid' :
  0 <= xid -> 0 <= xid' -> TransactionIdToPage xid' = TransactionIdToPage xid ->
  TransactionIdToPgIndex xid' = TransactionIdToPgIndex xid <-> xid' = xid.
Proof.
  unfold TransactionIdToPage, TransactionIdToPgIndex. change CLOG_XACTS_PER_PAGE with 32768.
  intros H1 H2. rewrite !Z.quot_div_nonneg by lia. zdiv.
Qed.

Lemma page_nonneg xid : 0 <= xid -> 0 <= TransactionIdToPage xid.
Proof. intros. unfold TransactionIdToPage. apply Z.quot_pos; [done | by compute]. Qed.

(** ** The order of pages *)

Lemma clog_page_xid q :
  wrap32 (wrap32 (wrap32 q * 32768) + (FirstNormalTransactionId + 1)) = q mod 131072 * 32768 + 4.
Proof.
  change (FirstNormalTransactionId + 1) with 4.
  assert (E : wrap32 (wrap32 q * 32768) = q mod 131072 * 32768).
  { unfold wrap32. rewrite Z.mul_mod_idemp_l by lia. change (2 ^ 32) with (131072 * 32768).
    rewrite Z.mul_mod_distr_r by lia. done. }
  rewrite E. unfold wrap32. apply Z.mod_small.
  pose proof (Z.mod_pos_bound q 131072 ltac:(lia)). lia.
Qed.

(** Page order is the order of the positions on a circle of 2^17 pages, strictly
    within half of it. *)
Lemma clog_precedes_spec p c :
  CLOGPagePrecedes p c = true <->
  let d := p mod 131072 - c mod 131072 in - 65536 < d < 0 \/ 65536 < d.
Proof.
  unfold CLOGPagePrecedes. change CLOG_XACTS_PER_PAGE with 32768. rewrite !clog_page_xid. cbn zeta.
  pose proof (Z.mod_pos_bound p 131072 ltac:(lia)) as Rp. pose proof (Z.mod_pos_bound c 131072 ltac:(lia)) as Rc.
  set (rp := p mod 131072) in *. set (rc := c mod 131072) in *. clearbody rp rc.
  assert (A1 : TransactionIdIsNormal (rp * 32768 + 4) = true) by (apply normal_true; lia).
  assert (A2 : TransactionIdIsNormal (rc * 32768 + 4) = true) by (apply normal_true; lia).
  destruct (wrap32_spec (rc * 32768 + 4 + (32768 - 1))) as [k Ek].
  pose proof (wrap32_u32 (rc * 32768 + 4 + (32768 - 1))) as Uk. unfold is_u32 in Uk.
  set (x2 := wrap32 _) in *. clearbody x2.
  assert (A3 : TransactionIdIsNormal x2 = true) by (apply normal_true; lia).
  unfold TransactionIdPrecedes. rewrite A1, A2, A3. cbn [negb orb].
  destruct (xid_diff_spec (rp * 32768 + 4) (rc * 32768 + 4)) as [k1 E1].
  destruct (xid_diff_spec (rp * 32768 + 4) x2) as [k2 E2].
  pose proof (xid_diff_range (rp * 32768 + 4) (rc * 32768 + 4)).
  pose proof (xid_diff_range (rp * 32768 + 4) x2).
  rewrite andb_true_iff, !Z.ltb_lt. split; intros HH; lia.
Qed.

Lemma clog_convex ctl p cutoff :
  PagePrecedes ctl = CLOGPagePrecedes -> 0 <= p ->
  SlruMayDeleteSegment ctl (Z.quot p SLRU_PAGES_PER_SEGMENT * SLRU_PAGES_PER_SEGMENT) cutoff = true ->
  PagePrecedes ctl p cutoff = true.
Proof.
  intros HP Hp. unfold SlruMayDeleteSegment. rewrite HP, andb_true_iff, !clog_precedes_spec.
  change SLRU_PAGES_PER_SEGMENT with 32. rewrite Z.quot_div_nonneg by lia. cbn zeta. intros [H1 H2].
  pose proof (Z.mod_pos_bound cutoff 131072 ltac:(lia)). set (rc := cutoff mod 131072) in *. clearbody rc.
  Z.div_mod_to_equations. lia.
Qed.

(** ** Writes to the abstract map *)

Definition apply_writes (ws : list (Z * Z)) (f : Z -> Z) : Z -> Z :=
  fold_left (fun f w => set_at (fst w) (snd w) f) ws f.

Definition all_to (st : Z) (subxids : list Z) : list (Z * Z) := map (fun sub => (sub, st)) subxids.

(** The writes of one page update, in order. *)
Definition page_writes (xid : Z) (subxids : list Z) (status : Z) : list (Z * Z) :=
  (if TransactionIdIsValid xid then
     (if status =? TRANSACTION_STATUS_COMMITTED then all_to TRANSACTION_STATUS_SUB_COMMITTED subxids else [])
     ++ [(xid, status)]
   else []) ++ all_to status subxids.

(** The writes of a tree update, in order. *)
Definition tree_writes (xid : Z) (subxids : list Z) (status : Z) : list (Z * Z) :=
  let '(first, others) := on_page (TransactionIdToPage xid) subxids in
  match others with
  | [] => page_writes xid subxids status
  | _ =>
      (if status =? TRANSACTION_STATUS_COMMITTED then all_to TRANSACTION_STATUS_SUB_COMMITTED others else [])
      ++ page_writes xid first status ++ all_to status others
  end.

Lemma apply_writes_app ws ws' f : apply_writes (ws ++ ws') f = apply_writes ws' (apply_writes ws f).
Proof. apply fold_left_app. Qed.

(** ** The operations as writes *)

Section ClogSpec.
Context (ctl : SlruCtl) `{!SlruRunning ctl}.

Abbreviation cache_ok := (cache_ok ctl).
Abbreviation keeps := (keeps ctl).
Abbreviation updates := (updates ctl).

(** Bit updates on a page in memory. *)
Definition apply_bits (ws : list (Z * Z)) (pg : arr Z) : arr Z :=
  fold_left (fun pg w => write_bits (fst w) (snd w) pg) ws pg.

Lemma apply_bits_app ws ws' pg : apply_bits (ws ++ ws') pg = apply_bits ws' (apply_bits ws pg).
Proof. apply fold_left_app. Qed.

Lemma set_bit_wp xid st lsn i s :
  wp (TransactionIdSetStatusBit ctl xid st lsn i)
    (fun _ => rewritten i (write_bits xid st (pages s i)) s) (fun _ => False) s.
Proof.
  unfold TransactionIdSetStatusBit. wp_step. wp_step. rewrite NotInRecovery. cbn [andb]. wp_step. wp_step.
  set (s1 := with_pages _ s).
  assert (H1 : rewritten i (write_bits xid st (pages s i)) s s1).
  { unfold rewritten. cbn. rewrite set_at_eq. repeat split; try done. intros j Hj. by apply set_at_ne. }
  destruct (negb _); [|by wp_step]. wp_step. wp_step. by destruct (group_lsn s1 _ <? lsn); wp_step.
Qed.

Lemma set_all_wp subxids st lsn i : forall s,
  wp (set_all ctl subxids st lsn i)
    (fun _ => rewritten i (apply_bits (all_to st subxids) (pages s i)) s) (fun _ => False) s.
Proof.
  induction subxids as [|sub subxids IH]; intros s; cbn [set_all].
  - wp_step. by repeat split.
  - wp_step. eapply wp_impl; [apply set_bit_wp | | done]. intros [] s1 H1.
    eapply wp_impl; [apply IH | | done]. intros [] s2 H2. rewrite (rewritten_page _ _ _ _ H1) in H2.
    by eapply rewritten_trans.
Qed.

(** The bit updates of one page update. *)
Lemma page_bits_wp xid subxids st lsn i s (Q : unit -> SlruShared -> Prop) (E : SlruShared -> Prop) :
  (forall s1, rewritten i (apply_bits (page_writes xid subxids st) (pages s i)) s s1 ->
    Q tt (set_page_dirty i true s1)) ->
  wp ((if TransactionIdIsValid xid then
         (if st =? TRANSACTION_STATUS_COMMITTED
          then set_all ctl subxids TRANSACTION_STATUS_SUB_COMMITTED lsn i else mret tt) ;!
         TransactionIdSetStatusBit ctl xid st lsn i
       else mret tt) ;!
      (set_all ctl subxids st lsn i ;! mput (set_page_dirty i true))) Q E s.
Proof.
  intros HQ. wp_step.
  assert (Htail : forall ws s1, rewritten i (apply_bits ws (pages s i)) s s1 ->
    page_writes xid subxids st = ws ++ all_to st subxids ->
    wp (set_all ctl subxids st lsn i ;! mput (set_page_dirty i true)) Q E s1).
  { intros ws s1 H1 Hws. wp_step. eapply wp_impl; [apply set_all_wp | | done].
    intros [] s2 H2. wp_step. apply HQ. rewrite Hws, apply_bits_app.
    rewrite (rewritten_page _ _ _ _ H1) in H2. by eapply rewritten_trans. }
  unfold page_writes in Htail. destruct (TransactionIdIsValid xid).
  2:{ wp_step. apply (Htail []); [by repeat split | done]. }
  wp_step. assert (Hmid : forall ws s1, rewritten i (apply_bits ws (pages s i)) s s1 ->
    (if st =? TRANSACTION_STATUS_COMMITTED then all_to TRANSACTION_STATUS_SUB_COMMITTED subxids else []) = ws ->
    wp (TransactionIdSetStatusBit ctl xid st lsn i)
      (fun _ => wp (set_all ctl subxids st lsn i ;! mput (set_page_dirty i true)) Q E) E s1).
  { intros ws s1 H1 Hws. eapply wp_impl; [apply set_bit_wp | | done]. intros [] s2 H2.
    apply (Htail (ws ++ [(xid, st)])); [|by rewrite Hws].
    rewrite apply_bits_app. rewrite (rewritten_page _ _ _ _ H1) in H2. by eapply rewritten_trans. }
  destruct (st =? TRANSACTION_STATUS_COMMITTED).
  - eapply wp_impl; [apply set_all_wp | | done]. intros [] s1 H1. by eapply Hmid.
  - wp_step. apply (Hmid []); [by repeat split | done].
Qed.

(** The pages [D] exist, and [f] is what they say. *)
Definition clog_is (D : Z -> Prop) (f : Z -> Z) (s : SlruShared) : Prop :=
  cache_ok s /\
  forall xid, 0 <= xid -> D (TransactionIdToPage xid) ->
    exists pg, content s (TransactionIdToPage xid) pg /\ status_bits pg xid = f xid.

Lemma clog_is_keeps D f s s' : clog_is D f s -> keeps s s' -> clog_is D f s'.
Proof.
  intros [_ H] (C & K & _). split; [done|]. intros xid Hx Hd. destruct (H xid Hx Hd) as (pg & Hc & Hb). eauto.
Qed.

Definition on_one_page (p : Z) (ws : list (Z * Z)) : Prop :=
  Forall (fun w => 0 <= fst w /\ TransactionIdToPage (fst w) = p /\ is_status (snd w)) ws.

(** On its page, the bit updates are writes to the map. *)
Lemma apply_bits_status p ws : forall pg f,
  on_one_page p ws ->
  (forall xid, 0 <= xid -> TransactionIdToPage xid = p -> status_bits pg xid = f xid) ->
  forall xid, 0 <= xid -> TransactionIdToPage xid = p ->
    status_bits (apply_bits ws pg) xid = apply_writes ws f xid.
Proof.
  induction ws as [|[x st] ws IH]; intros pg f Hws Hf xid Hx Hp; [by apply Hf|].
  apply Forall_cons_1 in Hws as [(Hx0 & Hp0 & Hst) Hws]. cbn. apply IH; [done | | done | done].
  intros y Hy Hpy. cbn in *. rewrite status_write by done. unfold set_at.
  destruct (Z.eqb_spec (TransactionIdToPgIndex y) (TransactionIdToPgIndex x)) as [He|He].
  - assert (y = x) as -> by (apply same_xid; [done | done | congruence | done]). by rewrite Z.eqb_refl.
  - destruct (Z.eqb_spec y x) as [->|]; [done | by apply Hf].
Qed.

Lemma apply_writes_other p ws : forall f xid,
  on_one_page p ws -> TransactionIdToPage xid <> p -> apply_writes ws f xid = f xid.
Proof.
  induction ws as [|[x st] ws IH]; intros f xid Hws Hp; [done|].
  apply Forall_cons_1 in Hws as [(_ & Hp0 & _) Hws]. cbn. rewrite IH by done. apply set_at_ne. cbn in *. congruence.
Qed.

Lemma clog_is_updates D f p ws pg s s' :
  clog_is D f s -> on_one_page p ws -> content s p pg -> updates p (apply_bits ws pg) s s' ->
  clog_is D (apply_writes ws f) s'.
Proof.
  intros [C H] Hws Hc (C' & U & V & _). split; [done|]. intros xid Hx Hd.
  destruct (decide (TransactionIdToPage xid = p)) as [Hp|Hp].
  - rewrite Hp in *. exists (apply_bits ws pg). split; [done|]. apply (apply_bits_status p); try done.
    intros y Hy Hpy. destruct (H y Hy) as (pg' & Hc' & Hb); [by rewrite Hpy|].
    rewrite Hpy in Hc'. by rewrite (content_fun ctl s p pg pg' C Hc Hc').
  - destruct (H xid Hx Hd) as (pg' & Hc' & Hb). exists pg'. split; [by apply U|].
    by rewrite (apply_writes_other p).
Qed.

(** One page update is its list of writes, all of them or none. *)
Lemma page_internal_wp D f xid subxids st lsn p s :
  clog_is D f s -> 0 <= p -> D p -> on_one_page p (page_writes xid subxids st) ->
  wp (TransactionIdSetPageStatusInternal ctl xid subxids st lsn p)
    (fun _ => clog_is D (apply_writes (page_writes xid subxids st) f)) (clog_is D f) s.
Proof.
  intros H Hp Hd Hws. unfold TransactionIdSetPageStatusInternal. wp_step.
  eapply wp_impl; [apply (read_page_wp ctl); [apply H | done] | | intros s' K; by eapply clog_is_keeps].
  intros i s1 (K & _ & Hh). pose proof (clog_is_keeps D f s s1 H K) as H1.
  apply page_bits_wp. intros s2 Hr. pose proof (proj1 H1) as C1.
  eapply clog_is_updates; [done | done | left; by exists i |]. by eapply (overwrite ctl).
Qed.

Lemma page_status_wp D f xid subxids st lsn p same s :
  clog_is D f s -> 0 <= p -> D p -> on_one_page p (page_writes xid subxids st) ->
  wp (TransactionIdSetPageStatus ctl xid subxids st lsn p same)
    (fun _ => clog_is D (apply_writes (page_writes xid subxids st) f)) (clog_is D f) s.
Proof. apply page_internal_wp. Qed.

(** The log after some of the writes [ws]. *)
Definition prefix_is (D : Z -> Prop) (f : Z -> Z) (ws : list (Z * Z)) (s : SlruShared) : Prop :=
  exists ws1 ws2, ws = ws1 ++ ws2 /\ clog_is D (apply_writes ws1 f) s.

Lemma prefix_nil D f ws s : clog_is D f s -> prefix_is D f ws s.
Proof. intros H. by exists [], ws. Qed.

Lemma prefix_app D f ws ws' s : prefix_is D (apply_writes ws f) ws' s -> prefix_is D f (ws ++ ws') s.
Proof.
  intros (ws1 & ws2 & -> & H). exists (ws ++ ws1), ws2. rewrite app_assoc. split; [done|].
  by rewrite apply_writes_app.
Qed.

Lemma prefix_more D f ws ws' s : prefix_is D f ws s -> prefix_is D f (ws ++ ws') s.
Proof. intros (ws1 & ws2 & -> & H). exists ws1, (ws2 ++ ws'). by rewrite app_assoc. Qed.

(** Sequencing two updates. *)
Lemma writes_seq {A} D f ws ws' (m : M SlruShared A) (k : M SlruShared unit) s :
  wp m (fun _ => clog_is D (apply_writes ws f)) (prefix_is D f ws) s ->
  (forall s1, clog_is D (apply_writes ws f) s1 ->
    wp k (fun _ => clog_is D (apply_writes ws' (apply_writes ws f))) (prefix_is D (apply_writes ws f) ws') s1) ->
  wp (m ;! k) (fun _ => clog_is D (apply_writes (ws ++ ws') f)) (prefix_is D f (ws ++ ws')) s.
Proof.
  intros Hm Hk. apply wp_bind. eapply wp_impl; [exact Hm | | intros s1; apply prefix_more].
  intros a s1 H1. eapply wp_impl; [by apply Hk | |].
  - intros [] s2 H2. by rewrite apply_writes_app.
  - intros s2. apply prefix_app.
Qed.

Lemma on_page_spec p subxids :
  let '(run, others) := on_page p subxids in
  subxids = run ++ others /\ Forall (fun sub => TransactionIdToPage sub = p) run.
Proof.
  induction subxids as [|sub subxids IH]; cbn; [done|].
  destruct (Z.eqb_spec (TransactionIdToPage sub) p) as [Hp|Hp]; [|done].
  destruct (on_page p subxids) as [run others]. destruct IH as [-> H]. by split; [|apply Forall_cons].
Qed.

Definition subs_ok (D : Z -> Prop) (subxids : list Z) : Prop :=
  Forall (fun sub => 0 <= sub /\ D (TransactionIdToPage sub)) subxids.

Lemma all_to_one_page p st subs :
  is_status st -> Forall (fun sub => 0 <= sub /\ TransactionIdToPage sub = p) subs -> on_one_page p (all_to st subs).
Proof.
  intros Hst H. unfold on_one_page, all_to. apply Forall_fmap. eapply Forall_impl; [|exact H].
  cbn. intros x [? ?]. done.
Qed.

Lemma run_on_page D p subs :
  subs_ok D subs -> Forall (fun sub => TransactionIdToPage sub = p) subs ->
  Forall (fun sub => 0 <= sub /\ TransactionIdToPage sub = p) subs.
Proof. unfold subs_ok. rewrite !Forall_forall. intros H1 H2 x Hx. split; [by apply H1 | by apply H2]. Qed.

Lemma by_pages_wp D st lsn : forall fuel subs f s,
  is_status st -> (length subs <= fuel)%nat -> subs_ok D subs -> clog_is D f s ->
  wp (by_pages ctl fuel subs st lsn) (fun _ => clog_is D (apply_writes (all_to st subs) f))
    (prefix_is D f (all_to st subs)) s.
Proof.
  induction fuel as [|fuel IH]; intros subs f s Hst Hl Hs H.
  { destruct subs; [exact H | cbn in Hl; lia]. }
  destruct subs as [|sub rest]; [exact H|]. cbn [by_pages].
  pose proof (on_page_spec (TransactionIdToPage sub) (sub :: rest)) as Hp.
  destruct (on_page (TransactionIdToPage sub) (sub :: rest)) as [run others] eqn:Er. destruct Hp as [Hsplit Hrun].
  assert (Hne : run <> []).
  { intros ->. cbn in Er. rewrite Z.eqb_refl in Er. by destruct (on_page _ rest). }
  rewrite Hsplit. unfold all_to. rewrite map_app. fold (all_to st run) (all_to st others).
  assert (subs_ok D run /\ subs_ok D others) as [Hs1 Hs2] by (apply Forall_app; by rewrite <- Hsplit).
  assert (Hsub : 0 <= sub /\ D (TransactionIdToPage sub)) by (by apply Forall_cons_1 in Hs as [? _]).
  apply writes_seq.
  - eapply wp_impl; [apply (page_status_wp D f) | |].
    + done.
    + apply page_nonneg. tauto.
    + tauto.
    + apply all_to_one_page; [done | by eapply run_on_page].
    + done.
    + intros s1. apply prefix_nil.
  - intros s1 H1. apply IH; [done | | done | done].
    apply (f_equal length) in Hsplit. rewrite length_app in Hsplit. cbn in *. destruct run; [done | cbn in *; lia].
Qed.

Lemma set_by_pages_wp D st lsn subs f s :
  subs <> [] -> is_status st -> subs_ok D subs -> clog_is D f s ->
  wp (set_status_by_pages ctl subs st lsn) (fun _ => clog_is D (apply_writes (all_to st subs) f))
    (prefix_is D f (all_to st subs)) s.
Proof.
  intros Hn Hst Hs H. unfold set_status_by_pages. destruct subs as [|sub rest]; [done|].
  by apply by_pages_wp.
Qed.

Lemma page_writes_one_page p xid subs st :
  is_status st -> 0 <= xid -> TransactionIdToPage xid = p ->
  Forall (fun sub => 0 <= sub /\ TransactionIdToPage sub = p) subs ->
  on_one_page p (page_writes xid subs st).
Proof.
  intros Hst Hx Hp Hs. unfold page_writes. apply Forall_app. split; [|by apply all_to_one_page].
  destruct (TransactionIdIsValid xid); [|by apply Forall_nil]. apply Forall_app. split.
  - destruct (st =? _); [|by apply Forall_nil]. by apply all_to_one_page.
  - apply Forall_singleton. done.
Qed.

(** The tree update is [tree_writes], in that order, all of them on success and
    a prefix of them on failure. *)
Lemma tree_status_wp D f xid subs st lsn s :
  is_status st -> 0 <= xid -> D (TransactionIdToPage xid) -> subs_ok D subs -> clog_is D f s ->
  wp (TransactionIdSetTreeStatus ctl xid subs st lsn)
    (fun _ => clog_is D (apply_writes (tree_writes xid subs st) f)) (prefix_is D f (tree_writes xid subs st)) s.
Proof.
  intros Hst Hx Hd Hs H. unfold TransactionIdSetTreeStatus, tree_writes.
  pose proof (on_page_spec (TransactionIdToPage xid) subs) as Hp.
  destruct (on_page (TransactionIdToPage xid) subs) as [first others]. destruct Hp as [Hsplit Hfirst].
  assert (subs_ok D first /\ subs_ok D others) as [Hs1 Hs2] by (apply Forall_app; by rewrite <- Hsplit).
  pose proof (page_nonneg xid Hx) as Hpn.
  assert (Hpage : forall f s, clog_is D f s -> forall same,
    wp (TransactionIdSetPageStatus ctl xid first st lsn (TransactionIdToPage xid) same)
      (fun _ => clog_is D (apply_writes (page_writes xid first st) f)) (prefix_is D f (page_writes xid first st)) s).
  { intros f' s' H' same. eapply wp_impl; [apply (page_status_wp D f'); try done | | intros s1; apply prefix_nil].
    - apply page_writes_one_page; try done. by eapply run_on_page.
    - done. }
  destruct others as [|o others].
  { rewrite app_nil_r in Hsplit. subst first. by apply Hpage. }
  assert (Hrest : forall f s, clog_is D f s ->
    wp (TransactionIdSetPageStatus ctl xid first st lsn (TransactionIdToPage xid) false ;!
        set_status_by_pages ctl (o :: others) st lsn)
      (fun _ => clog_is D (apply_writes (page_writes xid first st ++ all_to st (o :: others)) f))
      (prefix_is D f (page_writes xid first st ++ all_to st (o :: others))) s).
  { intros f' s' H'. apply writes_seq; [by apply Hpage|]. intros s1 H1. by apply set_by_pages_wp. }
  destruct (st =? TRANSACTION_STATUS_COMMITTED).
  - apply writes_seq; [by apply set_by_pages_wp|]. intros s1 H1. by apply Hrest.
  - wp_step. wp_step. by apply Hrest.
Qed.

(** Reading a status. *)
Lemma get_status_wp D f xid s :
  0 <= xid -> D (TransactionIdToPage xid) -> clog_is D f s ->
  wp (TransactionIdGetStatus ctl xid) (fun r s' => fst r = f xid /\ clog_is D f s') (clog_is D f) s.
Proof.
  intros Hx Hd H. unfold TransactionIdGetStatus. wp_step.
  eapply wp_impl; [apply (read_only_wp ctl); [apply H | by apply page_nonneg] | | intros s' K; by eapply clog_is_keeps].
  intros i s1 (K & _ & Hh). pose proof (clog_is_keeps D f s s1 H K) as H1. repeat wp_step. split; [|done].
  destruct (proj2 H1 xid Hx Hd) as (pg & Hc & Hb). cbn.
  by rewrite (holds_content ctl s1 _ i pg (proj1 H1) Hh Hc).
Qed.
End ClogSpec.
