(* ===== verification/Subtrans.v ===== *)
(** * Parents of subtransactions: [access/transam/subtrans/src/lib.rs]

    One 32-bit parent id per transaction, in the pages of an SLRU; walking the
    parents of a subtransaction leads to its top-level transaction. *)

From S2P Require Import Prelude Xid ItemPtr Snapshot Slru SlruSpec.

Module Subtrans.

Definition SUBTRANS_XACTS_PER_PAGE : Z := BLCKSZ / 4.

Definition TransactionIdToPage (xid : Z) : Z := Z.quot xid SUBTRANS_XACTS_PER_PAGE.
Definition TransactionIdToEntry (xid : Z) : Z := xid mod SUBTRANS_XACTS_PER_PAGE.

Definition SubTransPagePrecedes (page1 page2 : Z) : bool :=
  let xid1 := wrap32 (wrap32 (wrap32 page1 * SUBTRANS_XACTS_PER_PAGE) + (FirstNormalTransactionId + 1)) in
  let xid2 := wrap32 (wrap32 (wrap32 page2 * SUBTRANS_XACTS_PER_PAGE) + (FirstNormalTransactionId + 1)) in
  TransactionIdPrecedes xid1 xid2
  && TransactionIdPrecedes xid1 (wrap32 (xid2 + (SUBTRANS_XACTS_PER_PAGE - 1))).

(** [TransactionIdRetreat]: one step back, and on past the special ids. *)
Fixpoint retreat (fuel : nat) (xid : Z) : Z :=
  match fuel with
  | O => xid
  | S fuel => if xid <? FirstNormalTransactionId then retreat fuel (wrap32 (xid - 1)) else xid
  end.

(** Three ids precede the first normal one: three steps are enough. *)
Definition TransactionIdRetreat (xid : Z) : Z := retreat 3 (wrap32 (xid - 1)).

(** [u32::from_ne_bytes] and [to_ne_bytes] on the entry's four bytes, on a
    little-endian machine. *)
Definition get_entry (page : arr Z) (entryno : Z) : Z :=
  let off := entryno * 4 in
  page off + page (off + 1) * 2 ^ 8 + page (off + 2) * 2 ^ 16 + page (off + 3) * 2 ^ 24.

Definition put_entry (entryno v : Z) (page : arr Z) : arr Z :=
  let off := entryno * 4 in
  set_at (off + 3) (v / 2 ^ 24 mod 2 ^ 8)
    (set_at (off + 2) (v / 2 ^ 16 mod 2 ^ 8)
      (set_at (off + 1) (v / 2 ^ 8 mod 2 ^ 8) (set_at off (v mod 2 ^ 8) page))).

Section Subtrans.
Variable ctl : SlruCtl.
(** [procarray::TransactionXmin()] *)
Variable TransactionXmin : Z.

Definition SubTransSetParent (xid parent : Z) : M SlruShared unit :=
  let pageno := TransactionIdToPage xid in
  let entryno := TransactionIdToEntry xid in
  let! slotno := SimpleLruReadPage ctl pageno true xid in
  let! s := mget in
  let cur := get_entry (pages s slotno) entryno in
  if negb (cur =? parent) then
    mput (with_pages (set_at slotno (put_entry entryno parent (pages s slotno)))) ;!
    mput (set_page_dirty slotno true)
  else mret tt.

Definition SubTransGetParent (xid : Z) : M SlruShared Z :=
  if negb (TransactionIdIsNormal xid) then mret InvalidTransactionId
  else
    let! slotno := SimpleLruReadPage_ReadOnly ctl (TransactionIdToPage xid) xid in
    let! s := mget in
    mret (get_entry (pages s slotno) (TransactionIdToEntry xid)).

Fixpoint topmost_loop (fuel : nat) (parentXid previousXid : Z) : M SlruShared Z :=
  match fuel with
  | O => mlift Panic
  | S fuel =>
      if TransactionIdIsValid parentXid then
        let previousXid := parentXid in
        if TransactionIdPrecedes parentXid TransactionXmin then mret previousXid
        else
          let! parentXid := SubTransGetParent parentXid in
          if negb (TransactionIdPrecedes parentXid previousXid)
          then mlift (Err (PgErr "pg_subtrans contains invalid entry"))
          else topmost_loop fuel parentXid previousXid
      else mret previousXid
  end.

(** Parents move backwards, and the walk stops at [TransactionXmin]: its length
    is bounded by the distance to it. *)
Definition walk_fuel (xid : Z) : nat := S (S (Z.to_nat (xid_diff xid TransactionXmin))).

Definition SubTransGetTopmostTransaction (xid : Z) : M SlruShared Z :=
  topmost_loop (walk_fuel xid) xid xid.

Definition ZeroSUBTRANSPage (pageno : Z) : M SlruShared Z := SimpleLruZeroPage ctl pageno.

Definition BootStrapSUBTRANS : M SlruShared unit :=
  let! slotno := ZeroSUBTRANSPage 0 in
  SimpleLruWritePage ctl slotno.

Fixpoint startup_loop (fuel : nat) (startPage endPage : Z) : M SlruShared unit :=
  match fuel with
  | O => mlift Panic
  | S fuel =>
      ZeroSUBTRANSPage startPage ;!
      (if startPage =? endPage then mret tt
       else
         let startPage := startPage + 1 in
         startup_loop fuel (if startPage >? TransactionIdToPage MaxTransactionId then 0 else startPage) endPage)
  end.

(** The circular distance in pages, plus one. *)
Definition startup_pages (startPage endPage : Z) : nat :=
  S (Z.to_nat ((endPage - startPage) mod (TransactionIdToPage MaxTransactionId + 1))).

Definition StartupSUBTRANS (oldestActiveXID nextXid : Z) : M SlruShared unit :=
  let startPage := TransactionIdToPage oldestActiveXID in
  let endPage := TransactionIdToPage nextXid in
  startup_loop (startup_pages startPage endPage) startPage endPage.

Definition CheckPointSUBTRANS : M SlruShared unit := SimpleLruWriteAll ctl.

Definition ExtendSUBTRANS (newestXact : Z) : M SlruShared unit :=
  if negb (TransactionIdToEntry newestXact =? 0)
     && negb (TransactionIdEquals newestXact FirstNormalTransactionId)
  then mret tt
  else ZeroSUBTRANSPage (TransactionIdToPage newestXact) ;! mret tt.

Definition TruncateSUBTRANS (oldestXact : Z) : M SlruShared unit :=
  SimpleLruTruncate ctl (TransactionIdToPage (TransactionIdRetreat oldestXact)).
End Subtrans.

(** ** Entries *)

Lemma put_get_same e v page : is_u32 v -> get_entry (put_entry e v page) e = v.
Proof.
  unfold is_u32, get_entry, put_entry, set_at. intros Hv.
  repeat match goal with |- context [?a =? ?b] => destruct (Z.eqb_spec a b); try lia end. zdiv.
Qed.

Lemma put_get_other e e' v page : e' <> e -> get_entry (put_entry e v page) e' = get_entry page e'.
Proof.
  unfold get_entry, put_entry, set_at. intros Hne.
  repeat match goal with |- context [?a =? ?b] => destruct (Z.eqb_spec a b); try lia end.
Qed.

Lemma same_entry xid xid' :
  0 <= xid -> 0 <= xid' -> TransactionIdToPage xid' = TransactionIdToPage xid ->
  TransactionIdToEntry xid' = TransactionIdToEntry xid <-> xid' = xid.
Proof.
  unfold TransactionIdToPage, TransactionIdToEntry. change SUBTRANS_XACTS_PER_PAGE with 2048.
  intros H1 H2. rewrite !Z.quot_div_nonneg by lia. zdiv.
Qed.

Lemma parent_page_nonneg xid : 0 <= xid -> 0 <= TransactionIdToPage xid.
Proof. intros. unfold TransactionIdToPage. apply Z.quot_pos; [done | by compute]. Qed.

(** ** The order of pages *)

Lemma subtrans_page_xid q :
  wrap32 (wrap32 (wrap32 q * 2048) + (FirstNormalTransactionId + 1)) = q mod 2097152 * 2048 + 4.
Proof.
  change (FirstNormalTransactionId + 1) with 4.
  assert (E : wrap32 (wrap32 q * 2048) = q mod 2097152 * 2048).
  { unfold wrap32. rewrite Z.mul_mod_idemp_l by lia. change (2 ^ 32) with (2097152 * 2048).
    rewrite Z.mul_mod_distr_r by lia. done. }
  rewrite E. unfold wrap32. apply Z.mod_small.
  pose proof (Z.mod_pos_bound q 2097152 ltac:(lia)). lia.
Qed.

(** Page order is the order of the positions on a circle of 2^21 pages, strictly
    within half of it. *)
Lemma subtrans_precedes_spec p c :
  SubTransPagePrecedes p c = true <->
  let d := p mod 2097152 - c mod 2097152 in - 1048576 < d < 0 \/ 1048576 < d.
Proof.
  unfold SubTransPagePrecedes. change SUBTRANS_XACTS_PER_PAGE with 2048. rewrite !subtrans_page_xid. cbn zeta.
  pose proof (Z.mod_pos_bound p 2097152 ltac:(lia)) as Rp. pose proof (Z.mod_pos_bound c 2097152 ltac:(lia)) as Rc.
  set (rp := p mod 2097152) in *. set (rc := c mod 2097152) in *. clearbody rp rc.
  assert (A1 : TransactionIdIsNormal (rp * 2048 + 4) = true) by (apply normal_true; lia).
  assert (A2 : TransactionIdIsNormal (rc * 2048 + 4) = true) by (apply normal_true; lia).
  destruct (wrap32_spec (rc * 2048 + 4 + (2048 - 1))) as [k Ek].
  pose proof (wrap32_u32 (rc * 2048 + 4 + (2048 - 1))) as Uk. unfold is_u32 in Uk.
  set (x2 := wrap32 _) in *. clearbody x2.
  assert (A3 : TransactionIdIsNormal x2 = true) by (apply normal_true; lia).
  unfold TransactionIdPrecedes. rewrite A1, A2, A3. cbn [negb orb].
  destruct (xid_diff_spec (rp * 2048 + 4) (rc * 2048 + 4)) as [k1 E1].
  destruct (xid_diff_spec (rp * 2048 + 4) x2) as [k2 E2].
  pose proof (xid_diff_range (rp * 2048 + 4) (rc * 2048 + 4)).
  pose proof (xid_diff_range (rp * 2048 + 4) x2).
  rewrite andb_true_iff, !Z.ltb_lt. split; intros HH; lia.
Qed.

Lemma subtrans_convex ctl p cutoff :
  PagePrecedes ctl = SubTransPagePrecedes -> 0 <= p ->
  SlruMayDeleteSegment ctl (Z.quot p SLRU_PAGES_PER_SEGMENT * SLRU_PAGES_PER_SEGMENT) cutoff = true ->
  PagePrecedes ctl p cutoff = true.
Proof.
  intros HP Hp. unfold SlruMayDeleteSegment. rewrite HP, andb_true_iff, !subtrans_precedes_spec.
  change SLRU_PAGES_PER_SEGMENT with 32. rewrite Z.quot_div_nonneg by lia. cbn zeta. intros [H1 H2].
  pose proof (Z.mod_pos_bound cutoff 2097152 ltac:(lia)). set (rc := cutoff mod 2097152) in *. clearbody rc.
  Z.div_mod_to_equations. lia.
Qed.

(** ** The map of parents *)

Section SubtransSpec.
Context (ctl : SlruCtl) `{!SlruRunning ctl} (TransactionXmin : Z).

(** The pages [D] exist, and [par] is what they say. *)
Definition parents_are (D : Z -> Prop) (par : Z -> Z) (s : SlruShared) : Prop :=
  cache_ok ctl s /\
  forall xid, 0 <= xid -> D (TransactionIdToPage xid) ->
    exists pg, content s (TransactionIdToPage xid) pg /\ get_entry pg (TransactionIdToEntry xid) = par xid.

Lemma parents_keeps D par s s' : parents_are D par s -> keeps ctl s s' -> parents_are D par s'.
Proof.
  intros [_ H] (C & K & _). split; [done|]. intros xid Hx Hd. destruct (H xid Hx Hd) as (pg & Hc & Hb). eauto.
Qed.

Lemma get_parent_wp D par xid s :
  0 <= xid -> D (TransactionIdToPage xid) -> parents_are D par s ->
  wp (SubTransGetParent ctl xid)
    (fun p s' => p = (if TransactionIdIsNormal xid then par xid else InvalidTransactionId) /\ parents_are D par s')
    (parents_are D par) s.
Proof.
  intros Hx Hd H. unfold SubTransGetParent. destruct (TransactionIdIsNormal xid); cbn [negb]; [|by wp_step].
  wp_step. eapply wp_impl; [apply (read_only_wp ctl); [apply H | by apply parent_page_nonneg] | | intros s' K; by eapply parents_keeps].
  intros i s1 (K & _ & Hh). pose proof (parents_keeps D par s s1 H K) as H1. repeat wp_step. split; [|done].
  destruct (proj2 H1 xid Hx Hd) as (pg & Hc & Hb).
  by rewrite (holds_content ctl s1 _ i pg (proj1 H1) Hh Hc).
Qed.

Lemma set_parent_wp D par xid parent s :
  0 <= xid -> D (TransactionIdToPage xid) -> is_u32 parent -> parents_are D par s ->
  wp (SubTransSetParent ctl xid parent) (fun _ => parents_are D (set_at xid parent par)) (parents_are D par) s.
Proof.
  intros Hx Hd Hp H. unfold SubTransSetParent. wp_step.
  eapply wp_impl; [apply (read_page_wp ctl); [apply H | by apply parent_page_nonneg] | | intros s' K; by eapply parents_keeps].
  intros i s1 (K & _ & Hh). pose proof (parents_keeps D par s s1 H K) as H1. wp_step. wp_step.
  pose proof H1 as [C1 P1]. destruct (P1 xid Hx Hd) as (pg & Hc & Hb).
  pose proof (holds_content ctl s1 _ i pg C1 Hh Hc) as Epg. rewrite Epg.
  destruct (Z.eqb_spec (get_entry pg (TransactionIdToEntry xid)) parent) as [He|He]; cbn [negb].
  - wp_step. split; [done|]. intros y Hy Hdy. destruct (P1 y Hy Hdy) as (pg' & Hc' & Hb'). exists pg'.
    split; [done|]. unfold set_at. destruct (Z.eqb_spec y xid) as [->|]; [|done]. congruence.
  - repeat wp_step. set (s2 := with_pages _ s1).
    assert (U : updates ctl (TransactionIdToPage xid) (put_entry (TransactionIdToEntry xid) parent pg) s1 (set_page_dirty i true s2)).
    { apply overwrite; [done | done |]. unfold rewritten. cbn. rewrite set_at_eq. repeat split; try done.
      intros j Hj. by apply set_at_ne. }
    destruct U as (C2 & U & V & _). split; [done|]. intros y Hy Hdy.
    destruct (P1 y Hy Hdy) as (pg' & Hc' & Hb').
    destruct (decide (TransactionIdToPage y = TransactionIdToPage xid)) as [Hpg|Hpg].
    + rewrite Hpg in *. eexists. split; [done|].
      assert (pg' = pg) as -> by (by eapply (content_fun ctl s1)).
      unfold set_at. destruct (Z.eqb_spec y xid) as [->|Hne]; [by apply put_get_same|].
      rewrite put_get_other; [done|]. intros E. by apply Hne, same_entry.
    + exists pg'. split; [by apply U|]. rewrite set_at_ne; [done | congruence].
Qed.

(** *** Walking up *)

Definition parent_step (par : Z -> Z) (x y : Z) : Prop := y = par x /\ TransactionIdIsValid y = true.

(** Where the walk from [xid] may stop: at a transaction without a parent, or
    before [TransactionXmin]. *)
Definition is_topmost (par : Z -> Z) (xid top : Z) : Prop :=
  rtc (parent_step par) xid top /\ TransactionIdIsValid top = true /\
  (TransactionIdPrecedes top TransactionXmin = true \/ par top = InvalidTransactionId).

Lemma diff_step x y m :
  - 2 ^ 31 <= xid_diff y x < 0 -> 0 <= xid_diff x m -> xid_diff y m = xid_diff y x + xid_diff x m.
Proof.
  intros H1 H2. destruct (xid_diff_spec y x) as [k1 E1], (xid_diff_spec x m) as [k2 E2], (xid_diff_spec y m) as [k3 E3].
  pose proof (xid_diff_range x m). pose proof (xid_diff_range y m). lia.
Qed.

Definition steps_left (x : Z) : nat :=
  if TransactionIdIsNormal x && negb (TransactionIdPrecedes x TransactionXmin)
  then S (S (Z.to_nat (xid_diff x TransactionXmin))) else 1%nat.

Lemma steps_less x y :
  TransactionIdIsNormal TransactionXmin = true -> TransactionIdIsNormal x = true ->
  TransactionIdPrecedes x TransactionXmin = false -> TransactionIdPrecedes y x = true ->
  (steps_left y < steps_left x)%nat.
Proof.
  unfold steps_left. intros Nm Nx Px Py. rewrite Nx, Px. cbn [andb negb].
  destruct (TransactionIdIsNormal y) eqn:Ny; cbn [andb]; [|lia].
  destruct (TransactionIdPrecedes y TransactionXmin) eqn:Pm; cbn [negb]; [lia|].
  unfold TransactionIdPrecedes in *. rewrite Nx, Nm, ?Ny in *. cbn [negb orb] in *.
  pose proof (xid_diff_range y x). pose proof (diff_step x y TransactionXmin ltac:(lia) ltac:(lia)). lia.
Qed.

Lemma not_normal_precedes x :
  TransactionIdIsNormal TransactionXmin = true -> TransactionIdIsNormal x = false ->
  TransactionIdPrecedes x TransactionXmin = true.
Proof.
  intros Nm Nx. rewrite precedes_not_normal by done. apply normal_true in Nm. apply normal_false in Nx. lia.
Qed.

(** The transactions [L] in use: those from [TransactionXmin] on have an entry on
    an existing page, and their parents are in use too. *)
Definition covered (L D : Z -> Prop) (par : Z -> Z) : Prop :=
  forall x, L x -> is_u32 x /\
    (TransactionIdPrecedes x TransactionXmin = false ->
     D (TransactionIdToPage x) /\ (par x = InvalidTransactionId \/ L (par x))).

Lemma topmost_wp L D par xid : forall fuel x prev s,
  TransactionIdIsNormal TransactionXmin = true -> covered L D par ->
  (TransactionIdIsValid x = true -> L x) -> (steps_left x <= fuel)%nat -> parents_are D par s ->
  rtc (parent_step par) xid prev -> TransactionIdIsValid prev = true ->
  (x = prev \/ par prev = x) ->
  wp (topmost_loop ctl TransactionXmin fuel x prev)
    (fun top s' => is_topmost par xid top /\ parents_are D par s') (parents_are D par) s.
Proof.
  induction fuel as [|fuel IH]; intros x prev s Nm Hcov Hx Hf H Hw Hv Hxp.
  { exfalso. unfold steps_left in Hf. destruct (_ && _); lia. }
  cbn [topmost_loop]. destruct (TransactionIdIsValid x) eqn:Vx.
  2:{ wp_step. split; [|done]. split; [done|]. split; [done|]. right. destruct Hxp as [->| ->]; [congruence|].
      unfold TransactionIdIsValid in Vx. lia. }
  assert (Hwx : rtc (parent_step par) xid x).
  { destruct Hxp as [->|Hp]; [done|]. eapply rtc_r; [done|]. by split. }
  destruct (TransactionIdPrecedes x TransactionXmin) eqn:Px.
  { wp_step. split; [|done]. split; [done|]. split; [done | by left]. }
  assert (Nx : TransactionIdIsNormal x = true).
  { destruct (TransactionIdIsNormal x) eqn:Nx; [done|]. by rewrite not_normal_precedes in Px. }
  destruct (Hcov x (Hx eq_refl)) as [Ux Hc]. destruct (Hc Px) as [Hd Hu]. wp_step.
  eapply wp_impl; [apply (get_parent_wp D par x s); [unfold is_u32 in Ux; lia | done | done] | | done].
  intros y s1 [-> H1]. rewrite Nx. destruct (TransactionIdPrecedes (par x) x) eqn:Py; cbn [negb]; [|by wp_step].
  apply IH; try done; [| |by right].
  - intros Vp. destruct Hu as [E|?]; [by rewrite E in Vp | done].
  - pose proof (steps_less x (par x) Nm Nx Px Py). lia.
Qed.

Lemma get_topmost_wp L D par xid s :
  TransactionIdIsNormal TransactionXmin = true -> covered L D par -> L xid ->
  TransactionIdIsValid xid = true -> parents_are D par s ->
  wp (SubTransGetTopmostTransaction ctl TransactionXmin xid)
    (fun top s' => is_topmost par xid top /\ parents_are D par s') (parents_are D par) s.
Proof.
  intros Nm Hcov Hx Hv H. apply (topmost_wp L); try done; [|by left].
  unfold steps_left, walk_fuel. destruct (_ && _); lia.
Qed.
End SubtransSpec.
End Subtrans.
