(* ===== verification/Transam.v ===== *)
(** * Did a transaction commit?  [access/transam/transam/src/lib.rs]

    The commit log gives the answer for a transaction that ended; a
    subtransaction committed only up to its parent is resolved through it.  A
    one-item cache remembers the last final answer. *)

From S2P Require Import Prelude Xid ItemPtr Snapshot Slru SlruSpec Clog ClogSpec Subtrans.

(** The two SLRUs and the thread-local cache. *)
Record XactLog := {
  xl_clog : SlruShared;
  xl_subtrans : SlruShared;
  cachedFetchXid : Z;
  cachedFetchXidStatus : Z;
  cachedCommitLSN : Z
}.

Definition on_clog {A} (m : M SlruShared A) : M XactLog A := fun s =>
  let '(r, c) := m (xl_clog s) in
  (r, {| xl_clog := c; xl_subtrans := xl_subtrans s; cachedFetchXid := cachedFetchXid s;
         cachedFetchXidStatus := cachedFetchXidStatus s; cachedCommitLSN := cachedCommitLSN s |}).

Definition on_subtrans {A} (m : M SlruShared A) : M XactLog A := fun s =>
  let '(r, c) := m (xl_subtrans s) in
  (r, {| xl_clog := xl_clog s; xl_subtrans := c; cachedFetchXid := cachedFetchXid s;
         cachedFetchXidStatus := cachedFetchXidStatus s; cachedCommitLSN := cachedCommitLSN s |}).

Definition set_cache (xid status lsn : Z) (s : XactLog) : XactLog :=
  {| xl_clog := xl_clog s; xl_subtrans := xl_subtrans s; cachedFetchXid := xid;
     cachedFetchXidStatus := status; cachedCommitLSN := lsn |}.

Section Transam.
Context (clog subtrans : SlruCtl) (TransactionXmin : Z).

Definition TransactionLogFetch (transactionId : Z) : M XactLog Z :=
  let! s := mget in
  if TransactionIdEquals transactionId (cachedFetchXid s) then mret (cachedFetchXidStatus s)
  else if negb (TransactionIdIsNormal transactionId) then
    if TransactionIdEquals transactionId BootstrapTransactionId then mret TRANSACTION_STATUS_COMMITTED
    else if TransactionIdEquals transactionId FrozenTransactionId then mret TRANSACTION_STATUS_COMMITTED
    else mret TRANSACTION_STATUS_ABORTED
  else
    let! r := on_clog (TransactionIdGetStatus clog transactionId) in
    let xidstatus := fst r in
    let xidlsn := snd r in
    (if negb (xidstatus =? TRANSACTION_STATUS_IN_PROGRESS)
        && negb (xidstatus =? TRANSACTION_STATUS_SUB_COMMITTED)
     then mput (set_cache transactionId xidstatus xidlsn) else mret tt) ;!
    mret xidstatus.

(** A missing parent is only warned about. *)
Fixpoint did_commit (fuel : nat) (transactionId : Z) : M XactLog bool :=
  match fuel with
  | O => mlift Panic
  | S fuel =>
      let! xidstatus := TransactionLogFetch transactionId in
      if xidstatus =? TRANSACTION_STATUS_COMMITTED then mret true
      else if xidstatus =? TRANSACTION_STATUS_SUB_COMMITTED then
        if TransactionIdPrecedes transactionId TransactionXmin then mret false
        else
          let! parentXid := on_subtrans (Subtrans.SubTransGetParent subtrans transactionId) in
          if negb (TransactionIdIsValid parentXid) then mret false
          else did_commit fuel parentXid
      else mret false
  end.

Fixpoint did_abort (fuel : nat) (transactionId : Z) : M XactLog bool :=
  match fuel with
  | O => mlift Panic
  | S fuel =>
      let! xidstatus := TransactionLogFetch transactionId in
      if xidstatus =? TRANSACTION_STATUS_ABORTED then mret true
      else if xidstatus =? TRANSACTION_STATUS_SUB_COMMITTED then
        if TransactionIdPrecedes transactionId TransactionXmin then mret true
        else
          let! parentXid := on_subtrans (Subtrans.SubTransGetParent subtrans transactionId) in
          if negb (TransactionIdIsValid parentXid) then mret true
          else did_abort fuel parentXid
      else mret false
  end.

(** As long as parents precede their children, the recursion is no deeper than
    the distance to [TransactionXmin]. *)
Definition TransactionIdDidCommit (transactionId : Z) : M XactLog bool :=
  did_commit (Subtrans.walk_fuel TransactionXmin transactionId) transactionId.
Definition TransactionIdDidAbort (transactionId : Z) : M XactLog bool :=
  did_abort (Subtrans.walk_fuel TransactionXmin transactionId) transactionId.

Definition TransactionIdCommitTree (xid : Z) (xids : list Z) : M XactLog unit :=
  on_clog (TransactionIdSetTreeStatus clog xid xids TRANSACTION_STATUS_COMMITTED InvalidXLogRecPtr).
Definition TransactionIdAsyncCommitTree (xid : Z) (xids : list Z) (lsn : Z) : M XactLog unit :=
  on_clog (TransactionIdSetTreeStatus clog xid xids TRANSACTION_STATUS_COMMITTED lsn).
Definition TransactionIdAbortTree (xid : Z) (xids : list Z) : M XactLog unit :=
  on_clog (TransactionIdSetTreeStatus clog xid xids TRANSACTION_STATUS_ABORTED InvalidXLogRecPtr).

Definition TransactionIdLatest (mainxid : Z) (xids : list Z) : Z :=
  fold_left (fun result xid => if TransactionIdPrecedes result xid then xid else result) (rev xids) mainxid.

Definition TransactionIdGetCommitLSN (xid : Z) : M XactLog Z :=
  let! s := mget in
  if TransactionIdEquals xid (cachedFetchXid s) then mret (cachedCommitLSN s)
  else if negb (TransactionIdIsNormal xid) then mret InvalidXLogRecPtr
  else let! r := on_clog (TransactionIdGetStatus clog xid) in mret (snd r).
End Transam.

(** ** What the log says *)

(** The status of any id, special ones included. *)
Definition log_status (f : Z -> Z) (x : Z) : Z :=
  if TransactionIdIsNormal x then f x
  else if TransactionIdEquals x BootstrapTransactionId || TransactionIdEquals x FrozenTransactionId
  then TRANSACTION_STATUS_COMMITTED else TRANSACTION_STATUS_ABORTED.

(** [x] is committed ([true]) or not, by the log [f] and the parents [par]. *)
Inductive resolves (f par : Z -> Z) (xmin : Z) : Z -> bool -> Prop :=
| resolves_committed x :
    log_status f x = TRANSACTION_STATUS_COMMITTED -> resolves f par xmin x true
| resolves_not x :
    log_status f x <> TRANSACTION_STATUS_COMMITTED -> log_status f x <> TRANSACTION_STATUS_SUB_COMMITTED ->
    resolves f par xmin x false
| resolves_old x :
    log_status f x = TRANSACTION_STATUS_SUB_COMMITTED -> TransactionIdPrecedes x xmin = true ->
    resolves f par xmin x false
| resolves_orphan x :
    log_status f x = TRANSACTION_STATUS_SUB_COMMITTED -> TransactionIdPrecedes x xmin = false ->
    par x = InvalidTransactionId -> resolves f par xmin x false
| resolves_parent x b :
    log_status f x = TRANSACTION_STATUS_SUB_COMMITTED -> TransactionIdPrecedes x xmin = false ->
    par x <> InvalidTransactionId -> resolves f par xmin (par x) b -> resolves f par xmin x b.

Lemma resolves_fun f par xmin x b b' : resolves f par xmin x b -> resolves f par xmin x b' -> b = b'.
Proof.
  assert (TRANSACTION_STATUS_COMMITTED <> TRANSACTION_STATUS_SUB_COMMITTED) by done.
  intros H1. revert b'. induction H1; intros b' H'; inversion H'; subst; try congruence; auto.
Qed.

Lemma sub_committed_normal f x : log_status f x = TRANSACTION_STATUS_SUB_COMMITTED -> TransactionIdIsNormal x = true.
Proof. unfold log_status. destruct (TransactionIdIsNormal x); [done|]. by destruct (_ || _). Qed.

Section TransamSpec.
Context (clog subtrans : SlruCtl) `{!SlruRunning clog, !SlruRunning subtrans} (TransactionXmin : Z).
Context (L C D : Z -> Prop) (f par : Z -> Z).

(** The cache holds nothing, or a final answer of the log. *)
Definition cache_valid (s : XactLog) : Prop :=
  (cachedFetchXid s = InvalidTransactionId /\ cachedFetchXidStatus s = TRANSACTION_STATUS_IN_PROGRESS) \/
  (TransactionIdIsNormal (cachedFetchXid s) = true /\ cachedFetchXidStatus s = f (cachedFetchXid s) /\
   f (cachedFetchXid s) <> TRANSACTION_STATUS_IN_PROGRESS /\
   f (cachedFetchXid s) <> TRANSACTION_STATUS_SUB_COMMITTED).

Definition log_is (s : XactLog) : Prop :=
  clog_is clog C f (xl_clog s) /\ Subtrans.parents_are subtrans D par (xl_subtrans s) /\ cache_valid s.

Lemma wp_on_clog {A} (m : M SlruShared A) Q (E : XactLog -> Prop) s :
  wp m (fun a c => Q a {| xl_clog := c; xl_subtrans := xl_subtrans s; cachedFetchXid := cachedFetchXid s;
                          cachedFetchXidStatus := cachedFetchXidStatus s; cachedCommitLSN := cachedCommitLSN s |})
    (fun c => E {| xl_clog := c; xl_subtrans := xl_subtrans s; cachedFetchXid := cachedFetchXid s;
                   cachedFetchXidStatus := cachedFetchXidStatus s; cachedCommitLSN := cachedCommitLSN s |})
    (xl_clog s) -> wp (on_clog m) Q E s.
Proof. unfold wp, on_clog. by destruct (m (xl_clog s)) as [[a|e|] c]. Qed.

Lemma wp_on_subtrans {A} (m : M SlruShared A) Q (E : XactLog -> Prop) s :
  wp m (fun a c => Q a {| xl_clog := xl_clog s; xl_subtrans := c; cachedFetchXid := cachedFetchXid s;
                          cachedFetchXidStatus := cachedFetchXidStatus s; cachedCommitLSN := cachedCommitLSN s |})
    (fun c => E {| xl_clog := xl_clog s; xl_subtrans := c; cachedFetchXid := cachedFetchXid s;
                   cachedFetchXidStatus := cachedFetchXidStatus s; cachedCommitLSN := cachedCommitLSN s |})
    (xl_subtrans s) -> wp (on_subtrans m) Q E s.
Proof. unfold wp, on_subtrans. by destruct (m (xl_subtrans s)) as [[a|e|] c]. Qed.

(** The cache is transparent, but for the invalid id, which is never committed
    either way. *)
Lemma log_fetch_wp x s :
  is_u32 x -> (TransactionIdIsNormal x = true -> C (TransactionIdToPage x)) -> log_is s ->
  wp (TransactionLogFetch clog x)
    (fun st s' => log_is s' /\
       (st = log_status f x \/ x = InvalidTransactionId /\ st = TRANSACTION_STATUS_IN_PROGRESS)) log_is s.
Proof.
  intros Hx Hc (H1 & H2 & H3). unfold TransactionLogFetch, log_status, TransactionIdEquals. wp_step. wp_step.
  destruct (Z.eqb_spec x (cachedFetchXid s)) as [E|E].
  { wp_step. split; [done|]. destruct H3 as [[Ex Est]|(N & Est & _)]; rewrite <- E in *.
    - right. by rewrite Est.
    - left. by rewrite N. }
  destruct (TransactionIdIsNormal x) eqn:N; cbn [negb].
  2:{ destruct (x =? BootstrapTransactionId); cbn [orb]; [wp_step; by split; [|left]|].
      destruct (x =? FrozenTransactionId); wp_step; by split; [|left]. }
  wp_step. apply wp_on_clog. eapply wp_impl; [apply (get_status_wp clog C f); [unfold is_u32 in Hx; lia | by apply Hc | done] | |].
  - intros [st lsn] c [Hst Hcl]. cbn [fst snd] in *. wp_step.
    destruct (_ && _) eqn:F; repeat wp_step.
    + split; [|by left]. split; [done|]. split; [done|]. right. cbn. rewrite <- Hst.
      apply andb_true_iff in F as [F1 F2]. split; [done|]. split; [done|]. lia.
    + split; [|by left]. by split.
  - intros c Hcl. by split.
Qed.

(** The log is readable for the transactions [L] in use, and parents come first. *)
Record tree_ok : Prop := {
  xmin_normal : TransactionIdIsNormal TransactionXmin = true;
  clog_pages : forall x, L x -> TransactionIdIsNormal x = true -> C (TransactionIdToPage x);
  parents_covered : Subtrans.covered TransactionXmin L D par;
  parents_precede : forall x, L x -> TransactionIdPrecedes x TransactionXmin = false ->
    par x <> InvalidTransactionId -> TransactionIdPrecedes (par x) x = true
}.

Lemma did_commit_wp : forall fuel x s,
  tree_ok -> L x -> (Subtrans.steps_left TransactionXmin x <= fuel)%nat -> log_is s ->
  wp (did_commit clog subtrans TransactionXmin fuel x)
    (fun b s' => resolves f par TransactionXmin x b /\ log_is s') log_is s.
Proof.
  induction fuel as [|fuel IH]; intros x s T Hx Hf H.
  { exfalso. unfold Subtrans.steps_left in Hf. destruct (_ && _); lia. }
  destruct (parents_covered T x Hx) as [Ux Hcov].
  cbn [did_commit]. wp_step. eapply wp_impl; [apply log_fetch_wp; [done | by apply T | done] | | done].
  intros st s1 [H1 Hst].
  destruct (Z.eqb_spec st TRANSACTION_STATUS_COMMITTED) as [Ec|Ec].
  { wp_step. split; [|done]. apply resolves_committed. destruct Hst as [<-|[_ Est]]; [done | by rewrite Ec in Est]. }
  destruct (Z.eqb_spec st TRANSACTION_STATUS_SUB_COMMITTED) as [Es|Es].
  2:{ wp_step. split; [|done]. apply resolves_not; destruct Hst as [<-|[-> _]]; done. }
  assert (Hs : log_status f x = TRANSACTION_STATUS_SUB_COMMITTED) by (destruct Hst as [<-|[_ Est]]; [done | by rewrite Es in Est]).
  destruct (TransactionIdPrecedes x TransactionXmin) eqn:Px.
  { wp_step. split; [|done]. by apply resolves_old. }
  pose proof (sub_committed_normal f x Hs) as Nx. destruct (Hcov eq_refl) as [Hd Hu].
  wp_step. apply wp_on_subtrans. destruct H1 as (Hc & Hp & Hv).
  eapply wp_impl; [apply (Subtrans.get_parent_wp subtrans D par x); [unfold is_u32 in Ux; lia | done | done] | |].
  - intros y c [-> Hp']. rewrite Nx.
    destruct (TransactionIdIsValid (par x)) eqn:V; cbn [negb].
    + assert (Hne : par x <> InvalidTransactionId) by (unfold TransactionIdIsValid in V; lia).
      destruct Hu as [?|Hu]; [done|].
      eapply wp_impl; [apply IH | |]; try done.
      * pose proof (Subtrans.steps_less TransactionXmin x (par x) (xmin_normal T) Nx Px (parents_precede T x Hx Px Hne)). lia.
      * intros b s' [Hr H']. split; [|done]. by apply resolves_parent.
    + wp_step. split; [|done]. apply resolves_orphan; try done. unfold TransactionIdIsValid in V. lia.
  - intros c Hp'. done.
Qed.

Lemma transaction_did_commit_wp x s :
  tree_ok -> L x -> log_is s ->
  wp (TransactionIdDidCommit clog subtrans TransactionXmin x)
    (fun b s' => resolves f par TransactionXmin x b /\ log_is s') log_is s.
Proof.
  intros T Hx H. apply did_commit_wp; try done.
  unfold Subtrans.steps_left, Subtrans.walk_fuel. destruct (_ && _); lia.
Qed.
End TransamSpec.
