(* ===== verification/CommitThms.v ===== *)
(** * The transaction-log theorems

    The claims about the page cache, the commit log, the parents of
    subtransactions and the commit question, each stated of the code's own entry
    points, and a small concrete log that meets every assumption. *)

From S2P Require Import Prelude Xid ItemPtr Snapshot Slru SlruSpec Clog ClogSpec Subtrans Transam.

(** ** Prefixes of a tree commit *)

Lemma apply_all_to st l : forall f x, apply_writes (all_to st l) f x = if bool_decide (x ∈ l) then st else f x.
Proof.
  induction l as [|y l IH]; intros f x; [done|]. cbn. rewrite IH. unfold set_at. cbn.
  destruct (decide (x ∈ l)) as [Hx|Hx].
  - rewrite !bool_decide_true; [done | apply elem_of_cons; by right | done].
  - rewrite (bool_decide_false (x ∈ l)) by done. destruct (Z.eqb_spec x y) as [->|Hne].
    + rewrite bool_decide_true; [done | apply elem_of_cons; by left].
    + rewrite bool_decide_false; [done|]. rewrite elem_of_cons. tauto.
Qed.

(** A tree commit first marks every subtransaction sub-committed, then commits
    the top-level transaction, then every subtransaction. *)
Lemma tree_commit_phases xid subs :
  TransactionIdIsValid xid = true ->
  exists l1 l2,
    tree_writes xid subs TRANSACTION_STATUS_COMMITTED =
      all_to TRANSACTION_STATUS_SUB_COMMITTED l1 ++ (xid, TRANSACTION_STATUS_COMMITTED) ::
      all_to TRANSACTION_STATUS_COMMITTED l2 /\
    (forall x, x ∈ l1 <-> x ∈ subs) /\ (forall x, x ∈ l2 <-> x ∈ subs).
Proof.
  intros V. unfold tree_writes. pose proof (on_page_spec (TransactionIdToPage xid) subs) as H.
  destruct (on_page _ subs) as [first others]. destruct H as [-> _].
  unfold page_writes. rewrite V, Z.eqb_refl. destruct others as [|o others].
  - rewrite app_nil_r. exists first, first. rewrite <- app_assoc. done.
  - exists ((o :: others) ++ first), (first ++ o :: others). unfold all_to. rewrite !map_app.
    rewrite <- !app_assoc. split; [done|]. split; intros x; rewrite !elem_of_app; tauto.
Qed.

Lemma prefix_all_to st l ws1 ws2 : all_to st l = ws1 ++ ws2 -> exists l1, ws1 = all_to st l1 /\ forall x, x ∈ l1 -> x ∈ l.
Proof.
  revert ws1. induction l as [|x l IH]; intros ws1 H; cbn in H.
  - symmetry in H. apply app_eq_nil in H as [-> _]. by exists [].
  - destruct ws1 as [|w ws1]; [exists []; split; [done|]; intros y Hy; by apply not_elem_of_nil in Hy|].
    injection H as <- H. destruct (IH ws1 H) as (l1 & -> & Hl). exists (x :: l1). split; [done|].
    intros y. rewrite !elem_of_cons. intros [->|?]; auto.
Qed.

(** What a complete tree update leaves behind. *)
Lemma tree_writes_final f xid subs st x :
  TransactionIdIsValid xid = true ->
  apply_writes (tree_writes xid subs st) f x = if bool_decide (x = xid \/ x ∈ subs) then st else f x.
Proof.
  intros V. unfold tree_writes. pose proof (on_page_spec (TransactionIdToPage xid) subs) as H.
  destruct (on_page _ subs) as [first others]. destruct H as [-> _].
  assert (Hpage : forall l g, apply_writes (page_writes xid l st) g x = if bool_decide (x = xid \/ x ∈ l) then st else g x).
  { intros l g. unfold page_writes. rewrite V, !apply_writes_app, apply_all_to. cbn. unfold set_at. cbn.
    destruct (decide (x ∈ l)) as [Hl|Hl]; [rewrite !bool_decide_true by auto; done|].
    rewrite (bool_decide_false (x ∈ l)) by done. destruct (Z.eqb_spec x xid) as [Hx|Hx].
    - rewrite bool_decide_true by auto. done.
    - rewrite bool_decide_false by tauto. destruct (st =? _); [|done]. by rewrite apply_all_to, bool_decide_false. }
  destruct others as [|o others]; [by rewrite app_nil_r, Hpage|].
  rewrite !apply_writes_app, apply_all_to, Hpage.
  destruct (decide (x ∈ o :: others)) as [Ho|Ho].
  { rewrite !bool_decide_true; [done | rewrite elem_of_app; auto | done]. }
  rewrite (bool_decide_false (x ∈ o :: others)) by done.
  destruct (decide (x = xid \/ x ∈ first)) as [Hf|Hf].
  { rewrite !bool_decide_true; [done | rewrite elem_of_app; tauto | done]. }
  rewrite !bool_decide_false; [|rewrite elem_of_app; tauto | done].
  destruct (st =? _); [|done]. by rewrite apply_all_to, bool_decide_false.
Qed.

(** The tree before its commit: nothing in it has ended. *)
Record uncommitted (f : Z -> Z) (xid : Z) (subs : list Z) : Prop := {
  top_running : f xid = TRANSACTION_STATUS_IN_PROGRESS;
  subs_running : forall x, x ∈ subs -> f x = TRANSACTION_STATUS_IN_PROGRESS \/ f x = TRANSACTION_STATUS_SUB_COMMITTED;
  top_apart : xid ∉ subs
}.

(** The two ways the log can look during and after the commit. *)
Definition half_done (f : Z -> Z) (xid : Z) (subs : list Z) : Prop :=
  f xid = TRANSACTION_STATUS_IN_PROGRESS /\
  forall x, x ∈ subs -> f x = TRANSACTION_STATUS_IN_PROGRESS \/ f x = TRANSACTION_STATUS_SUB_COMMITTED.
Definition all_done (f : Z -> Z) (xid : Z) (subs : list Z) : Prop :=
  f xid = TRANSACTION_STATUS_COMMITTED /\
  forall x, x ∈ subs -> f x = TRANSACTION_STATUS_COMMITTED \/ f x = TRANSACTION_STATUS_SUB_COMMITTED.

Lemma commit_prefix f xid subs ws1 ws2 :
  TransactionIdIsValid xid = true -> uncommitted f xid subs ->
  tree_writes xid subs TRANSACTION_STATUS_COMMITTED = ws1 ++ ws2 ->
  half_done (apply_writes ws1 f) xid subs \/ all_done (apply_writes ws1 f) xid subs.
Proof.
  intros V [U1 U2 U3] H. destruct (tree_commit_phases xid subs V) as (l1 & l2 & E & H1 & H2). rewrite E in H.
  apply app_eq_app in H as [l [[H Hr]|[H Hr]]].
  - left. apply prefix_all_to in H as (l1' & -> & Hl). split.
    + rewrite apply_all_to, bool_decide_false; [done|]. intros Hx. apply U3, H1, Hl, Hx.
    + intros x Hx. rewrite apply_all_to. destruct (bool_decide (x ∈ l1')); [by right | by apply U2].
  - destruct l as [|w l].
    { rewrite app_nil_r in H. subst ws1. left. split.
      - rewrite apply_all_to, bool_decide_false; [done|]. intros Hx. by apply U3, H1.
      - intros x Hx. rewrite apply_all_to, bool_decide_true by (by apply H1). by right. }
    right. injection Hr as <- Hr. apply prefix_all_to in Hr as (l2' & -> & Hl). subst ws1.
    rewrite apply_writes_app. cbn. split.
    + rewrite apply_all_to, bool_decide_false; [by rewrite set_at_eq|]. intros Hx. apply U3, H2, Hl, Hx.
    + intros x Hx. rewrite apply_all_to. destruct (bool_decide (x ∈ l2')); [by left|].
      rewrite set_at_ne by (intros ->; done). rewrite apply_all_to, bool_decide_true by (by apply H1). by right.
Qed.

(** The parents of the tree stay in the tree. *)
Record tree (par : Z -> Z) (xmin xid : Z) (subs : list Z) : Prop := {
  tree_top : is_u32 xid /\ TransactionIdIsNormal xid = true;
  tree_subs : forall x, x ∈ subs ->
    is_u32 x /\ TransactionIdIsNormal x = true /\ TransactionIdPrecedes x xmin = false /\
    (par x = xid \/ par x ∈ subs) /\ TransactionIdPrecedes (par x) x = true
}.

Lemma tree_resolves f par xmin xid subs (b : bool) :
  TransactionIdIsNormal xmin = true -> tree par xmin xid subs ->
  resolves f par xmin xid b ->
  (forall x, x ∈ subs -> resolves f par xmin x b \/ log_status f x = TRANSACTION_STATUS_SUB_COMMITTED) ->
  forall x, x ∈ subs -> resolves f par xmin x b.
Proof.
  intros Nm [[T1 T1'] T2] Htop Hsub. assert (Hn : forall n x, (Subtrans.steps_left xmin x <= n)%nat -> x ∈ subs -> resolves f par xmin x b).
  { induction n as [|n IH]; intros x Hx Hin.
    { unfold Subtrans.steps_left in Hx. destruct (_ && _); lia. }
    destruct (Hsub x Hin) as [?|Hs]; [done|]. destruct (T2 x Hin) as (Ux & Nx & Px & Hp & Pp).
    pose proof (Subtrans.steps_less xmin x (par x) Nm Nx Px Pp).
    assert (Hv : par x <> InvalidTransactionId).
    { destruct Hp as [->|Hp].
      - intros E. rewrite E in T1'. done.
      - intros E. destruct (T2 _ Hp) as (_ & N & _). rewrite E in N. done. }
    apply resolves_parent; try done. destruct Hp as [->|Hp]; [done|]. apply IH; [lia | done]. }
  intros x Hx. by eapply Hn.
Qed.

Lemma log_status_normal f x : TransactionIdIsNormal x = true -> log_status f x = f x.
Proof. intros H. unfold log_status. by rewrite H. Qed.

(** In both states of the log every member of the tree gets the same answer. *)
Lemma phase_resolves f par xmin xid subs :
  TransactionIdIsNormal xmin = true -> tree par xmin xid subs ->
  half_done f xid subs \/ all_done f xid subs ->
  exists b, resolves f par xmin xid b /\ forall x, x ∈ subs -> resolves f par xmin x b.
Proof.
  intros Nm T. pose proof T as [[_ N] T2]. intros [[H1 H2]|[H1 H2]].
  - exists false. assert (Htop : resolves f par xmin xid false) by (apply resolves_not; by rewrite log_status_normal, H1).
    split; [done|]. apply (tree_resolves f par xmin xid subs); try done. intros x Hx.
    destruct (T2 x Hx) as (_ & Nx & _). rewrite (log_status_normal f x Nx).
    destruct (H2 x Hx) as [E|E]; [left | by right]. apply resolves_not; by rewrite log_status_normal, E.
  - exists true. assert (Htop : resolves f par xmin xid true) by (apply resolves_committed; by rewrite log_status_normal).
    split; [done|]. apply (tree_resolves f par xmin xid subs); try done. intros x Hx.
    destruct (T2 x Hx) as (_ & Nx & _). rewrite (log_status_normal f x Nx).
    destruct (H2 x Hx) as [E|E]; [left | by right]. apply resolves_committed; by rewrite log_status_normal.
Qed.

(** ** A concrete pair of logs

    One bank of sixteen slots over a segment that holds every page; all I/O
    succeeds.  Transaction 50 has subtransactions 51 and 52; 52 is a child of 51,
    and 40 is the oldest running transaction. *)

Definition demo_ctl : SlruCtl := {|
  num_slots := 16; nbanks := 1; lsn_groups_per_page := 0; PagePrecedes := CLOGPagePrecedes;
  has_sync_handler := false; in_recovery := false;
  open_read _ := OpenOk; open_write _ := OpenOk; read_fails _ := false; garbage _ := zero_page;
  write_page _ := WriteOk; close_fails _ := false; register_sync_request _ := Ok true;
  fsync_fails _ := false; unlink_fails _ := false; size_fails _ := false;
  current_errno _ _ := 5; data_sync_elevel := PANIC; fsync_dir := Ok tt; xlog_flush lsn f := Ok (Z.max lsn f)
|}.

#[export] Instance demo_ctl_running : SlruRunning demo_ctl.
Proof. split; try done; cbn; intros; by simplify_eq; lia. Qed.

Definition demo_slru (d : arr (arr Z)) : SlruShared := {|
  page_status _ := SLRU_PAGE_EMPTY; page_dirty _ := false; page_number _ := 0; page_lru_count _ := 0;
  bank_cur_lru_count _ := 0; group_lsn _ := 0; pages _ := zero_page; latest_page_number := 0;
  seg_pages := {[ 0 := 32 ]}; disk := d; flushed := 0
|}.

Lemma demo_slru_ok d : cache_ok demo_ctl (demo_slru d).
Proof. split; unfold occupied; cbn; done. Qed.

Lemma demo_content d p : 0 <= p < 32 -> content (demo_slru d) p (d p).
Proof.
  intros Hp. right. split; [intros i [[?|?] _]; done|]. unfold on_disk. cbn.
  rewrite Z.quot_small, Z.rem_small by (change SLRU_PAGES_PER_SEGMENT with 32; lia).
  rewrite lookup_singleton_eq. destruct (Z.ltb_spec p 32); [done | lia].
Qed.

(** C7. Reading through the cache is transparent.  [SimpleLruReadPage] never gets
    stuck, whatever I/O a failure left pending: it returns a slot of the page's
    bank that holds the page with the bytes of its last writer, or reports an I/O
    error; either way no page of the SLRU loses its bytes. *)
Theorem slru_read_transparent ctl p write_ok xid s :
  SlruRunning ctl -> cache_ok ctl s -> 0 <= p ->
  wp (SimpleLruReadPage ctl p write_ok xid)
    (fun i s' => keeps ctl s s' /\ in_bank ctl i p /\ holds s' i p /\ forall pg, content s p pg -> pages s' i = pg)
    (keeps ctl s) s.
Proof.
  intros HR C Hp. eapply wp_impl; [by apply (read_page_wp ctl) | | done].
  intros i s' (K & Hb & Hh). split; [done|]. split; [done|]. split; [done|]. intros pg Hc.
  eapply (holds_content ctl s'); [by eapply keeps_cache | done |]. by apply K.
Qed.

Lemma slru_read_transparent_witness :
  cache_ok demo_ctl (demo_slru (fun _ => zero_page)) /\
  wp (SimpleLruReadPage demo_ctl 3 true 0)
    (fun i s' => keeps demo_ctl (demo_slru (fun _ => zero_page)) s' /\ in_bank demo_ctl i 3 /\ holds s' i 3 /\
       forall pg, content (demo_slru (fun _ => zero_page)) 3 pg -> pages s' i = pg)
    (keeps demo_ctl (demo_slru (fun _ => zero_page))) (demo_slru (fun _ => zero_page)).
Proof.
  split; [apply demo_slru_ok|]. apply (slru_read_transparent demo_ctl 3 true 0 (demo_slru (fun _ => zero_page))).
  - apply demo_ctl_running.
  - apply demo_slru_ok.
  - done.
Defined.

(** C18. A checkpoint makes everything durable.  When [SimpleLruWriteAll] succeeds,
    every page that had bytes, cached or not, has those bytes on disk; when it
    fails, nothing is lost. *)
Theorem slru_checkpoint_durable ctl s :
  SlruRunning ctl -> cache_ok ctl s ->
  wp (SimpleLruWriteAll ctl)
    (fun _ s' => keeps ctl s s' /\ forall p pg, content s p pg -> on_disk s' p = Some pg) (keeps ctl s) s.
Proof. intros HR C. by apply (write_everything_wp ctl). Qed.

Lemma slru_checkpoint_durable_witness :
  wp (SimpleLruWriteAll demo_ctl)
    (fun _ s' => keeps demo_ctl (demo_slru (fun _ => zero_page)) s' /\
       forall p pg, content (demo_slru (fun _ => zero_page)) p pg -> on_disk s' p = Some pg)
    (keeps demo_ctl (demo_slru (fun _ => zero_page))) (demo_slru (fun _ => zero_page)).
Proof.
  apply (slru_checkpoint_durable demo_ctl (demo_slru (fun _ => zero_page))).
  - apply demo_ctl_running.
  - apply demo_slru_ok.
Defined.

(** C19. Write-ahead logging for the commit log: [SlruPhysicalWritePage] changes a
    page on disk only once the WAL is flushed past the LSN of every commit that
    the page records. *)
Theorem slru_wal_before_data ctl p i fdata s :
  SlruRunning ctl -> 0 <= flushed s ->
  wp (SlruPhysicalWritePage ctl p i fdata) (fun _ => covered_by_wal ctl s i)
    (fun s' => disk s' = disk s \/ covered_by_wal ctl s i s') s.
Proof. intros HR Hf. by apply (physical_write_wal ctl). Qed.

Lemma slru_wal_before_data_witness :
  wp (SlruPhysicalWritePage demo_ctl 3 0 None) (fun _ => covered_by_wal demo_ctl (demo_slru (fun _ => zero_page)) 0)
    (fun s' => disk s' = disk (demo_slru (fun _ => zero_page)) \/
       covered_by_wal demo_ctl (demo_slru (fun _ => zero_page)) 0 s') (demo_slru (fun _ => zero_page)).
Proof.
  apply (slru_wal_before_data demo_ctl 3 0 None (demo_slru (fun _ => zero_page))).
  - apply demo_ctl_running.
  - done.
Defined.

(** C20. Truncation removes what it may and spares what is still needed.
    [SimpleLruTruncate] on the commit log ends.  Every page that does not precede
    the cutoff page, on a circle of 2^17 pages, keeps its bytes, whether it
    succeeds or not, and so does every page of a segment file the file system
    refuses to unlink.  When it succeeds, one of two things happened.  Either the
    newest page itself precedes the cutoff (apparent wraparound): found so on
    entry, the state is left exactly as it was, found so after some buffer had to
    be written out, no page on either side of the cutoff lost its bytes.  Or the
    newest page did not precede the cutoff, and no buffer holds a page before the
    cutoff and every segment file that may go is gone but those whose unlink was
    refused. *)
Theorem clog_truncate_safe ctl cutoff s :
  SlruRunning ctl -> PagePrecedes ctl = CLOGPagePrecedes -> cache_ok ctl s ->
  wp (SimpleLruTruncate ctl cutoff)
    (fun _ s' => keeps_from ctl cutoff s s' /\
       (PagePrecedes ctl (latest_page_number s) cutoff = true /\ s' = s \/
        PagePrecedes ctl (latest_page_number s') cutoff = true /\ keeps ctl s s' \/
        PagePrecedes ctl (latest_page_number s) cutoff = false /\ truncated ctl cutoff s'))
    (keeps_from ctl cutoff s) s.
Proof.
  intros HR HP C. apply (truncate_wp ctl); [|done]. intros p c Hp. by apply clog_convex.
Qed.

(** A file system that refuses to unlink segment 1, and three segments. *)
Definition stuck_ctl : SlruCtl := {|
  num_slots := 16; nbanks := 1; lsn_groups_per_page := 0; PagePrecedes := CLOGPagePrecedes;
  has_sync_handler := false; in_recovery := false;
  open_read _ := OpenOk; open_write _ := OpenOk; read_fails _ := false; garbage _ := zero_page;
  write_page _ := WriteOk; close_fails _ := false; register_sync_request _ := Ok true;
  fsync_fails _ := false; unlink_fails segno := segno =? 1; size_fails _ := false;
  current_errno _ _ := 5; data_sync_elevel := PANIC; fsync_dir := Ok tt; xlog_flush lsn f := Ok (Z.max lsn f)
|}.

Definition three_segments : SlruShared :=
  with_files (fun _ => {[ 0 := 32; 1 := 32; 2 := 32 ]}) (fun d => d)
    (set_latest_page_number 80 (demo_slru (fun _ => zero_page))).

Lemma stuck_ctl_running : SlruRunning stuck_ctl.
Proof. split; try done; cbn; intros; by simplify_eq; lia. Qed.

Lemma three_segments_ok : cache_ok stuck_ctl three_segments.
Proof. split; unfold occupied; cbn; done. Qed.

(** Up to page 70: segment 0 goes, segment 1 should go and stays, segment 2 is
    needed. *)
Lemma clog_truncate_safe_witness :
  map_to_list (seg_pages (snd (SimpleLruTruncate stuck_ctl 70 three_segments))) = [(2, 32); (1, 32)] /\
  PagePrecedes stuck_ctl (latest_page_number three_segments) 70 = false /\
  wp (SimpleLruTruncate stuck_ctl 70)
    (fun _ s' => keeps_from stuck_ctl 70 three_segments s' /\
       (PagePrecedes stuck_ctl (latest_page_number three_segments) 70 = true /\ s' = three_segments \/
        PagePrecedes stuck_ctl (latest_page_number s') 70 = true /\ keeps stuck_ctl three_segments s' \/
        PagePrecedes stuck_ctl (latest_page_number three_segments) 70 = false /\ truncated stuck_ctl 70 s'))
    (keeps_from stuck_ctl 70 three_segments) three_segments.
Proof.
  split; [by vm_compute|]. split; [by vm_compute|].
  apply (clog_truncate_safe stuck_ctl 70 three_segments).
  - apply stuck_ctl_running.
  - done.
  - apply three_segments_ok.
Defined.

(** C21. Dropping a segment.  [SlruDeleteSegment] ends; when it succeeds no buffer
    holds a page of the segment any more, pending I/O included, and every page of
    every other segment keeps its bytes.  The file of the segment is gone if the
    file system unlinked it; the answer of the unlink is not looked at, so if it
    was refused the call succeeds all the same, and the file is left with every
    page of the segment in it.  When the call fails, the other segments are
    untouched too. *)
Theorem slru_delete_segment ctl segno s :
  SlruRunning ctl -> cache_ok ctl s ->
  wp (SlruDeleteSegment ctl segno)
    (fun _ s' => keeps_others ctl segno s s' /\
       (forall i, absent segno s' i) /\
       if unlink_fails ctl segno then keeps ctl s s' else seg_pages s' !! segno = None)
    (keeps_others ctl segno s) s.
Proof. intros HR C. by apply (delete_segment_wp ctl). Qed.

(** Segment 0 goes; segment 1 is still there although the call succeeds. *)
Lemma slru_delete_segment_witness :
  fst (SlruDeleteSegment stuck_ctl 1 three_segments) = Ok tt /\
  wp (SlruDeleteSegment stuck_ctl 0)
    (fun _ s' => keeps_others stuck_ctl 0 three_segments s' /\ (forall i, absent 0 s' i) /\ seg_pages s' !! 0 = None)
    (keeps_others stuck_ctl 0 three_segments) three_segments /\
  wp (SlruDeleteSegment stuck_ctl 1)
    (fun _ s' => keeps_others stuck_ctl 1 three_segments s' /\ (forall i, absent 1 s' i) /\ keeps stuck_ctl three_segments s')
    (keeps_others stuck_ctl 1 three_segments) three_segments.
Proof.
  split; [by vm_compute|].
  split; [apply (slru_delete_segment stuck_ctl 0 three_segments) | apply (slru_delete_segment stuck_ctl 1 three_segments)];
    solve [apply stuck_ctl_running | apply three_segments_ok].
Defined.

(** The page order of the commit log is exact: [CLOGPagePrecedes] holds of two
    pages just when the first lies strictly less than half the circle of 2^17
    pages before the second, so the page opposite never counts as older. *)
Lemma clog_page_order p c :
  CLOGPagePrecedes p c = true <->
  exists k, - 2 ^ 16 < p - c + k * 2 ^ 17 < 0.
Proof.
  rewrite clog_precedes_spec. cbn zeta. change (2 ^ 16) with 65536. change (2 ^ 17) with 131072.
  pose proof (Z.div_mod p 131072 ltac:(lia)). pose proof (Z.div_mod c 131072 ltac:(lia)).
  pose proof (Z.mod_pos_bound p 131072 ltac:(lia)). pose proof (Z.mod_pos_bound c 131072 ltac:(lia)). split.
  - intros [Hd|Hd]; [exists (c / 131072 - p / 131072) | exists (c / 131072 - p / 131072 - 1)]; lia.
  - intros [k Hk]. lia.
Qed.

(** C8. [TransactionIdSetTreeStatus] does what it says and nothing else.  Over
    existing pages it makes exactly the writes of [tree_writes], in that order:
    on success the whole list, so that the top-level transaction and every
    subtransaction have the new status and every other transaction keeps its own,
    and on an I/O error a prefix of it.  Splitting the work over pages is
    invisible. *)
Theorem clog_set_tree_status ctl (C : Z -> Prop) f xid subs st lsn s :
  SlruRunning ctl -> clog_is ctl C f s -> 0 <= xid -> C (TransactionIdToPage xid) -> subs_ok C subs -> is_status st ->
  wp (TransactionIdSetTreeStatus ctl xid subs st lsn)
    (fun _ => clog_is ctl C (apply_writes (tree_writes xid subs st) f))
    (prefix_is ctl C f (tree_writes xid subs st)) s /\
  (TransactionIdIsValid xid = true -> forall x,
    apply_writes (tree_writes xid subs st) f x = if bool_decide (x = xid \/ x ∈ subs) then st else f x).
Proof.
  intros HR H Hx Hp Hs Hst. split; [by apply (tree_status_wp ctl)|]. intros V x. by apply tree_writes_final.
Qed.

Definition demo_pages : Z -> Prop := fun p => 0 <= p < 32.

Lemma demo_clog_is : clog_is demo_ctl demo_pages (fun _ => TRANSACTION_STATUS_IN_PROGRESS) (demo_slru (fun _ => zero_page)).
Proof.
  split; [apply demo_slru_ok|]. intros xid Hx Hp. exists zero_page. split; [by apply (demo_content (fun _ => zero_page))|].
  unfold status_bits, zero_page. by rewrite Z.shiftr_0_l.
Qed.

Lemma clog_set_tree_status_witness :
  wp (TransactionIdSetTreeStatus demo_ctl 50 [51; 40000] TRANSACTION_STATUS_COMMITTED 0)
    (fun _ => clog_is demo_ctl demo_pages (apply_writes (tree_writes 50 [51; 40000] TRANSACTION_STATUS_COMMITTED)
       (fun _ => TRANSACTION_STATUS_IN_PROGRESS)))
    (prefix_is demo_ctl demo_pages (fun _ => TRANSACTION_STATUS_IN_PROGRESS)
       (tree_writes 50 [51; 40000] TRANSACTION_STATUS_COMMITTED)) (demo_slru (fun _ => zero_page)).
Proof.
  apply (clog_set_tree_status demo_ctl demo_pages (fun _ => TRANSACTION_STATUS_IN_PROGRESS) 50 [51; 40000]
    TRANSACTION_STATUS_COMMITTED 0 (demo_slru (fun _ => zero_page))).
  - apply demo_ctl_running.
  - apply demo_clog_is.
  - done.
  - by split.
  - unfold subs_ok, demo_pages. repeat apply List.Forall_cons; try apply List.Forall_nil; by repeat split.
  - by split.
Defined.

(** C5. A commit is atomic for every observer.  Take any point of the commit of a
    transaction tree: any prefix of its status writes, which covers every moment
    between two page updates and every failure of the commit.  Then
    [TransactionIdDidCommit] gives the same answer for the top-level transaction
    and for all its subtransactions, sub-committed ones being resolved through
    their parents; and it is a yes once the commit is complete. *)
Theorem commit_atomic clog subtrans xmin (L C D : Z -> Prop) f par xid subs ws1 ws2 s :
  SlruRunning clog -> SlruRunning subtrans -> tree_ok xmin L C D par -> tree par xmin xid subs ->
  (forall x, x = xid \/ x ∈ subs -> L x) -> uncommitted f xid subs ->
  tree_writes xid subs TRANSACTION_STATUS_COMMITTED = ws1 ++ ws2 ->
  log_is clog subtrans C D (apply_writes ws1 f) par s ->
  exists b, (ws2 = [] -> b = true) /\
    forall x, x = xid \/ x ∈ subs ->
      wp (TransactionIdDidCommit clog subtrans xmin x) (fun r _ => r = b) (fun _ => True) s.
Proof.
  intros HC HS T Tr HL U E H. pose proof (tree_top _ _ _ _ Tr) as [Hu Hn].
  assert (V : TransactionIdIsValid xid = true) by (apply normal_true in Hn; unfold TransactionIdIsValid, InvalidTransactionId; lia).
  pose proof (commit_prefix f xid subs ws1 ws2 V U E) as Hph.
  destruct (phase_resolves _ par xmin xid subs (xmin_normal _ _ _ _ _ T) Tr Hph) as (b & Htop & Hsub).
  exists b. split.
  - intros ->. rewrite app_nil_r in E. subst ws1. inversion Htop as [| ? Hne | ? Hs | ? Hs | ? ? Hs]; try done; subst;
      rewrite (log_status_normal _ _ Hn), tree_writes_final, bool_decide_true in * by auto; done.
  - intros x Hx. pose proof (HL x Hx) as Lx.
    assert (resolves (apply_writes ws1 f) par xmin x b) as Rx by (destruct Hx as [->|Hx]; [done | by apply Hsub]).
    eapply wp_impl; [by apply (transaction_did_commit_wp clog subtrans xmin L C D (apply_writes ws1 f) par) | | done].
    intros r s' [Hr _]. by eapply resolves_fun.
Qed.

Definition demo_parent (x : Z) : Z := if x =? 51 then 50 else if x =? 52 then 51 else 0.
Definition demo_parent_page : arr Z := Subtrans.put_entry 52 51 (Subtrans.put_entry 51 50 zero_page).
Definition demo_disk : arr (arr Z) := fun p => if p =? 0 then demo_parent_page else zero_page.
Definition demo_live (x : Z) : Prop := 3 <= x < 1000.

Lemma demo_parents_are : Subtrans.parents_are demo_ctl demo_pages demo_parent (demo_slru demo_disk).
Proof.
  split; [apply demo_slru_ok|]. intros x Hx Hp. exists (demo_disk (Subtrans.TransactionIdToPage x)).
  split; [by apply demo_content|]. unfold demo_disk, demo_parent.
  unfold Subtrans.TransactionIdToPage, Subtrans.TransactionIdToEntry, demo_pages in *.
  unfold Subtrans.TransactionIdToPage in Hp. change Subtrans.SUBTRANS_XACTS_PER_PAGE with 2048 in *.
  rewrite Z.quot_div_nonneg in * by lia. destruct (Z.eqb_spec (x / 2048) 0) as [E|E].
  - assert (x mod 2048 = x) as -> by zdiv. unfold demo_parent_page.
    destruct (Z.eqb_spec x 51) as [->|]; [done|]. destruct (Z.eqb_spec x 52) as [->|]; [done|].
    by rewrite !Subtrans.put_get_other by done.
  - assert (x <> 51 /\ x <> 52) by zdiv. destruct (Z.eqb_spec x 51), (Z.eqb_spec x 52); try lia. done.
Qed.

Lemma demo_small_page per x : 1000 <= per -> demo_live x -> demo_pages (Z.quot x per).
Proof. unfold demo_live, demo_pages. intros Hp Hx. rewrite Z.quot_small by lia. lia. Qed.

Lemma demo_tree_ok : tree_ok 40 demo_live demo_pages demo_pages demo_parent.
Proof.
  split.
  - done.
  - intros x Hx _. by apply demo_small_page.
  - intros x Hx. split; [unfold demo_live, is_u32 in *; lia|]. intros _. split; [by apply demo_small_page|].
    unfold demo_parent, demo_live. destruct (x =? 51); [right; lia|]. destruct (x =? 52); [right; lia | by left].
  - intros x _ _. unfold demo_parent. destruct (Z.eqb_spec x 51) as [->|]; [done|].
    by destruct (Z.eqb_spec x 52) as [->|].
Qed.

Definition demo_log (d : arr (arr Z)) : XactLog := {|
  xl_clog := demo_slru d; xl_subtrans := demo_slru demo_disk; cachedFetchXid := 0;
  cachedFetchXidStatus := 0; cachedCommitLSN := 0 |}.

Lemma demo_log_is :
  log_is demo_ctl demo_ctl demo_pages demo_pages (fun _ => TRANSACTION_STATUS_IN_PROGRESS) demo_parent
    (demo_log (fun _ => zero_page)).
Proof. split; [apply demo_clog_is|]. split; [apply demo_parents_are | by left]. Qed.

Lemma demo_tree : tree demo_parent 40 50 [51; 52].
Proof.
  split; [done|]. intros x. rewrite !elem_of_cons. intros [->|[->|H]]; [| |by apply not_elem_of_nil in H].
  - repeat split; try done. by left.
  - repeat split; try done. right. by left.
Qed.

Lemma demo_members x : x = 50 \/ x ∈ [51; 52] -> demo_live x.
Proof.
  rewrite !elem_of_cons. unfold demo_live. intros [->|[->|[->|H]]]; try lia. by apply not_elem_of_nil in H.
Qed.

Lemma demo_uncommitted : uncommitted (fun _ => TRANSACTION_STATUS_IN_PROGRESS) 50 [51; 52].
Proof.
  split; [done | by left|]. rewrite !elem_of_cons. intros [?|[?|H]]; try lia. by apply not_elem_of_nil in H.
Qed.

Lemma commit_atomic_witness :
  exists b, (tree_writes 50 [51; 52] TRANSACTION_STATUS_COMMITTED = [] -> b = true) /\
    forall x, x = 50 \/ x ∈ [51; 52] ->
      wp (TransactionIdDidCommit demo_ctl demo_ctl 40 x) (fun r _ => r = b) (fun _ => True)
        (demo_log (fun _ => zero_page)).
Proof.
  apply (commit_atomic demo_ctl demo_ctl 40 demo_live demo_pages demo_pages
    (fun _ => TRANSACTION_STATUS_IN_PROGRESS) demo_parent 50 [51; 52] []
    (tree_writes 50 [51; 52] TRANSACTION_STATUS_COMMITTED) (demo_log (fun _ => zero_page))).
  - apply demo_ctl_running.
  - apply demo_ctl_running.
  - apply demo_tree_ok.
  - apply demo_tree.
  - apply demo_members.
  - apply demo_uncommitted.
  - done.
  - apply demo_log_is.
Defined.

(** C10. [TransactionIdDidCommit] computes what the log says.  For a transaction in
    use it ends with the answer defined by the commit log and the parent links
    (sub-committed means as the parent), or reports an I/O error; the one-item
    cache never changes the answer, and stays valid. *)
Theorem did_commit_correct clog subtrans xmin (L C D : Z -> Prop) f par x s :
  SlruRunning clog -> SlruRunning subtrans -> tree_ok xmin L C D par -> L x -> log_is clog subtrans C D f par s ->
  wp (TransactionIdDidCommit clog subtrans xmin x)
    (fun b s' => resolves f par xmin x b /\ log_is clog subtrans C D f par s')
    (log_is clog subtrans C D f par) s.
Proof. intros HC HS T Hx H. by apply (transaction_did_commit_wp clog subtrans xmin L C D f par). Qed.

Lemma did_commit_correct_witness :
  wp (TransactionIdDidCommit demo_ctl demo_ctl 40 52)
    (fun b s' => resolves (fun _ => TRANSACTION_STATUS_IN_PROGRESS) demo_parent 40 52 b /\
       log_is demo_ctl demo_ctl demo_pages demo_pages (fun _ => TRANSACTION_STATUS_IN_PROGRESS) demo_parent s')
    (log_is demo_ctl demo_ctl demo_pages demo_pages (fun _ => TRANSACTION_STATUS_IN_PROGRESS) demo_parent)
    (demo_log (fun _ => zero_page)).
Proof.
  apply (did_commit_correct demo_ctl demo_ctl 40 demo_live).
  - apply demo_ctl_running.
  - apply demo_ctl_running.
  - apply demo_tree_ok.
  - by split.
  - apply demo_log_is.
Defined.

(** C23. [SubTransGetTopmostTransaction] always ends: whatever the entries say,
    corrupt ones included, it returns a transaction reached by following parents
    that has no parent or is older than [TransactionXmin], or an error.  A parent
    that does not precede its child is an error, never a loop. *)
Theorem subtrans_topmost_total ctl xmin (L D : Z -> Prop) par xid s :
  SlruRunning ctl -> TransactionIdIsNormal xmin = true -> Subtrans.covered xmin L D par -> L xid ->
  TransactionIdIsValid xid = true -> Subtrans.parents_are ctl D par s ->
  wp (Subtrans.SubTransGetTopmostTransaction ctl xmin xid)
    (fun top s' => Subtrans.is_topmost xmin par xid top /\ Subtrans.parents_are ctl D par s')
    (Subtrans.parents_are ctl D par) s.
Proof. intros HR Nm Hc Hx Hv H. by apply (Subtrans.get_topmost_wp ctl xmin L). Qed.

Lemma subtrans_topmost_total_witness :
  wp (Subtrans.SubTransGetTopmostTransaction demo_ctl 40 52)
    (fun top s' => Subtrans.is_topmost 40 demo_parent 52 top /\ Subtrans.parents_are demo_ctl demo_pages demo_parent s')
    (Subtrans.parents_are demo_ctl demo_pages demo_parent) (demo_slru demo_disk).
Proof.
  apply (subtrans_topmost_total demo_ctl 40 demo_live demo_pages demo_parent 52 (demo_slru demo_disk)).
  - apply demo_ctl_running.
  - done.
  - apply (parents_covered _ _ _ _ _ demo_tree_ok).
  - by split.
  - done.
  - apply demo_parents_are.
Defined.

(** C28. Parents are remembered: after [SubTransSetParent] succeeds,
    [SubTransGetParent] returns that parent for the transaction and the old one
    for every other transaction of an existing page, across evictions. *)
Theorem subtrans_set_get ctl (D : Z -> Prop) par xid parent y s :
  SlruRunning ctl -> Subtrans.parents_are ctl D par s ->
  0 <= xid -> D (Subtrans.TransactionIdToPage xid) -> is_u32 parent ->
  0 <= y -> D (Subtrans.TransactionIdToPage y) -> TransactionIdIsNormal y = true ->
  wp (Subtrans.SubTransSetParent ctl xid parent ;! Subtrans.SubTransGetParent ctl y)
    (fun p _ => p = if y =? xid then parent else par y) (fun _ => True) s.
Proof.
  intros HR H Hx Hd Hp Hy Hdy Ny. wp_step.
  eapply wp_impl; [by apply (Subtrans.set_parent_wp ctl D par) | | done]. intros [] s1 H1.
  eapply wp_impl; [by apply (Subtrans.get_parent_wp ctl D (set_at xid parent par)) | | done].
  intros p s2 [-> _]. by rewrite Ny.
Qed.

Lemma subtrans_set_get_witness :
  wp (Subtrans.SubTransSetParent demo_ctl 60 50 ;! Subtrans.SubTransGetParent demo_ctl 60)
    (fun p _ => p = 50) (fun _ => True) (demo_slru demo_disk).
Proof.
  apply (subtrans_set_get demo_ctl demo_pages demo_parent 60 50 60 (demo_slru demo_disk)); try done.
  - apply demo_ctl_running.
  - apply demo_parents_are.
Defined.
