(* ===== verification/ClogGroup.v ===== *)
(** * Group update of the commit log: [access/transam/clog/src/lib.rs]

    [TransactionIdSetPageStatus] under contention.  A backend that finds the bank
    lock taken publishes its request in its [PGPROC], pushes itself on a
    lock-free list and sleeps; the backend that found the list empty is the
    leader, takes the lock once, detaches the list, updates the log for every
    member and wakes them.

    Any number of backends run the code below, one call after another, one step
    at a time in any order.  A step is one access to memory that other backends
    can see at that moment: the stores to a backend's own fields before it enters
    the list are part of the step that follows them.  Atomics are sequentially
    consistent here; wake-ups may come that nobody asked for. *)

From S2P Require Import Prelude Xid ItemPtr Snapshot Slru SlruSpec Clog ClogSpec.

Definition THRESHOLD_SUBTRANS_CLOG_OPT : nat := 5.

(** The arguments of one call of [TransactionIdSetPageStatus]. *)
Record Call := {
  c_xid : Z; c_subxids : list Z; c_status : Z; c_lsn : Z; c_pageno : Z;
  all_xact_same_page : bool
}.

(** What the backend's [PGPROC] says of its transaction during that call: the
    xid and the first [subxidStatus.count] cached subxids. *)
Record PGPROC := { p_xid : Z; p_subxids : list Z }.

(** The [clogGroup..] fields of a [PGPROC]. *)
Record Member := {
  clogGroupMember : bool;
  clogGroupMemberXid : Z;
  clogGroupMemberXidStatus : Z;
  clogGroupMemberPage : Z;
  clogGroupMemberLsn : Z;
  clogGroupNext : option nat
}.

(** Where a backend is. *)
Inductive PC :=
| Calling                                     (* at the top of [TransactionIdSetPageStatus] *)
| Acquiring                                   (* [LwGuard::acquire(lock)], the ordinary way *)
| Direct                                      (* lock held, about to update the page *)
| Publishing                                  (* lock found taken, before the list is looked at *)
| Joining (nextidx : option nat)              (* top of the push loop *)
| Linking (nextidx : option nat)              (* next stored, before the compare-exchange *)
| Waiting (extra_waits : nat)                 (* follower, on its semaphore *)
| Leading                                     (* leader, acquiring the bank lock *)
| Detaching                                   (* lock held, before the swap *)
| Draining (nextidx wakeidx : option nat) (prevpageno : Z)
| Switching (this : nat) (wakeidx : option nat) (thispageno : Z)  (* between two bank locks *)
| Waking (wakeidx : option nat)
| Posting (this : nat) (wakeidx : option nat) (* before the semaphore is posted *)
| Returned.

Record Group := {
  slru : SlruShared;
  bank_lock : Z -> option nat;
  clogGroupFirst : option nat;
  mem : nat -> Member;
  sem : nat -> nat;
  pc : nat -> PC;
  round : nat -> nat;
  (** history: the requests that have been written to the log, in order, each by
      its backend and the number of its call *)
  applied : list (nat * nat)
}.

Definition upd {A} (p : nat) (v : A) (f : nat -> A) : nat -> A :=
  fun q => if decide (q = p) then v else f q.

Definition set_pc (p : nat) (c : PC) (s : Group) : Group :=
  {| slru := slru s; bank_lock := bank_lock s; clogGroupFirst := clogGroupFirst s; mem := mem s;
     sem := sem s; pc := upd p c (pc s); round := round s; applied := applied s |}.
Definition set_lock (b : Z) (h : option nat) (s : Group) : Group :=
  {| slru := slru s; bank_lock := set_at b h (bank_lock s); clogGroupFirst := clogGroupFirst s;
     mem := mem s; sem := sem s; pc := pc s; round := round s; applied := applied s |}.
Definition set_first (h : option nat) (s : Group) : Group :=
  {| slru := slru s; bank_lock := bank_lock s; clogGroupFirst := h; mem := mem s;
     sem := sem s; pc := pc s; round := round s; applied := applied s |}.
Definition set_mem (p : nat) (m : Member) (s : Group) : Group :=
  {| slru := slru s; bank_lock := bank_lock s; clogGroupFirst := clogGroupFirst s;
     mem := upd p m (mem s); sem := sem s; pc := pc s; round := round s; applied := applied s |}.
Definition set_sem (p n : nat) (s : Group) : Group :=
  {| slru := slru s; bank_lock := bank_lock s; clogGroupFirst := clogGroupFirst s; mem := mem s;
     sem := upd p n (sem s); pc := pc s; round := round s; applied := applied s |}.
Definition next_round (p : nat) (s : Group) : Group :=
  {| slru := slru s; bank_lock := bank_lock s; clogGroupFirst := clogGroupFirst s; mem := mem s;
     sem := sem s; pc := pc s; round := upd p (S (round s p)) (round s); applied := applied s |}.
Definition record_applied (q : nat) (sl : SlruShared) (s : Group) : Group :=
  {| slru := sl; bank_lock := bank_lock s; clogGroupFirst := clogGroupFirst s; mem := mem s;
     sem := sem s; pc := pc s; round := round s; applied := applied s ++ [(q, round s q)] |}.

Definition with_next (n : option nat) (m : Member) : Member :=
  {| clogGroupMember := clogGroupMember m; clogGroupMemberXid := clogGroupMemberXid m;
     clogGroupMemberXidStatus := clogGroupMemberXidStatus m; clogGroupMemberPage := clogGroupMemberPage m;
     clogGroupMemberLsn := clogGroupMemberLsn m; clogGroupNext := n |}.

(** [clogGroupNext.store(INVALID_PROC_NUMBER); clogGroupMember.store(false)] *)
Definition leave (m : Member) : Member :=
  {| clogGroupMember := false; clogGroupMemberXid := clogGroupMemberXid m;
     clogGroupMemberXidStatus := clogGroupMemberXidStatus m; clogGroupMemberPage := clogGroupMemberPage m;
     clogGroupMemberLsn := clogGroupMemberLsn m; clogGroupNext := None |}.

(** The five stores with which a call publishes its request. *)
Definition publish (c : Call) (m : Member) : Member :=
  {| clogGroupMember := true; clogGroupMemberXid := c_xid c; clogGroupMemberXidStatus := c_status c;
     clogGroupMemberPage := c_pageno c; clogGroupMemberLsn := c_lsn c; clogGroupNext := clogGroupNext m |}.

(** A step leads on, has to wait, or fails inside the critical section of the
    commit, which takes the server down. *)
Inductive Outcome := Next (s : Group) | Blocked | Crash (s : Group).

Definition my_proc_matches (xid : Z) (subxids : list Z) (proc : option PGPROC) : bool :=
  match proc with
  | None => false
  | Some proc =>
      TransactionIdEquals xid (p_xid proc)
      && (length subxids =? length (p_subxids proc))%nat
      && (bool_decide (subxids = []) || bool_decide (subxids = p_subxids proc))
  end.

Section Steps.
Context (ctl : SlruCtl) (call : nat -> nat -> Call) (MyProc : nat -> nat -> option PGPROC).

Definition the_call (s : Group) (p : nat) : Call := call p (round s p).

Definition member_subxids (s : Group) (q : nat) : list Z :=
  match MyProc q (round s q) with Some proc => p_subxids proc | None => [] end.

(** [LwGuard::acquire] of the bank of [pageno]. *)
Definition acquire (p : nat) (pageno : Z) (next : PC) (s : Group) : Outcome :=
  match bank_lock s (bank_of ctl pageno) with
  | None => Next (set_pc p next (set_lock (bank_of ctl pageno) (Some p) s))
  | Some _ => Blocked
  end.

Definition release (pageno : Z) (s : Group) : Group := set_lock (bank_of ctl pageno) None s.

(** [TransactionIdSetPageStatusInternal] on behalf of backend [q]. *)
Definition apply_for (q : nat) (xid : Z) (subxids : list Z) (status lsn pageno : Z)
    (k : Group -> Group) (s : Group) : Outcome :=
  match TransactionIdSetPageStatusInternal ctl xid subxids status lsn pageno (slru s) with
  | (Ok _, sl) => Next (k (record_applied q sl s))
  | (_, sl) => Crash s
  end.

Definition group_eligible (c : Call) (proc : option PGPROC) : bool :=
  all_xact_same_page c && (length (c_subxids c) <=? THRESHOLD_SUBTRANS_CLOG_OPT)%nat
  && my_proc_matches (c_xid c) (c_subxids c) proc.

(** May we push ourselves in front of [nextidx]? *)
Definition refused (s : Group) (pageno : Z) (nextidx : option nat) : bool :=
  match nextidx with
  | Some h => negb (clogGroupMemberPage (mem s h) =? pageno)
  | None => false
  end.

(** The next step of backend [p]. *)
Definition gstep (p : nat) (s : Group) : Outcome :=
  let c := the_call s p in
  match pc s p with
  | Calling =>
      if group_eligible c (MyProc p (round s p)) then
        match bank_lock s (bank_of ctl (c_pageno c)) with
        | None => acquire p (c_pageno c) Direct s
        | Some _ => Next (set_pc p Publishing s)
        end
      else Next (set_pc p Acquiring s)
  | Acquiring => acquire p (c_pageno c) Direct s
  | Direct =>
      apply_for p (c_xid c) (c_subxids c) (c_status c) (c_lsn c) (c_pageno c)
        (fun s => set_pc p Returned (release (c_pageno c) s)) s
  | Publishing => Next (set_pc p (Joining (clogGroupFirst s)) (set_mem p (publish c (mem s p)) s))
  | Joining nextidx =>
      if refused s (c_pageno c) nextidx
      then Next (set_pc p Acquiring (set_mem p (leave (mem s p)) s))
      else Next (set_pc p (Linking nextidx) (set_mem p (with_next nextidx (mem s p)) s))
  | Linking nextidx =>
      if bool_decide (clogGroupFirst s = nextidx)
      then Next (set_pc p (match nextidx with None => Leading | Some _ => Waiting 0 end)
                   (set_first (Some p) s))
      else Next (set_pc p (Joining (clogGroupFirst s)) s)
  | Waiting extra =>
      match sem s p with
      | O => Blocked
      | S k =>
          if clogGroupMember (mem s p)
          then Next (set_pc p (Waiting (S extra)) (set_sem p k s))
          else Next (set_pc p Returned (set_sem p (k + extra) s))
      end
  | Leading => acquire p (clogGroupMemberPage (mem s p)) Detaching s
  | Detaching =>
      Next (set_pc p (Draining (clogGroupFirst s) (clogGroupFirst s) (clogGroupMemberPage (mem s p)))
              (set_first None s))
  | Draining None wakeidx prevpageno => Next (set_pc p (Waking wakeidx) (release prevpageno s))
  | Draining (Some q) wakeidx prevpageno =>
      let thispageno := clogGroupMemberPage (mem s q) in
      if negb (thispageno =? prevpageno) && negb (bank_of ctl thispageno =? bank_of ctl prevpageno)
      then Next (set_pc p (Switching q wakeidx thispageno) (release prevpageno s))
      else
        apply_for q (clogGroupMemberXid (mem s q)) (member_subxids s q)
          (clogGroupMemberXidStatus (mem s q)) (clogGroupMemberLsn (mem s q)) thispageno
          (fun s => set_pc p (Draining (clogGroupNext (mem s q)) wakeidx thispageno) s) s
  | Switching q wakeidx thispageno => acquire p thispageno (Draining (Some q) wakeidx thispageno) s
  | Waking None => Next (set_pc p Returned s)
  | Waking (Some q) =>
      let rest := clogGroupNext (mem s q) in
      Next (set_pc p (if decide (q = p) then Waking rest else Posting q rest)
              (set_mem q (leave (mem s q)) s))
  | Posting q rest => Next (set_pc p (Waking rest) (set_sem q (S (sem s q)) s))
  | Returned => Next (set_pc p Calling (next_round p s))
  end.

(** A semaphore may be posted by parts of the server that have nothing to do
    with the log. *)
Definition stray_post (q : nat) (s : Group) : Group := set_sem q (S (sem s q)) s.

Inductive reachable (s0 : Group) : Group -> Prop :=
| reach_start : reachable s0 s0
| reach_step p s s' : reachable s0 s -> gstep p s = Next s' -> reachable s0 s'
| reach_post q s : reachable s0 s -> reachable s0 (stray_post q s).

(** Run a schedule. *)
Fixpoint run (schedule : list nat) (s : Group) : option Group :=
  match schedule with
  | [] => Some s
  | p :: rest => match gstep p s with Next s' => run rest s' | _ => None end
  end.
End Steps.

(** Nobody has called yet. *)
Definition quiet (sl : SlruShared) : Group := {|
  slru := sl; bank_lock _ := None; clogGroupFirst := None;
  mem _ := {| clogGroupMember := false; clogGroupMemberXid := 0; clogGroupMemberXidStatus := 0;
              clogGroupMemberPage := 0; clogGroupMemberLsn := 0; clogGroupNext := None |};
  sem _ := O; pc _ := Calling; round _ := O; applied := []
|}.
