(* ===== verification/ClogGroupSpec.v ===== *)
(** * The group update: invariant

    Every backend that is not on its own is in exactly one list: the one being
    formed, whose last element is the backend that will lead it, or the one some
    leader has detached and is working through. *)

From S2P Require Import Prelude Xid ItemPtr Snapshot Slru SlruSpec Clog ClogSpec ClogGroup.

Lemma upd_eq {A} p (v : A) f : upd p v f p = v.
Proof. unfold upd. by rewrite decide_True. Qed.
Lemma upd_ne {A} p q (v : A) f : q <> p -> upd p v f q = f q.
Proof. intros H. unfold upd. by rewrite decide_False. Qed.

(** ** Linked lists *)

(** From [h] along [clogGroupNext] lies [l]. *)
Fixpoint linked (m : nat -> Member) (h : option nat) (l : list nat) : Prop :=
  match l with
  | [] => h = None
  | q :: l => h = Some q /\ linked m (clogGroupNext (m q)) l
  end.

Lemma linked_frame m m' l : forall h,
  (forall q, q ∈ l -> clogGroupNext (m' q) = clogGroupNext (m q)) -> linked m h l -> linked m' h l.
Proof.
  induction l as [|q l IH]; intros h H; cbn; [done|]. intros [-> L]. split; [done|].
  rewrite H by apply list_elem_of_here. apply IH; [|done]. intros r Hr. apply H. by apply list_elem_of_further.
Qed.

Lemma linked_some m q l : linked m (Some q) l -> exists l', l = q :: l' /\ linked m (clogGroupNext (m q)) l'.
Proof. destruct l as [|r l]; cbn; [done|]. intros [[= <-] L]. eauto. Qed.

Lemma linked_none m l : linked m None l -> l = [].
Proof. destruct l; cbn; [done|]. by intros [? _]. Qed.

Lemma last_in (l : list nat) p : list.last l = Some p -> p ∈ l.
Proof. intros H. apply last_Some in H as [l' ->]. apply elem_of_app. right. apply list_elem_of_here. Qed.

(** ** Ghost state *)

Inductive Place := Out | InGroup | OwnedBy (leader : nat).

#[export] Instance Place_eq_dec : EqDecision Place.
Proof. solve_decision. Defined.

(** The list being formed, the list each leader works through, and where each
    backend is. *)
Record Ghost := { forming : list nat; owned : nat -> list nat; place : nat -> Place }.

Section Inv.
Context (ctl : SlruCtl) `{!SlruRunning ctl} (call : nat -> nat -> Call).
Context (MyProc : nat -> nat -> option PGPROC).
(** The pages that exist and the log before the first call. *)
Context (D : Z -> Prop) (f0 : Z -> Z).

(** The writes of a request. *)
Definition request_writes (r : nat * nat) : list (Z * Z) :=
  let c := call (fst r) (snd r) in page_writes (c_xid c) (c_subxids c) (c_status c).

(** Every call is for one existing page. *)
Definition calls_ok : Prop := forall p k, let c := call p k in
  0 <= c_pageno c /\ D (c_pageno c) /\
  on_one_page (c_pageno c) (page_writes (c_xid c) (c_subxids c) (c_status c)).
Hypothesis Calls : calls_ok.

Definition me (s : Group) (p : nat) : nat * nat := (p, round s p).
Definition done_ (s : Group) (p : nat) : Prop := me s p ∈ applied s.
Definition fresh (s : Group) (p : nat) : Prop := me s p ∉ applied s.

(** The request in the backend's fields is that of its call. *)
Definition published (s : Group) (p : nat) : Prop :=
  let c := the_call call s p in
  let m := mem s p in
  clogGroupMember m = true /\ clogGroupMemberXid m = c_xid c /\ clogGroupMemberXidStatus m = c_status c /\
  clogGroupMemberPage m = c_pageno c /\ clogGroupMemberLsn m = c_lsn c /\
  member_subxids MyProc s p = c_subxids c.

(** Nothing is left behind in the backend's fields. *)
Definition clear (s : Group) (p : nat) : Prop :=
  clogGroupMember (mem s p) = false /\ clogGroupNext (mem s p) = None.

Definition woken (s : Group) (p : nat) : Prop :=
  (1 <= sem s p)%nat \/ exists l rest, pc s l = Posting p rest.

(** A leader's list: the part it has dealt with and the part it has not. *)
Definition drains (s : Group) (g : Ghost) (p : nat) (todo wake : option nat) : Prop :=
  place g p = OwnedBy p /\ list.last (owned g p) = Some p /\ published s p /\ linked (mem s) wake (owned g p) /\
  exists dealt rest, owned g p = dealt ++ rest /\ linked (mem s) todo rest /\
    Forall (done_ s) dealt /\ Forall (fresh s) rest.

Definition wakes (s : Group) (g : Ghost) (p : nat) (wake : option nat) : Prop :=
  linked (mem s) wake (owned g p) /\ Forall (done_ s) (owned g p) /\ done_ s p.

(** What holds of backend [p], by where it is in the code. *)
Definition proc_ok (s : Group) (g : Ghost) (p : nat) : Prop :=
  match pc s p with
  | Calling | Acquiring | Direct => place g p = Out /\ owned g p = [] /\ fresh s p /\ clear s p
  | Publishing =>
      place g p = Out /\ owned g p = [] /\ fresh s p /\ clear s p /\
      member_subxids MyProc s p = c_subxids (the_call call s p)
  | Joining _ => place g p = Out /\ owned g p = [] /\ fresh s p /\ published s p
  | Linking n =>
      place g p = Out /\ owned g p = [] /\ fresh s p /\ published s p /\ clogGroupNext (mem s p) = n
  | Waiting _ =>
      owned g p = [] /\
      ((place g p = InGroup /\ fresh s p /\ published s p) \/
       (exists l, l <> p /\ place g p = OwnedBy l /\ published s p) \/
       (place g p = Out /\ done_ s p /\ clear s p /\ woken s p))
  | Leading | Detaching =>
      place g p = InGroup /\ owned g p = [] /\ list.last (forming g) = Some p /\ fresh s p /\ published s p
  | Draining todo wake _ => drains s g p todo wake
  | Switching q wake _ => drains s g p (Some q) wake
  | Waking wake =>
      wakes s g p wake /\
      ((place g p = Out /\ owned g p = [] /\ clear s p) \/
       (place g p = OwnedBy p /\ list.last (owned g p) = Some p /\ published s p))
  | Posting q wake =>
      wakes s g p wake /\ q <> p /\ place g p = OwnedBy p /\ list.last (owned g p) = Some p /\ published s p
  | Returned => place g p = Out /\ owned g p = [] /\ done_ s p /\ clear s p
  end.

(** The bank whose lock backend [p] holds. *)
Definition holding (s : Group) (p : nat) : option Z :=
  match pc s p with
  | Direct => Some (bank_of ctl (c_pageno (the_call call s p)))
  | Detaching => Some (bank_of ctl (clogGroupMemberPage (mem s p)))
  | Draining _ _ prevpageno => Some (bank_of ctl prevpageno)
  | _ => None
  end.

Record ghost_ok (s : Group) (g : Ghost) : Prop := {
  g_forming : linked (mem s) (clogGroupFirst s) (forming g);
  g_forming_nodup : NoDup (forming g);
  g_in : forall p, p ∈ forming g <-> place g p = InGroup;
  g_owned : forall p l, p ∈ owned g l <-> place g p = OwnedBy l;
  g_owned_nodup : forall l, NoDup (owned g l);
  g_leader : forall l, list.last (forming g) = Some l -> pc s l = Leading \/ pc s l = Detaching;
  g_procs : forall p, proc_ok s g p
}.

(** Every request is written at most once, and only after its call began. *)
Definition history_ok (s : Group) : Prop :=
  NoDup (applied s) /\
  (forall q k, (q, k) ∈ applied s -> (k <= round s q)%nat) /\
  (forall q k, (k < round s q)%nat -> (q, k) ∈ applied s).

Definition locks_ok (s : Group) : Prop :=
  forall b p, bank_lock s b = Some p <-> holding s p = Some b.

(** The log is the old one with the requests written to it, one after another. *)
Definition log_ok (s : Group) : Prop :=
  clog_is ctl D (apply_writes (flat_map request_writes (applied s)) f0) (slru s).

Definition inv (s : Group) : Prop :=
  (exists g, ghost_ok s g) /\ history_ok s /\ locks_ok s /\ log_ok s.

(** ** Framing *)

Lemma published_frame s s' p :
  mem s' p = mem s p -> round s' p = round s p -> published s p -> published s' p.
Proof. unfold published, the_call, member_subxids. by intros -> ->. Qed.

Lemma clear_frame s s' p : mem s' p = mem s p -> clear s p -> clear s' p.
Proof. unfold clear. by intros ->. Qed.

Lemma drains_frame s s' g g' p todo wake :
  place g' p = place g p -> owned g' p = owned g p ->
  (forall q, q ∈ owned g p -> mem s' q = mem s q /\ round s' q = round s q /\ (done_ s' q <-> done_ s q)) ->
  drains s g p todo wake -> drains s' g' p todo wake.
Proof.
  intros Ep Eo H (P1 & P2 & P3 & P4 & dealt & rest & E1 & E2 & E3 & E4).
  assert (Hp : p ∈ owned g p) by (apply last_Some in P2 as [l ->]; apply elem_of_app; right; apply list_elem_of_here).
  assert (Hm : forall l, (forall q, q ∈ l -> q ∈ owned g p) -> forall h, linked (mem s) h l -> linked (mem s') h l).
  { intros l Hl h. apply linked_frame. intros q Hq. by destruct (H q (Hl q Hq)) as (-> & _). }
  unfold drains. rewrite Ep, Eo. split; [done|]. split; [done|]. split.
  { eapply published_frame; [by apply H | by apply H | done]. }
  split; [by apply Hm|]. exists dealt, rest. rewrite E1 in H, Hm. split; [done|]. split; [|split].
  - apply Hm; [|done]. intros q Hq. apply elem_of_app. by right.
  - rewrite list.Forall_forall in *. intros q Hq. apply H; [apply elem_of_app; by left | by apply E3].
  - rewrite list.Forall_forall in *. intros q Hq. unfold fresh. fold (done_ s' q).
    rewrite (proj2 (proj2 (H q ltac:(apply elem_of_app; by right)))). by apply E4.
Qed.

Lemma wakes_frame s s' g g' p wake :
  owned g' p = owned g p ->
  (forall q, q = p \/ q ∈ owned g p -> (done_ s' q <-> done_ s q)) ->
  (forall q, q ∈ owned g p -> mem s' q = mem s q) ->
  wakes s g p wake -> wakes s' g' p wake.
Proof.
  intros Eo Hd Hm (W1 & W2 & W3). unfold wakes. rewrite Eo. split; [|split].
  - eapply linked_frame; [|done]. intros q Hq. by rewrite Hm.
  - rewrite list.Forall_forall in *. intros q Hq. apply Hd; auto.
  - apply Hd; auto.
Qed.

(** Backend [p] waits in somebody else's list. *)
Definition led (g : Ghost) (p : nat) : Prop := exists l, l <> p /\ place g p = OwnedBy l.

Lemma proc_frame s s' g g' p :
  pc s' p = pc s p -> place g' p = place g p -> owned g' p = owned g p ->
  (forall q, q = p \/ q ∈ owned g p -> mem s' q = mem s q /\ round s' q = round s q) ->
  (forall q, (q = p /\ ~ led g p) \/ q ∈ owned g p -> (done_ s' q <-> done_ s q)) ->
  (woken s p -> woken s' p) ->
  (place g p = InGroup -> list.last (forming g) = Some p -> list.last (forming g') = Some p) ->
  proc_ok s g p -> proc_ok s' g' p.
Proof.
  intros Epc Epl Eow Hm Hd Hw Hl. destruct (Hm p (or_introl eq_refl)) as (Em & Er).
  assert (Hpub : published s p -> published s' p) by by apply (published_frame s s' p).
  assert (Hclear : clear s p -> clear s' p) by by apply (clear_frame s s' p).
  assert (Hown : place g p = Out \/ place g p = InGroup \/ place g p = OwnedBy p -> done_ s' p <-> done_ s p).
  { intros Hpl. apply Hd. left. split; [done|]. intros (l & Hne & Hll). destruct Hpl as [|[|]]; congruence. }
  assert (Hdr : forall t w, drains s g p t w -> drains s' g' p t w).
  { intros t w. apply drains_frame; [done | done |]. intros q Hq. split; [apply Hm; auto|]. split; [apply Hm; auto|]. auto. }
  assert (Hwk : forall w, place g p = Out \/ place g p = OwnedBy p -> wakes s g p w -> wakes s' g' p w).
  { intros w Hpl. apply wakes_frame; [done | |].
    - intros q [->|Hq]; [apply Hown; tauto | auto].
    - intros q Hq. apply Hm; auto. }
  unfold proc_ok, fresh, done_, member_subxids, the_call in *. rewrite Epc, Epl, Eow, ?Em, ?Er.
  destruct (pc s p); try tauto.
  - intros (A & [B|[(l & B)|B]]); split; try done; [left; tauto | right; left; exists l; tauto | right; right; tauto].
  - apply Hdr.
  - apply Hdr.
  - specialize (Hwk wakeidx). tauto.
  - specialize (Hwk wakeidx). tauto.
Qed.

Lemma woken_frame p s s' r :
  (forall l, l <> p -> pc s' l = pc s l) -> (forall q rest, pc s p <> Posting q rest) ->
  (sem s r <= sem s' r)%nat -> woken s r -> woken s' r.
Proof.
  intros Hpc Hp Hs [?|(l & rest & Hl)]; [left; lia|]. right. exists l, rest. rewrite Hpc; [done|].
  intros ->. by eapply Hp.
Qed.

(** A step of [p] that moves nobody between lists. *)
Lemma same_ghost p s s' g :
  ghost_ok s g -> clogGroupFirst s' = clogGroupFirst s ->
  (forall r, r <> p -> pc s' r = pc s r) ->
  (forall r, (r <> p \/ place g p <> Out) -> mem s' r = mem s r /\ round s' r = round s r) ->
  (forall r, (r <> p \/ place g p <> Out) -> place g r <> OwnedBy p -> (done_ s' r <-> done_ s r)) ->
  (forall r, r <> p -> woken s r -> woken s' r) ->
  (list.last (forming g) = Some p -> pc s' p = Leading \/ pc s' p = Detaching) ->
  proc_ok s' g p -> ghost_ok s' g.
Proof.
  intros [F FN I O ON L P] Hf Hpc Hm Hd Hw Hl Hp.
  assert (Hout : forall r, place g r <> Out -> r <> p \/ place g p <> Out).
  { intros r Hr. destruct (decide (r = p)) as [->|]; auto. }
  split; try done.
  - rewrite Hf. eapply linked_frame; [|done]. intros q Hq. destruct (Hm q) as [-> _]; [|done].
    apply Hout. apply I in Hq. congruence.
  - intros l Hlast. destruct (decide (l = p)) as [->|Hne]; [auto|]. rewrite Hpc by done. auto.
  - intros r. destruct (decide (r = p)) as [->|Hne]; [done|].
    assert (Hr : forall q, q = r \/ q ∈ owned g r -> q <> p \/ place g p <> Out).
    { intros q [->|Hq]; [auto|]. apply Hout. apply O in Hq. congruence. }
    apply (proc_frame s s' g g); auto.
    intros q Hq. apply Hd; [apply Hr; tauto|]. destruct Hq as [[-> Hled]|Hq]; [|apply O in Hq; congruence].
    intros Hpl. apply Hled. by exists p.
Qed.
(** ** The steps, one kind at a time *)

(** The fields after a step. *)
Ltac fields := cbn [set_pc set_lock set_first set_mem set_sem next_round record_applied release
  slru bank_lock clogGroupFirst mem sem pc round applied] in *.

Ltac others := intros; rewrite ?upd_ne by done; done.

(** [p] moves on alone: perhaps a lock changes hands or [p] takes a semaphore
    count, perhaps it writes its own fields while nobody else can see them. *)
Lemma move_on p s s' g :
  ghost_ok s g -> (forall q rest, pc s p <> Posting q rest) ->
  clogGroupFirst s' = clogGroupFirst s -> round s' = round s -> applied s' = applied s ->
  (forall r, r <> p -> pc s' r = pc s r) -> (forall r, r <> p -> mem s' r = mem s r) ->
  (forall r, r <> p -> sem s' r = sem s r) ->
  (mem s' p = mem s p \/ place g p = Out) ->
  (list.last (forming g) = Some p -> pc s' p = Leading \/ pc s' p = Detaching) ->
  proc_ok s' g p -> ghost_ok s' g.
Proof.
  intros G Hn Hf Hr Ha Hpc Hm Hs Hmp Hl Hp. apply (same_ghost p s s' g); try done.
  - intros r Hd. rewrite Hr. split; [|done]. destruct (decide (r = p)) as [->|Hne]; [|auto].
    destruct Hmp; [done | tauto].
  - intros r _ _. unfold done_, me. by rewrite Hr, Ha.
  - intros r Hne. apply (woken_frame p); [done | done | by rewrite Hs].
Qed.

(** A backend in no list leads none. *)
Lemma not_last s g p : ghost_ok s g -> place g p <> InGroup -> list.last (forming g) <> Some p.
Proof. intros G Hp Hl. apply Hp, (g_in s g G). by apply last_in. Qed.

(** Entering the call. *)
Lemma calling_step p s g s' :
  ghost_ok s g -> pc s p = Calling -> gstep ctl call MyProc p s = Next s' -> ghost_ok s' g.
Proof.
  intros G Hpc. pose proof (g_procs s g G p) as P. unfold proc_ok in P. rewrite Hpc in P.
  destruct P as (P1 & P2 & P3 & P4 & P5). unfold gstep. rewrite Hpc.
  assert (Hl : list.last (forming g) <> Some p) by (apply (not_last s); [done | congruence]).
  destruct (group_eligible _ _) eqn:El.
  - unfold acquire. destruct (bank_lock s _) eqn:B; intros [= <-].
    + apply (move_on p s _ g); fields; try done; try others; [by rewrite Hpc | by left|].
      unfold proc_ok. fields. rewrite upd_eq. repeat split; fields; try done.
      unfold group_eligible, my_proc_matches in El. unfold member_subxids. fields.
      apply andb_prop in El as [_ El]. unfold the_call. destruct (MyProc p (round s p)) as [pr|]; [|done].
      apply andb_prop in El as [El E2]. apply andb_prop in El as [_ E1]. apply Nat.eqb_eq in E1.
      apply orb_prop in E2 as [E2|E2]; apply bool_decide_eq_true in E2; [|done].
      unfold the_call in E1, E2. rewrite E2 in *. by destruct (p_subxids pr).
    + apply (move_on p s _ g); fields; try done; try others; [by rewrite Hpc | by left|].
      unfold proc_ok. fields. rewrite upd_eq. by repeat split.
  - intros [= <-]. apply (move_on p s _ g); fields; try done; try others; [by rewrite Hpc | by left|].
    unfold proc_ok. fields. rewrite upd_eq. by repeat split.
Qed.
(** [p] moves on alone from a place that is not [Posting]. *)
Ltac alone p s g Hpc :=
  apply (move_on p s _ g); fields; try done; try others; try (by rewrite Hpc); try (by left); try (by right);
  unfold proc_ok; fields; rewrite ?upd_eq.

(** The request is published before the backend can be found by anybody. *)
Lemma publishing_step p s g :
  ghost_ok s g -> pc s p = Publishing ->
  ghost_ok (set_pc p (Joining (clogGroupFirst s)) (set_mem p (publish (the_call call s p) (mem s p)) s)) g.
Proof.
  intros G Hpc. pose proof (g_procs s g G p) as P. unfold proc_ok in P. rewrite Hpc in P.
  destruct P as (P1 & P2 & P3 & P4 & P5).
  assert (Hl : list.last (forming g) <> Some p) by (apply (not_last s); [done | congruence]).
  alone p s g Hpc. by repeat split; fields; rewrite ?upd_eq.
Qed.

Lemma outside_step p s g s' :
  ghost_ok s g -> (pc s p = Acquiring \/ exists n, pc s p = Joining n) ->
  gstep ctl call MyProc p s = Next s' -> ghost_ok s' g.
Proof.
  intros G [Hpc|[n Hpc]]; pose proof (g_procs s g G p) as P; unfold proc_ok in P; rewrite Hpc in P;
    destruct P as (P1 & P2 & P3 & P4); unfold gstep; rewrite Hpc;
    assert (Hl : list.last (forming g) <> Some p) by (apply (not_last s); [done | congruence]).
  - unfold acquire. destruct (bank_lock s _) eqn:B; intros [= <-]. alone p s g Hpc. by destruct P4 as [P5 P6]; repeat split.
  - destruct (refused _ _ _); intros [= <-]; alone p s g Hpc.
    + repeat split; try done; fields; by rewrite upd_eq.
    + destruct P4 as (Q1 & Q2 & Q3 & Q4 & Q5 & Q6). by repeat split; fields; rewrite ?upd_eq.
Qed.

(** A failed compare-exchange. *)
Lemma retry_step p s g n :
  ghost_ok s g -> pc s p = Linking n -> ghost_ok (set_pc p (Joining (clogGroupFirst s)) s) g.
Proof.
  intros G Hpc. pose proof (g_procs s g G p) as P. unfold proc_ok in P. rewrite Hpc in P.
  destruct P as (P1 & P2 & P3 & P4 & P5).
  assert (Hl : list.last (forming g) <> Some p) by (apply (not_last s); [done | congruence]).
  alone p s g Hpc. by destruct P4 as (Q1 & Q2 & Q3 & Q4 & Q5 & Q6); repeat split.
Qed.

(** The push. *)
Definition pushed (p : nat) (g : Ghost) : Ghost :=
  {| forming := p :: forming g; owned := owned g; place := upd p InGroup (place g) |}.

Lemma last_cons_some (q : nat) l p : list.last l = Some p -> list.last (q :: l) = Some p.
Proof. intros H. apply last_Some in H as [l' ->]. by rewrite app_comm_cons, last_snoc. Qed.

Lemma push_step p s g n :
  ghost_ok s g -> pc s p = Linking n -> clogGroupFirst s = n ->
  ghost_ok (set_pc p (match n with None => Leading | Some _ => Waiting 0 end) (set_first (Some p) s)) (pushed p g).
Proof.
  intros G Hpc Hn. pose proof (g_procs s g G p) as P. unfold proc_ok in P. rewrite Hpc in P.
  destruct P as (P1 & P2 & P3 & P4 & P5). destruct G as [F FN I O ON L Pr].
  assert (Hnot : p ∉ forming g) by (rewrite I; congruence).
  split; fields; cbn [pushed forming owned place].
  - split; [done|]. by rewrite P5, <- Hn.
  - by apply list.NoDup_cons.
  - intros q. rewrite elem_of_cons, I. destruct (decide (q = p)) as [->|Hq]; [rewrite upd_eq; tauto|].
    rewrite upd_ne by done. tauto.
  - intros q l. rewrite O. destruct (decide (q = p)) as [->|Hq]; [rewrite upd_eq, P1; done|]. by rewrite upd_ne.
  - done.
  - intros l Hlast. destruct n as [h|].
    + rewrite Hn in F. apply linked_some in F as (l' & Ef & _). rewrite Ef in Hlast.
      change (list.last (h :: l') = Some l) in Hlast. rewrite <- Ef in Hlast.
      rewrite upd_ne; [by apply L|]. intros ->. by apply Hnot, last_in.
    + rewrite Hn in F. apply linked_none in F. rewrite F in Hlast. injection Hlast as <-. rewrite upd_eq. by left.
  - intros r. destruct (decide (r = p)) as [->|Hr].
    + unfold proc_ok. fields. rewrite upd_eq. cbn [pushed forming owned place]. rewrite upd_eq.
      destruct n as [h|].
      * split; [done|]. left. split; [done|]. split; [done|]. by apply (published_frame s).
      * rewrite Hn in F. apply linked_none in F. rewrite F. by destruct P4 as (Q1 & Q2 & Q3 & Q4 & Q5 & Q6); repeat split.
    + apply (proc_frame s _ g); cbn [pushed forming owned place]; fields; try done; try others.
      * apply (woken_frame p); fields; [others | by rewrite Hpc | done].
      * intros _. apply last_cons_some.
Qed.
Lemma not_clear s p : published s p -> clogGroupMember (mem s p) = true.
Proof. by intros (H & _). Qed.

(** A follower takes a count from its semaphore. *)
Lemma waiting_step p s g extra s' :
  ghost_ok s g -> pc s p = Waiting extra -> gstep ctl call MyProc p s = Next s' -> ghost_ok s' g.
Proof.
  intros G Hpc. pose proof (g_procs s g G p) as P. unfold proc_ok in P. rewrite Hpc in P. destruct P as [P1 P2].
  assert (Hl : list.last (forming g) <> Some p).
  { intros Hl. apply (g_leader s g G) in Hl. rewrite Hpc in Hl. by destruct Hl. }
  unfold gstep. rewrite Hpc. destruct (sem s p) as [|k]; [done|].
  destruct (clogGroupMember (mem s p)) eqn:M; intros [= <-]; alone p s g Hpc.
  - split; [done|]. destruct P2 as [(A & B & C)|[(l & A & B & C)|(A & B & C & E)]].
    + left. split; [done|]. split; [done | by apply (published_frame s)].
    + right. left. exists l. split; [done|]. split; [done | by apply (published_frame s)].
    + destruct C. congruence.
  - destruct P2 as [(A & B & C)|[(l & A & B & C)|(A & B & C & E)]].
    + apply not_clear in C. congruence.
    + apply not_clear in C. congruence.
    + by destruct C; repeat split.
Qed.

(** What is known of the members of a list. *)
Lemma in_group s g q :
  ghost_ok s g -> place g q = InGroup ->
  fresh s q /\ published s q /\ ((exists n, pc s q = Waiting n) \/ list.last (forming g) = Some q).
Proof.
  intros G Hp. pose proof (g_procs s g G q) as P. unfold proc_ok, drains, wakes in P.
  destruct (pc s q) eqn:E; try (by destruct_and?; destruct_or?; destruct_and?; congruence); [|tauto..].
  destruct P as [_ [(A & B & C)|[(l & A & B & C)|(A & B & C & F)]]]; [|congruence..]. eauto.
Qed.

Lemma in_owned s g q l :
  ghost_ok s g -> place g q = OwnedBy l -> published s q /\ (q = l \/ owned g q = [] /\ exists n, pc s q = Waiting n).
Proof.
  intros G Hp. pose proof (g_procs s g G q) as P. unfold proc_ok, drains, wakes in P.
  destruct (pc s q) eqn:E;
    try (by destruct_and?; destruct_or?; destruct_and?; split; [done | left; congruence]);
    try (by destruct_and?; destruct_or?; destruct_and?; congruence).
  { destruct P as [Po [(A & B & C)|[(l' & A & B & C)|(A & B & C & F)]]]; [congruence | | congruence].
    split; [done|]. right. eauto. }
  destruct P as [_ [(A & B & C)|(A & B & C)]]; [congruence|]. split; [done|]. left. congruence.
Qed.

(** The leader gets the lock. *)
Lemma leading_step p s g s' :
  ghost_ok s g -> pc s p = Leading -> gstep ctl call MyProc p s = Next s' -> ghost_ok s' g.
Proof.
  intros G Hpc. pose proof (g_procs s g G p) as P. unfold proc_ok in P. rewrite Hpc in P.
  destruct P as (P1 & P2 & P3 & P4 & P5). unfold gstep, acquire. rewrite Hpc.
  destruct (bank_lock s _); intros [= <-]. alone p s g Hpc; [by right|].
  destruct P5 as (Q1 & Q2 & Q3 & Q4 & Q5 & Q6). by repeat split.
Qed.

(** The leader detaches the list. *)
Definition detached (p : nat) (g : Ghost) : Ghost :=
  {| forming := []; owned := upd p (forming g) (owned g);
     place q := match place g q with InGroup => OwnedBy p | o => o end |}.

Lemma detach_step p s g pg :
  ghost_ok s g -> pc s p = Detaching ->
  ghost_ok (set_pc p (Draining (clogGroupFirst s) (clogGroupFirst s) pg) (set_first None s)) (detached p g).
Proof.
  intros G Hpc. pose proof (g_procs s g G p) as P. unfold proc_ok in P. rewrite Hpc in P.
  destruct P as (P1 & P2 & P3 & P4 & P5). pose proof G as [F FN I O ON L Pr].
  assert (Hnone : forall q l, place g q = OwnedBy l -> l <> p).
  { intros q l Hq ->. apply O in Hq. rewrite P2 in Hq. by apply not_elem_of_nil in Hq. }
  split; fields; cbn [detached forming owned place]; try done.
  - constructor.
  - intros q. split; [intros Hq; by apply not_elem_of_nil in Hq|]. by destruct (place g q).
  - intros q l. destruct (decide (l = p)) as [->|Hl].
    + rewrite upd_eq, I. destruct (place g q) eqn:E; [done..|]. pose proof (Hnone q _ E).
      split; [done | congruence].
    + rewrite upd_ne, O by done. destruct (place g q); [done | split; congruence | done].
  - intros l. destruct (decide (l = p)) as [->|Hl]; [by rewrite upd_eq | by rewrite upd_ne].
  - intros r. destruct (decide (r = p)) as [->|Hr].
    + unfold proc_ok. fields. rewrite upd_eq. unfold drains. cbn [detached forming owned place].
      rewrite upd_eq, P1. fields. split; [done|]. split; [done|]. split; [by apply (published_frame s)|].
      split; [done|]. exists [], (forming g). split; [done|]. split; [done|]. split; [by constructor|].
      apply list.Forall_forall. intros q Hq. apply I in Hq. by destruct (in_group s g q G Hq).
    + destruct (place g r) eqn:E.
      2:{ destruct (in_group s g r G E) as (B1 & B2 & [[n Bn]|B3]); [|congruence].
          pose proof (Pr r) as Pq. unfold proc_ok in Pq. rewrite Bn in Pq. destruct Pq as [Po _].
          unfold proc_ok. fields. rewrite upd_ne, Bn by done. cbn [detached forming owned place].
          rewrite upd_ne, E by done. split; [done|]. right. left. exists p. split; [done|]. split; [done|].
          by apply (published_frame s). }
      all: apply (proc_frame s _ g); cbn [detached forming owned place]; fields; try done; try others;
        [by rewrite E | | by rewrite E].
      all: apply (woken_frame p); fields; [others | by rewrite Hpc | done].
Qed.
(** The leader moves between bank locks, or is through with the list. *)
Lemma drain_move p s g s' todo wake prev :
  ghost_ok s g -> pc s p = Draining todo wake prev ->
  (exists q pg, todo = Some q /\ s' = set_pc p (Switching q wake pg) (release ctl prev s)) \/
  (todo = None /\ s' = set_pc p (Waking wake) (release ctl prev s)) -> ghost_ok s' g.
Proof.
  intros G Hpc Hs. pose proof (g_procs s g G p) as P. unfold proc_ok in P. rewrite Hpc in P.
  assert (Hl : list.last (forming g) <> Some p) by (apply (not_last s); [done | destruct P; congruence]).
  destruct Hs as [(q & pg & -> & ->)|[-> ->]]; alone p s g Hpc.
  - eapply drains_frame; [done | done | | exact P]. intros x _. by split.
  - destruct P as (P1 & P2 & P3 & P4 & dealt & rest & E1 & E2 & E3 & E4).
    apply linked_none in E2 as ->. rewrite app_nil_r in E1. split.
    + unfold wakes. rewrite E1 in *. split; [done|]. split; [done|].
      rewrite list.Forall_forall in E3. by apply E3, last_in.
    + right. split; [done|]. split; [done|]. by apply (published_frame s).
Qed.

Lemma switch_step p s g s' q wake pg :
  ghost_ok s g -> pc s p = Switching q wake pg -> gstep ctl call MyProc p s = Next s' -> ghost_ok s' g.
Proof.
  intros G Hpc. pose proof (g_procs s g G p) as P. unfold proc_ok in P. rewrite Hpc in P.
  assert (Hl : list.last (forming g) <> Some p) by (apply (not_last s); [done | destruct P; congruence]).
  unfold gstep, acquire. rewrite Hpc. destruct (bank_lock s _); intros [= <-]. alone p s g Hpc.
  eapply drains_frame; [done | done | | exact P]. intros x _. by split.
Qed.

Lemma done_record s q sl r : done_ (record_applied q sl s) r <-> done_ s r \/ r = q.
Proof.
  unfold done_, me. fields. rewrite elem_of_app, list_elem_of_singleton. split.
  - intros [?|[= -> _]]; auto.
  - intros [?| ->]; auto.
Qed.

(** The leader writes the request of [q]. *)
Lemma drain_apply p s g q wake prev pg sl :
  ghost_ok s g -> pc s p = Draining (Some q) wake prev ->
  ghost_ok (set_pc p (Draining (clogGroupNext (mem s q)) wake pg) (record_applied q sl s)) g.
Proof.
  intros G Hpc. pose proof (g_procs s g G p) as P. unfold proc_ok in P. rewrite Hpc in P.
  destruct P as (P1 & P2 & P3 & P4 & dealt & rest & E1 & E2 & E3 & E4).
  apply linked_some in E2 as (rest' & -> & E2).
  assert (Hq : place g q = OwnedBy p).
  { apply (g_owned s g G). rewrite E1. apply elem_of_app. right. apply list_elem_of_here. }
  assert (Hd : forall c r, done_ (set_pc p c (record_applied q sl s)) r <-> done_ s r \/ r = q)
    by (intros c r; apply (done_record s q sl r)).
  apply (same_ghost p s _ g); fields; try done; try others.
  - intros r _ Hr. rewrite Hd. split; [intros [?| ->]; [done | congruence] | auto].
  - intros r Hr. apply (woken_frame p); fields; [others | by rewrite Hpc | done].
  - intros Hl. exfalso. apply (not_last s g p G); [congruence | done].
  - unfold proc_ok. fields. rewrite upd_eq. unfold drains. fields. split; [done|]. split; [done|].
    split; [by apply (published_frame s)|]. split; [done|]. exists (dealt ++ [q]), rest'. rewrite <- app_assoc.
    split; [done|]. split; [done|]. pose proof (g_owned_nodup s g G p) as ND. rewrite E1 in ND.
    apply list.NoDup_app in ND as (_ & _ & ND). apply list.NoDup_cons in ND as [ND _].
    split; rewrite list.Forall_forall in *.
    + intros r. rewrite elem_of_app, list_elem_of_singleton, Hd. intros [Hr| ->]; [left; by apply E3 | by right].
    + intros r Hr Hf. apply Hd in Hf as [Hf| ->]; [|done]. apply (E4 r); [by apply list_elem_of_further | done].
Qed.

(** A backend writes its own request. *)
Lemma direct_apply p s g sl pg :
  ghost_ok s g -> pc s p = Direct ->
  ghost_ok (set_pc p Returned (release ctl pg (record_applied p sl s))) g.
Proof.
  intros G Hpc. pose proof (g_procs s g G p) as P. unfold proc_ok in P. rewrite Hpc in P.
  destruct P as (P1 & P2 & P3 & P4 & P5).
  assert (Hd : forall c r, done_ (set_pc p c (release ctl pg (record_applied p sl s))) r <-> done_ s r \/ r = p)
    by (intros c r; apply (done_record s p sl r)).
  apply (same_ghost p s _ g); fields; try done; try others.
  - intros r Hr _. rewrite Hd. split; [|auto]. intros [?| ->]; [done|]. destruct Hr; congruence.
  - intros r Hr. apply (woken_frame p); fields; [others | by rewrite Hpc | done].
  - intros Hl. exfalso. apply (not_last s g p G); [congruence | done].
  - unfold proc_ok. fields. rewrite upd_eq. repeat split; try done. apply Hd. by right.
Qed.

(** The leader unlinks the head of its list. *)
Definition unlinked (p q : nat) (rest : list nat) (g : Ghost) : Ghost :=
  {| forming := forming g; owned := upd p rest (owned g); place := upd q Out (place g) |}.

Lemma last_tail (q p : nat) l : list.last (q :: l) = Some p -> q <> p -> list.last l = Some p.
Proof. destruct l as [|x l]; cbn; [congruence | done]. Qed.

Lemma last_head (p : nat) l : NoDup (p :: l) -> list.last (p :: l) = Some p -> l = [].
Proof.
  intros ND H. apply list.NoDup_cons in ND as [ND _]. destruct l as [|x l]; [done|]. exfalso. apply ND. by apply last_in.
Qed.

Lemma wake_step p s g q :
  ghost_ok s g -> pc s p = Waking (Some q) ->
  exists g', ghost_ok (set_pc p (if decide (q = p) then Waking (clogGroupNext (mem s q)) else Posting q (clogGroupNext (mem s q)))
    (set_mem q (leave (mem s q)) s)) g'.
Proof.
  intros G Hpc. pose proof (g_procs s g G p) as P. unfold proc_ok in P. rewrite Hpc in P.
  destruct P as ((W1 & W2 & W3) & P). apply linked_some in W1 as (rest & Eo & W1). pose proof G as [F FN I O ON L Pr].
  destruct P as [(_ & P & _)|(P1 & P2 & P3)]; [congruence|]. rewrite Eo in *.
  assert (Hq : place g q = OwnedBy p) by (apply O; rewrite Eo; apply list_elem_of_here).
  pose proof (ON p) as ND. rewrite Eo in ND. pose proof ND as ND'. apply list.NoDup_cons in ND' as [Hnq ND'].
  assert (Hpq : forall x, x ∈ rest -> x <> q) by (intros x Hx ->; done).
  assert (Dq : done_ s q) by (apply Forall_cons_1 in W2; by destruct W2).
  exists (unlinked p q rest g). split; fields; cbn [unlinked forming owned place]; try done.
  - eapply linked_frame; [|done]. intros x Hx. rewrite upd_ne; [done|]. intros ->. apply I in Hx. congruence.
  - intros x. rewrite I. destruct (decide (x = q)) as [->|Hx]; [rewrite upd_eq, Hq; split; congruence | by rewrite upd_ne].
  - intros x l. destruct (decide (l = p)) as [->|Hl].
    + rewrite upd_eq. destruct (decide (x = q)) as [->|Hx]; [rewrite upd_eq; split; [done | congruence]|].
      rewrite upd_ne, <- O, Eo, elem_of_cons by done. tauto.
    + rewrite upd_ne, O by done. destruct (decide (x = q)) as [->|Hx]; [rewrite upd_eq; split; congruence | by rewrite upd_ne].
  - intros l. destruct (decide (l = p)) as [->|Hl]; [by rewrite upd_eq | by rewrite upd_ne].
  - intros l Hl. rewrite upd_ne; [by apply L|]. intros ->. apply (not_last s g p G); [congruence | done].
  - assert (Hlink : linked (upd q (leave (mem s q)) (mem s)) (clogGroupNext (mem s q)) rest).
    { eapply linked_frame; [|done]. intros x Hx. rewrite upd_ne by auto. done. }
    intros r. destruct (decide (r = p)) as [->|Hr].
    + unfold proc_ok. fields. rewrite upd_eq. apply Forall_cons_1 in W2 as [_ W2]. destruct (decide (q = p)) as [->|Hqp].
      * apply last_head in P2 as ->; [|done]. unfold wakes. cbn [unlinked forming owned place]. rewrite !upd_eq.
        split; [by split|]. left. split; [done|]. split; [done|]. unfold clear. fields. by rewrite upd_eq.
      * unfold wakes. cbn [unlinked forming owned place]. rewrite upd_eq, upd_ne by congruence.
        split; [by split|]. split; [done|]. split; [done|]. split; [by eapply last_tail|].
        apply (published_frame s); fields; [by rewrite upd_ne by congruence | done | done].
    + destruct (decide (r = q)) as [->|Hrq].
      * destruct (in_owned s g q p G Hq) as (B1 & [B2|[B2 [n B3]]]); [congruence|].
        unfold proc_ok. fields. rewrite upd_ne, B3 by done. cbn [unlinked forming owned place].
        rewrite upd_ne, upd_eq by done. split; [done|]. right. right. split; [done|]. split; [done|].
        split; [unfold clear; fields; by rewrite upd_eq|]. right. exists p, (clogGroupNext (mem s q)). fields.
        rewrite upd_eq, decide_False; done.
      * apply (proc_frame s _ g); cbn [unlinked forming owned place]; fields; try done; try others.
        -- intros x Hx. split; [|done]. rewrite upd_ne; [done|]. intros ->. destruct Hx as [->|Hx]; [done|].
           apply O in Hx. congruence.
        -- apply (woken_frame p); fields; [others | by rewrite Hpc | done].
Qed.

Lemma post_step p s g q rest :
  ghost_ok s g -> pc s p = Posting q rest ->
  ghost_ok (set_pc p (Waking rest) (set_sem q (S (sem s q)) s)) g.
Proof.
  intros G Hpc. pose proof (g_procs s g G p) as P. unfold proc_ok in P. rewrite Hpc in P.
  destruct P as (P1 & P2 & P3 & P4 & P5).
  apply (same_ghost p s _ g); fields; try done; try others.
  - intros r Hr [Hw|(l & rest' & Hw)].
    + left. fields. unfold upd. destruct (decide (r = q)); lia.
    + destruct (decide (l = p)) as [->|Hl].
      * rewrite Hpc in Hw. injection Hw as -> ->. left. fields. rewrite upd_eq. lia.
      * right. exists l, rest'. fields. by rewrite upd_ne.
  - intros Hl. exfalso. apply (not_last s g p G); [congruence | done].
  - unfold proc_ok. fields. rewrite upd_eq. split; [|right; split; [done|]; split; [done | by apply (published_frame s)]].
    eapply wakes_frame; [done | | | exact P1]; done.
Qed.

Lemma wake_end p s g :
  ghost_ok s g -> pc s p = Waking None -> ghost_ok (set_pc p Returned s) g.
Proof.
  intros G Hpc. pose proof (g_procs s g G p) as P. unfold proc_ok in P. rewrite Hpc in P.
  destruct P as ((W1 & W2 & W3) & P). apply linked_none in W1.
  destruct P as [(P1 & P2 & P3 & P4)|(P1 & P2 & P3)]; [|rewrite W1 in P2; done].
  assert (Hl : list.last (forming g) <> Some p) by (apply (not_last s); [done | congruence]).
  alone p s g Hpc. by repeat split.
Qed.

Lemma return_step p s g :
  ghost_ok s g -> history_ok s -> pc s p = Returned -> ghost_ok (set_pc p Calling (next_round p s)) g.
Proof.
  intros G (H1 & H2 & H3) Hpc. pose proof (g_procs s g G p) as P. unfold proc_ok in P. rewrite Hpc in P.
  destruct P as (P1 & P2 & P3 & P4 & P5).
  apply (same_ghost p s _ g); fields; try done; try others.
  - intros r [Hr|Hr]; [|done]. by rewrite upd_ne.
  - intros r [Hr|Hr] _; [|done]. unfold done_, me. fields. by rewrite upd_ne.
  - intros r Hr. apply (woken_frame p); fields; [others | by rewrite Hpc | done].
  - intros Hl. exfalso. apply (not_last s g p G); [congruence | done].
  - unfold proc_ok. fields. rewrite upd_eq. repeat split; try done. unfold fresh, me. fields. rewrite upd_eq.
    intros Hin. apply H2 in Hin. lia.
Qed.
(** ** History, locks and the log *)

Lemma history_apply s q sl : history_ok s -> fresh s q -> history_ok (record_applied q sl s).
Proof.
  intros (H1 & H2 & H3) Hq. repeat split; fields.
  - apply list.NoDup_app. split; [done|]. split; [|apply NoDup_singleton].
    intros x Hx Hin. apply list_elem_of_singleton in Hin as ->. done.
  - intros x k. rewrite elem_of_app, list_elem_of_singleton. intros [?|[= -> ->]]; [by apply H2 | done].
  - intros x k Hk. apply elem_of_app. left. by apply H3.
Qed.

Lemma history_round s p : history_ok s -> done_ s p -> history_ok (next_round p s).
Proof.
  intros (H1 & H2 & H3) Hp. repeat split; fields; [done | |].
  - intros x k Hk. apply H2 in Hk. unfold upd. destruct (decide (x = p)) as [->|]; lia.
  - intros x k Hk. unfold upd in Hk. destruct (decide (x = p)) as [->|]; [|by apply H3].
    destruct (decide (k = round s p)) as [->|]; [done | apply H3; lia].
Qed.

Lemma holding_frame s s' r :
  pc s' r = pc s r -> round s' r = round s r ->
  clogGroupMemberPage (mem s' r) = clogGroupMemberPage (mem s r) -> holding s' r = holding s r.
Proof. unfold holding, the_call. by intros -> -> ->. Qed.

Lemma locks_same s s' :
  bank_lock s' = bank_lock s -> (forall r, holding s' r = holding s r) -> locks_ok s -> locks_ok s'.
Proof. intros E H L b p. by rewrite E, H. Qed.

Lemma locks_take p b s s' :
  locks_ok s -> bank_lock s b = None -> bank_lock s' = set_at b (Some p) (bank_lock s) ->
  holding s p = None -> holding s' p = Some b -> (forall r, r <> p -> holding s' r = holding s r) -> locks_ok s'.
Proof.
  intros L Hb E Hp Hp' H x r. rewrite E. destruct (decide (x = b)) as [->|Hx].
  - rewrite set_at_eq. destruct (decide (r = p)) as [->|Hr]; [done|]. rewrite H by done. rewrite <- (L b r), Hb.
    split; congruence.
  - rewrite set_at_ne by done. destruct (decide (r = p)) as [->|Hr]; [|by rewrite H].
    rewrite (L x p), Hp, Hp'. split; congruence.
Qed.

Lemma locks_drop p b s s' :
  locks_ok s -> holding s p = Some b -> bank_lock s' = set_at b None (bank_lock s) ->
  holding s' p = None -> (forall r, r <> p -> holding s' r = holding s r) -> locks_ok s'.
Proof.
  intros L Hp E Hp' H x r. rewrite E. destruct (decide (x = b)) as [->|Hx].
  - rewrite set_at_eq. destruct (decide (r = p)) as [->|Hr]; [by rewrite Hp'|]. rewrite H by done. rewrite <- (L b r).
    apply L in Hp. rewrite Hp. split; congruence.
  - rewrite set_at_ne by done. destruct (decide (r = p)) as [->|Hr]; [|by rewrite H].
    rewrite (L x p), Hp, Hp'. split; congruence.
Qed.

(** Writing a request, whoever does it. *)
Lemma apply_for_log s q sl u :
  let c := the_call call s q in
  log_ok s ->
  TransactionIdSetPageStatusInternal ctl (c_xid c) (c_subxids c) (c_status c) (c_lsn c) (c_pageno c) (slru s) = (Ok u, sl) ->
  log_ok (record_applied q sl s).
Proof.
  intros c L E. destruct (Calls q (round s q)) as (H1 & H2 & H3).
  assert (W := page_internal_wp ctl D _ (c_xid c) (c_subxids c) (c_status c) (c_lsn c) (c_pageno c) (slru s) L H1 H2 H3).
  apply (wp_ok _ _ _ _ _ _ W) in E. unfold log_ok. fields.
  rewrite flat_map_app, apply_writes_app. cbn [flat_map]. rewrite app_nil_r. exact E.
Qed.

Lemma apply_for_inv q xid subs st lsn pg k s s' :
  apply_for ctl q xid subs st lsn pg k s = Next s' ->
  xid = c_xid (the_call call s q) -> subs = c_subxids (the_call call s q) -> st = c_status (the_call call s q) ->
  lsn = c_lsn (the_call call s q) -> pg = c_pageno (the_call call s q) ->
  log_ok s -> exists sl, s' = k (record_applied q sl s) /\ log_ok (record_applied q sl s).
Proof.
  unfold apply_for. intros H -> -> -> -> -> L. destruct (TransactionIdSetPageStatusInternal _ _ _ _ _ _ _) as [[u| |] sl] eqn:E;
    [|done..]. injection H as <-. exists sl. split; [done|]. by eapply apply_for_log.
Qed.
(** ** The invariant is kept *)

Lemma hold_others p s s' :
  (forall r, r <> p -> pc s' r = pc s r) -> (forall r, r <> p -> round s' r = round s r) ->
  (forall r, r <> p -> clogGroupMemberPage (mem s' r) = clogGroupMemberPage (mem s r)) ->
  forall r, r <> p -> holding s' r = holding s r.
Proof. intros H1 H2 H3 r Hr. apply holding_frame; auto. Qed.

Ltac hold_p Hpc := unfold holding, the_call; fields; rewrite ?upd_eq, ?Hpc; done.

(** The step leaves the locks alone. *)
Ltac same_locks p s Hpc :=
  apply (locks_same s); fields; [done | | assumption];
  intros r; destruct (decide (r = p)) as [->|]; [hold_p Hpc | apply holding_frame; fields; others].

Lemma acquire_locks p pg c s s' :
  locks_ok s -> acquire ctl p pg c s = Next s' -> holding s p = None -> holding s' p = Some (bank_of ctl pg) ->
  locks_ok s'.
Proof.
  unfold acquire. intros L H H1 H2. destruct (bank_lock s _) eqn:B; [done|]. injection H as <-.
  apply (locks_take p (bank_of ctl pg) s); try done. apply hold_others; fields; others.
Qed.

Lemma acquire_rest p pg c s s' :
  acquire ctl p pg c s = Next s' -> applied s' = applied s /\ round s' = round s /\ slru s' = slru s.
Proof. unfold acquire. destruct (bank_lock s _); [done|]. by intros [= <-]. Qed.

Lemma history_frame s s' : applied s' = applied s -> round s' = round s -> history_ok s -> history_ok s'.
Proof. unfold history_ok. by intros -> ->. Qed.

Lemma log_frame s s' : applied s' = applied s -> slru s' = slru s -> log_ok s -> log_ok s'.
Proof. unfold log_ok. by intros -> ->. Qed.

(** What a step that writes no request leaves of history and log. *)
Lemma quiet_rest s s' :
  applied s' = applied s -> round s' = round s -> slru s' = slru s -> history_ok s -> log_ok s ->
  history_ok s' /\ log_ok s'.
Proof. intros E1 E2 E3 H L. split; [by apply (history_frame s) | by apply (log_frame s)]. Qed.

Lemma acquire_inv p pg c s s' g :
  acquire ctl p pg c s = Next s' -> ghost_ok s' g -> holding s p = None -> holding s' p = Some (bank_of ctl pg) ->
  history_ok s -> locks_ok s -> log_ok s -> inv s'.
Proof.
  intros H G H1 H2 Hh Hl Hg. destruct (acquire_rest _ _ _ _ _ H) as (E1 & E2 & E3).
  destruct (quiet_rest s s') as [Hh' Hg']; try done. split; [by exists g|]. split; [done|]. split; [|done].
  by eapply acquire_locks.
Qed.

Lemma calling_inv p s s' : inv s -> pc s p = Calling -> gstep ctl call MyProc p s = Next s' -> inv s'.
Proof.
  intros ((g & G) & Hh & Hl & Hg) Hpc H. pose proof (calling_step p s g s' G Hpc H) as G'.
  unfold gstep in H. rewrite Hpc in H. destruct (group_eligible _ _).
  - destruct (bank_lock s _) eqn:B.
    + injection H as <-. split; [by exists g|]. split; [done|]. split; [|done]. same_locks p s Hpc.
    + eapply acquire_inv; try done; [by unfold holding; rewrite Hpc|].
      unfold acquire in H. rewrite B in H. injection H as <-. hold_p Hpc.
  - injection H as <-. split; [by exists g|]. split; [done|]. split; [|done]. same_locks p s Hpc.
Qed.

Lemma acquiring_inv p s s' c pg :
  inv s -> gstep ctl call MyProc p s = acquire ctl p pg c s -> gstep ctl call MyProc p s = Next s' ->
  (forall g, ghost_ok s g -> ghost_ok s' g) -> holding s p = None -> 
  (forall s1, pc s1 p = c -> round s1 p = round s p -> mem s1 p = mem s p -> holding s1 p = Some (bank_of ctl pg)) ->
  inv s'.
Proof.
  intros ((g & G) & Hh & Hl & Hg) E H HG H1 H2. rewrite E in H. eapply acquire_inv; try done; [by apply HG|].
  unfold acquire in H. destruct (bank_lock s _); [done|]. injection H as <-. apply H2; fields; [by rewrite upd_eq | done..].
Qed.

Lemma publishing_inv p s s' : inv s -> pc s p = Publishing -> gstep ctl call MyProc p s = Next s' -> inv s'.
Proof.
  intros ((g & G) & Hh & Hl & Hg) Hpc H. unfold gstep in H. rewrite Hpc in H. injection H as <-.
  split; [exists g; by apply publishing_step|]. split; [done|]. split; [|done]. same_locks p s Hpc.
Qed.

Lemma joining_inv p s s' n : inv s -> pc s p = Joining n -> gstep ctl call MyProc p s = Next s' -> inv s'.
Proof.
  intros ((g & G) & Hh & Hl & Hg) Hpc H. pose proof (outside_step p s g s' G (or_intror (ex_intro _ n Hpc)) H) as G'.
  unfold gstep in H. rewrite Hpc in H.
  destruct (refused _ _ _); injection H as <-; (split; [by exists g|]); (split; [done|]); (split; [|done]);
    same_locks p s Hpc.
Qed.

Lemma linking_inv p s s' n : inv s -> pc s p = Linking n -> gstep ctl call MyProc p s = Next s' -> inv s'.
Proof.
  intros ((g & G) & Hh & Hl & Hg) Hpc H. unfold gstep in H. rewrite Hpc in H.
  destruct (bool_decide (clogGroupFirst s = n)) eqn:B; injection H as <-.
  - apply bool_decide_eq_true in B. split; [exists (pushed p g); by apply push_step|]. split; [done|]. split; [|done].
    apply (locks_same s); fields; [done | | done]. intros r. destruct (decide (r = p)) as [->|].
    + unfold holding. fields. rewrite upd_eq, Hpc. by destruct n.
    + apply holding_frame; fields; others.
  - split; [exists g; by eapply retry_step|]. split; [done|]. split; [|done]. same_locks p s Hpc.
Qed.
Lemma waiting_inv p s s' n : inv s -> pc s p = Waiting n -> gstep ctl call MyProc p s = Next s' -> inv s'.
Proof.
  intros ((g & G) & Hh & Hl & Hg) Hpc H. pose proof (waiting_step p s g n s' G Hpc H) as G'.
  unfold gstep in H. rewrite Hpc in H. destruct (sem s p); [done|].
  destruct (clogGroupMember _); injection H as <-; (split; [by exists g|]); (split; [done|]); (split; [|done]);
    same_locks p s Hpc.
Qed.

Lemma detaching_inv p s s' : inv s -> pc s p = Detaching -> gstep ctl call MyProc p s = Next s' -> inv s'.
Proof.
  intros ((g & G) & Hh & Hl & Hg) Hpc H. unfold gstep in H. rewrite Hpc in H. injection H as <-.
  split; [exists (detached p g); by apply detach_step|]. split; [done|]. split; [|done]. same_locks p s Hpc.
Qed.

(** Dropping the lock of the bank of [pg]. *)
Lemma release_locks p s c pg :
  locks_ok s -> holding s p = Some (bank_of ctl pg) -> (forall s1, pc s1 p = c -> holding s1 p = None) ->
  locks_ok (set_pc p c (release ctl pg s)).
Proof.
  intros L H Hc. eapply (locks_drop p); [done | done | done | apply Hc; fields; by rewrite upd_eq|].
  apply hold_others; fields; others.
Qed.

Lemma direct_inv p s s' : inv s -> pc s p = Direct -> gstep ctl call MyProc p s = Next s' -> inv s'.
Proof.
  intros ((g & G) & Hh & Hl & Hg) Hpc H. unfold gstep in H. rewrite Hpc in H.
  apply apply_for_inv in H as (sl & -> & Hg'); [|done..].
  assert (Hf : fresh s p) by (pose proof (g_procs s g G p) as P; unfold proc_ok in P; rewrite Hpc in P; tauto).
  split; [exists g; by apply direct_apply|]. split; [by apply (history_apply s p sl)|]. split; [|done].
  apply release_locks.
  - apply (locks_same s); [done | | done]. intros r. by apply holding_frame.
  - unfold holding. fields. by rewrite Hpc.
  - unfold holding. by intros s1 ->.
Qed.

Lemma draining_inv p s s' todo wake prev :
  inv s -> pc s p = Draining todo wake prev -> gstep ctl call MyProc p s = Next s' -> inv s'.
Proof.
  intros ((g & G) & Hh & Hl & Hg) Hpc H. unfold gstep in H. rewrite Hpc in H.
  assert (Hhold : holding s p = Some (bank_of ctl prev)) by (unfold holding; by rewrite Hpc).
  destruct todo as [q|].
  2:{ injection H as <-. split; [exists g; eapply drain_move; eauto|]. split; [done|]. split; [|done].
      apply release_locks; [done | done |]. unfold holding. by intros s1 ->. }
  destruct (negb _ && negb _) eqn:B.
  { injection H as <-. split; [exists g; eapply drain_move; [done | done |]; left; eauto|]. split; [done|]. split; [|done].
    apply release_locks; [done | done |]. unfold holding. by intros s1 ->. }
  pose proof (g_procs s g G p) as P. unfold proc_ok in P. rewrite Hpc in P.
  destruct P as (P1 & P2 & P3 & P4 & dealt & rest & E1 & E2 & E3 & E4). apply linked_some in E2 as (rest' & -> & _).
  assert (Hq : place g q = OwnedBy p).
  { apply (g_owned s g G). rewrite E1. apply elem_of_app. right. apply list_elem_of_here. }
  destruct (in_owned s g q p G Hq) as ((Q1 & Q2 & Q3 & Q4 & Q5 & Q6) & _).
  apply apply_for_inv in H as (sl & -> & Hg'); [|done..].
  split; [exists g; by apply (drain_apply p s g q wake prev)|]. split.
  { apply (history_apply s q sl); [done|]. by apply Forall_cons_1 in E4 as [? _]. }
  split; [|done]. apply (locks_same s); fields; [done | | done]. intros r. destruct (decide (r = p)) as [->|].
  - unfold holding. fields. rewrite upd_eq, Hpc. f_equal. apply andb_false_iff in B as [B|B]; apply negb_false_iff, Z.eqb_eq in B; congruence.
  - apply holding_frame; fields; others.
Qed.

Lemma waking_inv p s s' wake : inv s -> pc s p = Waking wake -> gstep ctl call MyProc p s = Next s' -> inv s'.
Proof.
  intros ((g & G) & Hh & Hl & Hg) Hpc H. unfold gstep in H. rewrite Hpc in H. destruct wake as [q|]; injection H as <-.
  - split; [by eapply wake_step|]. split; [done|]. split; [|done].
    apply (locks_same s); fields; [done | | done]. intros r. destruct (decide (r = p)) as [->|].
    + unfold holding. fields. rewrite upd_eq, Hpc. by destruct (decide (q = p)).
    + apply holding_frame; fields; [others | done |]. unfold upd. by destruct (decide (r = q)) as [->|].
  - split; [exists g; by apply wake_end|]. split; [done|]. split; [|done]. same_locks p s Hpc.
Qed.

Lemma posting_inv p s s' q rest : inv s -> pc s p = Posting q rest -> gstep ctl call MyProc p s = Next s' -> inv s'.
Proof.
  intros ((g & G) & Hh & Hl & Hg) Hpc H. unfold gstep in H. rewrite Hpc in H. injection H as <-.
  split; [exists g; by apply post_step|]. split; [done|]. split; [|done]. same_locks p s Hpc.
Qed.

Lemma returned_inv p s s' : inv s -> pc s p = Returned -> gstep ctl call MyProc p s = Next s' -> inv s'.
Proof.
  intros ((g & G) & Hh & Hl & Hg) Hpc H. unfold gstep in H. rewrite Hpc in H. injection H as <-.
  assert (Hd : done_ s p) by (pose proof (g_procs s g G p) as P; unfold proc_ok in P; rewrite Hpc in P; tauto).
  split; [exists g; by apply return_step|]. split; [by apply (history_round s p)|]. split; [|done].
  apply (locks_same s); fields; [done | | done].
  intros r; destruct (decide (r = p)) as [->|]; [hold_p Hpc | apply holding_frame; fields; others].
Qed.

Lemma inv_step p s s' : inv s -> gstep ctl call MyProc p s = Next s' -> inv s'.
Proof.
  intros I H. pose proof I as ((g & G) & _). destruct (pc s p) eqn:Hpc.
  - by eapply calling_inv.
  - eapply (acquiring_inv p s s' Direct); try done.
    + unfold gstep. by rewrite Hpc.
    + intros g' G'. eapply outside_step; eauto.
    + unfold holding. by rewrite Hpc.
    + intros s1 E1 E2 E3. unfold holding, the_call. by rewrite E1, E2.
  - by eapply direct_inv.
  - by eapply publishing_inv.
  - by eapply joining_inv.
  - by eapply linking_inv.
  - by eapply waiting_inv.
  - eapply (acquiring_inv p s s' Detaching); try done.
    + unfold gstep. by rewrite Hpc.
    + intros g' G'. by eapply leading_step.
    + unfold holding. by rewrite Hpc.
    + intros s1 E1 E2 E3. unfold holding. by rewrite E1, E3.
  - by eapply detaching_inv.
  - by eapply draining_inv.
  - eapply (acquiring_inv p s s'); try done.
    + unfold gstep. by rewrite Hpc.
    + intros g' G'. by eapply switch_step.
    + unfold holding. by rewrite Hpc.
    + intros s1 E1 E2 E3. unfold holding. by rewrite E1.
  - by eapply waking_inv.
  - by eapply posting_inv.
  - by eapply returned_inv.
Qed.

Lemma inv_post q s : inv s -> inv (stray_post q s).
Proof.
  intros ((g & G) & Hh & Hl & Hg). split; [exists g | split; [done|]; split; [|done]].
  - destruct G as [F FN I O ON L P]. split; try done. intros r. apply (proc_frame s _ g); try done.
    intros [Hw|Hw]; [|by right]. left. unfold stray_post. fields. unfold upd. destruct (decide (r = q)); lia.
  - apply (locks_same s); [done | | done]. intros r. by apply holding_frame.
Qed.

Lemma inv_quiet sl : clog_is ctl D f0 sl -> inv (quiet sl).
Proof.
  intros H. split; [exists {| forming := []; owned _ := []; place _ := Out |} | split; [|split; [|done]]].
  - split; cbn; try done; [constructor | | | constructor | ].
    + intros p. split; [intros Hp; by apply not_elem_of_nil in Hp | done].
    + intros p l. split; [intros Hp; by apply not_elem_of_nil in Hp | done].
    + intros p. unfold proc_ok. cbn. repeat split; try done. intros Hp. by apply not_elem_of_nil in Hp.
  - split; [constructor|]. split; cbn; [|lia]. intros q k Hq. by apply not_elem_of_nil in Hq.
  - intros b p. cbn. split; [done|]. unfold holding. by cbn.
Qed.

Lemma inv_reachable sl s :
  clog_is ctl D f0 sl -> reachable ctl call MyProc (quiet sl) s -> inv s.
Proof.
  intros H R. induction R as [|p s s' R IH Hs|q s R IH]; [by apply inv_quiet | by eapply inv_step | by apply inv_post].
Qed.
(** ** Progress *)

(** A backend that holds a lock never waits. *)
Lemma holder_moves p s b : holding s p = Some b -> gstep ctl call MyProc p s <> Blocked.
Proof.
  unfold holding, gstep, apply_for. destruct (pc s p) as [ | | | | | | | | |[q|] w pg| | | | ]; try done; intros _.
  - by destruct (TransactionIdSetPageStatusInternal _ _ _ _ _ _ _) as [[] ?].
  - destruct (_ && _); [done|]. by destruct (TransactionIdSetPageStatusInternal _ _ _ _ _ _ _) as [[] ?].
Qed.

(** Whoever waits for a lock: it is free, or its holder moves. *)
Lemma acquire_progress p pg c s :
  locks_ok s -> acquire ctl p pg c s <> Blocked \/ exists q, holding s q <> None /\ gstep ctl call MyProc q s <> Blocked.
Proof.
  intros L. unfold acquire. destruct (bank_lock s _) as [q|] eqn:B; [|by left]. right. exists q.
  apply L in B. split; [by rewrite B | by eapply holder_moves].
Qed.

(** A leader makes progress, or someone with a lock does. *)
Lemma leader_progress l s :
  locks_ok s -> (pc s l = Leading \/ pc s l = Detaching \/ (exists t w pg, pc s l = Draining t w pg) \/
    (exists q w pg, pc s l = Switching q w pg) \/ (exists w, pc s l = Waking w) \/ (exists q w, pc s l = Posting q w)) ->
  gstep ctl call MyProc l s <> Blocked \/ exists q, holding s q <> None /\ gstep ctl call MyProc q s <> Blocked.
Proof.
  intros L [H|[H|[(t & w & pg & H)|[(q & w & pg & H)|[(w & H)|(q & w & H)]]]]].
  - destruct (acquire_progress l (clogGroupMemberPage (mem s l)) Detaching s L) as [A|A]; [left | by right].
    unfold gstep. by rewrite H.
  - left. unfold gstep. by rewrite H.
  - left. apply (holder_moves l s (bank_of ctl pg)). unfold holding. by rewrite H.
  - destruct (acquire_progress l pg (Draining (Some q) w pg) s L) as [A|A]; [left | by right].
    unfold gstep. by rewrite H.
  - left. unfold gstep. rewrite H. by destruct w.
  - left. unfold gstep. by rewrite H.
Qed.

(** Inside a call. *)
Definition in_call (s : Group) (p : nat) : Prop := pc s p <> Calling /\ pc s p <> Returned.

Lemma owner_leads s g l : ghost_ok s g -> owned g l <> [] ->
  (exists t w pg, pc s l = Draining t w pg) \/ (exists q w pg, pc s l = Switching q w pg) \/
  (exists w, pc s l = Waking w) \/ (exists q w, pc s l = Posting q w).
Proof.
  intros G Ho. pose proof (g_procs s g G l) as P. unfold proc_ok in P.
  destruct (pc s l); try (by destruct_and?; done); eauto 10.
Qed.

Lemma progress s p : inv s -> in_call s p -> exists q, in_call s q /\ gstep ctl call MyProc q s <> Blocked.
Proof.
  intros ((g & G) & _ & L & _) [H1 H2].
  assert (Hlead : forall l, in_call s l ->
    (gstep ctl call MyProc l s <> Blocked \/ exists q, holding s q <> None /\ gstep ctl call MyProc q s <> Blocked) ->
    exists q, in_call s q /\ gstep ctl call MyProc q s <> Blocked).
  { intros l Hl [A|(q & A & B)]; [by exists l|]. exists q. split; [|done]. unfold in_call, holding in *.
    by destruct (pc s q). }
  assert (Hin : forall l c, pc s l = c -> c <> Calling -> c <> Returned -> in_call s l) by (by intros l c <-).
  pose proof (g_procs s g G p) as P. unfold proc_ok in P. destruct (pc s p) eqn:Hpc; try done.
  - apply (Hlead p); [by eapply Hin|]. unfold gstep. rewrite Hpc. by apply acquire_progress.
  - exists p. split; [by eapply Hin|]. apply (holder_moves p s (bank_of ctl (c_pageno (the_call call s p)))).
    unfold holding. by rewrite Hpc.
  - exists p. split; [by eapply Hin|]. unfold gstep. by rewrite Hpc.
  - exists p. split; [by eapply Hin|]. unfold gstep. rewrite Hpc. by destruct (refused _ _ _).
  - exists p. split; [by eapply Hin|]. unfold gstep. rewrite Hpc. by destruct (bool_decide _).
  - destruct P as [_ [(A & B & C)|[(l & A & B & C)|(A & B & C & [E|(l & rest & E)])]]].
    + apply (g_in s g G) in A. destruct (list.last (forming g)) as [l|] eqn:El; [|apply last_None in El; rewrite El in A; by apply not_elem_of_nil in A].
      pose proof (g_leader s g G l El) as Hl. apply (Hlead l); [destruct Hl as [Hl|Hl]; by eapply Hin|].
      apply leader_progress; [done | tauto].
    + apply (g_owned s g G) in B. assert (Ho : owned g l <> []) by (intros E; rewrite E in B; by apply not_elem_of_nil in B).
      pose proof (owner_leads s g l G Ho) as Hl. apply (Hlead l); [|apply leader_progress; [done | tauto]].
      destruct Hl as [(? & ? & ? & E)|[(? & ? & ? & E)|[(? & E)|(? & ? & E)]]]; by eapply Hin.
    + exists p. split; [by eapply Hin|]. unfold gstep. rewrite Hpc. destruct (sem s p); [lia|]. by destruct (clogGroupMember _).
    + exists l. split; [by eapply Hin|]. unfold gstep. by rewrite E.
  - apply (Hlead p); [by eapply Hin|]. apply leader_progress; [done | tauto].
  - apply (Hlead p); [by eapply Hin|]. apply leader_progress; [done | tauto].
  - apply (Hlead p); [by eapply Hin|]. apply leader_progress; [done | eauto 10].
  - apply (Hlead p); [by eapply Hin|]. apply leader_progress; [done | eauto 10].
  - apply (Hlead p); [by eapply Hin|]. apply leader_progress; [done | eauto 10].
  - apply (Hlead p); [by eapply Hin|]. apply leader_progress; [done | eauto 10].
Qed.
End Inv.
