(* ===== verification/ClogGroupThms.v ===== *)
(** * The group update: theorems

    What callers of [TransactionIdSetPageStatus] may rely on under any
    interleaving, and a run in which a leader serves a follower. *)

From S2P Require Import Prelude Xid ItemPtr Snapshot Slru SlruSpec Clog ClogSpec ClogGroup ClogGroupSpec Subtrans Transam CommitThms.

(** C9. Under any interleaving of any number of backends, every request is
    written to the commit log exactly once: no request is written twice, none
    before its call; when a call has returned its request is in the log, and every
    request of an earlier call is; and the log is the old one with the
    writes of those requests done one after another, whether a backend wrote its
    request itself or a group leader did. *)
Theorem group_update_exactly_once ctl call MyProc (P : Z -> Prop) f0 sl s :
  SlruRunning ctl -> calls_ok call P -> clog_is ctl P f0 sl -> reachable ctl call MyProc (quiet sl) s ->
  NoDup (applied s) /\
  (forall p k, (k < round s p)%nat -> (p, k) ∈ applied s) /\
  (forall p k, (p, k) ∈ applied s -> (k <= round s p)%nat) /\
  (forall p, pc s p = Returned -> (p, round s p) ∈ applied s) /\
  (forall p, pc s p = Calling -> (p, round s p) ∉ applied s) /\
  clog_is ctl P (apply_writes (flat_map (request_writes call) (applied s)) f0) (slru s).
Proof.
  intros HR Hc H R. destruct (inv_reachable ctl call MyProc P f0 Hc sl s H R) as ((g & G) & (H1 & H2 & H3) & _ & Hl).
  split; [done|]. split; [auto|]. split; [auto|].
  split; [|split; [|done]]; intros p Hp; pose proof (g_procs _ _ _ _ G p) as Q; unfold proc_ok, done_, fresh, me in Q; rewrite Hp in Q; tauto.
Qed.

(** C22. The group update never gets stuck: whenever a backend is inside
    [TransactionIdSetPageStatus], asleep on its semaphore or waiting for a lock,
    some backend inside it can take a step.  No wake-up is lost and no two
    backends wait for each other. *)
Theorem group_update_progress ctl call MyProc (P : Z -> Prop) f0 sl s p :
  SlruRunning ctl -> calls_ok call P -> clog_is ctl P f0 sl -> reachable ctl call MyProc (quiet sl) s ->
  in_call s p -> exists q, in_call s q /\ gstep ctl call MyProc q s <> Blocked.
Proof. intros HR Hc H R Hp. apply (progress ctl call MyProc P f0 s p); [|done]. by apply (inv_reachable ctl call MyProc P f0 Hc sl). Qed.

(** ** A run

    Backend 0 writes its own request; 1 finds the lock taken and becomes a leader,
    2 joins it and is served. *)

Definition demo_call (p k : nat) : Call := {|
  c_xid := 100 + Z.of_nat p mod 3; c_subxids := []; c_status := TRANSACTION_STATUS_COMMITTED; c_lsn := 0; c_pageno := 0;
  all_xact_same_page := true
|}.
Definition demo_proc (p k : nat) : option PGPROC := Some {| p_xid := 100 + Z.of_nat p mod 3; p_subxids := [] |}.

Definition demo_schedule : list nat :=
  [0; 1; 2; 1; 2; 1; 1; 2; 2; 2; 2; 0; 1; 1; 1; 1]%nat.

Lemma run_reachable ctl call MyProc s0 sched : forall s s',
  reachable ctl call MyProc s0 s -> run ctl call MyProc sched s = Some s' -> reachable ctl call MyProc s0 s'.
Proof.
  induction sched as [|p sched IH]; intros s s' R H; cbn in H; [by simplify_eq|].
  destruct (gstep ctl call MyProc p s) as [s1| |] eqn:E; [|done..]. eapply IH; [|done]. by eapply reach_step.
Qed.

Lemma demo_calls_ok : calls_ok demo_call demo_pages.
Proof.
  intros p k. cbn zeta. split; [done|]. split; [by unfold demo_pages; cbn|]. pose proof (Z.mod_pos_bound (Z.of_nat p) 3 ltac:(lia)).
  apply page_writes_one_page; [by vm_compute | cbn [c_xid demo_call]; lia | | constructor].
  unfold TransactionIdToPage. cbn [c_xid demo_call c_pageno]. apply Z.quot_small. change CLOG_XACTS_PER_PAGE with 32768. lia.
Qed.

Definition demo_start : Group := quiet (demo_slru (fun _ => zero_page)).

Lemma group_update_exactly_once_witness :
  exists s, reachable demo_ctl demo_call demo_proc demo_start s /\
    applied s = [(0, 0); (2, 0); (1, 0)]%nat /\
    clog_is demo_ctl demo_pages
      (apply_writes (flat_map (request_writes demo_call) (applied s)) (fun _ => TRANSACTION_STATUS_IN_PROGRESS)) (slru s).
Proof.
  destruct (run demo_ctl demo_call demo_proc demo_schedule demo_start) as [s|] eqn:E;
    [|by apply (f_equal (fun o => bool_decide (is_Some o))) in E; vm_compute in E].
  exists s. assert (R : reachable demo_ctl demo_call demo_proc demo_start s) by (eapply run_reachable; [constructor | done]).
  split; [done|]. split.
  - apply (f_equal (fmap applied)) in E. cbn in E. vm_compute in E. by simplify_eq.
  - apply (group_update_exactly_once demo_ctl demo_call demo_proc demo_pages _ (demo_slru (fun _ => zero_page)) s);
      [apply demo_ctl_running | apply demo_calls_ok | apply demo_clog_is | done].
Defined.

Lemma group_update_progress_witness :
  exists s, reachable demo_ctl demo_call demo_proc demo_start s /\ pc s 2%nat = Waiting 0 /\
    exists q, in_call s q /\ gstep demo_ctl demo_call demo_proc q s <> Blocked.
Proof.
  destruct (run demo_ctl demo_call demo_proc demo_schedule demo_start) as [s|] eqn:E;
    [|by apply (f_equal (fun o => bool_decide (is_Some o))) in E; vm_compute in E].
  exists s. assert (R : reachable demo_ctl demo_call demo_proc demo_start s) by (eapply run_reachable; [constructor | done]).
  assert (Hpc : pc s 2%nat = Waiting 0) by (apply (f_equal (fmap (fun s => pc s 2%nat))) in E; cbn in E; vm_compute in E; by simplify_eq).
  split; [done|]. split; [done|].
  apply (group_update_progress demo_ctl demo_call demo_proc demo_pages (fun _ => TRANSACTION_STATUS_IN_PROGRESS)
           (demo_slru (fun _ => zero_page)) s 2%nat);
    [apply demo_ctl_running | apply demo_calls_ok | apply demo_clog_is | done | by split; rewrite Hpc].
Defined.
