(* ===== verification/Fsm.v ===== *)
(** * Free-space map: [storage/freespace/freespace/src/fsmpage.rs] and [lib.rs]

    How much room each heap page has, one byte per page, in pages that are binary
    trees of maxima; three levels of such pages cover a relation.  The map is
    advisory: it is not logged, its pages may be torn, upper levels may be stale. *)

From S2P Require Import Prelude Xid ItemPtr.

(** ** One page: [fsmpage.rs] *)

Definition SizeOfPageHeaderData : Z := 24.
Definition CONTENTS_OFF : Z := Z.ldiff (SizeOfPageHeaderData + 7) 7.
Definition NON_LEAF_NODES_PER_PAGE : Z := BLCKSZ / 2 - 1.
Definition NODES_PER_PAGE : Z := BLCKSZ - CONTENTS_OFF - 4.
Definition LEAF_NODES_PER_PAGE : Z := NODES_PER_PAGE - NON_LEAF_NODES_PER_PAGE.
Definition SLOTS_PER_FSM_PAGE : Z := LEAF_NODES_PER_PAGE.

Record FsmPage := { fp_nodes : arr Z; fp_next_slot : Z }.

(** An access outside the page is undefined behaviour behind a debug assertion;
    it is [Panic] here, and shown never to happen. *)
Definition node (nodeno : Z) : M FsmPage Z :=
  fun page =>
    if (0 <=? nodeno) && (nodeno <? NODES_PER_PAGE) then (Ok (fp_nodes page nodeno), page)
    else (Panic, page).

Definition set_node (nodeno value : Z) : M FsmPage unit :=
  fun page =>
    if (0 <=? nodeno) && (nodeno <? NODES_PER_PAGE)
    then (Ok tt, {| fp_nodes := set_at nodeno value (fp_nodes page); fp_next_slot := fp_next_slot page |})
    else (Panic, page).

Definition next_slot : M FsmPage Z := fun page => (Ok (fp_next_slot page), page).
Definition set_next_slot (value : Z) : M FsmPage unit :=
  mput (fun page => {| fp_nodes := fp_nodes page; fp_next_slot := value |}).

Definition leftchild (x : Z) : Z := 2 * x + 1.
Definition parentof (x : Z) : Z := Z.quot (x - 1) 2.
Definition rightneighbor (x : Z) : Z :=
  let x := x + 1 in
  if Z.land (x + 1) x =? 0 then parentof x else x.

Definition fsm_get_avail (slot : Z) : M FsmPage Z := node (NON_LEAF_NODES_PER_PAGE + slot).
Definition fsm_get_max_avail : M FsmPage Z := node 0.

(** Bottom up, [n - 1] down to [0]. *)
Fixpoint rebuild (n : nat) (changed : bool) : M FsmPage bool :=
  match n with
  | O => mret changed
  | S n =>
      let nodeno := Z.of_nat n in
      let lchild := leftchild nodeno in
      let rchild := lchild + 1 in
      let! newvalue := (if lchild <? NODES_PER_PAGE then node lchild else mret 0) in
      let! newvalue := (if rchild <? NODES_PER_PAGE
                        then let! r := node rchild in mret (Z.max newvalue r) else mret newvalue) in
      let! cur := node nodeno in
      if negb (cur =? newvalue) then set_node nodeno newvalue ;! rebuild n true
      else rebuild n changed
  end.

Definition fsm_rebuild_page : M FsmPage bool := rebuild (Z.to_nat NON_LEAF_NODES_PER_PAGE) false.

(** The loop of [fsm_set_avail]; a page is twelve levels high. *)
Fixpoint bubble_up (fuel : nat) (nodeno : Z) : M FsmPage unit :=
  match fuel with
  | O => mlift Panic
  | S fuel =>
      let nodeno := parentof nodeno in
      let lchild := leftchild nodeno in
      let rchild := lchild + 1 in
      let! newvalue := node lchild in
      let! newvalue := (if rchild <? NODES_PER_PAGE
                        then let! r := node rchild in mret (Z.max newvalue r) else mret newvalue) in
      let! cur := node nodeno in
      if cur =? newvalue then mret tt
      else set_node nodeno newvalue ;! (if nodeno =? 0 then mret tt else bubble_up fuel nodeno)
  end.

Definition fsm_set_avail (slot value : Z) : M FsmPage bool :=
  let nodeno := NON_LEAF_NODES_PER_PAGE + slot in
  let! oldvalue := node nodeno in
  let! root := node 0 in
  if (oldvalue =? value) && (value <=? root) then mret false
  else
    set_node nodeno value ;!
    (bubble_up 13 nodeno ;!
     (let! root := node 0 in
      (if value >? root then fsm_rebuild_page ;! mret tt else mret tt) ;! mret true)).

(** [for nodeno in NON_LEAF_NODES_PER_PAGE + nslots..NODES_PER_PAGE] *)
Fixpoint clear_nodes (n : nat) (nodeno : Z) (changed : bool) : M FsmPage bool :=
  match n with
  | O => mret changed
  | S n =>
      let! v := node nodeno in
      set_node nodeno 0 ;! clear_nodes n (nodeno + 1) (changed || negb (v =? 0))
  end.

Definition fsm_truncate_avail (nslots : Z) : M FsmPage bool :=
  let! changed := clear_nodes (Z.to_nat (LEAF_NODES_PER_PAGE - nslots)) (NON_LEAF_NODES_PER_PAGE + nslots) false in
  (if changed then fsm_rebuild_page ;! mret tt else mret tt) ;! mret changed.

(** *** Searching a page *)

(** Right and up, from the target. *)
Fixpoint climb (fuel : nat) (minvalue nodeno : Z) : M FsmPage Z :=
  match fuel with
  | O => mlift Panic
  | S fuel =>
      if nodeno >? 0 then
        let! v := node nodeno in
        if v >=? minvalue then mret nodeno
        else climb fuel minvalue (parentof (rightneighbor nodeno))
      else mret nodeno
  end.

(** Down to a leaf; [None] when no child has what the parent promises. *)
Fixpoint descend (fuel : nat) (minvalue nodeno : Z) : M FsmPage (option Z) :=
  match fuel with
  | O => mlift Panic
  | S fuel =>
      if nodeno <? NON_LEAF_NODES_PER_PAGE then
        let childnodeno := leftchild nodeno in
        let! v := (if childnodeno <? NODES_PER_PAGE
                   then let! v := node childnodeno in mret (v >=? minvalue) else mret false) in
        if v then descend fuel minvalue childnodeno
        else
          let childnodeno := childnodeno + 1 in
          let! v := (if childnodeno <? NODES_PER_PAGE
                     then let! v := node childnodeno in mret (v >=? minvalue) else mret false) in
          if v then descend fuel minvalue childnodeno else mret None
      else mret (Some nodeno)
  end.

Section Search.
(** Giving up the shared lock for the exclusive one: what other backends leave
    in the page meanwhile, or an error of [lock_buffer]. *)
Variable relock : FsmPage -> result FsmPage.
(** [mark_buffer_dirty_hint] *)
Variable mark_dirty_hint : result unit.

Definition take_exclusive : M FsmPage unit :=
  fun page => match relock page with
              | Ok page' => (Ok tt, page')
              | Err e => (Err e, page)
              | Panic => (Panic, page)
              end.

Fixpoint search_loop (fuel : nat) (minvalue : Z) (advancenext exclusive_lock_held : bool) : M FsmPage Z :=
  match fuel with
  | O => mlift Panic
  | S fuel =>
      let! root := node 0 in
      if root <? minvalue then mret (-1)
      else
        let! target := next_slot in
        let target := if negb ((0 <=? target) && (target <? LEAF_NODES_PER_PAGE)) then 0 else target in
        let target := target + NON_LEAF_NODES_PER_PAGE in
        let! nodeno := climb 14 minvalue target in
        let! leaf := descend 13 minvalue nodeno in
        match leaf with
        | Some nodeno =>
            let slot := nodeno - NON_LEAF_NODES_PER_PAGE in
            set_next_slot (slot + (if advancenext then 1 else 0)) ;! mret slot
        | None =>
            (if negb exclusive_lock_held then take_exclusive else mret tt) ;!
            (fsm_rebuild_page ;!
             (mlift mark_dirty_hint ;! search_loop fuel minvalue advancenext true))
        end
  end.

(** A rebuilt page is sound: the second pass cannot fail. *)
Definition fsm_search_avail (minvalue : Z) (advancenext exclusive_lock_held : bool) : M FsmPage Z :=
  search_loop 2 minvalue advancenext exclusive_lock_held.
End Search.

(** ** Categories and addresses: [lib.rs] *)

Definition FSM_CATEGORIES : Z := 256.
Definition FSM_CAT_STEP : Z := BLCKSZ / FSM_CATEGORIES.
(** [MaxHeapTupleSize] *)
Definition MaxFSMRequestSize : Z := 8160.

Definition fsm_space_avail_to_cat (avail : Z) : Z :=
  if avail >=? MaxFSMRequestSize then 255
  else
    let cat := avail / FSM_CAT_STEP in
    if cat >? 254 then 254 else cat.

Definition fsm_space_cat_to_avail (cat : Z) : Z :=
  if cat =? 255 then MaxFSMRequestSize else cat * FSM_CAT_STEP.

Definition fsm_space_needed_to_cat (needed : Z) : result Z :=
  if needed >? MaxFSMRequestSize then Err (PgErr "invalid FSM request size")
  else if needed =? 0 then Ok 1
  else
    let cat := (needed + FSM_CAT_STEP - 1) / FSM_CAT_STEP in
    if cat >? 255 then Ok 255 else Ok cat.

Definition FSM_TREE_DEPTH : Z := if SLOTS_PER_FSM_PAGE >=? 1626 then 3 else 4.
Definition FSM_ROOT_LEVEL : Z := FSM_TREE_DEPTH - 1.
Definition FSM_BOTTOM_LEVEL : Z := 0.

Record FSMAddress := { level : Z; logpageno : Z }.

#[export] Instance FSMAddress_eq_dec : EqDecision FSMAddress.
Proof. solve_decision. Defined.

Definition FSM_ROOT_ADDRESS : FSMAddress := {| level := FSM_ROOT_LEVEL; logpageno := 0 |}.

Definition fsm_logical_to_physical (addr : FSMAddress) : Z :=
  let leafno := Nat.iter (Z.to_nat (level addr)) (fun leafno => as_i32 (wrap32 (leafno * SLOTS_PER_FSM_PAGE)))
                  (logpageno addr) in
  let pages := fst (Nat.iter (Z.to_nat FSM_TREE_DEPTH)
    (fun st => (wrap32 (fst st + wrap32 (snd st + 1)), Z.quot (snd st) SLOTS_PER_FSM_PAGE)) (0, leafno)) in
  let pages := wrap32 (pages - level addr) in
  wrap32 (pages - 1).

Definition fsm_get_location (heapblk : Z) : FSMAddress * Z :=
  ({| level := FSM_BOTTOM_LEVEL; logpageno := heapblk / SLOTS_PER_FSM_PAGE |}, heapblk mod SLOTS_PER_FSM_PAGE).

Definition fsm_get_heap_blk (addr : FSMAddress) (slot : Z) : Z :=
  wrap32 (wrap32 (logpageno addr * SLOTS_PER_FSM_PAGE) + slot).

Definition fsm_get_parent (child : FSMAddress) : FSMAddress * Z :=
  ({| level := level child + 1; logpageno := Z.quot (logpageno child) SLOTS_PER_FSM_PAGE |},
   Z.rem (logpageno child) SLOTS_PER_FSM_PAGE).

Definition fsm_get_child (parent : FSMAddress) (slot : Z) : FSMAddress :=
  {| level := level parent - 1; logpageno := logpageno parent * SLOTS_PER_FSM_PAGE + slot |}.

(** ** The map of one relation *)

(** The fork that holds the map (its pages and which of them are still new, its
    length, the cached length), the main fork's length and its cached length. *)
Record FsmRel := {
  fsm_page : arr FsmPage;
  (** the page header is all zero *)
  fsm_new : arr bool;
  fsm_exists : bool;
  fsm_nblocks : Z;
  fsm_cached_nblocks : Z;
  main_nblocks : Z;
  main_cached_nblocks : Z
}.

(** What the buffer manager and the storage manager answer. *)
Record FsmIo := {
  smgr_io : result unit;
  read_buffer : Z -> result unit;
  (** a page that fails verification is read as zeroes *)
  damaged : Z -> bool;
  extend_buffered_rel : Z -> result unit;
  lock_buffer : result unit;
  mark_buffer_dirty_hint : result unit;
  mark_buffer_dirty : result unit;
  (** not in recovery, a permanent relation, checksums or [wal_log_hints] on *)
  needs_fpi : bool;
  log_newpage_buffer : result unit
}.

Definition zero_fsm_page : FsmPage := {| fp_nodes := fun _ => 0; fp_next_slot := 0 |}.

Definition set_fsm_page (blk : Z) (page : FsmPage) (r : FsmRel) : FsmRel :=
  {| fsm_page := set_at blk page (fsm_page r); fsm_new := fsm_new r; fsm_exists := fsm_exists r;
     fsm_nblocks := fsm_nblocks r; fsm_cached_nblocks := fsm_cached_nblocks r; main_nblocks := main_nblocks r;
     main_cached_nblocks := main_cached_nblocks r |}.
Definition set_fsm_new (blk : Z) (b : bool) (r : FsmRel) : FsmRel :=
  {| fsm_page := fsm_page r; fsm_new := set_at blk b (fsm_new r); fsm_exists := fsm_exists r;
     fsm_nblocks := fsm_nblocks r; fsm_cached_nblocks := fsm_cached_nblocks r; main_nblocks := main_nblocks r;
     main_cached_nblocks := main_cached_nblocks r |}.
Definition set_fsm_cached (n : Z) (r : FsmRel) : FsmRel :=
  {| fsm_page := fsm_page r; fsm_new := fsm_new r; fsm_exists := fsm_exists r; fsm_nblocks := fsm_nblocks r;
     fsm_cached_nblocks := n; main_nblocks := main_nblocks r; main_cached_nblocks := main_cached_nblocks r |}.
Definition set_main_cached (n : Z) (r : FsmRel) : FsmRel :=
  {| fsm_page := fsm_page r; fsm_new := fsm_new r; fsm_exists := fsm_exists r; fsm_nblocks := fsm_nblocks r;
     fsm_cached_nblocks := fsm_cached_nblocks r; main_nblocks := main_nblocks r; main_cached_nblocks := n |}.

(** The fork grows to [n] blocks, the new ones all zero. *)
Definition grow_fsm (n : Z) (r : FsmRel) : FsmRel :=
  {| fsm_page blk := if (fsm_nblocks r <=? blk) && (blk <? n) then zero_fsm_page else fsm_page r blk;
     fsm_new blk := if (fsm_nblocks r <=? blk) && (blk <? n) then true else fsm_new r blk;
     fsm_exists := true; fsm_nblocks := Z.max n (fsm_nblocks r);
     fsm_cached_nblocks := InvalidBlockNumber; main_nblocks := main_nblocks r;
     main_cached_nblocks := main_cached_nblocks r |}.

(** An operation on the page in block [blk]. *)
Definition on_page {A} (blk : Z) (m : M FsmPage A) : M FsmRel A :=
  fun r => let '(a, page) := m (fsm_page r blk) in (a, set_fsm_page blk page r).

Section Rel.
Variable io : FsmIo.

(** The length of a fork, outside recovery: asked for anew, and cached. *)
Definition smgr_nblocks_fsm : M FsmRel Z :=
  mlift (smgr_io io) ;! (let! r := mget in mput (set_fsm_cached (fsm_nblocks r)) ;! mret (fsm_nblocks r)).
Definition smgr_nblocks_main : M FsmRel Z :=
  mlift (smgr_io io) ;! (let! r := mget in mput (set_main_cached (main_nblocks r)) ;! mret (main_nblocks r)).

(** [PageInit] of a page that is still new, under its lock. *)
Definition init_new_page (blkno : Z) : M FsmRel unit :=
  let! r := mget in
  if fsm_new r blkno then
    mlift (lock_buffer io) ;! (mput (set_fsm_page blkno zero_fsm_page) ;! mput (set_fsm_new blkno false))
  else mret tt.

(** The block of the page at [addr], pinned; [None] past the end of the map. *)
Definition fsm_readbuf (addr : FSMAddress) (extend : bool) : M FsmRel (option Z) :=
  let blkno := fsm_logical_to_physical addr in
  let! r := mget in
  let nblocks := fsm_cached_nblocks r in
  let! nblocks :=
    (if (nblocks =? InvalidBlockNumber) || (nblocks <=? blkno) then
       mput (set_fsm_cached InvalidBlockNumber) ;!
       (mlift (smgr_io io) ;!
        (if fsm_exists r then smgr_nblocks_fsm else mput (set_fsm_cached 0) ;! mret 0))
     else mret nblocks) in
  if (nblocks <=? blkno) && negb extend then mret None
  else
    (if nblocks <=? blkno then mlift (extend_buffered_rel io (blkno + 1)) ;! mput (grow_fsm (blkno + 1))
     else
       mlift (read_buffer io blkno) ;!
       (if damaged io blkno then mput (set_fsm_page blkno zero_fsm_page) ;! mput (set_fsm_new blkno true)
        else mret tt)) ;!
    (init_new_page blkno ;! mret (Some blkno)).

Definition fsm_does_block_exist (blknumber : Z) : M FsmRel bool :=
  let! r := mget in
  let cached := main_cached_nblocks r in
  if negb (cached =? InvalidBlockNumber) && (blknumber <? cached) then mret true
  else let! n := smgr_nblocks_main in mret (blknumber <? n).

(** One backend: nobody touches a page while its lock changes. *)
Definition search_page (minvalue : Z) (advancenext exclusive_lock_held : bool) : M FsmPage Z :=
  fsm_search_avail (fun page => let? _ := lock_buffer io in Ok page) (mark_buffer_dirty_hint io)
    minvalue advancenext exclusive_lock_held.

Definition fsm_set_and_search (addr : FSMAddress) (slot newValue minValue : Z) : M FsmRel Z :=
  let! pin := fsm_readbuf addr true in
  match pin with
  | None => mlift Panic
  | Some blk =>
      mlift (lock_buffer io) ;!
      (let! changed := on_page blk (fsm_set_avail slot newValue) in
       (if changed then mlift (mark_buffer_dirty_hint io) else mret tt) ;!
       (let! newslot := (if negb (minValue =? 0)
                         then on_page blk (search_page minValue (level addr =? FSM_BOTTOM_LEVEL) true)
                         else mret (-1)) in
        mlift (lock_buffer io) ;! mret newslot))
  end.

Fixpoint fsm_search_loop (fuel : nat) (min_cat restarts : Z) (addr : FSMAddress) : M FsmRel Z :=
  match fuel with
  | O => mlift Panic
  | S fuel =>
      let! held := fsm_readbuf addr false in
      let! found :=
        (match held with
         | None => mret (-1, 0)
         | Some blk =>
             mlift (lock_buffer io) ;!
             (let! slot := on_page blk (search_page min_cat (level addr =? FSM_BOTTOM_LEVEL) false) in
              if slot =? -1 then
                let! max_avail := on_page blk fsm_get_max_avail in
                mlift (lock_buffer io) ;! mret (-1, max_avail)
              else mlift (lock_buffer io) ;! mret (slot, 0))
         end) in
      let slot := fst found in
      let max_avail := snd found in
      if negb (slot =? -1) then
        if level addr =? FSM_BOTTOM_LEVEL then
          match held with
          | None => mlift Panic
          | Some blk =>
              let blkno := fsm_get_heap_blk addr slot in
              let! exists_ := fsm_does_block_exist blkno in
              if exists_ then mret blkno
              else
                mlift (lock_buffer io) ;!
                (on_page blk (fsm_set_avail slot 0) ;!
                 (mlift (mark_buffer_dirty_hint io) ;!
                  (mlift (lock_buffer io) ;!
                   (if restarts >? 10000 then mret InvalidBlockNumber
                    else fsm_search_loop fuel min_cat (restarts + 1) (fsm_get_child FSM_ROOT_ADDRESS slot)))))
          end
        else fsm_search_loop fuel min_cat restarts (fsm_get_child addr slot)
      else if level addr =? FSM_ROOT_LEVEL then mret InvalidBlockNumber
      else
        let '(parent, parentslot) := fsm_get_parent addr in
        fsm_set_and_search parent parentslot max_avail 0 ;!
        (if restarts >? 10000 then mret InvalidBlockNumber
         else fsm_search_loop fuel min_cat (restarts + 1) FSM_ROOT_ADDRESS)
  end.

(** Ten thousand restarts of three levels each. *)
Definition fsm_search (min_cat : Z) : M FsmRel Z :=
  fsm_search_loop (Z.to_nat 30010) min_cat 0 FSM_ROOT_ADDRESS.

(** ** The operations *)

Definition GetPageWithFreeSpace (spaceNeeded : Z) : M FsmRel Z :=
  let! min_cat := mlift (fsm_space_needed_to_cat spaceNeeded) in fsm_search min_cat.

Definition RecordPageWithFreeSpace (heapBlk spaceAvail : Z) : M FsmRel unit :=
  let new_cat := fsm_space_avail_to_cat spaceAvail in
  let '(addr, slot) := fsm_get_location heapBlk in
  fsm_set_and_search addr slot new_cat 0 ;! mret tt.

Definition RecordAndGetPageWithFreeSpace (oldPage oldSpaceAvail spaceNeeded : Z) : M FsmRel Z :=
  let old_cat := fsm_space_avail_to_cat oldSpaceAvail in
  let! search_cat := mlift (fsm_space_needed_to_cat spaceNeeded) in
  let '(addr, slot) := fsm_get_location oldPage in
  let! search_slot := fsm_set_and_search addr slot old_cat search_cat in
  early
    (if negb (search_slot =? -1) then
       let blknum := fsm_get_heap_blk addr search_slot in
       let! exists_ := fsm_does_block_exist blknum in
       if exists_ then returning blknum else fall_through
     else fall_through)
    (fsm_search search_cat).

Definition GetRecordedFreeSpace (heapBlk : Z) : M FsmRel Z :=
  let '(addr, slot) := fsm_get_location heapBlk in
  let! pin := fsm_readbuf addr false in
  match pin with
  | None => mret 0
  | Some blk => let! cat := on_page blk (fsm_get_avail slot) in mret (fsm_space_cat_to_avail cat)
  end.

Definition RecordFreeIndexPage (freeBlock : Z) : M FsmRel unit := RecordPageWithFreeSpace freeBlock (BLCKSZ - 1).
Definition RecordUsedIndexPage (usedBlock : Z) : M FsmRel unit := RecordPageWithFreeSpace usedBlock 0.

Definition GetFreeIndexPage : M FsmRel Z :=
  let! blkno := GetPageWithFreeSpace (BLCKSZ / 2) in
  (if negb (blkno =? InvalidBlockNumber) then RecordUsedIndexPage blkno else mret tt) ;! mret blkno.

(** The new length of the map, or [InvalidBlockNumber] when there is nothing to
    cut off; the caller truncates the fork. *)
Definition FreeSpaceMapPrepareTruncateRel (nblocks : Z) : M FsmRel Z :=
  mlift (smgr_io io) ;!
  (let! r := mget in
   if negb (fsm_exists r) then mret InvalidBlockNumber
   else
     let '(first_removed_address, first_removed_slot) := fsm_get_location nblocks in
     if first_removed_slot >? 0 then
       let! pin := fsm_readbuf first_removed_address false in
       match pin with
       | None => mret InvalidBlockNumber
       | Some blk =>
           mlift (lock_buffer io) ;!
           (on_page blk (fsm_truncate_avail first_removed_slot) ;!
            (mlift (mark_buffer_dirty io) ;!
             ((if needs_fpi io then mlift (log_newpage_buffer io) else mret tt) ;!
              mret (wrap32 (fsm_logical_to_physical first_removed_address + 1)))))
       end
     else
       let new_nfsmblocks := fsm_logical_to_physical first_removed_address in
       let! n := smgr_nblocks_fsm in
       if n <=? new_nfsmblocks then mret InvalidBlockNumber else mret new_nfsmblocks).

(** ** Vacuum *)

(** The slots of the page at [addr] that lead to heap blocks of [start..end]. *)
Definition vacuum_range (addr : FSMAddress) (start end_ : Z) : Z * Z :=
  let up := Nat.iter (Z.to_nat (level addr)) (fun p : FSMAddress * Z => fsm_get_parent (fst p)) in
  let '(fsm_start, fsm_start_slot) := up (fsm_get_location start) in
  let '(fsm_end, fsm_end_slot) := up (fsm_get_location (end_ - 1)) in
  let start_slot :=
    match logpageno fsm_start ?= logpageno addr with
    | Eq => fsm_start_slot
    | Gt => SLOTS_PER_FSM_PAGE
    | Lt => 0
    end in
  let end_slot :=
    match logpageno fsm_end ?= logpageno addr with
    | Eq => fsm_end_slot
    | Gt => SLOTS_PER_FSM_PAGE - 1
    | Lt => -1
    end in
  (start_slot, end_slot).

(** [for slot in start_slot..=end_slot]; [child slot] is the recursive call. *)
Fixpoint vacuum_slots (child : Z -> M FsmRel (Z * bool)) (blk : Z) (n : nat) (slot : Z) (eof : bool) : M FsmRel unit :=
  match n with
  | O => mret tt
  | S n =>
      let! res := (if negb eof then child slot else mret (0, eof)) in
      let '(child_avail, eof) := res in
      let! cur := on_page blk (fsm_get_avail slot) in
      (if negb (cur =? child_avail) then
         mlift (lock_buffer io) ;!
         (on_page blk (fsm_set_avail slot child_avail) ;!
          (mlift (mark_buffer_dirty_hint io) ;! mlift (lock_buffer io)))
       else mret tt) ;!
      vacuum_slots child blk n (slot + 1) eof
  end.

(** One level of recursion per level of the tree. *)
Fixpoint fsm_vacuum_page (fuel : nat) (addr : FSMAddress) (start end_ : Z) : M FsmRel (Z * bool) :=
  match fuel with
  | O => mlift Panic
  | S fuel =>
      let! pin := fsm_readbuf addr false in
      match pin with
      | None => mret (0, true)
      | Some blk =>
          (if level addr >? FSM_BOTTOM_LEVEL then
             let '(start_slot, end_slot) := vacuum_range addr start end_ in
             vacuum_slots (fun slot => fsm_vacuum_page fuel (fsm_get_child addr slot) start end_) blk
               (Z.to_nat (end_slot - start_slot + 1)) start_slot false
           else mret tt) ;!
          (let! max_avail := on_page blk fsm_get_max_avail in
           on_page blk (set_next_slot 0) ;! mret (max_avail, false))
      end
  end.

Definition FreeSpaceMapVacuum : M FsmRel unit := fsm_vacuum_page 3 FSM_ROOT_ADDRESS 0 InvalidBlockNumber ;! mret tt.

Definition FreeSpaceMapVacuumRange (start end_ : Z) : M FsmRel unit :=
  if end_ >? start then fsm_vacuum_page 3 FSM_ROOT_ADDRESS start end_ ;! mret tt else mret tt.

Definition IndexFreeSpaceMapVacuum : M FsmRel unit := FreeSpaceMapVacuum.
End Rel.
