(* ===== verification/FsmSpec.v ===== *)
(** * Free-space map pages: invariant and lemmas *)

From S2P Require Import Prelude Xid ItemPtr Fsm.

(** The sizes as numbers. *)
Ltac sizes :=
  change NON_LEAF_NODES_PER_PAGE with 4095 in *; change NODES_PER_PAGE with 8164 in *;
  change LEAF_NODES_PER_PAGE with 4069 in *.

Ltac euclid := Z.to_euclidean_division_equations; lia.

(** ** Soundness of a page *)

(** The larger of the children that exist. *)
Definition child_max (f : arr Z) (n : Z) : Z :=
  Z.max (if leftchild n <? NODES_PER_PAGE then f (leftchild n) else 0)
    (if leftchild n + 1 <? NODES_PER_PAGE then f (leftchild n + 1) else 0).

Definition node_ok (f : arr Z) (n : Z) : Prop := f n = child_max f n.

(** Every inner node is the larger of its children. *)
Definition heap_ok (page : FsmPage) : Prop :=
  forall n, 0 <= n < NON_LEAF_NODES_PER_PAGE -> node_ok (fp_nodes page) n.

Definition bytes_ok (page : FsmPage) : Prop :=
  forall n, 0 <= n < NODES_PER_PAGE -> 0 <= fp_nodes page n <= 255.

Definition leaf (page : FsmPage) (slot : Z) : Z := fp_nodes page (NON_LEAF_NODES_PER_PAGE + slot).

Definition same_leaves (page page' : FsmPage) : Prop :=
  forall n, NON_LEAF_NODES_PER_PAGE <= n < NODES_PER_PAGE -> fp_nodes page' n = fp_nodes page n.

Lemma wp_node n Q (E : FsmPage -> Prop) s :
  0 <= n < NODES_PER_PAGE -> Q (fp_nodes s n) s -> wp (node n) Q E s.
Proof.
  intros Hn H. unfold wp, node. destruct (Z.leb_spec 0 n); [|lia]. by destruct (Z.ltb_spec n NODES_PER_PAGE); [|lia].
Qed.

Definition with_node (n v : Z) (s : FsmPage) : FsmPage :=
  {| fp_nodes := set_at n v (fp_nodes s); fp_next_slot := fp_next_slot s |}.

Lemma wp_set_node n v Q (E : FsmPage -> Prop) s :
  0 <= n < NODES_PER_PAGE -> Q tt (with_node n v s) -> wp (set_node n v) Q E s.
Proof.
  intros Hn H. unfold wp, set_node. destruct (Z.leb_spec 0 n); [|lia]. by destruct (Z.ltb_spec n NODES_PER_PAGE); [|lia].
Qed.

Lemma child_max_bytes s n :
  bytes_ok s -> 0 <= n -> 0 <= child_max (fp_nodes s) n <= 255.
Proof.
  intros B Hn. unfold child_max, leftchild in *. pose proof (B (2 * n + 1)). pose proof (B (2 * n + 1 + 1)).
  destruct (Z.ltb_spec (2 * n + 1) NODES_PER_PAGE), (Z.ltb_spec (2 * n + 1 + 1) NODES_PER_PAGE); lia.
Qed.

Lemma bytes_with_node n v s : bytes_ok s -> 0 <= v <= 255 -> bytes_ok (with_node n v s).
Proof. intros B Hv m Hm. cbn. unfold set_at. destruct (m =? n); [done | by apply B]. Qed.

(** Writing a node does not disturb the nodes that are not its parent. *)
Lemma node_ok_other f m v n :
  0 <= n -> n <> m -> n <> parentof m -> node_ok f n -> node_ok (set_at m v f) n.
Proof.
  unfold node_ok, child_max, leftchild, parentof. intros H0 H1 H2 H.
  rewrite !set_at_ne; [done | euclid..].
Qed.

Lemma node_ok_self f m : 0 <= m -> node_ok (set_at m (child_max f m) f) m.
Proof.
  unfold node_ok. intros H. rewrite set_at_eq. unfold child_max, leftchild. rewrite !set_at_ne; [done | lia..].
Qed.

(** The values the code computes. *)
Lemma wp_child_max {A} (k : Z -> M FsmPage A) Q (E : FsmPage -> Prop) n s :
  bytes_ok s -> 0 <= n -> wp (k (child_max (fp_nodes s) n)) Q E s ->
  wp (let! v := (if leftchild n <? NODES_PER_PAGE then node (leftchild n) else mret 0) in
      let! v := (if leftchild n + 1 <? NODES_PER_PAGE
                 then let! r := node (leftchild n + 1) in mret (Z.max v r) else mret v) in k v) Q E s.
Proof.
  intros B Hn H. unfold child_max in H. wp_step.
  assert (Hl : 0 <= leftchild n) by (unfold leftchild; lia).
  assert (Hv : forall v, v = (if leftchild n <? NODES_PER_PAGE then fp_nodes s (leftchild n) else 0) ->
    wp (let! v := (if leftchild n + 1 <? NODES_PER_PAGE
                   then let! r := node (leftchild n + 1) in mret (Z.max v r) else mret v) in k v) Q E s).
  { intros v ->. wp_step. destruct (Z.ltb_spec (leftchild n + 1) NODES_PER_PAGE).
    - wp_step. apply wp_node; [lia|]. by wp_step.
    - wp_step. rewrite Z.max_l in H; [done|]. destruct (Z.ltb_spec (leftchild n) NODES_PER_PAGE); [|done].
      apply B. lia. }
  destruct (Z.ltb_spec (leftchild n) NODES_PER_PAGE) as [Hlt|Hge].
  - apply wp_node; [lia|]. apply Hv. done.
  - wp_step. by apply Hv.
Qed.

(** ** Rebuilding *)

Lemma rebuild_wp : forall n changed s,
  (n <= 4095)%nat -> bytes_ok s -> (forall m, Z.of_nat n <= m < NON_LEAF_NODES_PER_PAGE -> node_ok (fp_nodes s) m) ->
  wp (rebuild n changed)
    (fun c s' => heap_ok s' /\ bytes_ok s' /\ same_leaves s s' /\ (c = false -> s' = s /\ changed = false))
    (fun _ => False) s.
Proof.
  induction n as [|n IH]; intros changed s Hn B H.
  { cbn [rebuild]. wp_step. split; [|by split]. intros m Hm. by apply H. }
  cbn [rebuild]. apply wp_child_max; [done | lia|]. wp_step. apply wp_node; [sizes; lia|].
  destruct (Z.eqb_spec (fp_nodes s (Z.of_nat n)) (child_max (fp_nodes s) (Z.of_nat n))) as [He|He]; cbn [negb].
  - apply IH; [lia | done |]. intros m Hm. destruct (decide (m = Z.of_nat n)) as [->|]; [done|]. apply H. lia.
  - wp_step. apply wp_set_node; [sizes; lia|].
    eapply wp_impl; [apply (IH true) | | done].
    + lia.
    + apply bytes_with_node; [done|]. apply child_max_bytes; [done | lia].
    + intros m Hm. cbn [with_node fp_nodes]. destruct (decide (m = Z.of_nat n)) as [->|Hne]; [apply node_ok_self; lia|].
      apply node_ok_other; [lia | done | unfold parentof; euclid | apply H; lia].
    + intros c s' (H1 & H2 & H3 & H4). split; [done|]. split; [done|]. split.
      * intros m Hm. rewrite H3 by done. cbn. apply set_at_ne. sizes. lia.
      * intros Hc. by destruct (H4 Hc).
Qed.

Lemma rebuild_page_wp s :
  bytes_ok s ->
  wp fsm_rebuild_page
    (fun c s' => heap_ok s' /\ bytes_ok s' /\ same_leaves s s' /\ (c = false -> s' = s)) (fun _ => False) s.
Proof.
  intros B. unfold fsm_rebuild_page. eapply wp_impl; [apply rebuild_wp | | done].
  - sizes. lia.
  - done.
  - intros m Hm. sizes. lia.
  - intros c s' (H1 & H2 & H3 & H4). split; [done|]. split; [done|]. split; [done|]. intros Hc. by apply H4.
Qed.

(** ** Recording *)

(** Only the parent of [n] may be out of date. *)
Definition heap_but (n : Z) (s : FsmPage) : Prop :=
  forall m, 0 <= m < NON_LEAF_NODES_PER_PAGE -> m <> parentof n -> node_ok (fp_nodes s) m.

Lemma parent_range n : 0 < n < NODES_PER_PAGE -> 0 <= parentof n < NON_LEAF_NODES_PER_PAGE /\ parentof n < n.
Proof. unfold parentof. sizes. intros H. euclid. Qed.

Lemma bubble_up_wp : forall fuel n s,
  0 < n < NODES_PER_PAGE -> n + 1 < 2 ^ Z.of_nat fuel * 2 -> bytes_ok s ->
  wp (bubble_up fuel n)
    (fun _ s' => bytes_ok s' /\ same_leaves s s' /\ (heap_but n s -> heap_ok s')) (fun _ => False) s.
Proof.
  induction fuel as [|fuel IH]; intros n s Hn Hf B; [cbn in Hf; lia|]. cbn [bubble_up].
  destruct (parent_range n Hn) as [Hp Hlt].
  assert (Hl : leftchild (parentof n) < NODES_PER_PAGE) by (unfold leftchild, parentof; sizes; euclid).
  assert (Hhalf : 2 * (parentof n + 1) <= n + 1) by (unfold parentof; euclid).
  set (p := parentof n) in *.
  pose proof (wp_child_max (fun newvalue =>
    let! cur := node p in
    if cur =? newvalue then mret tt
    else set_node p newvalue ;! (if p =? 0 then mret tt else bubble_up fuel p))) as W.
  specialize (W (fun _ s' => bytes_ok s' /\ same_leaves s s' /\ (heap_but n s -> heap_ok s')) (fun _ => False) p s B (proj1 Hp)).
  destruct (Z.ltb_spec (leftchild p) NODES_PER_PAGE) as [_|]; [|lia]. apply W. clear W.
  wp_step. apply wp_node; [sizes; lia|].
  assert (Hok : forall s', (forall m, m <> p -> 0 <= m < NON_LEAF_NODES_PER_PAGE -> node_ok (fp_nodes s) m -> node_ok (fp_nodes s') m) ->
    node_ok (fp_nodes s') p -> heap_but n s -> heap_ok s').
  { intros s' H1 H2 H3 m Hm. destruct (decide (m = p)) as [->|Hne]; [done|]. by apply H1, H3. }
  destruct (Z.eqb_spec (fp_nodes s p) (child_max (fp_nodes s) p)) as [He|He].
  { wp_step. split; [done|]. split; [done|]. by apply Hok. }
  wp_step. apply wp_set_node; [sizes; lia|].
  set (s1 := with_node p (child_max (fp_nodes s) p) s).
  assert (B1 : bytes_ok s1) by (apply bytes_with_node; [done | apply child_max_bytes; [done | lia]]).
  assert (L1 : same_leaves s s1) by (intros m Hm; cbn; apply set_at_ne; sizes; lia).
  assert (N1 : node_ok (fp_nodes s1) p) by (apply node_ok_self; lia).
  destruct (Z.eqb_spec p 0) as [Hz|Hz].
  - wp_step. split; [done|]. split; [done|]. apply Hok; [|done]. intros m Hm Hr H. apply node_ok_other; try done; [lia|].
    rewrite Hz. change (parentof 0) with 0. lia.
  - eapply wp_impl; [apply (IH p s1) | | done].
    + sizes. lia.
    + rewrite Nat2Z.inj_succ, Z.pow_succ_r in Hf by lia. lia.
    + done.
    + intros [] s2 (B2 & L2 & H2). split; [done|]. split; [intros m Hm; by rewrite L2, L1|].
      intros H. apply H2. intros m Hm Hne. destruct (decide (m = p)) as [->|Hmp]; [done|].
      apply node_ok_other; [lia | done | done | by apply H].
Qed.

(** ** The root *)

Lemma heap_parent s n : heap_ok s -> 0 < n < NODES_PER_PAGE -> fp_nodes s n <= fp_nodes s (parentof n).
Proof.
  intros H Hn. destruct (parent_range n Hn) as [Hp _]. rewrite (H _ Hp). unfold child_max.
  assert (n = leftchild (parentof n) \/ n = leftchild (parentof n) + 1) as [E|E] by (unfold leftchild, parentof; euclid).
  - rewrite <- E. destruct (Z.ltb_spec n NODES_PER_PAGE); lia.
  - rewrite <- E. destruct (Z.ltb_spec n NODES_PER_PAGE); lia.
Qed.

(** The root is at least every node. *)
Lemma heap_root s : heap_ok s -> forall n, 0 <= n < NODES_PER_PAGE -> fp_nodes s n <= fp_nodes s 0.
Proof.
  intros H. assert (Hn : forall k n, (Z.to_nat n <= k)%nat -> 0 <= n < NODES_PER_PAGE -> fp_nodes s n <= fp_nodes s 0).
  { induction k as [|k IH]; intros n Hk Hn.
    - assert (n = 0) as -> by lia. lia.
    - destruct (decide (n = 0)) as [->|]; [lia|]. destruct (parent_range n ltac:(lia)) as [Hp Hlt].
      etransitivity; [apply heap_parent; [done | lia]|]. apply IH; [lia | sizes; lia]. }
  intros n. by apply (Hn (Z.to_nat n)).
Qed.

(** What [fsm_set_avail] promises. *)
Definition recorded (slot v : Z) (s : FsmPage) (changed : bool) (s' : FsmPage) : Prop :=
  bytes_ok s' /\ leaf s' slot = v /\
  (forall slot', 0 <= slot' < LEAF_NODES_PER_PAGE -> slot' <> slot -> leaf s' slot' = leaf s slot') /\
  v <= fp_nodes s' 0 /\ (heap_ok s -> heap_ok s') /\ (changed = false -> s' = s).

Lemma set_avail_wp slot v s :
  0 <= slot < LEAF_NODES_PER_PAGE -> 0 <= v <= 255 -> bytes_ok s ->
  wp (fsm_set_avail slot v) (recorded slot v s) (fun _ => False) s.
Proof.
  intros Hs Hv B. unfold fsm_set_avail, recorded, leaf. assert (Hr : 0 <= NON_LEAF_NODES_PER_PAGE + slot < NODES_PER_PAGE) by (sizes; lia).
  wp_step. apply wp_node; [done|]. wp_step. apply wp_node; [by sizes|].
  destruct (Z.eqb_spec (fp_nodes s (NON_LEAF_NODES_PER_PAGE + slot)) v) as [He|He];
    [destruct (Z.leb_spec v (fp_nodes s 0)) as [Hle|Hle]|]; cbn [andb].
  { wp_step. split; [done|]. split; [done|]. split; [done|]. by split. }
  all: wp_step; apply wp_set_node; [done|]; set (s1 := with_node _ v s);
    assert (B1 : bytes_ok s1) by by apply bytes_with_node.
  all: assert (Hb : heap_ok s -> heap_but (NON_LEAF_NODES_PER_PAGE + slot) s1)
    by (intros H m Hm Hne; apply node_ok_other; [lia | sizes; lia | done | by apply H]).
  all: assert (L1 : fp_nodes s1 (NON_LEAF_NODES_PER_PAGE + slot) = v) by (cbn; apply set_at_eq).
  all: assert (L1' : forall slot', 0 <= slot' < LEAF_NODES_PER_PAGE -> slot' <> slot ->
    fp_nodes s1 (NON_LEAF_NODES_PER_PAGE + slot') = fp_nodes s (NON_LEAF_NODES_PER_PAGE + slot'))
    by (intros; cbn; apply set_at_ne; lia).
  all: wp_step; (eapply wp_impl; [apply (bubble_up_wp 13 _ s1); [sizes; lia | sizes; cbn; lia | done] | | done]).
  all: intros [] s2 (B2 & L2 & H2); wp_step; (apply wp_node; [by sizes|]); wp_step.
  all: assert (Hl2 : forall slot', 0 <= slot' < LEAF_NODES_PER_PAGE ->
    fp_nodes s2 (NON_LEAF_NODES_PER_PAGE + slot') = fp_nodes s1 (NON_LEAF_NODES_PER_PAGE + slot'))
    by (intros; apply L2; sizes; lia).
  all: rewrite Z.gtb_ltb; destruct (Z.ltb_spec (fp_nodes s2 0) v) as [Hlt|Hge]; wp_step.
  2,4: wp_step; split; [done|]; split; [by rewrite Hl2|]; split; [intros; rewrite Hl2; auto|];
    split; [done|]; split; [auto | done].
  all: eapply wp_impl; [by apply rebuild_page_wp | | done]; intros c s3 (H3 & B3 & L3 & _); repeat wp_step.
  all: assert (Hl3 : forall slot', 0 <= slot' < LEAF_NODES_PER_PAGE ->
    fp_nodes s3 (NON_LEAF_NODES_PER_PAGE + slot') = fp_nodes s1 (NON_LEAF_NODES_PER_PAGE + slot'))
    by (intros; rewrite L3; [auto | sizes; lia]).
  all: split; [done|]; split; [by rewrite Hl3|]; split; [intros; rewrite Hl3; auto|]; split; [|done].
  all: rewrite <- L1, <- Hl3 by done; by apply heap_root.
Qed.

(** ** Truncation *)

Lemma clear_nodes_wp : forall n nodeno changed s,
  0 <= nodeno -> nodeno + Z.of_nat n <= NODES_PER_PAGE -> bytes_ok s ->
  wp (clear_nodes n nodeno changed)
    (fun c s' => bytes_ok s' /\
       (forall m, fp_nodes s' m = if (nodeno <=? m) && (m <? nodeno + Z.of_nat n) then 0 else fp_nodes s m) /\
       (c = false -> changed = false /\ forall m, fp_nodes s' m = fp_nodes s m)) (fun _ => False) s.
Proof.
  induction n as [|n IH]; intros nodeno changed s H0 Hn B; cbn [clear_nodes].
  { wp_step. split; [done|]. split; [|done]. intros m. destruct (Z.leb_spec nodeno m), (Z.ltb_spec m (nodeno + Z.of_nat 0)); done || lia. }
  wp_step. apply wp_node; [lia|]. wp_step. apply wp_set_node; [lia|].
  eapply wp_impl; [apply IH; [lia | lia | by apply bytes_with_node] | | done].
  intros c s' (B' & H1 & H2). split; [done|]. split.
  - intros m. rewrite H1. cbn. unfold set_at. destruct (Z.eqb_spec m nodeno) as [->|Hm].
    + destruct (Z.leb_spec (nodeno + 1) nodeno); [lia|]. destruct (Z.leb_spec nodeno nodeno); [|lia].
      by destruct (Z.ltb_spec nodeno (nodeno + Z.of_nat (S n))); [|lia].
    + destruct (Z.leb_spec (nodeno + 1) m), (Z.leb_spec nodeno m), (Z.ltb_spec m (nodeno + 1 + Z.of_nat n)),
        (Z.ltb_spec m (nodeno + Z.of_nat (S n))); cbn [andb]; done || lia.
  - intros Hc. destruct (H2 Hc) as [Hch Hs]. apply orb_false_iff in Hch as [Hch Hz].
    apply negb_false_iff, Z.eqb_eq in Hz. split; [done|]. intros m. rewrite Hs. cbn. unfold set_at.
    by destruct (Z.eqb_spec m nodeno) as [->|].
Qed.

Lemma heap_ext s s' : (forall m, fp_nodes s' m = fp_nodes s m) -> heap_ok s -> heap_ok s'.
Proof. intros E H n Hn. unfold node_ok, child_max. rewrite !E. by apply H. Qed.

(** What [fsm_truncate_avail] promises. *)
Definition truncated_to (nslots : Z) (s s' : FsmPage) : Prop :=
  bytes_ok s' /\ (heap_ok s -> heap_ok s') /\
  forall slot, 0 <= slot < LEAF_NODES_PER_PAGE -> leaf s' slot = if slot <? nslots then leaf s slot else 0.

Lemma truncate_avail_wp nslots s :
  0 <= nslots < LEAF_NODES_PER_PAGE -> bytes_ok s ->
  wp (fsm_truncate_avail nslots) (fun _ => truncated_to nslots s) (fun _ => False) s.
Proof.
  intros Hn B. unfold fsm_truncate_avail. wp_step.
  eapply wp_impl; [apply clear_nodes_wp; [sizes; lia | sizes; lia | done] | | done].
  intros c s1 (B1 & H1 & H2).
  assert (Hl : forall slot, 0 <= slot < LEAF_NODES_PER_PAGE -> leaf s1 slot = if slot <? nslots then leaf s slot else 0).
  { intros slot Hs. unfold leaf. rewrite H1. sizes. destruct (Z.ltb_spec slot nslots), (Z.leb_spec (4095 + nslots) (4095 + slot)),
      (Z.ltb_spec (4095 + slot) (4095 + nslots + Z.of_nat (Z.to_nat (4069 - nslots)))); cbn [andb]; done || lia. }
  wp_step. destruct c.
  - wp_step. eapply wp_impl; [by apply rebuild_page_wp | | done]. intros c s2 (H3 & B3 & L3 & _). repeat wp_step.
    split; [done|]. split; [done|]. intros slot Hs. rewrite <- Hl by done. apply L3. sizes. lia.
  - repeat wp_step. split; [done|]. split; [|done]. apply heap_ext. by apply H2.
Qed.

(** ** Searching *)

Lemma climb_wp : forall fuel minv n s,
  bytes_ok s -> 0 <= n < NODES_PER_PAGE -> n < 2 ^ Z.of_nat fuel -> minv <= fp_nodes s 0 ->
  (0 < minv \/ NON_LEAF_NODES_PER_PAGE <= n) ->
  wp (climb (S fuel) minv n)
    (fun m s' => s' = s /\ 0 <= m < NODES_PER_PAGE /\ minv <= fp_nodes s m /\
       (0 < minv \/ NON_LEAF_NODES_PER_PAGE <= m)) (fun _ => False) s.
Proof.
  induction fuel as [|fuel IH]; intros minv n s B Hn Hf Hr Hm.
  { assert (n = 0) as -> by (cbn in Hf; lia). cbn [climb]. change (0 >? 0) with false. cbv iota. by wp_step. }
  cbn [climb]. rewrite Z.gtb_ltb. destruct (Z.ltb_spec 0 n) as [Hpos|Hz].
  2:{ wp_step. assert (n = 0) as -> by lia. done. }
  wp_step. apply wp_node; [done|]. rewrite Z.geb_leb. destruct (Z.leb_spec minv (fp_nodes s n)) as [Hle|Hgt].
  { by wp_step. }
  assert (Hnext : 0 <= parentof (rightneighbor n) /\ 2 * parentof (rightneighbor n) <= n).
  { unfold rightneighbor, parentof. destruct (_ =? 0); euclid. }
  rewrite Nat2Z.inj_succ, Z.pow_succ_r in Hf by lia.
  apply IH; [done | lia | lia | done |]. left. specialize (B n Hn). lia.
Qed.

(** Some child of an inner node is as large as it. *)
Lemma heap_child s n minv :
  heap_ok s -> 0 <= n < NON_LEAF_NODES_PER_PAGE -> minv <= fp_nodes s n -> 0 < minv ->
  (leftchild n < NODES_PER_PAGE /\ minv <= fp_nodes s (leftchild n)) \/
  (leftchild n + 1 < NODES_PER_PAGE /\ minv <= fp_nodes s (leftchild n + 1)).
Proof.
  intros H Hn Hv Hp. rewrite (H n Hn) in Hv. unfold child_max in Hv.
  destruct (Z.ltb_spec (leftchild n) NODES_PER_PAGE), (Z.ltb_spec (leftchild n + 1) NODES_PER_PAGE); lia.
Qed.

Lemma wp_child_test c minv s Q (E : FsmPage -> Prop) :
  0 <= c -> Q ((c <? NODES_PER_PAGE) && (minv <=? fp_nodes s c)) s ->
  wp (if c <? NODES_PER_PAGE then let! v := node c in mret (v >=? minv) else mret false) Q E s.
Proof.
  intros Hc H. destruct (Z.ltb_spec c NODES_PER_PAGE); [|by wp_step]. wp_step. apply wp_node; [lia|]. wp_step.
  by rewrite Z.geb_leb.
Qed.

Lemma descend_wp : forall fuel minv n s,
  0 <= n < NODES_PER_PAGE -> 4096 <= (n + 1) * 2 ^ Z.of_nat fuel -> minv <= fp_nodes s n ->
  (0 < minv \/ NON_LEAF_NODES_PER_PAGE <= n) ->
  wp (descend (S fuel) minv n)
    (fun o s' => s' = s /\ match o with
                           | Some m => NON_LEAF_NODES_PER_PAGE <= m < NODES_PER_PAGE /\ minv <= fp_nodes s m
                           | None => ~ heap_ok s
                           end) (fun _ => False) s.
Proof.
  induction fuel as [|fuel IH]; intros minv n s Hn Hf Hv Hm.
  { cbn [descend]. destruct (Z.ltb_spec n NON_LEAF_NODES_PER_PAGE); [sizes; cbn in Hf; lia |].
    wp_step. split; [done|]. split; [lia | done]. }
  rewrite Nat2Z.inj_succ, Z.pow_succ_r in Hf by lia.
  cbn [descend]. destruct (Z.ltb_spec n NON_LEAF_NODES_PER_PAGE) as [Hlt|Hge];
    [|wp_step; split; [done|]; split; [lia | done]].
  assert (Hpos : 0 < minv) by lia. assert (Hl : 0 <= leftchild n) by (unfold leftchild; lia).
  wp_step. apply wp_child_test; [done|].
  destruct (Z.ltb_spec (leftchild n) NODES_PER_PAGE) as [H1|H1]; [destruct (Z.leb_spec minv (fp_nodes s (leftchild n))) as [H2|H2]|];
    cbn [andb].
  { apply IH; [lia | | done | by left]. unfold leftchild. nia. }
  all: wp_step; (apply wp_child_test; [lia|]).
  all: destruct (Z.ltb_spec (leftchild n + 1) NODES_PER_PAGE) as [H3|H3];
    [destruct (Z.leb_spec minv (fp_nodes s (leftchild n + 1))) as [H4|H4]|]; cbn [andb].
  1,4: apply IH; [lia | unfold leftchild; nia | done | by left].
  all: wp_step; split; [done|]; intros H; destruct (heap_child s n minv H ltac:(lia) Hv Hpos); lia.
Qed.

#[local] Opaque fsm_rebuild_page.

Section SearchSpec.
Context (relock : FsmPage -> result FsmPage) (mark : result unit).

(** Other backends leave bytes; locking and marking may fail but do not panic. *)
Hypothesis RelockOk : forall s s', bytes_ok s -> relock s = Ok s' -> bytes_ok s'.
Hypothesis RelockNoPanic : forall s, relock s <> Panic.
Hypothesis MarkNoPanic : mark <> Panic.

(** The outcome of a search: a slot with enough room, or the word of the root
    that there is none. *)
Definition search_result (minv slot : Z) (s : FsmPage) : Prop :=
  bytes_ok s /\
  ((slot = -1 /\ fp_nodes s 0 < minv) \/ (0 <= slot < LEAF_NODES_PER_PAGE /\ minv <= leaf s slot)).

Lemma search_pass minv adv s (again : M FsmPage Z) (Q : Z -> FsmPage -> Prop) E :
  bytes_ok s ->
  (forall slot s', search_result minv slot s' -> (forall m, fp_nodes s' m = fp_nodes s m) -> Q slot s') ->
  (~ heap_ok s -> wp again Q E s) ->
  wp (let! root := node 0 in
      if root <? minv then mret (-1)
      else
        let! target := next_slot in
        let target := if negb ((0 <=? target) && (target <? LEAF_NODES_PER_PAGE)) then 0 else target in
        let target := target + NON_LEAF_NODES_PER_PAGE in
        let! nodeno := climb 14 minv target in
        let! leaf := descend 13 minv nodeno in
        match leaf with
        | Some nodeno =>
            let slot := nodeno - NON_LEAF_NODES_PER_PAGE in
            set_next_slot (slot + (if adv : bool then 1 else 0)) ;! mret slot
        | None => again
        end) Q E s.
Proof.
  intros B HQ Ha. wp_step. apply wp_node; [by sizes|]. destruct (Z.ltb_spec (fp_nodes s 0) minv) as [Hlt|Hge].
  { wp_step. apply HQ; [split; [done | by left] | done]. }
  wp_step. unfold wp at 1, next_slot. cbv zeta. set (target := (if _ : bool then 0 else _) + _).
  assert (Ht : NON_LEAF_NODES_PER_PAGE <= target < NODES_PER_PAGE).
  { unfold target. sizes. destruct (Z.leb_spec 0 (fp_next_slot s)), (Z.ltb_spec (fp_next_slot s) 4069); cbn [andb negb]; lia. }
  clearbody target. wp_step.
  eapply wp_impl; [apply (climb_wp 13); [done | sizes; lia | sizes; cbn; lia | done | right; lia] | | done].
  intros n s1 (-> & Hn & Hv & Hm). wp_step.
  eapply wp_impl; [apply (descend_wp 12); [done | cbn; lia | done | done] | | done].
  intros [m|] s1 (-> & H); [|by apply Ha]. unfold set_next_slot. repeat wp_step. apply HQ; [|done].
  split; [done|]. right. unfold leaf. cbn. sizes. replace (4095 + (m - 4095)) with m by lia. split; [lia | tauto].
Qed.

Lemma search_avail_wp minv adv excl s :
  bytes_ok s ->
  wp (fsm_search_avail relock mark minv adv excl)
    (fun slot s' => search_result minv slot s' /\ (heap_ok s -> forall m, fp_nodes s' m = fp_nodes s m) /\
       ((excl = true \/ forall s1 s2, relock s1 = Ok s2 -> s2 = s1) -> same_leaves s s'))
    (fun s' => bytes_ok s' /\ ~ heap_ok s) s.
Proof.
  intros B. unfold fsm_search_avail. cbn [search_loop]. apply search_pass; [done | |].
  { intros slot s' H He. split; [done|]. split; [done|]. intros _ m _. by apply He. }
  intros Hbad. assert (Hrest : forall s1, bytes_ok s1 ->
    ((excl = true \/ forall s1 s2, relock s1 = Ok s2 -> s2 = s1) -> s1 = s) ->
    wp (fsm_rebuild_page ;! (mlift mark ;! search_loop relock mark 1 minv adv true))
      (fun slot s' => search_result minv slot s' /\ (heap_ok s -> forall m, fp_nodes s' m = fp_nodes s m) /\
         ((excl = true \/ forall s1 s2, relock s1 = Ok s2 -> s2 = s1) -> same_leaves s s'))
      (fun s' => bytes_ok s' /\ ~ heap_ok s) s1).
  { intros s1 B1 Es. wp_step. eapply wp_impl; [by apply rebuild_page_wp | | done]. intros c s2 (H2 & B2 & L2 & _). wp_step.
    unfold wp at 1, mlift. destruct mark as [[]| |] eqn:M; [|done|done].
    cbn [search_loop]. apply search_pass; [done | | done]. intros slot s3 H3 E3. split; [done|]. split; [done|].
    intros Hr m Hm. rewrite E3, L2 by done. by rewrite (Es Hr). }
  wp_step. destruct excl; cbn [negb]; [wp_step; by apply Hrest|].
  unfold wp at 1, take_exclusive. destruct (relock s) as [s1| |] eqn:R; [|done | by apply RelockNoPanic in R].
  apply Hrest; [by eapply RelockOk|]. intros [?|Hr]; [done | by apply Hr].
Qed.
End SearchSpec.

(** ** Addresses *)

(** The addresses of a tree of full pages. *)
Definition addr_ok (a : FSMAddress) : Prop :=
  0 <= level a <= 2 /\ 0 <= logpageno a /\ logpageno a * 4069 ^ level a < 4069 ^ 2.

(** The number of the first leaf page under an address. *)
Definition leafno (a : FSMAddress) : Z := logpageno a * 4069 ^ level a.

(** Pages before leaf page [n], itself included, in depth-first order. *)
Definition pages_to (n : Z) : Z := n + n / 4069 + n / 16556761 + 3.

Lemma as_i32_small x : 0 <= x < 2 ^ 31 -> as_i32 (wrap32 x) = x.
Proof. intros H. rewrite wrap32_small by (unfold is_u32; lia). unfold as_i32. destruct (Z.ltb_spec x (2 ^ 31)); lia. Qed.

Lemma physical_closed a : addr_ok a -> fsm_logical_to_physical a = pages_to (leafno a) - level a - 1.
Proof.
  destruct a as [l p]. intros (Hl & Hp & Hb). unfold leafno. cbn [level logpageno] in *.
  unfold fsm_logical_to_physical. cbn [level logpageno].
  change (Z.to_nat FSM_TREE_DEPTH) with 3%nat. change SLOTS_PER_FSM_PAGE with 4069.
  assert (El : Nat.iter (Z.to_nat l) (fun leafno => as_i32 (wrap32 (leafno * 4069))) p = p * 4069 ^ l).
  { assert (l = 0 \/ l = 1 \/ l = 2) as [->|[->| ->]] by lia.
    - transitivity p; [done | lia].
    - change (4069 ^ 1) with 4069 in *. transitivity (as_i32 (wrap32 (p * 4069))); [done|]. rewrite as_i32_small; lia.
    - change (4069 ^ 2) with 16556761 in *. transitivity (as_i32 (wrap32 (as_i32 (wrap32 (p * 4069)) * 4069))); [done|].
      rewrite (as_i32_small (p * 4069)) by lia. rewrite as_i32_small; lia. }
  rewrite El. set (L := p * 4069 ^ l) in *. assert (0 <= L < 16556761) by (unfold L in *; nia). clearbody L. clear El Hb.
  transitivity (wrap32 (wrap32 (wrap32 (wrap32 (wrap32 (0 + wrap32 (L + 1)) + wrap32 (Z.quot L 4069 + 1))
    + wrap32 (Z.quot (Z.quot L 4069) 4069 + 1)) - l) - 1)); [done|].
  rewrite !Z.quot_div_nonneg by (try apply Z.div_pos; lia).
  rewrite Z.div_div by lia. unfold pages_to. change (4069 * 4069) with 16556761.
  assert (0 <= L / 4069 < 4069) by (Z.div_mod_to_equations; lia).
  assert (L / 16556761 = 0) as -> by (apply Z.div_small; lia).
  rewrite (wrap32_small (L + 1)), (wrap32_small (L / 4069 + 1)), (wrap32_small (0 + 1)) by (unfold is_u32; lia).
  rewrite (wrap32_small (0 + (L + 1))) by (unfold is_u32; lia).
  rewrite (wrap32_small (0 + (L + 1) + (L / 4069 + 1))) by (unfold is_u32; lia).
  rewrite (wrap32_small (0 + (L + 1) + (L / 4069 + 1) + (0 + 1))) by (unfold is_u32; lia).
  rewrite (wrap32_small (_ - l)) by (unfold is_u32; lia). rewrite wrap32_small by (unfold is_u32; lia). lia.
Qed.

(** Different addresses are in different blocks. *)
Lemma physical_inj a b :
  addr_ok a -> addr_ok b -> fsm_logical_to_physical a = fsm_logical_to_physical b -> a = b.
Proof.
  intros Ha Hb. rewrite !physical_closed by done. destruct a as [l p], b as [l' p']. unfold leafno, pages_to, addr_ok in *.
  cbn [level logpageno] in *. destruct Ha as (Hl & Hp & Hx), Hb as (Hl' & Hp' & Hx').
  assert (l = 0 \/ l = 1 \/ l = 2) as [->|[->| ->]] by lia;
    assert (l' = 0 \/ l' = 1 \/ l' = 2) as [->|[->| ->]] by lia;
    change (4069 ^ 0) with 1 in *; change (4069 ^ 1) with 4069 in *; change (4069 ^ 2) with 16556761 in *;
    intros E; try (exfalso; Z.div_mod_to_equations; lia); f_equal; Z.div_mod_to_equations; lia.
Qed.

(** ** The map *)

(** The buffer and storage managers may report errors but do not panic. *)
Class FsmRunning (io : FsmIo) : Prop := {
  SmgrNoPanic : smgr_io io <> Panic;
  ReadNoPanic : forall b, read_buffer io b <> Panic;
  ExtendNoPanic : forall n, extend_buffered_rel io n <> Panic;
  LockNoPanic : lock_buffer io <> Panic;
  HintNoPanic : mark_buffer_dirty_hint io <> Panic;
  DirtyNoPanic : mark_buffer_dirty io <> Panic;
  LogNoPanic : log_newpage_buffer io <> Panic
}.

(** The pages hold bytes, and the cached lengths are not too long. *)
Record fsm_ok (r : FsmRel) : Prop := {
  ok_bytes : forall b, bytes_ok (fsm_page r b);
  ok_cache : fsm_cached_nblocks r = InvalidBlockNumber \/ fsm_cached_nblocks r <= fsm_nblocks r;
  ok_fork : fsm_exists r = false -> fsm_nblocks r = 0;
  ok_new : forall b, fsm_new r b = true -> forall n, fp_nodes (fsm_page r b) n = 0;
  ok_main : main_cached_nblocks r = InvalidBlockNumber \/ main_cached_nblocks r <= main_nblocks r
}.

(** The category recorded in [slot] of block [b]. *)
Definition avail (r : FsmRel) (b slot : Z) : Z :=
  if b <? fsm_nblocks r then leaf (fsm_page r b) slot else 0.

Definition main_same (r r' : FsmRel) : Prop := main_nblocks r' = main_nblocks r.

(** A page of the fork whose header is in place. *)
Definition pinned (r : FsmRel) (b : Z) : Prop := b < fsm_nblocks r /\ fsm_new r b = false.

(** Nothing recorded is lost, as long as no page is damaged. *)
Definition keeps_avail (io : FsmIo) (r r' : FsmRel) : Prop :=
  (forall b, damaged io b = false) -> forall b slot, 0 <= slot < LEAF_NODES_PER_PAGE -> avail r' b slot = avail r b slot.

Definition reads (io : FsmIo) (r r' : FsmRel) : Prop := fsm_ok r' /\ main_same r r' /\ keeps_avail io r r'.

Lemma wp_on_page {A} b (m : M FsmPage A) Q (E : FsmRel -> Prop) r :
  wp m (fun a pg => Q a (set_fsm_page b pg r)) (fun pg => E (set_fsm_page b pg r)) (fsm_page r b) ->
  wp (on_page b m) Q E r.
Proof. unfold wp, on_page. by destruct (m (fsm_page r b)) as [[] ?]. Qed.

Lemma wp_io {S} (x : result unit) (Q : unit -> S -> Prop) (E : S -> Prop) s :
  x <> Panic -> Q tt s -> E s -> wp (mlift x) Q E s.
Proof. unfold wp, mlift. by destruct x as [[]| |]. Qed.

Lemma fsm_ok_page b pg r : fsm_ok r -> fsm_new r b = false -> bytes_ok pg -> fsm_ok (set_fsm_page b pg r).
Proof.
  intros [B C F W Mn] Hw Hp. split; try done.
  - intros b'. cbn. unfold set_at. destruct (b' =? b); [done | apply B].
  - intros b'. cbn. unfold set_at. destruct (Z.eqb_spec b' b) as [->|]; [congruence | apply W].
Qed.

Lemma avail_page b pg r b' slot :
  b < fsm_nblocks r -> avail (set_fsm_page b pg r) b' slot = if b' =? b then leaf pg slot else avail r b' slot.
Proof.
  intros Hb. unfold avail. cbn. unfold set_at. destruct (Z.eqb_spec b' b) as [->|]; [|done].
  destruct (Z.ltb_spec b (fsm_nblocks r)); [done | lia].
Qed.

Lemma avail_pinned b slot r : pinned r b -> avail r b slot = leaf (fsm_page r b) slot.
Proof. intros [Hb _]. unfold avail. destruct (Z.ltb_spec b (fsm_nblocks r)); [done | lia]. Qed.

Lemma zero_bytes : bytes_ok zero_fsm_page.
Proof. intros n _. cbn. lia. Qed.

Lemma grow_ok n r : fsm_ok r -> fsm_ok (grow_fsm n r).
Proof.
  intros [B C F W Mn]. split; cbn; [|by left | done | | done]; intros b; destruct (_ && _); [apply zero_bytes | apply B | done | apply W].
Qed.

Lemma grow_avail n r b slot : avail (grow_fsm n r) b slot = avail r b slot.
Proof.
  unfold avail. cbn. destruct (Z.ltb_spec b (Z.max n (fsm_nblocks r))), (Z.ltb_spec b (fsm_nblocks r)),
    (Z.leb_spec (fsm_nblocks r) b), (Z.ltb_spec b n); cbn [andb]; done || lia.
Qed.

Lemma reads_refl io r : fsm_ok r -> reads io r r.
Proof. intros H. by split. Qed.

Lemma reads_trans io r1 r2 r3 : reads io r1 r2 -> reads io r2 r3 -> reads io r1 r3.
Proof.
  unfold reads, main_same. intros (O1 & M1 & K1) (O2 & M2 & K2). split; [done|]. split; [congruence|].
  intros Hd b slot Hs. by rewrite K2, K1.
Qed.

(** Looking at a page changes nothing. *)
Lemma reads_repage io b r : fsm_ok r -> pinned r b -> reads io r (set_fsm_page b (fsm_page r b) r).
Proof.
  intros Hok Hb. pose proof Hb as [Hn Hw]. split; [apply fsm_ok_page; [done | done | apply Hok]|]. split; [done|].
  intros _ b' slot Hs. rewrite avail_page by done. destruct (Z.eqb_spec b' b) as [->|]; [|done]. by rewrite avail_pinned.
Qed.

(** A page of zeroes whose header is cleared or put in place. *)
Lemma zero_page_ok b w r :
  fsm_ok r -> fsm_ok (set_fsm_new b w (set_fsm_page b zero_fsm_page r)).
Proof.
  intros [B C F W Mn]. split; try done.
  - intros b'. cbn. unfold set_at. destruct (b' =? b); [apply zero_bytes | apply B].
  - intros b'. cbn. unfold set_at. destruct (b' =? b); [done | apply W].
Qed.

Lemma cached_ok n r :
  fsm_ok r -> n = InvalidBlockNumber \/ n <= fsm_nblocks r -> fsm_ok (set_fsm_cached n r).
Proof. by intros [B C F W Mn] Hn. Qed.

Lemma reads_cached io n r :
  fsm_ok r -> n = InvalidBlockNumber \/ n <= fsm_nblocks r -> reads io r (set_fsm_cached n r).
Proof. intros H Hn. split; [by apply cached_ok | done]. Qed.

Section RelSpec.
Context (io : FsmIo) `{!FsmRunning io}.

Lemma wp_lock {A} (m : M FsmRel A) Q (E : FsmRel -> Prop) r :
  E r -> wp m Q E r -> wp (mlift (lock_buffer io) ;! m) Q E r.
Proof. intros He Hm. wp_step. apply wp_io; [apply LockNoPanic | done | done]. Qed.

Lemma wp_hint {A} (m : M FsmRel A) Q (E : FsmRel -> Prop) r :
  E r -> wp m Q E r -> wp (mlift (mark_buffer_dirty_hint io) ;! m) Q E r.
Proof. intros He Hm. wp_step. apply wp_io; [apply HintNoPanic | done | done]. Qed.

Lemma init_new_page_wp b r :
  fsm_ok r -> b < fsm_nblocks r ->
  wp (init_new_page io b) (fun _ r' => reads io r r' /\ pinned r' b) (reads io r) r.
Proof.
  intros Hok Hb. unfold init_new_page. repeat wp_step. destruct (fsm_new r b) eqn:Hw.
  - apply wp_lock; [by apply reads_refl|]. repeat wp_step. split; [|split; [done | cbn; by rewrite set_at_eq]].
    split; [by apply zero_page_ok|]. split; [done|]. intros _ b' slot _.
    transitivity (avail (set_fsm_page b zero_fsm_page r) b' slot); [done|]. rewrite avail_page by done.
    destruct (Z.eqb_spec b' b) as [->|]; [|done]. unfold avail, leaf. destruct (Z.ltb_spec b (fsm_nblocks r)); [|lia].
    by rewrite (ok_new r Hok b Hw).
  - wp_step. split; [by apply reads_refl | done].
Qed.

(** The length of the map, as [fsm_readbuf] learns it. *)
Lemma readbuf_length_wp b r :
  fsm_ok r ->
  wp (if (fsm_cached_nblocks r =? InvalidBlockNumber) || (fsm_cached_nblocks r <=? b) then
        mput (set_fsm_cached InvalidBlockNumber) ;!
        (mlift (smgr_io io) ;!
         (if fsm_exists r then smgr_nblocks_fsm io else mput (set_fsm_cached 0) ;! mret 0))
      else mret (fsm_cached_nblocks r))
    (fun n r' => reads io r r' /\ (fsm_page r' = fsm_page r /\ fsm_new r' = fsm_new r /\ fsm_nblocks r' = fsm_nblocks r) /\
       n <= fsm_nblocks r /\ (n <= b -> fsm_nblocks r <= b))
    (reads io r) r.
Proof.
  intros Hok. pose proof (reads_refl io r Hok) as R0.
  destruct ((fsm_cached_nblocks r =? InvalidBlockNumber) || (fsm_cached_nblocks r <=? b)) eqn:T.
  - assert (R1 : reads io r (set_fsm_cached InvalidBlockNumber r)) by (apply reads_cached; auto).
    repeat wp_step. apply wp_io; [apply SmgrNoPanic | | done]. destruct (fsm_exists r) eqn:Ex.
    + unfold smgr_nblocks_fsm. wp_step. apply wp_io; [apply SmgrNoPanic | | done]. repeat wp_step. cbn.
      split; [|split; [done | lia]]. apply (reads_cached io (fsm_nblocks r) r); [done | right; lia].
    + pose proof (ok_fork r Hok Ex) as Hz. repeat wp_step. split; [|split; [done | lia]].
      apply (reads_cached io 0 r); [done | right; lia].
  - wp_step. apply orb_false_iff in T as [T1 T2]. apply Z.eqb_neq in T1. apply Z.leb_gt in T2.
    split; [done|]. split; [done|]. destruct (ok_cache r Hok); [done | lia].
Qed.

(** The page comes into the buffer. *)
Lemma readbuf_fetch_wp b n r :
  fsm_ok r -> n <= fsm_nblocks r ->
  wp (if n <=? b then mlift (extend_buffered_rel io (b + 1)) ;! mput (grow_fsm (b + 1))
      else
        mlift (read_buffer io b) ;!
        (if damaged io b then mput (set_fsm_page b zero_fsm_page) ;! mput (set_fsm_new b true) else mret tt))
    (fun _ r' => reads io r r' /\ b < fsm_nblocks r') (reads io r) r.
Proof.
  intros Hok Hn. pose proof (reads_refl io r Hok) as R0. destruct (Z.leb_spec n b) as [Hle|Hlt]; wp_step.
  - apply wp_io; [apply ExtendNoPanic | | done]. wp_step. split; [|cbn; lia]. split; [by apply grow_ok|]. split; [done|].
    intros _ b' slot _. apply grow_avail.
  - apply wp_io; [apply ReadNoPanic | | done]. destruct (damaged io b) eqn:Db; repeat wp_step; [|split; [done | lia]].
    split; [|cbn; lia]. split; [by apply zero_page_ok|]. split; [done|]. intros Hd. by rewrite Hd in Db.
Qed.

Lemma readbuf_wp a ext r :
  fsm_ok r ->
  wp (fsm_readbuf io a ext)
    (fun o r' => reads io r r' /\
       match o with
       | Some b => b = fsm_logical_to_physical a /\ pinned r' b
       | None => ext = false /\ fsm_nblocks r <= fsm_logical_to_physical a /\ fsm_nblocks r' = fsm_nblocks r
       end) (reads io r) r.
Proof.
  intros Hok. unfold fsm_readbuf. set (b := fsm_logical_to_physical a). wp_step. wp_step. wp_step.
  eapply wp_impl; [by apply readbuf_length_wp | | done]. intros n r1 (R1 & (_ & _ & N1) & Hn & Hb).
  assert (Hrest : wp ((if n <=? b then mlift (extend_buffered_rel io (b + 1)) ;! mput (grow_fsm (b + 1))
      else
        mlift (read_buffer io b) ;!
        (if damaged io b then mput (set_fsm_page b zero_fsm_page) ;! mput (set_fsm_new b true) else mret tt)) ;!
      (init_new_page io b ;! mret (Some b)))
    (fun o r' => reads io r r' /\
       match o with
       | Some b' => b' = b /\ pinned r' b'
       | None => ext = false /\ fsm_nblocks r <= b /\ fsm_nblocks r' = fsm_nblocks r
       end) (reads io r) r1).
  { wp_step. eapply wp_impl; [apply readbuf_fetch_wp; [apply R1 | lia] | | intros r2; by apply reads_trans].
    intros _ r2 (R2 & Hb2). wp_step.
    eapply wp_impl; [apply init_new_page_wp; [apply R2 | done] | | intros r3 R3; eapply reads_trans; [done|]; by eapply reads_trans].
    intros _ r3 (R3 & P3). wp_step. split; [|done]. eapply reads_trans; [done|]. by eapply reads_trans. }
  destruct (Z.leb_spec n b) as [Hle|Hlt]; cbn [andb]; [|done]. destruct ext; cbn [negb]; [done|]. wp_step. auto.
Qed.

(** Slot [slot] of block [b] gets [v], and nothing else is lost. *)
Definition sets (b slot v : Z) (r r' : FsmRel) : Prop :=
  fsm_ok r' /\ main_same r r' /\
  ((forall b, damaged io b = false) -> forall b' slot', 0 <= slot' < LEAF_NODES_PER_PAGE ->
   avail r' b' slot' = if (b' =? b) && (slot' =? slot) then v else avail r b' slot').

(** What an error leaves. *)
Definition survives (r r' : FsmRel) : Prop := fsm_ok r' /\ main_same r r'.

Lemma reads_survives r r' : reads io r r' -> survives r r'.
Proof. by intros (? & ? & _). Qed.

Lemma sets_survives b slot v r r' : sets b slot v r r' -> survives r r'.
Proof. by intros (? & ? & _). Qed.

Lemma survives_trans r1 r2 r3 : survives r1 r2 -> survives r2 r3 -> survives r1 r3.
Proof. unfold survives, main_same. intros (O1 & M1) (O2 & M2). split; [done | congruence]. Qed.

Lemma on_page_set_avail b slot v r r0 :
  reads io r0 r -> pinned r b -> 0 <= slot < LEAF_NODES_PER_PAGE -> 0 <= v <= 255 ->
  wp (on_page b (fsm_set_avail slot v)) (fun _ r' => sets b slot v r0 r' /\ pinned r' b) (fun _ => False) r.
Proof.
  intros (Ok & Mn & Ka) Hp Hs Hv. apply wp_on_page.
  eapply wp_impl; [apply set_avail_wp; [done | done | apply Ok] | | done].
  intros c pg (B & Hl & Ho & _). split; [|done]. split; [apply fsm_ok_page; [done | apply Hp | done]|]. split; [done|].
  intros Hd b' slot' Hs'. rewrite avail_page by apply Hp. destruct (Z.eqb_spec b' b) as [->|]; cbn [andb]; [|by apply Ka].
  destruct (Z.eqb_spec slot' slot) as [->|]; [done|]. rewrite Ho, <- Ka by done. by rewrite avail_pinned.
Qed.

Lemma on_page_search b minv adv excl r :
  fsm_ok r -> pinned r b ->
  wp (on_page b (search_page io minv adv excl))
    (fun slot r' => reads io r r' /\ pinned r' b /\ search_result minv slot (fsm_page r' b)) (survives r) r.
Proof.
  intros Hok Hb. pose proof Hb as [Hn Hw]. apply wp_on_page. unfold search_page. eapply wp_impl.
  - apply search_avail_wp; [| | apply HintNoPanic | apply Hok].
    + intros s s' B. unfold rbind. by destruct (lock_buffer io); intros [= <-].
    + intros s. unfold rbind. pose proof (@LockNoPanic io _). by destruct (lock_buffer io).
  - intros slot pg (Hr & _ & Hl). split; [|split; [done | cbn; by rewrite set_at_eq]].
    split; [apply fsm_ok_page; [done | done | apply Hr]|]. split; [done|]. intros _ b' slot' Hs.
    rewrite avail_page by done. destruct (Z.eqb_spec b' b) as [->|]; [|done]. rewrite avail_pinned by done.
    apply Hl; [|sizes; lia]. right. intros s1 s2. unfold rbind. by destruct (lock_buffer io); intros [= ->].
  - intros pg (B & _). split; [by apply fsm_ok_page | done].
Qed.

(** What [fsm_set_and_search] finds. *)
Definition found (minv b slot : Z) (r : FsmRel) : Prop :=
  0 <= slot < LEAF_NODES_PER_PAGE /\ pinned r b /\ minv <= avail r b slot.

Lemma found_of_search minv b slot r :
  pinned r b -> search_result minv slot (fsm_page r b) -> slot = -1 \/ found minv b slot r.
Proof.
  intros Hb (_ & [[? _]|[Hs Hv]]); [by left|]. right. split; [done|]. split; [done|]. by rewrite avail_pinned.
Qed.

Lemma set_and_search_wp a slot v minv r :
  fsm_ok r -> 0 <= slot < LEAF_NODES_PER_PAGE -> 0 <= v <= 255 ->
  wp (fsm_set_and_search io a slot v minv)
    (fun newslot r' => sets (fsm_logical_to_physical a) slot v r r' /\
       (newslot = -1 \/ (minv <> 0 /\ found minv (fsm_logical_to_physical a) newslot r'))) (survives r) r.
Proof.
  intros Hok Hs Hv. unfold fsm_set_and_search. wp_step.
  eapply wp_impl; [by apply readbuf_wp | | by apply reads_survives].
  intros [b|] r1 (R1 & H1); [destruct H1 as [-> Hb] | by destruct H1]. apply wp_lock; [by apply reads_survives|].
  wp_step. eapply wp_impl; [by eapply on_page_set_avail | | done]. intros c r2 (S2 & P2).
  assert (Hrest : wp (let! newslot := (if negb (minv =? 0)
      then on_page (fsm_logical_to_physical a) (search_page io minv (level a =? FSM_BOTTOM_LEVEL) true)
      else mret (-1)) in mlift (lock_buffer io) ;! mret newslot)
    (fun newslot r' => sets (fsm_logical_to_physical a) slot v r r' /\
       (newslot = -1 \/ (minv <> 0 /\ found minv (fsm_logical_to_physical a) newslot r'))) (survives r) r2).
  { wp_step. destruct (Z.eqb_spec minv 0) as [->|Hm]; cbn [negb].
    - wp_step. apply wp_lock; [by eapply sets_survives|]. wp_step. auto.
    - eapply wp_impl; [apply on_page_search; [apply S2 | done] | | intros r3 ?; eapply survives_trans; [by eapply sets_survives | done]].
      intros newslot r3 (R3 & P3 & F3). assert (S3 : sets (fsm_logical_to_physical a) slot v r r3).
      { destruct S2 as (O2 & M2 & A2), R3 as (O3 & M3 & K3). split; [done|]. split; [unfold main_same in *; congruence|].
        intros Hd b' slot' Hs'. rewrite K3, A2; done. }
      apply wp_lock; [by eapply sets_survives|]. wp_step. split; [done|].
      destruct (found_of_search minv (fsm_logical_to_physical a) newslot r3) as [->|F]; [done | done | by left | by right]. }
  wp_step. destruct c; [|by wp_step]. apply wp_io; [apply HintNoPanic | done | by eapply sets_survives].
Qed.

(** ** The search *)

(** Slot [slot] of the bottom page at [a] is for block [blk] of the heap. *)
Definition heap_slot (a : FSMAddress) (slot blk : Z) : Prop :=
  addr_ok a /\ level a = FSM_BOTTOM_LEVEL /\ 0 <= slot < LEAF_NODES_PER_PAGE /\ fsm_get_heap_blk a slot = blk.

(** Only the room of blocks that do not exist may be forgotten. *)
Definition keeps_heap (r r' : FsmRel) : Prop :=
  (forall b, damaged io b = false) -> forall a slot blk, heap_slot a slot blk -> blk < main_nblocks r ->
  avail r' (fsm_logical_to_physical a) slot = avail r (fsm_logical_to_physical a) slot.

Definition searching (r r' : FsmRel) : Prop := survives r r' /\ keeps_heap r r'.

Lemma reads_searching r r' : reads io r r' -> searching r r'.
Proof.
  intros (O & Mn & K). split; [done|]. intros Hd a slot blk (_ & _ & Hs & _) _. by apply K.
Qed.

Lemma searching_trans r1 r2 r3 : searching r1 r2 -> searching r2 r3 -> searching r1 r3.
Proof.
  intros (S1 & K1) (S2 & K2). split; [by eapply survives_trans|]. intros Hd a slot blk Ha Hb.
  destruct S1 as (_ & Mn). unfold main_same in Mn. rewrite (K2 Hd a slot blk Ha), (K1 Hd a slot blk Ha); [done | done | lia].
Qed.

(** Writing an upper page, or the slot of a block that does not exist. *)
Lemma sets_searching a slot v r r' :
  addr_ok a -> (level a = FSM_BOTTOM_LEVEL -> main_nblocks r <= fsm_get_heap_blk a slot) ->
  sets (fsm_logical_to_physical a) slot v r r' -> searching r r'.
Proof.
  intros Ha Hx (O & Mn & Hs). split; [done|]. intros Hd a' slot' blk (Ha' & Hl & Hs' & <-) Hb. rewrite Hs by done.
  destruct (Z.eqb_spec (fsm_logical_to_physical a') (fsm_logical_to_physical a)) as [E|]; [|done].
  apply physical_inj in E as <-; [|done | done]. cbn [andb]. destruct (Z.eqb_spec slot' slot) as [->|]; [|done].
  specialize (Hx Hl). lia.
Qed.

Lemma does_block_exist_wp b r :
  fsm_ok r ->
  wp (fsm_does_block_exist io b)
    (fun x r' => x = (b <? main_nblocks r) /\ reads io r r' /\ (forall k, pinned r k -> pinned r' k) /\
       (forall k slot, avail r' k slot = avail r k slot)) (survives r) r.
Proof.
  intros Hok. pose proof (reads_refl io r Hok) as R0. unfold fsm_does_block_exist. repeat wp_step.
  destruct (Z.eqb_spec (main_cached_nblocks r) InvalidBlockNumber) as [|Hc]; cbn [negb andb];
    [|destruct (Z.ltb_spec b (main_cached_nblocks r))].
  2:{ wp_step. split; [|done]. destruct (ok_main r Hok); [done|]. symmetry. apply Z.ltb_lt. lia. }
  all: unfold smgr_nblocks_main; repeat wp_step; apply wp_io; [apply SmgrNoPanic | | done]; repeat wp_step.
  all: split; [done|]; split; [|done]; split; [|done]; destruct Hok; split; try done; cbn; lia.
Qed.

Lemma child_ok a slot :
  addr_ok a -> level a <> FSM_BOTTOM_LEVEL -> 0 <= slot < LEAF_NODES_PER_PAGE -> addr_ok (fsm_get_child a slot).
Proof.
  destruct a as [l p]. unfold addr_ok, fsm_get_child. cbn. change SLOTS_PER_FSM_PAGE with 4069. sizes.
  change FSM_BOTTOM_LEVEL with 0. intros (Hl & Hp & Hb) Hne Hs.
  assert (l = 1 \/ l = 2) as [->| ->] by lia.
  - change (4069 ^ 1) with 4069 in *. change (4069 ^ (1 - 1)) with 1. lia.
  - change (4069 ^ 2) with 16556761 in *. change (4069 ^ (2 - 1)) with 4069. lia.
Qed.

Lemma parent_ok a :
  addr_ok a -> level a <> FSM_ROOT_LEVEL ->
  addr_ok (fst (fsm_get_parent a)) /\ 0 <= snd (fsm_get_parent a) < LEAF_NODES_PER_PAGE.
Proof.
  destruct a as [l p]. unfold addr_ok, fsm_get_parent. cbn. change SLOTS_PER_FSM_PAGE with 4069. sizes.
  change FSM_ROOT_LEVEL with 2. intros (Hl & Hp & Hb) Hne. rewrite Z.quot_div_nonneg, Z.rem_mod_nonneg by lia.
  assert (l = 0 \/ l = 1) as [->| ->] by lia.
  - change (4069 ^ 0) with 1 in *. change (4069 ^ (0 + 1)) with 4069. Z.div_mod_to_equations. lia.
  - change (4069 ^ 1) with 4069 in *. change (4069 ^ (1 + 1)) with 16556761. change (4069 ^ 2) with 16556761.
    Z.div_mod_to_equations. lia.
Qed.

Lemma parent_child a slot :
  addr_ok a -> 0 <= slot < LEAF_NODES_PER_PAGE -> fsm_get_parent (fsm_get_child a slot) = (a, slot).
Proof.
  destruct a as [l p]. unfold addr_ok, fsm_get_parent, fsm_get_child. cbn [level logpageno].
  change SLOTS_PER_FSM_PAGE with 4069. sizes. intros (Hl & Hp & _) Hs.
  rewrite Z.quot_div_nonneg, Z.rem_mod_nonneg by lia. repeat f_equal; zdiv.
Qed.

Lemma child_parent a : addr_ok a -> fsm_get_child (fst (fsm_get_parent a)) (snd (fsm_get_parent a)) = a.
Proof.
  destruct a as [l p]. unfold addr_ok, fsm_get_parent, fsm_get_child. cbn [level logpageno fst snd].
  change SLOTS_PER_FSM_PAGE with 4069. intros (Hl & Hp & _).
  rewrite Z.quot_div_nonneg, Z.rem_mod_nonneg by lia. repeat f_equal; zdiv.
Qed.

Lemma root_ok : addr_ok FSM_ROOT_ADDRESS.
Proof. done. Qed.

(** What the search promises: no block, or one that exists and whose slot has room. *)
Definition search_post (minv : Z) (r : FsmRel) (blk : Z) (r' : FsmRel) : Prop :=
  searching r r' /\
  (blk = InvalidBlockNumber \/
   (0 <= blk < main_nblocks r /\
    exists a slot, heap_slot a slot blk /\ minv <= avail r' (fsm_logical_to_physical a) slot)).

Lemma search_post_trans minv r r1 blk r' :
  searching r r1 -> search_post minv r1 blk r' -> search_post minv r blk r'.
Proof.
  intros S1 (S2 & H). split; [by eapply searching_trans|]. destruct S1 as ((_ & Mn) & _). unfold main_same in Mn. by rewrite <- Mn.
Qed.

Definition search_measure (restarts : Z) (a : FSMAddress) : Z := 3 * (10002 - restarts) + level a.

(** One look at a page of the tree. *)
Lemma search_step_wp minv a r :
  fsm_ok r ->
  wp (let! held := fsm_readbuf io a false in
      let! found :=
        (match held with
         | None => mret (-1, 0)
         | Some blk =>
             mlift (lock_buffer io) ;!
             (let! slot := on_page blk (search_page io minv (level a =? FSM_BOTTOM_LEVEL) false) in
              if slot =? -1 then
                let! max_avail := on_page blk fsm_get_max_avail in
                mlift (lock_buffer io) ;! mret (-1, max_avail)
              else mlift (lock_buffer io) ;! mret (slot, 0))
         end) in mret (held, found))
    (fun x r' => reads io r r' /\ 0 <= snd (snd x) <= 255 /\
       (fst (snd x) = -1 \/
        (fst x = Some (fsm_logical_to_physical a) /\ found minv (fsm_logical_to_physical a) (fst (snd x)) r')))
    (survives r) r.
Proof.
  intros Hok. wp_step. eapply wp_impl; [by apply readbuf_wp | | by apply reads_survives].
  intros [b|] r1 (R1 & H1); [destruct H1 as [-> Hb] | repeat wp_step; split; [done|]; cbn; split; [lia | by left]].
  wp_step. apply wp_lock; [by apply reads_survives|]. wp_step.
  eapply wp_impl; [apply on_page_search; [apply R1 | done] | | intros r2 ?; eapply survives_trans; [by apply reads_survives | done]].
  intros slot r2 (R2 & P2 & F2). assert (R : reads io r r2) by (by eapply reads_trans).
  destruct (Z.eqb_spec slot (-1)) as [->|Hne].
  - wp_step. apply wp_on_page. apply wp_node; [by sizes|].
    assert (R' : reads io r (set_fsm_page (fsm_logical_to_physical a) (fsm_page r2 (fsm_logical_to_physical a)) r2)).
    { eapply reads_trans; [done|]. apply reads_repage; [apply R | done]. }
    apply wp_lock; [by apply reads_survives|]. repeat wp_step. split; [done|]. cbn. split; [|by left].
    apply R. by sizes.
  - apply wp_lock; [by apply reads_survives|]. repeat wp_step. split; [done|]. cbn. split; [lia|]. right. split; [done|].
    by destruct (found_of_search minv (fsm_logical_to_physical a) slot r2) as [->|F].
Qed.

Lemma wp_pair {S A B C} (m : M S A) (f : A -> M S B) (k : A -> B -> M S C) Q E s :
  wp (mbnd m (fun h => mbnd (f h) (fun x => mret (h, x)))) (fun p => wp (k (fst p) (snd p)) Q E) E s ->
  wp (mbnd m (fun h => mbnd (f h) (fun x => k h x))) Q E s.
Proof.
  unfold wp, mbnd, mret. destruct (m s) as [[h| |] s1]; [|done | done]. by destruct (f h s1) as [[x| |] s2].
Qed.

Lemma search_loop_wp minv : forall fuel restarts a r,
  fsm_ok r -> addr_ok a -> 0 <= restarts <= 10001 -> search_measure restarts a < Z.of_nat fuel ->
  wp (fsm_search_loop io fuel minv restarts a) (search_post minv r) (survives r) r.
Proof.
  unfold search_measure. induction fuel as [|fuel IH]; intros restarts a r Hok Ha Hr Hf; [destruct Ha; lia|].
  cbn [fsm_search_loop]. apply wp_pair. eapply wp_impl; [by apply search_step_wp | | done].
  intros [held [slot mx]] r1 (R1 & Hmx & Hfound). cbn [fst snd] in *.
  assert (Hagain : forall restarts' a' r2, searching r r2 -> addr_ok a' -> 0 <= restarts' <= 10001 ->
    search_measure restarts' a' < search_measure restarts a ->
    wp (fsm_search_loop io fuel minv restarts' a') (search_post minv r) (survives r) r2).
  { unfold search_measure. intros restarts' a' r2 S2 Ha' Hr' Hm. eapply wp_impl; [apply IH; [apply S2 | done | done | lia] | |].
    - intros blk r3. by apply search_post_trans.
    - intros r3. apply survives_trans, S2. }
  unfold search_measure in Hagain. pose proof (reads_searching _ _ R1) as S1. pose proof Ha as (Hl & _).
  destruct (Z.eqb_spec slot (-1)) as [->|Hne]; cbn [negb].
  - destruct (Z.eqb_spec (level a) FSM_ROOT_LEVEL) as [|Hroot]; [wp_step; split; [done | by left]|].
    pose proof (parent_ok a Ha Hroot) as (Hpa & Hps). destruct (fsm_get_parent a) as [pa ps] eqn:Ep. cbn [fst snd] in *.
    assert (Hpl : level pa = level a + 1) by (by injection Ep as <- <-). wp_step.
    eapply wp_impl; [apply set_and_search_wp; [apply R1 | done | done] | | intros r2 ?; eapply survives_trans; [apply S1 | done]].
    intros ns r2 (S2 & _). assert (Hs2 : searching r r2).
    { eapply searching_trans; [done|]. eapply sets_searching; [done | | done]. change FSM_BOTTOM_LEVEL with 0. lia. }
    destruct (Z.gtb_spec restarts 10000); [wp_step; split; [done | by left]|].
    apply Hagain; [done | apply root_ok | lia | cbn; change FSM_ROOT_LEVEL with 2 in *; lia].
  - destruct Hfound as [?|[-> F]]; [done|]. destruct (Z.eqb_spec (level a) FSM_BOTTOM_LEVEL) as [Hbot|Hup].
    2:{ apply Hagain; [done | apply child_ok; [done | done | apply F] | done | cbn; lia]. }
    wp_step. eapply wp_impl; [apply does_block_exist_wp, R1 | | intros r2 H2; eapply survives_trans; [apply S1 | done]].
    intros x r2 (-> & R2 & P2 & A2). assert (Hmn : main_nblocks r1 = main_nblocks r) by apply R1. rewrite Hmn.
    assert (Hmn2 : main_nblocks r2 = main_nblocks r1) by apply R2.
    assert (S12 : searching r r2) by (eapply searching_trans; [done | by apply reads_searching]).
    destruct (Z.ltb_spec (fsm_get_heap_blk a slot) (main_nblocks r)) as [Hex|Hex].
    + wp_step. split; [done|]. right. split.
      * split; [|done]. apply wrap32_u32.
      * exists a, slot. split; [|rewrite A2; apply F]. split; [done|]. split; [done|]. split; [apply F | done].
    + apply wp_lock; [apply S12|]. wp_step.
      eapply wp_impl; [apply (on_page_set_avail _ slot 0 r2 r2); [apply reads_refl, R2 | apply P2, F | apply F | lia] | | done].
      intros c r3 (S3 & _). assert (Hs2 : searching r r3).
      { eapply searching_trans; [done|]. apply (sets_searching a slot 0); [done | intros _; lia | done]. }
      apply wp_hint; [apply Hs2|]. apply wp_lock; [apply Hs2|].
      destruct (Z.gtb_spec restarts 10000); [wp_step; split; [done | by left]|].
      apply Hagain; [done | apply child_ok; [apply root_ok | done | apply F] | lia | change (level (fsm_get_child FSM_ROOT_ADDRESS slot)) with 1; change FSM_BOTTOM_LEVEL with 0 in *; lia].
Qed.

Lemma search_wp minv r : fsm_ok r -> wp (fsm_search io minv) (search_post minv r) (survives r) r.
Proof.
  intros Hok. unfold fsm_search. apply search_loop_wp; [done | apply root_ok | lia|]. unfold search_measure.
  rewrite Z2Nat.id by lia. change (level FSM_ROOT_ADDRESS) with 2. lia.
Qed.
End RelSpec.
