(* ===== verification/FsmThms.v ===== *)
(** * Free-space map: the guarantees of its operations *)

From S2P Require Import Prelude Xid ItemPtr Fsm FsmSpec.

(** ** Pages *)

(**  Recording room in a page: from any page of bytes, torn or not,
    [fsm_set_avail] ends without leaving the page's array; the slot holds the new
    value and the others keep theirs, the root promises at least that value, a
    page whose inner nodes are the maxima of their children stays so, and the
    answer "no change" means that the page is untouched. *)
Lemma fsm_page_record slot value page :
  0 <= slot < LEAF_NODES_PER_PAGE -> 0 <= value <= 255 -> bytes_ok page ->
  exists changed page', fsm_set_avail slot value page = (Ok changed, page') /\
    bytes_ok page' /\ leaf page' slot = value /\
    (forall slot', 0 <= slot' < LEAF_NODES_PER_PAGE -> slot' <> slot -> leaf page' slot' = leaf page slot') /\
    value <= fp_nodes page' 0 /\ (heap_ok page -> heap_ok page') /\ (changed = false -> page' = page).
Proof.
  intros Hs Hv B. pose proof (set_avail_wp slot value page Hs Hv B) as H. unfold wp in H.
  destruct (fsm_set_avail slot value page) as [[c| |] page'] eqn:E; [|done | done]. by exists c, page'.
Qed.

Lemma zero_heap : heap_ok zero_fsm_page.
Proof.
  intros n Hn. unfold node_ok, child_max. cbn.
  by destruct (leftchild n <? NODES_PER_PAGE), (leftchild n + 1 <? NODES_PER_PAGE).
Qed.


(** C38.  Searching a page: whatever the page holds, and whatever other backends
    leave in it when the lock is traded for an exclusive one, [fsm_search_avail]
    ends after at most one rebuild; it returns a slot with the room asked for, or
    [-1] with the root's word that there is none.  In a sound page the answer is
    exact and neither the leaves nor the inner nodes change, and the search does
    not fail. *)
Theorem fsm_page_search relock mark minvalue advancenext excl page :
  (forall p p', bytes_ok p -> relock p = Ok p' -> bytes_ok p') -> (forall p, relock p <> Panic) -> mark <> Panic ->
  bytes_ok page ->
  exists x page', fsm_search_avail relock mark minvalue advancenext excl page = (x, page') /\ bytes_ok page' /\
    match x with
    | Ok slot =>
        ((slot = -1 /\ fp_nodes page' 0 < minvalue) \/
         (0 <= slot < LEAF_NODES_PER_PAGE /\ minvalue <= leaf page' slot)) /\
        (heap_ok page ->
         (forall n, fp_nodes page' n = fp_nodes page n) /\
         (slot = -1 <-> forall slot', 0 <= slot' < LEAF_NODES_PER_PAGE -> leaf page slot' < minvalue))
    | Err _ => ~ heap_ok page
    | Panic => False
    end.
Proof.
  intros Hr Hp Hm B. pose proof (search_avail_wp relock mark Hr Hp Hm minvalue advancenext excl page B) as H. unfold wp in H.
  destruct (fsm_search_avail _ _ _ _ _ page) as [[slot|e|] page'] eqn:E; [| by exists (Err e), page' |done].
  destruct H as ((B' & Hs) & Hh & _). exists (Ok slot), page'. split; [done|]. split; [done|]. split; [done|].
  intros Hok. specialize (Hh Hok). split; [done|]. unfold leaf in *. rewrite !Hh in Hs. split.
  - intros -> slot' Hs'. destruct Hs as [[_ Hs]|[? _]]; [|lia]. pose proof (heap_root page Hok (NON_LEAF_NODES_PER_PAGE + slot')).
    sizes. lia.
  - intros Hall. destruct Hs as [[? _]|[Hs Hv]]; [done|]. specialize (Hall slot Hs). lia.
Qed.

(** A torn page: the root promises room that no leaf has. *)
Definition torn_page : FsmPage := {| fp_nodes n := if n =? 0 then 7 else 0; fp_next_slot := 5000 |}.

Lemma torn_bytes : bytes_ok torn_page.
Proof. intros n _. cbn. destruct (n =? 0); lia. Qed.

Lemma fsm_page_search_witness :
  exists x page', fsm_search_avail Ok (Ok tt) 3 true false torn_page = (x, page') /\ bytes_ok page'.
Proof.
  destruct (fsm_page_search Ok (Ok tt) 3 true false torn_page) as (x & p & E & B & _);
    [by intros p p' ? [= <-] | done | done | apply torn_bytes|].
  exists x, p. split; [exact E | exact B].
Defined.

(** ** Categories *)

Lemma avail_to_cat_cases avail :
  let c := fsm_space_avail_to_cat avail in
  0 <= avail -> (8160 <= avail /\ c = 255) \/ (avail < 8160 /\ c = avail / 32 /\ 0 <= avail / 32 <= 254).
Proof.
  cbv zeta. intros Ha. unfold fsm_space_avail_to_cat, MaxFSMRequestSize. change FSM_CAT_STEP with 32. rewrite Z.geb_leb.
  destruct (Z.leb_spec 8160 avail); [by left|]. right. cbv zeta. assert (0 <= avail / 32 <= 254) by zdiv.
  by destruct (Z.gtb_spec (avail / 32) 254); [lia|].
Qed.

Lemma cat_rounds_down avail :
  0 <= avail < BLCKSZ ->
  fsm_space_cat_to_avail (fsm_space_avail_to_cat avail) <= avail <
  fsm_space_cat_to_avail (fsm_space_avail_to_cat avail) + FSM_CAT_STEP.
Proof.
  unfold BLCKSZ. intros Ha. pose proof (avail_to_cat_cases avail) as Hc. cbv zeta in Hc.
  unfold fsm_space_cat_to_avail, MaxFSMRequestSize. change FSM_CAT_STEP with 32.
  destruct Hc as [[? ->]|(? & -> & ?)]; [lia | cbn; lia|]. destruct (Z.eqb_spec (avail / 32) 255); [lia | zdiv].
Qed.

(** C40.  The categories are conservative: a page whose recorded category satisfies
    a request really had the room when it was recorded; reading a category back
    never promises more than was recorded and, below the largest request, loses
    less than one step; categories survive the way there and back; and exactly
    the requests above [MaxFSMRequestSize] are errors. *)
Theorem fsm_categories_sound avail needed :
  0 <= avail < BLCKSZ -> 0 <= needed ->
  0 <= fsm_space_avail_to_cat avail <= 255 /\
  fsm_space_cat_to_avail (fsm_space_avail_to_cat avail) <= avail /\
  avail - FSM_CAT_STEP < fsm_space_cat_to_avail (fsm_space_avail_to_cat avail) /\
  (forall cat, 0 <= cat <= 255 -> fsm_space_avail_to_cat (fsm_space_cat_to_avail cat) = cat) /\
  match fsm_space_needed_to_cat needed with
  | Ok cat => needed <= MaxFSMRequestSize /\ 1 <= cat <= 255 /\
              (cat <= fsm_space_avail_to_cat avail -> needed <= avail) /\
              (needed <= fsm_space_cat_to_avail cat) /\ (0 < needed -> fsm_space_cat_to_avail cat < needed + FSM_CAT_STEP)
  | Err _ => MaxFSMRequestSize < needed
  | Panic => False
  end.
Proof.
  intros Ha Hn. pose proof (cat_rounds_down avail Ha) as Hr. pose proof (avail_to_cat_cases avail ltac:(lia)) as Hac.
  cbv zeta in Hac. set (ac := fsm_space_avail_to_cat avail) in *. clearbody ac.
  split; [destruct Hac as [[? ->]|(? & -> & ?)]; lia|]. split; [lia|]. split; [lia|]. split.
  - intros cat Hc. pose proof (avail_to_cat_cases (fsm_space_cat_to_avail cat)) as H. cbv zeta in H.
    unfold fsm_space_cat_to_avail, MaxFSMRequestSize in *. change FSM_CAT_STEP with 32 in *.
    destruct (Z.eqb_spec cat 255) as [->|]; [done|]. destruct H as [[? ->]|(? & -> & ?)]; [lia | lia | zdiv].
  - unfold fsm_space_needed_to_cat, fsm_space_cat_to_avail, MaxFSMRequestSize in *. change FSM_CAT_STEP with 32 in *.
    destruct (Z.gtb_spec needed 8160) as [|Hle]; [lia|]. destruct (Z.eqb_spec needed 0) as [->|Hne]; [cbn; lia|].
    cbv zeta. assert (Hc : 1 <= (needed + 32 - 1) / 32 <= 255) by zdiv. set (c := (needed + 32 - 1) / 32) in *.
    destruct (Z.gtb_spec c 255) as [|_]; [lia|]. split; [lia|]. split; [lia|].
    assert (Hn2 : needed <= c * 32 < needed + 32) by (unfold c; zdiv). clearbody c.
    destruct (Z.eqb_spec c 255) as [->|]; destruct Hac as [[? ->]|(? & -> & ?)]; repeat split; intros; zdiv.
Qed.

Lemma fsm_categories_sound_witness :
  fsm_space_needed_to_cat 100 = Ok 4 /\ fsm_space_avail_to_cat 140 = 4 /\ 100 <= 140.
Proof.
  split; [done|]. split; [done|].
  destruct (fsm_categories_sound 140 100) as (_ & _ & _ & _ & H); [by vm_compute | lia|].
  change (fsm_space_needed_to_cat 100) with (Ok 4 : result Z) in H. destruct H as (_ & _ & H & _). apply H. by vm_compute.
Defined.

(** ** Addresses *)

Lemma location_slot blk :
  is_u32 blk -> heap_slot (fst (fsm_get_location blk)) (snd (fsm_get_location blk)) blk.
Proof.
  unfold is_u32. intros Hb. unfold heap_slot, addr_ok, fsm_get_location, fsm_get_heap_blk. cbn [fst snd level logpageno].
  change SLOTS_PER_FSM_PAGE with 4069. change FSM_BOTTOM_LEVEL with 0. sizes. change (4069 ^ 0) with 1. change (4069 ^ 2) with 16556761.
  assert (0 <= blk / 4069 * 4069 <= blk) by zdiv. rewrite (wrap32_small (_ * _)) by (unfold is_u32; lia).
  rewrite wrap32_small by (unfold is_u32; zdiv). zdiv.
Qed.

(** C39.  The tree of pages is laid out without collision: two different addresses
    of the tree are in different blocks of the fork, the parent of a child is the
    page and slot it came from and the child of the parent is the page itself,
    both inside the tree; every heap block has a slot in a bottom page, which maps
    back to it. *)
Theorem fsm_addresses a b slot heapblk :
  addr_ok a -> addr_ok b -> 0 <= slot < SLOTS_PER_FSM_PAGE -> is_u32 heapblk ->
  (fsm_logical_to_physical a = fsm_logical_to_physical b -> a = b) /\
  (level a <> FSM_BOTTOM_LEVEL -> addr_ok (fsm_get_child a slot) /\ fsm_get_parent (fsm_get_child a slot) = (a, slot)) /\
  (level a <> FSM_ROOT_LEVEL ->
   let '(parent, parentslot) := fsm_get_parent a in
   addr_ok parent /\ 0 <= parentslot < SLOTS_PER_FSM_PAGE /\ fsm_get_child parent parentslot = a) /\
  (let '(addr, s) := fsm_get_location heapblk in
   addr_ok addr /\ level addr = FSM_BOTTOM_LEVEL /\ 0 <= s < SLOTS_PER_FSM_PAGE /\ fsm_get_heap_blk addr s = heapblk).
Proof.
  intros Ha Hb Hs Hh. split; [by apply physical_inj|].
  split; [intros Hl; split; [by apply child_ok | by apply parent_child]|].
  split; [|pose proof (location_slot heapblk Hh); by destruct (fsm_get_location heapblk)].
  intros Hl. pose proof (parent_ok a Ha Hl) as [Hp Hps]. pose proof (child_parent a Ha) as Hc.
  by destruct (fsm_get_parent a).
Qed.

Lemma fsm_addresses_witness :
  fsm_get_parent (fsm_get_child {| level := 1; logpageno := 17 |} 4068) = ({| level := 1; logpageno := 17 |}, 4068).
Proof.
  apply (fsm_addresses {| level := 1; logpageno := 17 |} FSM_ROOT_ADDRESS 4068 4294967294); by vm_compute.
Defined.

(** ** The map of a relation *)

(** The category recorded for a heap block. *)
Definition free_cat (r : FsmRel) (heapblk : Z) : Z :=
  let '(addr, slot) := fsm_get_location heapblk in avail r (fsm_logical_to_physical addr) slot.

Lemma free_cat_avail r blk :
  free_cat r blk = avail r (fsm_logical_to_physical (fst (fsm_get_location blk))) (snd (fsm_get_location blk)).
Proof. unfold free_cat. by destruct (fsm_get_location blk). Qed.

(** A heap block has one slot. *)
Lemma location_inj b b' :
  is_u32 b -> is_u32 b' ->
  fsm_logical_to_physical (fst (fsm_get_location b)) = fsm_logical_to_physical (fst (fsm_get_location b')) ->
  snd (fsm_get_location b) = snd (fsm_get_location b') -> b = b'.
Proof.
  intros Hb Hb' Ep Es. destruct (location_slot b Hb) as (A & _ & _ & <-), (location_slot b' Hb') as (A' & _ & _ & <-).
  apply physical_inj in Ep; [|done | done]. by rewrite Ep, Es.
Qed.

Section Ops.
Context (io : FsmIo) `{!FsmRunning io}.

Lemma sets_free_cat b v r r' :
  is_u32 b -> (forall k, damaged io k = false) ->
  sets io (fsm_logical_to_physical (fst (fsm_get_location b))) (snd (fsm_get_location b)) v r r' ->
  forall b', is_u32 b' -> free_cat r' b' = if b' =? b then v else free_cat r b'.
Proof.
  intros Hb Hd (_ & _ & H) b' Hb'. rewrite !free_cat_avail, H; [|done | by apply location_slot].
  destruct (Z.eqb_spec b' b) as [->|Hne]; [by rewrite !Z.eqb_refl|].
  destruct (Z.eqb_spec (fsm_logical_to_physical (fst (fsm_get_location b'))) (fsm_logical_to_physical (fst (fsm_get_location b))));
    [|done].
  destruct (Z.eqb_spec (snd (fsm_get_location b')) (snd (fsm_get_location b))); [|done].
  destruct Hne. by apply location_inj.
Qed.

Lemma avail_to_cat_byte a : 0 <= a -> 0 <= fsm_space_avail_to_cat a <= 255.
Proof. intros Ha. destruct (avail_to_cat_cases a Ha) as [[? ->]|(? & -> & ?)]; lia. Qed.

Lemma record_wp b a r :
  fsm_ok r -> is_u32 b -> 0 <= a ->
  wp (RecordPageWithFreeSpace io b a)
    (fun _ r' => sets io (fsm_logical_to_physical (fst (fsm_get_location b))) (snd (fsm_get_location b))
       (fsm_space_avail_to_cat a) r r') (survives r) r.
Proof.
  intros Hok Hb Ha. unfold RecordPageWithFreeSpace. destruct (location_slot b Hb) as (A & _ & Hs & _).
  destruct (fsm_get_location b) as [addr slot]. cbn [fst snd] in *. wp_step.
  eapply wp_impl; [apply (set_and_search_wp io); [done | done | by apply avail_to_cat_byte] | | done].
  intros x r' [S _]. by wp_step.
Qed.

Lemma get_recorded_wp b r :
  fsm_ok r -> is_u32 b ->
  wp (GetRecordedFreeSpace io b)
    (fun space r' => reads io r r' /\ ((forall k, damaged io k = false) -> space = fsm_space_cat_to_avail (free_cat r b)))
    (reads io r) r.
Proof.
  intros Hok Hb. unfold GetRecordedFreeSpace. pose proof (free_cat_avail r b) as Hf. destruct (location_slot b Hb) as (A & _ & Hs & _).
  destruct (fsm_get_location b) as [addr slot]. cbn [fst snd] in *. wp_step.
  eapply wp_impl; [by apply (readbuf_wp io) | | done].
  intros [pin|] r1 (R1 & H1); cbv beta iota.
  - destruct H1 as [-> Hp]. wp_step. apply wp_on_page. apply wp_node; [sizes; lia|]. wp_step.
    assert (R : reads io r (set_fsm_page (fsm_logical_to_physical addr) (fsm_page r1 (fsm_logical_to_physical addr)) r1)).
    { eapply reads_trans; [done | apply reads_repage; [apply R1 | done]]. }
    split; [done|]. intros Hd. f_equal. rewrite Hf. destruct R1 as (_ & _ & K). rewrite <- K by done. by rewrite avail_pinned.
  - destruct H1 as (_ & H1 & _). wp_step. split; [done|]. intros _. rewrite Hf. unfold avail.
    by destruct (Z.ltb_spec (fsm_logical_to_physical addr) (fsm_nblocks r)); [lia|].
Qed.

(** The fork after the caller has cut it to the length it was told. *)
Definition cut_fsm (n : Z) (r : FsmRel) : FsmRel :=
  if n =? InvalidBlockNumber then r
  else {| fsm_page := fsm_page r; fsm_new := fsm_new r; fsm_exists := fsm_exists r; fsm_nblocks := Z.min n (fsm_nblocks r);
          fsm_cached_nblocks := n; main_nblocks := main_nblocks r; main_cached_nblocks := main_cached_nblocks r |}.

(** Bottom pages are in block order. *)
Lemma physical_location b :
  is_u32 b -> fsm_logical_to_physical (fst (fsm_get_location b)) = b / 4069 + b / 16556761 + 2.
Proof.
  intros Hb. rewrite physical_closed by apply (location_slot b Hb). unfold pages_to, leafno, fsm_get_location. cbn [fst level logpageno].
  change SLOTS_PER_FSM_PAGE with 4069. change FSM_BOTTOM_LEVEL with 0. change (4069 ^ 0) with 1. rewrite Z.mul_1_r.
  unfold is_u32 in Hb. rewrite !Z.div_div by lia. change (4069 * 4069) with 16556761. change (4069 * 16556761) with 67369460509.
  rewrite (Z.div_small b 67369460509) by lia. lia.
Qed.

Lemma avail_cut n r b slot :
  n <> InvalidBlockNumber -> avail (cut_fsm n r) b slot = if b <? n then avail r b slot else 0.
Proof.
  intros Hn. unfold avail, cut_fsm. destruct (Z.eqb_spec n InvalidBlockNumber); [done|]. cbn.
  destruct (Z.ltb_spec b (Z.min n (fsm_nblocks r))), (Z.ltb_spec b n), (Z.ltb_spec b (fsm_nblocks r)); done || lia.
Qed.
End Ops.

Definition quiet_io : FsmIo := {|
  smgr_io := Ok tt; read_buffer _ := Ok tt; damaged _ := false; extend_buffered_rel _ := Ok tt;
  lock_buffer := Ok tt; mark_buffer_dirty_hint := Ok tt; mark_buffer_dirty := Ok tt; needs_fpi := false;
  log_newpage_buffer := Ok tt |}.

#[export] Instance quiet_running : FsmRunning quiet_io.
Proof. by split. Qed.

(** A relation of [n] blocks without a map. *)
Definition no_map (n : Z) : FsmRel := {|
  fsm_page _ := zero_fsm_page; fsm_new _ := false; fsm_exists := false; fsm_nblocks := 0; fsm_cached_nblocks := InvalidBlockNumber;
  main_nblocks := n; main_cached_nblocks := InvalidBlockNumber |}.

Lemma no_map_ok n : fsm_ok (no_map n).
Proof. split; [intros b; apply zero_bytes | by left | done | done | by left]. Qed.

(** C33.  Asking for a page ends, within its bounded number of restarts and however
    stale, torn or out of date the map is, and never panics: a request that is too
    large is an error; otherwise the answer is no page, or a block of the relation
    whose slot in a bottom page records a category that satisfies the request.
    The map stays well formed, the heap is not touched, and as long as no page is
    damaged the search does not change what is recorded for the blocks that
    exist. *)
Theorem fsm_get_page io `{!FsmRunning io} needed r :
  fsm_ok r -> 0 <= needed ->
  exists x r', GetPageWithFreeSpace io needed r = (x, r') /\ fsm_ok r' /\ main_same r r' /\
    match x with
    | Ok blk =>
        needed <= MaxFSMRequestSize /\
        ((forall k, damaged io k = false) -> forall b, 0 <= b < main_nblocks r -> is_u32 b -> free_cat r' b = free_cat r b) /\
        (blk = InvalidBlockNumber \/
         (0 <= blk < main_nblocks r /\
          exists a slot cat, heap_slot a slot blk /\ fsm_space_needed_to_cat needed = Ok cat /\
            cat <= avail r' (fsm_logical_to_physical a) slot))
    | Err _ => True
    | Panic => False
    end.
Proof.
  intros Hok Hn. unfold GetPageWithFreeSpace.
  destruct (fsm_space_needed_to_cat needed) as [cat|e|] eqn:Ec.
  2:{ by exists (Err e), r. }
  2:{ unfold fsm_space_needed_to_cat in Ec. by repeat case_match. }
  assert (Hmax : needed <= MaxFSMRequestSize).
  { unfold fsm_space_needed_to_cat in Ec. destruct (Z.gtb_spec needed MaxFSMRequestSize); [done | lia]. }
  pose proof (search_wp io cat r Hok) as H. unfold mbnd, mlift. unfold wp in H.
  destruct (fsm_search io cat r) as [[blk|e|] r'] eqn:E; [| destruct H as [O Mn]; by exists (Err e), r' | done].
  destruct H as (((O & Mn) & K) & H). exists (Ok blk), r'. split; [done|]. split; [done|]. split; [done|]. split; [done|]. split.
  - intros Hd b Hb Hu. rewrite !free_cat_avail. eapply K; [done | by apply location_slot | lia].
  - destruct H as [->|(Hb & a & slot & Hs & Hc)]; [by left | right; split; [done|]]. by exists a, slot, cat.
Qed.

Lemma fsm_get_page_witness :
  exists x r', GetPageWithFreeSpace quiet_io 100 (no_map 10) = (x, r') /\ fsm_ok r' /\ main_same (no_map 10) r'.
Proof.
  destruct (fsm_get_page quiet_io 100 (no_map 10)) as (x & r' & E & O & Mn & _); [apply no_map_ok | lia|].
  exists x, r'. split; [exact E|]. split; [exact O | exact Mn].
Defined.

(** C36.  Recording and reading back: when no page is damaged, a recorded amount of
    room is read back rounded down by less than one step (never up), every other
    block keeps what was recorded for it, and neither operation touches the heap;
    with I/O errors the map stays well formed. *)
Theorem fsm_record_get io `{!FsmRunning io} heapBlk spaceAvail r :
  fsm_ok r -> is_u32 heapBlk -> 0 <= spaceAvail < BLCKSZ ->
  exists x r', RecordPageWithFreeSpace io heapBlk spaceAvail r = (x, r') /\ fsm_ok r' /\ main_same r r' /\
    match x with
    | Ok _ =>
        (forall k, damaged io k = false) ->
        (forall b, is_u32 b -> b <> heapBlk -> free_cat r' b = free_cat r b) /\
        exists y r'', GetRecordedFreeSpace io heapBlk r' = (y, r'') /\ fsm_ok r'' /\
          (forall b, is_u32 b -> free_cat r'' b = free_cat r' b) /\
          match y with
          | Ok space => space <= spaceAvail < space + FSM_CAT_STEP
          | Err _ => True
          | Panic => False
          end
    | Err _ => True
    | Panic => False
    end.
Proof.
  intros Hok Hb Ha. pose proof (record_wp io heapBlk spaceAvail r Hok Hb) as H. unfold wp in H.
  destruct (RecordPageWithFreeSpace io heapBlk spaceAvail r) as [[x|e|] r'] eqn:E; specialize (H ltac:(lia)).
  2:{ destruct H as [O Mn]. by exists (Err e), r'. }
  2:{ done. }
  pose proof H as (O & Mn & _). exists (Ok x), r'. split; [done|]. split; [done|]. split; [done|]. intros Hd.
  pose proof (sets_free_cat io heapBlk _ r r' Hb Hd H) as Hs. split.
  { intros b Hu Hne. rewrite Hs by done. by destruct (Z.eqb_spec b heapBlk). }
  pose proof (get_recorded_wp io heapBlk r' O Hb) as G. unfold wp in G.
  assert (Hk : forall r'', reads io r' r'' -> forall b, is_u32 b -> free_cat r'' b = free_cat r' b).
  { intros r'' (_ & _ & K) b Hu. rewrite !free_cat_avail. apply K; [done | by apply location_slot]. }
  destruct (GetRecordedFreeSpace io heapBlk r') as [[y|e|] r''] eqn:F; [| |done].
  - destruct G as (R & Hy). exists (Ok y), r''. split; [done|]. split; [apply R|]. split; [by apply Hk|].
    rewrite (Hy Hd), Hs, Z.eqb_refl by done. by apply cat_rounds_down.
  - exists (Err e), r''. split; [done|]. split; [apply G|]. split; [by apply Hk | done].
Qed.

Lemma fsm_record_get_witness :
  exists x r', RecordPageWithFreeSpace quiet_io 5000 777 (no_map 6000) = (x, r') /\ fsm_ok r'.
Proof.
  destruct (fsm_record_get quiet_io 5000 777 (no_map 6000)) as (x & r' & E & O & _); [apply no_map_ok | by vm_compute | by vm_compute|].
  exists x, r'. split; [exact E | exact O].
Defined.

(** ** Truncation *)

(** The block of the map and the slot that belong to a heap block. *)
Local Abbreviation pageno b := (fsm_logical_to_physical (fst (fsm_get_location b))).
Local Abbreviation slotno b := (snd (fsm_get_location b)).

(** Pages of heap blocks come in the order of the blocks. *)
Lemma location_order b n :
  is_u32 b -> is_u32 n ->
  0 < pageno b < 2000000 /\
  (b < n -> pageno b < pageno n \/ (pageno b = pageno n /\ slotno b < slotno n)) /\
  (n <= b -> pageno n < pageno b \/ (pageno b = pageno n /\ slotno n <= slotno b)).
Proof.
  intros Hb Hn. rewrite !physical_location by done. unfold is_u32 in *. unfold fsm_get_location. cbn [snd].
  change SLOTS_PER_FSM_PAGE with 4069. Z.div_mod_to_equations. lia.
Qed.

Lemma free_cat_past r b : fsm_nblocks r <= fsm_logical_to_physical (fst (fsm_get_location b)) -> free_cat r b = 0.
Proof.
  intros H. rewrite free_cat_avail. unfold avail. by destruct (Z.ltb_spec (fsm_logical_to_physical (fst (fsm_get_location b))) (fsm_nblocks r)); [lia|].
Qed.

Lemma free_cat_cut n r b :
  n <> InvalidBlockNumber ->
  free_cat (cut_fsm n r) b = if fsm_logical_to_physical (fst (fsm_get_location b)) <? n then free_cat r b else 0.
Proof. intros Hn. rewrite !free_cat_avail. by apply avail_cut. Qed.

Section Truncate.
Context (io : FsmIo) `{!FsmRunning io}.

(** The map after the room from block [n] on is forgotten, once the fork is cut. *)
Definition forgotten (n : Z) (r : FsmRel) (len : Z) (r' : FsmRel) : Prop :=
  fsm_ok r' /\ main_same r r' /\
  ((forall k, damaged io k = false) -> forall b, is_u32 b -> free_cat (cut_fsm len r') b = if b <? n then free_cat r b else 0).

Lemma reads_free_cat r r' b :
  reads io r r' -> (forall k, damaged io k = false) -> is_u32 b -> free_cat r' b = free_cat r b.
Proof. intros (_ & _ & K) Hd Hb. rewrite !free_cat_avail. apply K; [done | by apply location_slot]. Qed.

(** The fork ends before the page of block [n]. *)
Lemma nothing_to_cut n r r' :
  is_u32 n -> reads io r r' -> fsm_nblocks r <= fsm_logical_to_physical (fst (fsm_get_location n)) ->
  forgotten n r InvalidBlockNumber r'.
Proof.
  intros Hn R Hle. split; [apply R|]. split; [apply R|]. intros Hd b Hb.
  change (cut_fsm InvalidBlockNumber r') with r'. rewrite (reads_free_cat r r') by done.
  destruct (Z.ltb_spec b n) as [|Hge]; [done|]. apply free_cat_past.
  destruct (location_order b n Hb Hn) as (_ & _ & H). lia.
Qed.

Lemma cut_before n r r' :
  is_u32 n -> snd (fsm_get_location n) = 0 -> reads io r r' ->
  forgotten n r (fsm_logical_to_physical (fst (fsm_get_location n))) r'.
Proof.
  intros Hn Hz R. split; [apply R|]. split; [apply R|]. intros Hd b Hb.
  destruct (location_order n n Hn Hn) as (Hp & _), (location_order b n Hb Hn) as (_ & Hlt & Hge).
  rewrite free_cat_cut, (reads_free_cat r r') by (done || (unfold InvalidBlockNumber; lia)).
  pose proof (location_slot b Hb) as (_ & _ & Hs & _).
  destruct (Z.ltb_spec b n), (Z.ltb_spec (fsm_logical_to_physical (fst (fsm_get_location b)))
    (fsm_logical_to_physical (fst (fsm_get_location n)))); done || lia.
Qed.

Lemma truncate_page_wp n r r0 :
  is_u32 n -> let page := fsm_logical_to_physical (fst (fsm_get_location n)) in
  reads io r0 r -> pinned r page ->
  wp (on_page page (fsm_truncate_avail (snd (fsm_get_location n)))) (fun _ => forgotten n r0 (page + 1)) (fun _ => False) r.
Proof.
  intros Hn page R P. pose proof (location_slot n Hn) as (_ & _ & Hs & _). apply wp_on_page.
  eapply wp_impl; [apply truncate_avail_wp; [done | apply R] | | done]. intros _ pg (B & _ & Hl).
  split; [apply fsm_ok_page; [apply R | apply P | done]|]. split; [apply R|]. intros Hd b Hb.
  destruct (location_order n n Hn Hn) as (Hp & _), (location_order b n Hb Hn) as (_ & Hlt & Hge).
  pose proof (location_slot b Hb) as (_ & _ & Hsb & _). fold page in Hp, Hlt, Hge.
  rewrite free_cat_cut by (unfold InvalidBlockNumber; lia). rewrite <- (reads_free_cat r0 r) by done.
  rewrite !free_cat_avail, avail_page by apply P. set (pb := fsm_logical_to_physical (fst (fsm_get_location b))) in *.
  destruct (Z.eqb_spec pb page) as [Ep|Ep].
  - rewrite Ep, (avail_pinned page) by done. rewrite Hl by done.
    destruct (Z.ltb_spec page (page + 1)), (Z.ltb_spec b n), (Z.ltb_spec (snd (fsm_get_location b)) (snd (fsm_get_location n)));
      done || lia.
  - destruct (Z.ltb_spec pb (page + 1)), (Z.ltb_spec b n); done || lia.
Qed.

Lemma wp_dirty {A} (m : M FsmRel A) Q (E : FsmRel -> Prop) r :
  E r -> wp m Q E r -> wp (mlift (mark_buffer_dirty io) ;! m) Q E r.
Proof. intros He Hm. wp_step. apply wp_io; [apply DirtyNoPanic | done | done]. Qed.

Lemma prepare_truncate_wp n r :
  fsm_ok r -> is_u32 n -> wp (FreeSpaceMapPrepareTruncateRel io n) (forgotten n r) (survives r) r.
Proof.
  intros Hok Hn. pose proof (reads_refl io r Hok) as R0. destruct (location_order n n Hn Hn) as (Hp & _).
  pose proof (cut_before n r) as Hcut. pose proof (nothing_to_cut n r) as Hno. pose proof (truncate_page_wp n) as Htr. cbv zeta in Htr.
  unfold FreeSpaceMapPrepareTruncateRel. wp_step. apply wp_io; [apply SmgrNoPanic | | by apply (reads_survives io)]. repeat wp_step.
  destruct (fsm_exists r) eqn:Ex; cbn [negb].
  2:{ wp_step. pose proof (ok_fork r Hok Ex). apply Hno; [done | done | lia]. }
  pose proof (location_slot n Hn) as (_ & _ & Hs & _).
  destruct (fsm_get_location n) as [addr slot] eqn:El. cbn [fst snd] in *.
  destruct (Z.gtb_spec slot 0) as [Hpos|Hz].
  - wp_step. eapply wp_impl; [by apply (readbuf_wp io) | | apply (reads_survives io)]. intros [b|] r1 (R1 & H1).
    + destruct H1 as [-> P1]. apply (wp_lock io); [by eapply (reads_survives io)|]. wp_step.
      eapply wp_impl; [by apply (Htr r1 r) | | done]. intros c r2 F2. assert (S2 : survives r r2) by (split; apply F2).
      apply wp_dirty; [done|]. rewrite wrap32_small by (unfold is_u32; lia). wp_step.
      destruct (needs_fpi io); [apply wp_io; [apply LogNoPanic | by wp_step | done] | by repeat wp_step].
    + destruct H1 as (_ & H1 & _). wp_step. by apply Hno.
  - unfold smgr_nblocks_fsm. repeat wp_step. apply wp_io; [apply SmgrNoPanic | | by apply (reads_survives io)]. repeat wp_step.
    assert (R1 : reads io r (set_fsm_cached (fsm_nblocks r) r)) by (apply reads_cached; [done | right; lia]).
    destruct (Z.leb_spec (fsm_nblocks r) (fsm_logical_to_physical addr)); wp_step; [by apply Hno|].
    apply Hcut; [done | lia | done].
Qed.
End Truncate.


(** A map of four pages, the third of which is the first bottom page. *)
Definition small_map : FsmRel := {|
  fsm_page b := {| fp_nodes n := if b =? 2 then 9 else 0; fp_next_slot := 0 |}; fsm_new _ := false; fsm_exists := true;
  fsm_nblocks := 4; fsm_cached_nblocks := InvalidBlockNumber; main_nblocks := 3000; main_cached_nblocks := 3000 |}.

Lemma small_map_ok : fsm_ok small_map.
Proof. split; [intros b n _; cbn; destruct (b =? 2); lia | by left | done | done | right; cbn; lia]. Qed.


(** ** Asking for a page while recording another, and index pages *)

(** A block that exists, with a slot that satisfies the category asked for. *)
Definition has_room (cat : Z) (r : FsmRel) (blk : Z) (r' : FsmRel) : Prop :=
  0 <= blk < main_nblocks r /\
  exists a slot, heap_slot a slot blk /\ cat <= avail r' (fsm_logical_to_physical a) slot.

Section Reuse.
Context (io : FsmIo) `{!FsmRunning io}.

Lemma searching_free_cat r r' b :
  searching io r r' -> (forall k, damaged io k = false) -> 0 <= b < main_nblocks r -> is_u32 b -> free_cat r' b = free_cat r b.
Proof.
  intros (_ & K) Hd Hb Hu. rewrite !free_cat_avail. eapply K; [done | by apply location_slot | lia].
Qed.

(** What is known of the blocks that exist after block [b0]'s room became [v]. *)
Definition updated (b0 v : Z) (r r' : FsmRel) : Prop :=
  fsm_ok r' /\ main_same r r' /\
  ((forall k, damaged io k = false) -> forall b, 0 <= b < main_nblocks r -> is_u32 b ->
   free_cat r' b = if b =? b0 then v else free_cat r b).

Lemma sets_updated b v r r' : is_u32 b -> sets io (pageno b) (slotno b) v r r' -> updated b v r r'.
Proof.
  intros Hb S. split; [apply S|]. split; [apply S|]. intros Hd b' _ Hu. by apply (sets_free_cat io b v r r').
Qed.

Lemma updated_searching b v r r1 r' : updated b v r r1 -> searching io r1 r' -> updated b v r r'.
Proof.
  intros (O & Mn & H) S. pose proof S as ((O' & Mn') & _). unfold updated, main_same in *. split; [done|]. split; [congruence|].
  intros Hd b' Hb' Hu. rewrite (searching_free_cat r1 r') by (done || lia). by apply H.
Qed.

Lemma updated_survives b v r r1 : updated b v r r1 -> survives r r1.
Proof. by intros (? & ? & _). Qed.

Lemma record_and_get_wp oldPage oldSpace needed r :
  fsm_ok r -> is_u32 oldPage -> 0 <= oldSpace ->
  wp (RecordAndGetPageWithFreeSpace io oldPage oldSpace needed)
    (fun blk r' => updated oldPage (fsm_space_avail_to_cat oldSpace) r r' /\
       exists cat, fsm_space_needed_to_cat needed = Ok cat /\ (blk = InvalidBlockNumber \/ has_room cat r blk r'))
    (survives r) r.
Proof.
  intros Hok Hb Ha. pose proof (sets_updated oldPage (fsm_space_avail_to_cat oldSpace) r) as Hup.
  unfold RecordAndGetPageWithFreeSpace. destruct (location_slot oldPage Hb) as (A & L & Hs & _). wp_step.
  destruct (fsm_space_needed_to_cat needed) as [cat|e|] eqn:Ec; [|by split | unfold fsm_space_needed_to_cat in Ec; by repeat case_match].
  apply (wp_ret cat). destruct (fsm_get_location oldPage) as [addr slot]. cbn [fst snd] in *. wp_step.
  eapply wp_impl; [apply (set_and_search_wp io); [done | done | by apply avail_to_cat_byte] | | done].
  intros ns r1 (S1 & F1). apply Hup in S1; [|done].
  assert (Hsearch : forall r2, updated oldPage (fsm_space_avail_to_cat oldSpace) r r2 ->
    wp (fsm_search io cat)
      (fun blk r' => updated oldPage (fsm_space_avail_to_cat oldSpace) r r' /\
         exists cat', Ok cat = Ok cat' /\ (blk = InvalidBlockNumber \/ has_room cat' r blk r')) (survives r) r2).
  { intros r2 S2. eapply wp_impl; [apply (search_wp io), S2 | | intros r3; by eapply survives_trans, updated_survives].
    intros blk r3 (Hs3 & H3). split; [by eapply updated_searching|]. exists cat. split; [done|].
    destruct S2 as (_ & Mn & _). unfold has_room. by rewrite <- Mn. }
  unfold early. wp_step. destruct (Z.eqb_spec ns (-1)) as [->|Hne]; cbn [negb].
  { unfold fall_through. wp_step. by apply Hsearch. }
  destruct F1 as [?|[_ F1]]; [done|]. wp_step.
  eapply wp_impl; [apply (does_block_exist_wp io), S1 | | intros r2; by eapply survives_trans, updated_survives].
  intros x r2 (-> & R2 & P2 & A2).
  assert (S2 : updated oldPage (fsm_space_avail_to_cat oldSpace) r r2) by (eapply updated_searching; [done | by apply reads_searching]).
  assert (Hm : main_nblocks r1 = main_nblocks r) by apply S1. rewrite Hm.
  destruct (Z.ltb_spec (fsm_get_heap_blk addr ns) (main_nblocks r)) as [Hex|_].
  - unfold returning. repeat wp_step. split; [done|]. exists cat. split; [done|]. right. split; [split; [apply wrap32_u32 | done]|].
    exists addr, ns. split; [|rewrite A2; apply F1]. split; [done|]. split; [done|]. split; [apply F1 | done].
  - unfold fall_through. wp_step. by apply Hsearch.
Qed.
End Reuse.

(**  Recording one page while asking for another: the old page's new room is
    recorded and nothing else changes for the blocks that exist, and the answer is
    no page or a block of the relation whose slot satisfies the request, whether
    it was found next to the old page or by a search from the root. *)
Lemma fsm_record_and_get io `{!FsmRunning io} oldPage oldSpaceAvail spaceNeeded r :
  fsm_ok r -> is_u32 oldPage -> 0 <= oldSpaceAvail ->
  exists x r', RecordAndGetPageWithFreeSpace io oldPage oldSpaceAvail spaceNeeded r = (x, r') /\ fsm_ok r' /\ main_same r r' /\
    match x with
    | Ok blk =>
        ((forall k, damaged io k = false) -> forall b, 0 <= b < main_nblocks r -> is_u32 b ->
         free_cat r' b = if b =? oldPage then fsm_space_avail_to_cat oldSpaceAvail else free_cat r b) /\
        exists cat, fsm_space_needed_to_cat spaceNeeded = Ok cat /\ (blk = InvalidBlockNumber \/ has_room cat r blk r')
    | Err _ => True
    | Panic => False
    end.
Proof.
  intros Hok Hb Ha. pose proof (record_and_get_wp io oldPage oldSpaceAvail spaceNeeded r Hok Hb Ha) as H. unfold wp in H.
  destruct (RecordAndGetPageWithFreeSpace _ _ _ _ r) as [[blk|e|] r'] eqn:E; [| |done].
  - destruct H as ((O & Mn & H) & Hc). by exists (Ok blk), r'.
  - destruct H as (O & Mn). by exists (Err e), r'.
Qed.


(**  Taking a free index page: the page returned exists and is marked used in
    the same call, so that its own slot no longer offers it, and what is recorded
    for the other pages of the index stays. *)
Lemma fsm_free_index_page io `{!FsmRunning io} r :
  fsm_ok r -> main_nblocks r <= InvalidBlockNumber ->
  exists x r', GetFreeIndexPage io r = (x, r') /\ fsm_ok r' /\ main_same r r' /\
    match x with
    | Ok blk =>
        (blk = InvalidBlockNumber \/ 0 <= blk < main_nblocks r) /\
        ((forall k, damaged io k = false) -> forall b, 0 <= b < main_nblocks r ->
         free_cat r' b = if b =? blk then 0 else free_cat r b)
    | Err _ => True
    | Panic => False
    end.
Proof.
  intros Hok Hm. unfold InvalidBlockNumber in Hm.
  assert (H : wp (GetFreeIndexPage io)
    (fun blk r' => (blk = InvalidBlockNumber \/ 0 <= blk < main_nblocks r) /\ updated io blk 0 r r') (survives r) r).
  { unfold GetFreeIndexPage, GetPageWithFreeSpace. repeat wp_step.
    change (fsm_space_needed_to_cat (BLCKSZ / 2)) with (Ok 128 : result Z). apply (wp_ret 128).
    eapply wp_impl; [by apply (search_wp io) | | done]. intros blk r1 (S1 & H1). wp_step.
    pose proof S1 as ((O1 & Mn1) & _). unfold main_same in Mn1.
    destruct (Z.eqb_spec blk InvalidBlockNumber) as [->|Hne]; cbn [negb].
    - repeat wp_step. split; [by left|]. split; [done|]. split; [done|]. intros Hd b Hb Hu.
      rewrite (searching_free_cat io r r1) by done. unfold InvalidBlockNumber. by destruct (Z.eqb_spec b 0xFFFFFFFF); [lia|].
    - destruct H1 as [?|[Hb _]]; [done|]. assert (Hu : is_u32 blk) by (unfold is_u32; lia). unfold RecordUsedIndexPage.
      eapply wp_impl; [by apply (record_wp io) | | intros r2; by apply survives_trans, S1]. intros u r2 S2. wp_step.
      split; [by right|]. apply sets_updated in S2; [|done]. destruct S2 as (O2 & Mn2 & H2). unfold updated, main_same in *.
      split; [done|]. split; [congruence|]. intros Hd b Hb' Hu'. rewrite H2 by (done || lia).
      by rewrite (searching_free_cat io r r1). }
  unfold wp in H. destruct (GetFreeIndexPage io r) as [[blk|e|] r'] eqn:E; [| |done].
  - destruct H as (Hx & O & Mn & H). exists (Ok blk), r'. split; [done|]. split; [done|]. split; [done|]. split; [done|].
    intros Hd b Hb. apply H; [done | done | unfold is_u32; lia].
  - destruct H as (O & Mn). by exists (Err e), r'.
Qed.

