(* ===== verification/FsmVacuum.v ===== *)
(** * Vacuum of the free-space map

    [FreeSpaceMapVacuum] makes the upper levels agree with the pages below them. *)

From S2P Require Import Prelude Xid ItemPtr Fsm FsmSpec.

(** Addresses are computed with through the lemmas only. *)
#[local] Opaque fsm_logical_to_physical.

(** ** The tree by address *)

Definition page_at (r : FsmRel) (a : FSMAddress) : FsmPage := fsm_page r (fsm_logical_to_physical a).

(** What the page at [a] can offer; a page past the end of the fork offers nothing. *)
Definition root_of (r : FsmRel) (a : FSMAddress) : Z :=
  if fsm_logical_to_physical a <? fsm_nblocks r then fp_nodes (page_at r a) 0 else 0.

(** What the parent of [a] says about [a]. *)
Definition slot_for (r : FsmRel) (a : FSMAddress) : Z :=
  leaf (page_at r (fst (fsm_get_parent a))) (snd (fsm_get_parent a)).

(** [c] is [a] or below it. *)
Definition under (a c : FSMAddress) : Prop :=
  level c <= level a /\ logpageno c / 4069 ^ (level a - level c) = logpageno a.

(** Some heap block of [start..end] is below [c]. *)
Definition covers (start end_ : Z) (c : FSMAddress) : Prop :=
  start / 4069 ^ (level c + 1) <= logpageno c <= (end_ - 1) / 4069 ^ (level c + 1).

Ltac pows :=
  change (4069 ^ 0) with 1 in *; change (4069 ^ 1) with 4069 in *; change (4069 ^ 2) with 16556761 in *;
  change (4069 ^ 3) with 67369460509 in *.

Ltac levels a :=
  let l := fresh "l" in let p := fresh "p" in
  destruct a as [l p]; cbn [level logpageno] in *;
  let H := fresh in assert (H : l = 0 \/ l = 1 \/ l = 2) by lia;
  destruct H as [->|[->| ->]].

Lemma physical_small a : addr_ok a ->
  fsm_logical_to_physical a = leafno a + leafno a / 4069 + 2 - level a /\ 0 <= leafno a < 16556761.
Proof.
  intros Ha. rewrite physical_closed by done. unfold pages_to. destruct Ha as (Hl & Hp & Hb). unfold leafno in *. pows.
  assert (0 <= logpageno a * 4069 ^ level a) by (apply Z.mul_nonneg_nonneg; [done | apply Z.pow_nonneg; lia]).
  rewrite (Z.div_small _ 16556761) by lia. lia.
Qed.

Lemma under_physical a c : addr_ok a -> addr_ok c -> under a c -> fsm_logical_to_physical a <= fsm_logical_to_physical c.
Proof.
  intros Ha Hc [Hl Hu]. destruct (physical_small a Ha) as [-> _], (physical_small c Hc) as [-> _].
  destruct Ha as (Hla & Hpa & _), Hc as (Hlc & Hpc & _). unfold leafno.
  levels a; levels c; try lia; cbn [Z.sub] in *; pows; try (change (2 - 1) with 1 in *); pows; Z.div_mod_to_equations; lia.
Qed.

Lemma child_order a s s' :
  addr_ok a -> level a <> FSM_BOTTOM_LEVEL -> 0 <= s -> s <= s' < LEAF_NODES_PER_PAGE ->
  fsm_logical_to_physical (fsm_get_child a s) <= fsm_logical_to_physical (fsm_get_child a s').
Proof.
  intros Ha Hl Hs Hs'. destruct (physical_small _ (child_ok a s Ha Hl ltac:(lia))) as [-> _],
    (physical_small _ (child_ok a s' Ha Hl ltac:(lia))) as [-> _].
  destruct Ha as (Hla & Hpa & _). unfold leafno, fsm_get_child. change SLOTS_PER_FSM_PAGE with 4069. change FSM_BOTTOM_LEVEL with 0 in *.
  levels a; [done | change (1 - 1) with 0 | change (2 - 1) with 1]; pows; Z.div_mod_to_equations; lia.
Qed.

Lemma child_before a s :
  addr_ok a -> level a <> FSM_BOTTOM_LEVEL -> 0 <= s < LEAF_NODES_PER_PAGE ->
  fsm_logical_to_physical a < fsm_logical_to_physical (fsm_get_child a s).
Proof.
  intros Ha Hl Hs. destruct (physical_small _ (child_ok a s Ha Hl Hs)) as [-> _], (physical_small a Ha) as [-> _].
  destruct Ha as (Hla & Hpa & _). unfold leafno, fsm_get_child. change SLOTS_PER_FSM_PAGE with 4069. change FSM_BOTTOM_LEVEL with 0 in *.
  levels a; [done | change (1 - 1) with 0 | change (2 - 1) with 1]; pows; Z.div_mod_to_equations; lia.
Qed.

Lemma under_refl a : under a a.
Proof. split; [lia|]. rewrite Z.sub_diag. apply Z.div_1_r. Qed.

(** The ancestor of [c] one level below [a], and its slot. *)
Definition slot_under (a c : FSMAddress) : Z := (logpageno c / 4069 ^ (level a - 1 - level c)) mod 4069.

Lemma under_child a c s :
  addr_ok a -> addr_ok c -> level a <> FSM_BOTTOM_LEVEL -> 0 <= s < LEAF_NODES_PER_PAGE ->
  under (fsm_get_child a s) c <-> under a c /\ level c < level a /\ s = slot_under a c.
Proof.
  intros Ha Hc Hl Hs. destruct Ha as (Hla & Hpa & _), Hc as (Hlc & Hpc & _).
  unfold under, slot_under, fsm_get_child. cbn [level logpageno].
  change SLOTS_PER_FSM_PAGE with 4069. change FSM_BOTTOM_LEVEL with 0 in *. sizes.
  levels a; levels c; try lia; cbn [Z.sub Z.add Z.opp Z.pos_sub Pos.pred_double] in *;
    change (1 - 0) with 1; change (2 - 0) with 2; change (2 - 1) with 1; change (2 - 2) with 0; change (1 - 1) with 0; pows;
    Z.div_mod_to_equations; lia.
Qed.

Lemma slot_under_range a c : 0 <= slot_under a c < LEAF_NODES_PER_PAGE.
Proof. unfold slot_under. sizes. apply Z.mod_pos_bound. lia. Qed.

Lemma child_of_under a c :
  addr_ok a -> addr_ok c -> level a <> FSM_BOTTOM_LEVEL -> under a c -> level c = level a - 1 ->
  fsm_get_child a (slot_under a c) = c.
Proof.
  intros Ha Hc Hl Hu E. destruct (under_child a c (slot_under a c) Ha Hc Hl (slot_under_range a c)) as [_ Hx].
  destruct Hx as [_ Hx]; [split; [done|]; split; [lia | done]|]. revert Hx. generalize (slot_under a c). intros t Hx.
  destruct c as [lc pc]. unfold fsm_get_child in *. cbn [level logpageno] in *. rewrite E, Z.sub_diag, Z.pow_0_r, Z.div_1_r in Hx.
  by rewrite E, Hx.
Qed.

Lemma under_parent a c :
  addr_ok a -> addr_ok c -> under a c -> level c < level a ->
  addr_ok (fst (fsm_get_parent c)) /\ under a (fst (fsm_get_parent c)) /\ 0 <= snd (fsm_get_parent c) < LEAF_NODES_PER_PAGE.
Proof.
  intros Ha Hc Hu Hl. pose proof Ha as (Hla & Hpa & _). destruct (parent_ok c Hc) as [Hp Hs]; [change FSM_ROOT_LEVEL with 2; lia|].
  split; [done|]. split; [|done]. destruct Hu as [_ Hu], Hc as (Hlc & Hpc & _). unfold under, fsm_get_parent in *. cbn [fst level logpageno] in *.
  change SLOTS_PER_FSM_PAGE with 4069 in *. rewrite Z.quot_div_nonneg by lia. split; [lia|].
  levels a; levels c; try lia; change (1 - 0) with 1 in *; change (2 - 0) with 2 in *; change (2 - 1) with 1 in *;
    change (1 - (0 + 1)) with 0; change (2 - (0 + 1)) with 1; change (2 - (1 + 1)) with 0; pows; Z.div_mod_to_equations; lia.
Qed.

Lemma covers_child start end_ a c :
  addr_ok a -> addr_ok c -> under a c -> level c < level a -> 0 <= start -> start < end_ -> covers start end_ c ->
  covers start end_ (fsm_get_child a (slot_under a c)).
Proof.
  intros Ha Hc [_ Hu] Hl Hs He. destruct Ha as (Hla & Hpa & _), Hc as (Hlc & Hpc & _). unfold covers, slot_under, fsm_get_child.
  cbn [level logpageno]. change SLOTS_PER_FSM_PAGE with 4069.
  levels a; levels c; try lia;
    change (1 - 0) with 1 in *; change (2 - 0) with 2 in *; change (2 - 1) with 1 in *; change (1 - 1 - 0) with 0;
    change (2 - 1 - 0) with 1; change (2 - 1 - 1) with 0; change (1 - 1 + 1) with 1; change (2 - 1 + 1) with 2;
    change (0 + 1) with 1; change (1 + 1) with 2; pows; Z.div_mod_to_equations; lia.
Qed.

(** The slots the loop visits are the ones that lead to the blocks. *)
Lemma vacuum_range_covers a start end_ :
  addr_ok a -> level a <> FSM_BOTTOM_LEVEL -> 0 <= start -> start < end_ -> is_u32 end_ ->
  let '(start_slot, end_slot) := vacuum_range a start end_ in
  0 <= start_slot <= LEAF_NODES_PER_PAGE /\ end_slot < LEAF_NODES_PER_PAGE /\
  forall s, 0 <= s < LEAF_NODES_PER_PAGE -> (covers start end_ (fsm_get_child a s) <-> start_slot <= s <= end_slot).
Proof.
  intros (Hla & Hpa & _) Hl Hs He Hu. unfold is_u32 in Hu. unfold vacuum_range, covers, fsm_get_child.
  change FSM_BOTTOM_LEVEL with 0 in *.
  assert (Hup : forall b, 0 <= b < 2 ^ 32 ->
    Nat.iter (Z.to_nat (level a)) (fun p : FSMAddress * Z => fsm_get_parent (fst p)) (fsm_get_location b) =
    ({| level := level a; logpageno := b / 4069 ^ (level a + 1) |}, b / 4069 ^ level a mod 4069)).
  { intros b Hb. levels a; [done| |].
    - transitivity (fsm_get_parent (fst (fsm_get_location b))); [done|]. unfold fsm_get_location, fsm_get_parent. cbn [fst level logpageno].
      change SLOTS_PER_FSM_PAGE with 4069. change FSM_BOTTOM_LEVEL with 0. change (1 + 1) with 2. change (0 + 1) with 1. pows.
      rewrite Z.quot_div_nonneg, Z.rem_mod_nonneg, Z.div_div by (try apply Z.div_pos; lia). done.
    - transitivity (fsm_get_parent (fst (fsm_get_parent (fst (fsm_get_location b))))); [done|]. unfold fsm_get_location, fsm_get_parent. cbn [fst level logpageno].
      change SLOTS_PER_FSM_PAGE with 4069. change FSM_BOTTOM_LEVEL with 0. change (2 + 1) with 3. change (0 + 1 + 1) with 2. pows.
      rewrite !Z.quot_div_nonneg by (repeat apply Z.div_pos || apply Z.quot_pos; try apply Z.div_pos; lia).
      rewrite Z.rem_mod_nonneg by (repeat apply Z.div_pos; lia). rewrite !Z.div_div by lia. done. }
  rewrite !Hup by lia. cbn [level logpageno]. clear Hup. change SLOTS_PER_FSM_PAGE with 4069. sizes.
  replace (level a - 1 + 1) with (level a) by lia.
  assert (Hm : forall b, b / 4069 ^ (level a + 1) = b / 4069 ^ level a / 4069).
  { intros b. rewrite Z.div_div by (try apply Z.pow_pos_nonneg; lia). by rewrite Z.pow_add_r by lia. }
  rewrite !Hm. set (x := start / 4069 ^ level a). set (y := (end_ - 1) / 4069 ^ level a). clearbody x y.
  destruct (Z.compare_spec (x / 4069) (logpageno a)), (Z.compare_spec (y / 4069) (logpageno a));
    (split; [zdiv|]; split; [zdiv|]; intros s Hs'; zdiv).
Qed.

(** ** One page *)

(** What every step keeps. *)
Record base (r r' : FsmRel) : Prop := {
  base_ok : fsm_ok r';
  base_main : main_same r r';
  base_len : fsm_nblocks r' = fsm_nblocks r;
  base_pin : forall k, pinned r k -> pinned r' k
}.

Lemma base_refl r : fsm_ok r -> base r r.
Proof. by split. Qed.

Lemma base_trans r1 r2 r3 : base r1 r2 -> base r2 r3 -> base r1 r3.
Proof. intros [] []. unfold main_same in *. split; [done | unfold main_same; congruence | congruence | auto]. Qed.

Definition same_page (r r' : FsmRel) (a : FSMAddress) : Prop :=
  forall n, fp_nodes (page_at r' a) n = fp_nodes (page_at r a) n.

Definition sound (r : FsmRel) : Prop := forall a, addr_ok a -> heap_ok (page_at r a).

Lemma base_survives r r' : base r r' -> survives r r'.
Proof. intros []. by split. Qed.

Section Vacuum.
Context (io : FsmIo) `{!FsmRunning io}.
Hypothesis NoDamage : forall b, damaged io b = false.

Lemma init_new_page_nodes_wp b r :
  fsm_ok r -> b < fsm_nblocks r ->
  wp (init_new_page io b) (fun _ r' => base r r' /\ (forall a, same_page r r' a) /\ pinned r' b) (base r) r.
Proof.
  intros Hok Hb. unfold init_new_page. repeat wp_step. destruct (fsm_new r b) eqn:Hw; [|wp_step; split; [by apply base_refl | done]].
  apply wp_lock; [done | by apply base_refl|]. repeat wp_step. split; [|split; [|split; [done | cbn; by rewrite set_at_eq]]].
  - split; [by apply zero_page_ok | done | done|]. intros k [Hk Hn]. split; [done|]. cbn. unfold set_at. by destruct (k =? b).
  - intros a n. unfold page_at. cbn. unfold set_at. destruct (Z.eqb_spec (fsm_logical_to_physical a) b) as [->|]; [|done].
    by rewrite (ok_new r Hok b Hw).
Qed.

Lemma readbuf_nodes_wp a r :
  fsm_ok r ->
  wp (fsm_readbuf io a false)
    (fun o r' => base r r' /\ (forall c, same_page r r' c) /\
       match o with
       | Some b => b = fsm_logical_to_physical a /\ pinned r' b
       | None => fsm_nblocks r <= fsm_logical_to_physical a
       end) (survives r) r.
Proof.
  intros Hok. unfold fsm_readbuf. set (b := fsm_logical_to_physical a). wp_step. wp_step. wp_step.
  eapply wp_impl; [by apply (readbuf_length_wp io) | | apply reads_survives]. intros n r1 (R1 & (P1 & W1 & N1) & Hn & Hb).
  assert (B1 : base r r1). { split; [apply R1 | apply R1 | done|]. unfold pinned. by rewrite W1, N1. }
  assert (S1 : forall c, same_page r r1 c). { intros c k. unfold page_at. by rewrite P1. }
  destruct (Z.leb_spec n b) as [Hle|Hlt]; cbn [andb negb]; [wp_step; auto|].
  repeat wp_step. apply wp_io; [apply ReadNoPanic | | by apply base_survives]. rewrite NoDamage. repeat wp_step.
  eapply wp_impl; [apply init_new_page_nodes_wp; [apply R1 | lia] | | intros r2 B2; apply base_survives; by eapply base_trans].
  intros _ r2 (B2 & S2 & P2). wp_step. split; [by eapply base_trans|]. split; [|done]. intros c k. by rewrite S2, S1.
Qed.

Lemma does_block_exist_nodes_wp b r :
  fsm_ok r ->
  wp (fsm_does_block_exist io b)
    (fun x r' => x = (b <? main_nblocks r) /\ base r r' /\ (forall c, same_page r r' c)) (survives r) r.
Proof.
  intros Hok. unfold fsm_does_block_exist. repeat wp_step.
  destruct (Z.eqb_spec (main_cached_nblocks r) InvalidBlockNumber) as [|Hc]; cbn [negb andb];
    [|destruct (Z.ltb_spec b (main_cached_nblocks r))].
  2:{ wp_step. split; [|split; [by apply base_refl | done]]. destruct (ok_main r Hok); [done|]. symmetry. apply Z.ltb_lt. lia. }
  all: unfold smgr_nblocks_main; repeat wp_step; apply wp_io; [apply SmgrNoPanic | | done]; repeat wp_step.
  all: split; [done|]; split; [|done]; split; [|done | done | done]; destruct Hok; split; try done; cbn; lia.
Qed.

(** Writing one slot of the page at [a]. *)
Definition slot_set (a : FSMAddress) (s v : Z) (r r' : FsmRel) : Prop :=
  base r r' /\ (forall c, addr_ok c -> c <> a -> page_at r' c = page_at r c) /\
  (forall t, 0 <= t < LEAF_NODES_PER_PAGE -> leaf (page_at r' a) t = if t =? s then v else leaf (page_at r a) t) /\
  (heap_ok (page_at r a) -> heap_ok (page_at r' a)).

Lemma set_page_base b pg r : fsm_ok r -> pinned r b -> bytes_ok pg -> base r (set_fsm_page b pg r).
Proof. intros Hok [Hb Hw] Hp. split; [by apply fsm_ok_page | done | done | done]. Qed.

Lemma page_at_set a c pg r :
  addr_ok a -> addr_ok c -> c <> a -> page_at (set_fsm_page (fsm_logical_to_physical a) pg r) c = page_at r c.
Proof. intros Ha Hc Hne. unfold page_at. cbn. apply set_at_ne. intros E. by apply physical_inj in E. Qed.

Lemma page_at_set_same a pg r : page_at (set_fsm_page (fsm_logical_to_physical a) pg r) a = pg.
Proof. unfold page_at. cbn. apply set_at_eq. Qed.

Lemma vacuum_set_wp a s v r :
  fsm_ok r -> addr_ok a -> pinned r (fsm_logical_to_physical a) -> 0 <= s < LEAF_NODES_PER_PAGE -> 0 <= v <= 255 ->
  wp (let! cur := on_page (fsm_logical_to_physical a) (fsm_get_avail s) in
      if negb (cur =? v) then
        mlift (lock_buffer io) ;!
        (on_page (fsm_logical_to_physical a) (fsm_set_avail s v) ;!
         (mlift (mark_buffer_dirty_hint io) ;! mlift (lock_buffer io)))
      else mret tt)
    (fun _ r' => slot_set a s v r r') (survives r) r.
Proof.
  intros Hok Ha Hp Hs Hv. set (b := fsm_logical_to_physical a) in *. wp_step. apply wp_on_page.
  apply wp_node; [sizes; lia|]. fold (leaf (fsm_page r b) s). set (r1 := set_fsm_page b (fsm_page r b) r).
  assert (B1 : base r r1) by (apply set_page_base; [done | done | apply Hok]).
  assert (P1 : forall c, page_at r1 c = page_at r c).
  { intros c. unfold page_at, r1. cbn. unfold set_at. by destruct (Z.eqb_spec (fsm_logical_to_physical c) b) as [->|]. }
  assert (Hp1 : pinned r1 b) by (by apply B1). clearbody r1.
  destruct (Z.eqb_spec (leaf (fsm_page r b) s) v) as [E|E]; cbn [negb].
  - wp_step. split; [done|]. split; [intros c _ _; apply P1|]. split; [|by rewrite P1]. intros t Ht. rewrite P1.
    by destruct (Z.eqb_spec t s) as [->|].
  - apply wp_lock; [done | by apply base_survives|]. wp_step. apply wp_on_page.
    eapply wp_impl; [apply set_avail_wp; [done | done | apply B1] | | done].
    intros c pg (B & Hl & Ho & _ & Hh & _). set (r2 := set_fsm_page b pg r1).
    assert (B2 : base r1 r2) by (apply set_page_base; [apply B1 | done | done]).
    assert (B12 : base r r2) by (by eapply base_trans).
    apply wp_hint; [done | by apply base_survives|]. apply wp_io; [apply LockNoPanic | | by apply base_survives].
    unfold slot_set, r2, b. rewrite page_at_set_same. split; [done|]. change (fsm_page r1 b) with (page_at r1 a) in Ho, Hh. rewrite P1 in Ho, Hh.
    split; [intros c' Hc' Hne; by rewrite page_at_set, P1|]. split; [|done].
    intros t Ht. destruct (Z.eqb_spec t s) as [->|]; [done | by apply Ho].
Qed.

(** ** The walk over the tree *)

Context (start end_ : Z) (Hstart : 0 <= start) (Hend : start < end_) (Hu32 : is_u32 end_).

(** What the parent of [c] says of it after the walk. *)
Definition settled (r r' : FsmRel) (c : FSMAddress) : Prop :=
  fsm_logical_to_physical (fst (fsm_get_parent c)) < fsm_nblocks r ->
  (covers start end_ c -> slot_for r' c = root_of r' c) /\ (~ covers start end_ c -> slot_for r' c = slot_for r c).

(** The walk of the subtree at [a]. *)
Record walked (a : FSMAddress) (r : FsmRel) (x : Z * bool) (r' : FsmRel) : Prop := {
  w_base : base r r';
  w_res : x = (root_of r' a, fsm_nblocks r <=? fsm_logical_to_physical a);
  w_frame : forall c, addr_ok c -> level c = FSM_BOTTOM_LEVEL \/ ~ under a c -> same_page r r' c;
  w_sound : sound r -> sound r';
  w_settled : forall c, addr_ok c -> under a c -> level c < level a -> settled r r' c
}.

(** The walk of the subtrees in slots [s..s + n] of the page at [a]. *)
Record slots_walked (a : FSMAddress) (s n : Z) (r r' : FsmRel) : Prop := {
  s_base : base r r';
  s_frame : forall c, addr_ok c ->
    level c = FSM_BOTTOM_LEVEL \/ (c <> a /\ ~ (under a c /\ level c < level a /\ s <= slot_under a c < s + n)) ->
    same_page r r' c;
  s_slots : forall t, 0 <= t < LEAF_NODES_PER_PAGE ->
    leaf (page_at r' a) t =
    if (s <=? t) && (t <? s + n) then root_of r' (fsm_get_child a t) else leaf (page_at r a) t;
  s_sound : sound r -> sound r';
  s_settled : forall c, addr_ok c -> under a c -> level c < level a - 1 -> s <= slot_under a c < s + n -> settled r r' c
}.

Lemma same_root r r' c : base r r' -> same_page r r' c -> root_of r' c = root_of r c.
Proof. intros [_ _ L _] S. unfold root_of. by rewrite L, S. Qed.

Lemma same_slot r r' c : same_page r r' (fst (fsm_get_parent c)) -> slot_for r' c = slot_for r c.
Proof. intros S. apply S. Qed.

Lemma root_byte r a : fsm_ok r -> 0 <= root_of r a <= 255.
Proof.
  intros Hok. unfold root_of. destruct (_ <? _); [|lia]. apply Hok. by sizes.
Qed.

(** A subtree past the end of the fork, or one that is left alone. *)
Lemma walked_past a r r' :
  addr_ok a -> base r r' -> (forall c, same_page r r' c) -> fsm_nblocks r <= fsm_logical_to_physical a -> walked a r (0, true) r'.
Proof.
  intros Ha B S Hp. pose proof (base_len _ _ B) as L. split; [done | | auto | |].
  - unfold root_of. rewrite L. destruct (Z.leb_spec (fsm_nblocks r) (fsm_logical_to_physical a)); [|lia].
    by destruct (Z.ltb_spec (fsm_logical_to_physical a) (fsm_nblocks r)); [lia|].
  - intros H c Hc. eapply heap_ext; [|by apply H]. apply S.
  - intros c Hc Hu Hl Hx. destruct (under_parent a c Ha Hc Hu Hl) as (Hpc & Hup & _).
    pose proof (under_physical a _ Ha Hpc Hup). lia.
Qed.

Lemma parent_slot_under a c :
  addr_ok a -> addr_ok c -> under a c -> level c < level a - 1 ->
  slot_under a (fst (fsm_get_parent c)) = slot_under a c /\ level (fst (fsm_get_parent c)) = level c + 1.
Proof.
  intros Ha Hc Hu Hl. destruct Ha as (Hla & Hpa & _), Hc as (Hlc & Hpc & _). split; [|done].
  unfold slot_under, fsm_get_parent. cbn [fst level logpageno]. change SLOTS_PER_FSM_PAGE with 4069.
  rewrite Z.quot_div_nonneg by lia. levels a; levels c; try lia. change (2 - 1 - (0 + 1)) with 0. change (2 - 1 - 0) with 1. pows.
  by rewrite Z.div_1_r.
Qed.

Lemma walk_step a s x r r1 r2 :
  addr_ok a -> level a <> FSM_BOTTOM_LEVEL -> 0 <= s < LEAF_NODES_PER_PAGE ->
  walked (fsm_get_child a s) r x r1 -> slot_set a s (fst x) r1 r2 -> slots_walked a s 1 r r2.
Proof.
  intros Ha Hl Hs [B1 -> F1 D1 T1] (B2 & P2 & L2 & H2). cbn [fst] in L2. pose proof (child_ok a s Ha Hl Hs) as Hca.
  change (level (fsm_get_child a s)) with (level a - 1) in T1. change FSM_BOTTOM_LEVEL with 0 in *. pose proof Ha as (Hla & _).
  assert (Hself : same_page r r1 a).
  { apply F1; [done|]. right. intros Hu. apply under_child in Hu; [lia | done | done | done | done]. }
  assert (Hroot : forall c, addr_ok c -> c <> a -> root_of r2 c = root_of r1 c).
  { intros c Hc Hne. apply same_root; [done|]. intros n. by rewrite P2. }
  split.
  - by eapply base_trans.
  - intros c Hc Hor n. change FSM_BOTTOM_LEVEL with 0 in *. assert (Hne : c <> a) by (intros ->; destruct Hor as [?|[? _]]; [lia | done]). rewrite P2 by done. apply F1; [done|].
    destruct Hor as [?|[_ Hx]]; [by left|]. right. intros Hu. apply Hx. apply under_child in Hu as (Hu & Hlt & ->); [|done..].
    split; [done|]. split; [done | lia].
  - intros t Ht. rewrite L2 by done. destruct (Z.eqb_spec t s) as [->|].
    + destruct (Z.leb_spec s s), (Z.ltb_spec s (s + 1)); try lia. cbn [andb]. symmetry. apply Hroot; [done|].
      intros E. apply (f_equal level) in E. cbn in E. lia.
    + destruct (Z.leb_spec s t), (Z.ltb_spec t (s + 1)); try lia; cbn [andb]; apply Hself.
  - intros Hd c Hc. destruct (decide (c = a)) as [->|]; [by apply H2, D1 | rewrite P2 by done; by apply D1].
  - intros c Hc Hu Hlc Hsc Hp. destruct (T1 c Hc) as [Ti To]; [apply under_child; [done | done | done | done|] | lia | done|].
    { split; [done|]. split; lia. }
    destruct (parent_slot_under a c Ha Hc Hu Hlc) as [_ Hpl]. destruct (under_parent a c Ha Hc Hu) as (Hpc & _); [lia|].
    assert (Es : slot_for r2 c = slot_for r1 c). { unfold slot_for. rewrite P2; [done | done|]. intros E. rewrite E in Hpl. lia. }
    rewrite Es, Hroot; [done | done|]. intros ->. lia.
Qed.

Lemma slots_app a s n m r r1 r2 :
  addr_ok a -> level a <> FSM_BOTTOM_LEVEL -> 0 <= n -> 0 <= m -> 0 <= s -> s + n + m <= LEAF_NODES_PER_PAGE ->
  slots_walked a s n r r1 -> slots_walked a (s + n) m r1 r2 -> slots_walked a s (n + m) r r2.
Proof.
  intros Ha Hl Hn Hm Hs Hsum [B1 F1 L1 D1 T1] [B2 F2 L2 D2 T2]. change FSM_BOTTOM_LEVEL with 0 in *. pose proof Ha as (Hla & _). split.
  - by eapply base_trans.
  - intros c Hc Hor k. rewrite F2, F1; [done | done | | done |]; (destruct Hor as [?|[Hne Hx]]; [by left|]; right; split; [done|];
      intros (Hu & Hlt & Hr); apply Hx; split; [done|]; split; [done | lia]).
  - intros t Ht. rewrite L2 by done. pose proof (child_ok a t Ha Hl Ht) as Hct.
    destruct (under_child a (fsm_get_child a t) t Ha Hct Hl Ht) as [Hu _]. destruct (Hu (under_refl _)) as (Hua & Hlt & Et).
    destruct (Z.leb_spec (s + n) t), (Z.ltb_spec t (s + n + m)); cbn [andb].
    1: destruct (Z.leb_spec s t), (Z.ltb_spec t (s + (n + m))); done || lia.
    all: rewrite L1 by done; destruct (Z.leb_spec s t), (Z.ltb_spec t (s + n)), (Z.ltb_spec t (s + (n + m)));
      cbn [andb]; try done; try lia.
    symmetry. apply same_root; [done|]. apply F2; [done|]. right. split; [intros E; rewrite E in Hlt; lia|]. rewrite <- Et. lia.
  - auto.
  - intros c Hc Hu Hlc Hr Hp. destruct (parent_slot_under a c Ha Hc Hu Hlc) as [Hps Hpl].
    destruct (under_parent a c Ha Hc Hu) as (Hpc & Hpu & _); [lia|]. pose proof (base_len _ _ B1) as Len1.
    assert (Hx : forall d, level d < level a -> d <> a) by (intros d Hd ->; lia).
    destruct (Z.lt_ge_cases (slot_under a c) (s + n)) as [Hlo|Hhi].
    + assert (S2 : same_page r1 r2 c) by (apply F2; [done | right; split; [apply Hx; lia | lia]]).
      assert (S2p : same_page r1 r2 (fst (fsm_get_parent c))) by (apply F2; [done | right; split; [apply Hx; lia | rewrite Hps; lia]]).
      rewrite (same_slot _ _ _ S2p), (same_root _ _ _ B2 S2). apply T1; [done | done | done | lia | done].
    + assert (S1p : same_page r r1 (fst (fsm_get_parent c))) by (apply F1; [done | right; split; [apply Hx; lia | rewrite Hps; lia]]).
      rewrite <- (same_slot _ _ _ S1p). apply T2; [done | done | done | lia | by rewrite Len1].
Qed.

Lemma slots_none a s r : fsm_ok r -> slots_walked a s 0 r r.
Proof.
  intros Hok. split; [by apply base_refl | done | | done |].
  - intros t _. by destruct (Z.leb_spec s t), (Z.ltb_spec t (s + 0)); try lia.
  - intros c _ _ _ ?. lia.
Qed.

Lemma wp_assoc {S A B C} (m : M S A) (f : A -> M S B) (k : B -> M S C) Q E s :
  wp (mbnd (mbnd m f) k) Q E s -> wp (mbnd m (fun x => mbnd (f x) k)) Q E s.
Proof. unfold wp, mbnd. by destruct (m s) as [[x| |] s1]. Qed.

Lemma vacuum_slots_wp child a :
  addr_ok a -> level a <> FSM_BOTTOM_LEVEL ->
  (forall t r, 0 <= t < LEAF_NODES_PER_PAGE -> fsm_ok r -> wp (child t) (walked (fsm_get_child a t) r) (survives r) r) ->
  forall n s eof r, fsm_ok r -> pinned r (fsm_logical_to_physical a) -> 0 <= s -> s + Z.of_nat n <= LEAF_NODES_PER_PAGE ->
  (eof = true -> forall t, s <= t < LEAF_NODES_PER_PAGE -> fsm_nblocks r <= fsm_logical_to_physical (fsm_get_child a t)) ->
  wp (vacuum_slots io child (fsm_logical_to_physical a) n s eof) (fun _ r' => slots_walked a s (Z.of_nat n) r r') (survives r) r.
Proof.
  intros Ha Hl Hchild. induction n as [|n IH]; intros s eof r Hok Hp Hs Hn Heof; cbn [vacuum_slots].
  { wp_step. by apply slots_none. }
  wp_step. assert (Hvisit : wp (if negb eof then child s else mret (0, eof)) (walked (fsm_get_child a s) r) (survives r) r).
  { destruct eof; cbn [negb]; [|apply Hchild; [lia | done]]. wp_step.
    apply walked_past; [apply child_ok; [done | done | lia] | by apply base_refl | done | apply Heof; [done | lia]]. }
  eapply wp_impl; [exact Hvisit | | done]. intros [v eof'] r1 W. pose proof (w_base _ _ _ _ W) as B1.
  pose proof (w_res _ _ _ _ W) as Ex. injection Ex as Ev Ee. apply wp_assoc. wp_step.
  eapply wp_impl; [apply vacuum_set_wp; [apply B1 | done | by apply B1 | lia | rewrite Ev; apply root_byte, B1] | |
    intros r2 S2; eapply survives_trans; [by apply base_survives | done]].
  intros u2 r2 S2. pose proof (walk_step a s (v, eof') r r1 r2 Ha Hl ltac:(lia) W S2) as Hstep. pose proof (s_base _ _ _ _ _ Hstep) as B2.
  eapply wp_impl; [apply (IH (s + 1) eof' r2); [apply B2 | by apply B2 | lia | lia |] | |
    intros r3 S3; eapply survives_trans; [by apply base_survives | done]].
  - intros -> t Ht. rewrite (base_len _ _ B2). symmetry in Ee. apply Z.leb_le in Ee.
    pose proof (child_order a s t Ha Hl ltac:(lia) ltac:(lia)). lia.
  - intros u3 r3 W3. replace (Z.of_nat (S n)) with (1 + Z.of_nat n) by lia. eapply slots_app; [done..| | | | | done | done]; lia.
Qed.

(** The last steps on a page: its root is read and its hint reset. *)
Lemma vacuum_finish_wp a r :
  fsm_ok r -> pinned r (fsm_logical_to_physical a) ->
  wp (let! max_avail := on_page (fsm_logical_to_physical a) fsm_get_max_avail in
      on_page (fsm_logical_to_physical a) (set_next_slot 0) ;! mret (max_avail, false))
    (fun x r' => base r r' /\ (forall c, same_page r r' c) /\ x = (root_of r' a, false)) (survives r) r.
Proof.
  intros Hok Hp. set (b := fsm_logical_to_physical a) in *. wp_step. apply wp_on_page. apply wp_node; [by sizes|].
  wp_step. apply wp_on_page. unfold set_next_slot. repeat wp_step.
  set (r1 := set_fsm_page b (fsm_page r b) r). assert (B1 : base r r1) by (apply set_page_base; [done | done | apply Hok]).
  set (pg := {| fp_nodes := fp_nodes (fsm_page r1 b); fp_next_slot := 0 |}).
  assert (B2 : base r1 (set_fsm_page b pg r1)).
  { apply set_page_base; [apply B1 | by apply B1 |]. intros n Hn. unfold pg. cbn [fp_nodes]. exact (ok_bytes _ (base_ok _ _ B1) b n Hn). }
  assert (Hsame : forall c, same_page r (set_fsm_page b pg r1) c).
  { intros c n. unfold page_at, pg, r1. cbn. unfold set_at. destruct (Z.eqb_spec (fsm_logical_to_physical c) b) as [->|]; [|done].
    by rewrite Z.eqb_refl. }
  assert (B12 : base r (set_fsm_page b pg r1)) by (by eapply base_trans).
  split; [done|]. split; [done|]. f_equal. rewrite (same_root r); [|done | done]. unfold root_of. fold b.
  destruct Hp as [Hb _]. by destruct (Z.ltb_spec b (fsm_nblocks r)); [|lia].
Qed.

(** From the slots of a page to its subtree. *)
Lemma walked_of_slots a r r' :
  addr_ok a -> level a <> FSM_BOTTOM_LEVEL -> fsm_logical_to_physical a < fsm_nblocks r ->
  (let '(start_slot, end_slot) := vacuum_range a start end_ in
   slots_walked a start_slot (Z.max 0 (end_slot - start_slot + 1)) r r') ->
  walked a r (root_of r' a, false) r'.
Proof.
  intros Ha Hl Hin. pose proof (vacuum_range_covers a start end_ Ha Hl Hstart Hend Hu32) as Hr.
  destruct (vacuum_range a start end_) as [s e]. destruct Hr as (Hs & He & Hcov). intros [B F L D T].
  change FSM_BOTTOM_LEVEL with 0 in *. pose proof Ha as (Hla & _). split; [done | | | done |].
  - destruct (Z.leb_spec (fsm_nblocks r) (fsm_logical_to_physical a)); [lia | done].
  - intros c Hc Hor. apply F; [done|]. destruct Hor as [?|Hx]; [by left|]. right. split; [intros ->; by apply Hx, under_refl|]. tauto.
  - intros c Hc Hu Hlc Hp. pose proof (slot_under_range a c) as Hsr. set (t := slot_under a c) in *.
    specialize (Hcov t Hsr). pose proof (covers_child start end_ a c Ha Hc Hu Hlc Hstart Hend) as Hcc. fold t in Hcc.
    destruct (decide (level c = level a - 1)) as [Elev|Nlev].
    + pose proof (child_of_under a c Ha Hc Hl Hu Elev) as Ec. fold t in Ec. pose proof (parent_child a t Ha Hsr) as Ep. rewrite Ec in Ep.
      rewrite Ec in Hcov. unfold slot_for. rewrite Ep. cbn [fst snd]. rewrite L, Ec by done.
      split; intros Hx; destruct (Z.leb_spec s t), (Z.ltb_spec t (s + Z.max 0 (e - s + 1))); cbn [andb]; try done;
        exfalso; [.. | apply Hx]; try apply Hcov in Hx; try apply Hcov; lia.
    + destruct (Z.lt_ge_cases t s) as [Hout|Hge]; [|destruct (Z.lt_ge_cases e t) as [Hout|Hle]].
      3:{ apply T; [done | done | lia | fold t; lia | done]. }
      all: split; [intros Hx; apply Hcc, Hcov in Hx; lia|]; intros _.
      all: destruct (parent_slot_under a c Ha Hc Hu ltac:(lia)) as [Eps Hpl], (under_parent a c Ha Hc Hu Hlc) as (Hpc & _).
      all: apply same_slot, F; [done|]; right; split; [intros E; rewrite E in Hpl; lia | rewrite Eps; fold t; lia].
Qed.

Lemma walked_leaf a r :
  level a = FSM_BOTTOM_LEVEL -> fsm_ok r -> fsm_logical_to_physical a < fsm_nblocks r -> walked a r (root_of r a, false) r.
Proof.
  intros Hl Hok Hp. split; [by apply base_refl | | done | done |].
  - destruct (Z.leb_spec (fsm_nblocks r) (fsm_logical_to_physical a)); [lia | done].
  - intros c (Hc & _). change FSM_BOTTOM_LEVEL with 0 in Hl. lia.
Qed.

(** Steps that change no node may come before and after. *)
Lemma walked_between a r r1 r2 r3 :
  base r r1 -> (forall c, same_page r r1 c) -> walked a r1 (root_of r2 a, false) r2 ->
  base r2 r3 -> (forall c, same_page r2 r3 c) -> walked a r (root_of r3 a, false) r3.
Proof.
  intros B1 S1 [B2 E2 F2 D2 T2] B3 S3. pose proof (base_len _ _ B1) as L1. split.
  - by eapply base_trans; [|eapply base_trans].
  - injection E2 as E2. by rewrite <- L1, <- E2.
  - intros c Hc Hor n. by rewrite S3, F2, S1.
  - intros Hd c Hc. eapply heap_ext; [apply S3|]. apply D2; [|done]. intros c' Hc'. eapply heap_ext; [apply S1 | by apply Hd].
  - intros c Hc Hu Hl Hp. rewrite (same_slot r2 r3 c), (same_root r2 r3 c) by done. rewrite <- (same_slot r r1 c) by done.
    apply T2; [done | done | done | by rewrite L1].
Qed.

Lemma vacuum_page_wp : forall fuel a r,
  addr_ok a -> fsm_ok r -> level a < Z.of_nat fuel ->
  wp (fsm_vacuum_page io fuel a start end_) (walked a r) (survives r) r.
Proof.
  induction fuel as [|fuel IH]; intros a r Ha Hok Hf; [destruct Ha; lia|]. cbn [fsm_vacuum_page]. wp_step.
  eapply wp_impl; [by apply readbuf_nodes_wp | | done]. intros [b|] r1 (B1 & S1 & H1).
  2:{ wp_step. by apply walked_past. }
  destruct H1 as [-> P1]. wp_step. assert (Hin : fsm_logical_to_physical a < fsm_nblocks r) by (rewrite <- (base_len _ _ B1); apply P1).
  assert (Hwalk : wp (if level a >? FSM_BOTTOM_LEVEL then
      let '(start_slot, end_slot) := vacuum_range a start end_ in
      vacuum_slots io (fun slot => fsm_vacuum_page io fuel (fsm_get_child a slot) start end_) (fsm_logical_to_physical a)
        (Z.to_nat (end_slot - start_slot + 1)) start_slot false
    else mret tt) (fun _ r2 => walked a r1 (root_of r2 a, false) r2) (survives r1) r1).
  { rewrite <- (base_len _ _ B1) in Hin. change FSM_BOTTOM_LEVEL with 0. destruct (Z.gtb_spec (level a) 0) as [Hpos|Hz].
    - pose proof (walked_of_slots a r1) as Hw. pose proof (vacuum_range_covers a start end_ Ha) as Hr.
      destruct (vacuum_range a start end_) as [s e]. destruct Hr as (Hs & He & _); [change FSM_BOTTOM_LEVEL with 0; lia | done | done | done|].
      eapply wp_impl; [apply vacuum_slots_wp; [done | change FSM_BOTTOM_LEVEL with 0; lia | | apply B1 | done | lia | | done] | | done].
      + intros t r2 Ht Hok2. apply IH; [apply child_ok; [done | change FSM_BOTTOM_LEVEL with 0; lia | done] | done | cbn; lia].
      + destruct (Z.le_ge_cases 0 (e - s + 1)); lia.
      + intros u r2 W. apply Hw; [done | change FSM_BOTTOM_LEVEL with 0; lia | done|].
        by replace (Z.max 0 (e - s + 1)) with (Z.of_nat (Z.to_nat (e - s + 1))) by lia.
    - wp_step. apply walked_leaf; [change FSM_BOTTOM_LEVEL with 0; destruct Ha; lia | apply B1 | done]. }
  eapply wp_impl; [exact Hwalk | | intros r2; by apply survives_trans, base_survives].
  intros u r2 W2. pose proof (w_base _ _ _ _ W2) as B2.
  eapply wp_impl; [apply vacuum_finish_wp; [apply B2 | by apply B2] | |
    intros r3; by apply survives_trans, base_survives, (base_trans _ r1)].
  intros x r3 (B3 & S3 & ->). by apply (walked_between a r r1 r2 r3).
Qed.
End Vacuum.
