(* ===== verification/FsmExact.v ===== *)
(** * Free-space map: an accurate map is searched exactly

    Vacuum makes the map accurate; in an accurate map a search finds a page
    whenever there is one. *)

From S2P Require Import Prelude Xid ItemPtr Fsm FsmSpec FsmVacuum FsmThms.

#[local] Opaque fsm_logical_to_physical.

(** Every page is sound, every slot of an upper page is the root of the page below
    it, and no slot is set for a block past the end of the relation. *)
Record accurate (r : FsmRel) : Prop := {
  acc_sound : sound r;
  acc_upper : forall c, addr_ok c -> level c < FSM_ROOT_LEVEL ->
    fsm_logical_to_physical (fst (fsm_get_parent c)) < fsm_nblocks r -> slot_for r c = root_of r c;
  acc_bottom : forall a slot, addr_ok a -> level a = FSM_BOTTOM_LEVEL -> 0 <= slot < LEAF_NODES_PER_PAGE ->
    main_nblocks r <= logpageno a * SLOTS_PER_FSM_PAGE + slot -> avail r (fsm_logical_to_physical a) slot = 0
}.

(** The same map, but for hints and caches. *)
Definition same_map (r r' : FsmRel) : Prop := base r r' /\ forall c, same_page r r' c.

Lemma same_map_trans r1 r2 r3 : same_map r1 r2 -> same_map r2 r3 -> same_map r1 r3.
Proof.
  intros [B1 S1] [B2 S2]. split; [by eapply base_trans|]. intros c n. by rewrite S2, S1.
Qed.

Lemma same_map_refl r : fsm_ok r -> same_map r r.
Proof. intros H. split; [by apply base_refl | done]. Qed.

Lemma same_map_avail r r' a slot :
  same_map r r' -> avail r' (fsm_logical_to_physical a) slot = avail r (fsm_logical_to_physical a) slot.
Proof. intros [[_ _ L _] S]. unfold avail. rewrite L. destruct (_ <? _); [apply S | done]. Qed.

Lemma same_map_accurate r r' : same_map r r' -> accurate r -> accurate r'.
Proof.
  intros SM [D U B]. pose proof SM as [Bs S]. pose proof Bs as [_ Mn L _]. split.
  - intros c Hc. eapply heap_ext; [apply S | by apply D].
  - intros c Hc Hl Hp. rewrite (same_slot r r' c), (same_root r r' c) by done. apply U; [done | done | lia].
  - intros a slot Ha Hl Hs Hm. rewrite (same_map_avail r) by done. unfold main_same in Mn. apply B; [done | done | done | lia].
Qed.

Section Exact.
Context (io : FsmIo) `{!FsmRunning io}.
Hypothesis NoDamage : forall b, damaged io b = false.

Lemma set_page_same a pg r :
  fsm_ok r -> pinned r (fsm_logical_to_physical a) -> bytes_ok pg -> addr_ok a ->
  (forall n, fp_nodes pg n = fp_nodes (page_at r a) n) -> same_map r (set_fsm_page (fsm_logical_to_physical a) pg r).
Proof.
  intros Hok Hp Hb Ha Hn. split; [by apply set_page_base|]. intros c n. unfold page_at. cbn. unfold set_at.
  destruct (Z.eqb_spec (fsm_logical_to_physical c) (fsm_logical_to_physical a)) as [->|]; [apply Hn | done].
Qed.

(** One look at a sound page: exact, and nothing changes. *)
Lemma exact_step_wp minv a r :
  fsm_ok r -> sound r -> addr_ok a -> fsm_logical_to_physical a < fsm_nblocks r ->
  wp (let! held := fsm_readbuf io a false in
      let! found :=
        (match held with
         | None => mret (-1, 0)
         | Some blk =>
             mlift (lock_buffer io) ;!
             (let! slot := on_page blk (search_page io minv (level a =? FSM_BOTTOM_LEVEL) false) in
              if slot =? -1 then
                let! max_avail := on_page blk fsm_get_max_avail in
                mlift (lock_buffer io) ;! mret (-1, max_avail)
              else mlift (lock_buffer io) ;! mret (slot, 0))
         end) in mret (held, found))
    (fun x r' => same_map r r' /\ fst x = Some (fsm_logical_to_physical a) /\
       ((fst (snd x) = -1 /\ root_of r a < minv) \/
        (0 <= fst (snd x) < LEAF_NODES_PER_PAGE /\ minv <= leaf (page_at r a) (fst (snd x)))))
    (survives r) r.
Proof.
  intros Hok Hd Ha Hin. assert (Er : root_of r a = fp_nodes (page_at r a) 0).
  { unfold root_of. by destruct (Z.ltb_spec (fsm_logical_to_physical a) (fsm_nblocks r)); [|lia]. }
  wp_step. eapply wp_impl; [by apply (readbuf_nodes_wp io) | | done]. intros [b|] r1 (B1 & S1 & H1); [|lia].
  destruct H1 as [-> P1]. wp_step. assert (SM1 : same_map r r1) by done.
  apply (wp_lock io); [by apply base_survives|]. wp_step. apply wp_on_page. unfold search_page.
  assert (Hh : heap_ok (fsm_page r1 (fsm_logical_to_physical a))) by (eapply heap_ext; [apply S1 | by apply Hd]).
  eapply wp_impl.
  { apply search_avail_wp; [| | apply HintNoPanic | apply B1].
    - intros s s' B. unfold rbind. by destruct (lock_buffer io); intros [= <-].
    - intros s. unfold rbind. pose proof (@LockNoPanic io _). by destruct (lock_buffer io). }
  2:{ intros pg [_ Hx]. done. }
  intros slot pg ((Hb & Hres) & Hsame & _). specialize (Hsame Hh). set (r2 := set_fsm_page (fsm_logical_to_physical a) pg r1).
  assert (SM2 : same_map r1 r2) by (apply set_page_same; [apply B1 | done | done | done | done]).
  assert (Hn : forall n, fp_nodes pg n = fp_nodes (page_at r a) n) by (intros n; rewrite Hsame; apply S1).
  assert (SM : same_map r r2) by (by eapply same_map_trans). unfold leaf in Hres. rewrite !Hn in Hres. fold (leaf (page_at r a) slot) in Hres.
  destruct (Z.eqb_spec slot (-1)) as [->|Hne].
  - wp_step. apply wp_on_page. apply wp_node; [by sizes|]. set (r3 := set_fsm_page _ _ r2).
    assert (SM3 : same_map r2 r3) by (apply set_page_same; [apply SM | by apply SM2 | apply SM | done | done]).
    assert (SM' : same_map r r3) by (by eapply same_map_trans).
    apply (wp_lock io); [apply base_survives, SM'|]. repeat wp_step. split; [done|]. split; [done|]. left. cbn. rewrite Er.
    destruct Hres as [[_ ?]|[? _]]; [done | lia].
  - apply (wp_lock io); [apply base_survives, SM|]. repeat wp_step. split; [done|]. split; [done|]. right. cbn.
    destruct Hres as [[? _]|?]; done.
Qed.

Lemma location_of a slot :
  0 <= slot < LEAF_NODES_PER_PAGE -> level a = FSM_BOTTOM_LEVEL -> fsm_get_location (logpageno a * SLOTS_PER_FSM_PAGE + slot) = (a, slot).
Proof.
  destruct a as [l p]. cbn [level logpageno]. intros Hs ->. unfold fsm_get_location. change SLOTS_PER_FSM_PAGE with 4069. sizes.
  repeat f_equal; zdiv.
Qed.

(** From an upper page that promises room, straight down. *)
Lemma exact_down_wp minv : forall fuel restarts a r,
  accurate r -> fsm_ok r -> main_nblocks r <= InvalidBlockNumber -> 1 <= minv -> addr_ok a -> minv <= root_of r a ->
  level a < Z.of_nat fuel ->
  wp (fsm_search_loop io fuel minv restarts a)
    (fun blk r' => same_map r r' /\ 0 <= blk < main_nblocks r /\ minv <= free_cat r blk) (survives r) r.
Proof.
  induction fuel as [|fuel IH]; intros restarts a r Hacc Hok Hmn Hm Ha Hroot Hf; [destruct Ha; lia|].
  assert (Hin : fsm_logical_to_physical a < fsm_nblocks r).
  { unfold root_of in Hroot. destruct (Z.ltb_spec (fsm_logical_to_physical a) (fsm_nblocks r)); [done | lia]. }
  cbn [fsm_search_loop]. apply wp_pair. eapply wp_impl; [apply exact_step_wp; [done | apply Hacc | done | done] | | done].
  intros [held [slot mx]] r1 (SM1 & -> & Hres). cbn [fst snd] in *. destruct Hres as [[_ ?]|[Hs Hv]]; [lia|].
  pose proof (same_map_accurate _ _ SM1 Hacc) as Hacc1. pose proof SM1 as [B1 S1]. pose proof B1 as [O1 M1 L1 _]. unfold main_same in M1.
  destruct (Z.eqb_spec slot (-1)); [lia|]. cbn [negb]. destruct (Z.eqb_spec (level a) FSM_BOTTOM_LEVEL) as [Hbot|Hup].
  - set (blk := logpageno a * SLOTS_PER_FSM_PAGE + slot). pose proof Ha as (_ & Hp & _).
    assert (Ef : free_cat r blk = leaf (page_at r a) slot).
    { unfold free_cat, blk. rewrite location_of by done. unfold avail. by destruct (Z.ltb_spec (fsm_logical_to_physical a) (fsm_nblocks r)); [|lia]. }
    assert (Hblk : 0 <= blk < main_nblocks r).
    { split; [unfold blk; change SLOTS_PER_FSM_PAGE with 4069; lia|]. destruct (Z.lt_ge_cases blk (main_nblocks r)) as [|Hge]; [done|].
      pose proof (acc_bottom r Hacc a slot Ha Hbot Hs Hge) as Hz. unfold free_cat, blk in Ef. rewrite location_of in Ef by done. lia. }
    assert (Eb : fsm_get_heap_blk a slot = blk).
    { unfold fsm_get_heap_blk, blk, InvalidBlockNumber in *. change SLOTS_PER_FSM_PAGE with 4069 in *.
      rewrite (wrap32_small (_ * _)) by (unfold is_u32; sizes; lia). apply wrap32_small. unfold is_u32. lia. }
    rewrite Eb. wp_step. eapply wp_impl; [by apply (does_block_exist_nodes_wp io) | | intros r2; by apply survives_trans, base_survives].
    intros x r2 (-> & B2 & S2). rewrite M1. destruct (Z.ltb_spec blk (main_nblocks r)); [|lia]. wp_step.
    split; [|split; [done | lia]]. by apply (same_map_trans r r1 r2).
  - pose proof (child_ok a slot Ha Hup Hs) as Hc. pose proof (parent_child a slot Ha Hs) as Hpc.
    assert (Hlev : level (fsm_get_child a slot) = level a - 1) by done. destruct Ha as (Hla & Ha').
    assert (Hcr : slot_for r1 (fsm_get_child a slot) = root_of r1 (fsm_get_child a slot)).
    { apply (acc_upper r1 Hacc1); [done | rewrite Hlev; change FSM_ROOT_LEVEL with 2; lia | rewrite Hpc; cbn [fst]; lia]. }
    eapply wp_impl; [apply IH; [done | done | lia | done | done | | rewrite Hlev; lia] | | intros r2; by apply survives_trans, base_survives].
    + rewrite <- Hcr. unfold slot_for. rewrite Hpc. cbn [fst snd]. unfold leaf. rewrite S1. exact Hv.
    + intros blk r2 (SM2 & Hb & Hc2). split; [by eapply same_map_trans|]. split; [lia|].
      rewrite free_cat_avail in *. by rewrite (same_map_avail r r1) in Hc2 by done.
Qed.
End Exact.

(** What a map promises of a heap block is bounded by what its root promises. *)
Lemma leaf_below_root r a slot :
  sound r -> addr_ok a -> 0 <= slot < LEAF_NODES_PER_PAGE -> fsm_logical_to_physical a < fsm_nblocks r ->
  leaf (page_at r a) slot <= root_of r a.
Proof.
  intros Hd Ha Hs Hin. unfold root_of. destruct (Z.ltb_spec (fsm_logical_to_physical a) (fsm_nblocks r)); [|lia].
  apply heap_root; [by apply Hd | sizes; lia].
Qed.

Lemma root_above r a :
  accurate r -> addr_ok a -> level a < FSM_ROOT_LEVEL -> fsm_logical_to_physical a < fsm_nblocks r ->
  root_of r a <= root_of r (fst (fsm_get_parent a)) /\
  addr_ok (fst (fsm_get_parent a)) /\ fsm_logical_to_physical (fst (fsm_get_parent a)) < fsm_nblocks r.
Proof.
  intros Hacc Ha Hl Hin. destruct (parent_ok a Ha) as [Hp Hs]; [lia|]. pose proof (child_parent a Ha) as Ec.
  assert (Hb : fsm_logical_to_physical (fst (fsm_get_parent a)) < fsm_nblocks r).
  { destruct Ha as (Hla & _). pose proof (child_before (fst (fsm_get_parent a)) (snd (fsm_get_parent a)) Hp) as Hx. rewrite Ec in Hx.
    assert (fsm_logical_to_physical (fst (fsm_get_parent a)) < fsm_logical_to_physical a); [|lia]. apply Hx; [|done].
    change (level (fst (fsm_get_parent a))) with (level a + 1). change FSM_BOTTOM_LEVEL with 0. lia. }
  split; [|done]. rewrite <- (acc_upper r Hacc a Ha Hl Hb). apply leaf_below_root; [apply Hacc | done | done | done].
Qed.

Lemma free_cat_below_root r b : accurate r -> is_u32 b -> free_cat r b <= Z.max 0 (root_of r FSM_ROOT_ADDRESS).
Proof.
  intros Hacc Hb. destruct (location_slot b Hb) as (Ha & Hl & Hs & _). rewrite free_cat_avail. set (a := fst (fsm_get_location b)) in *.
  unfold avail. destruct (Z.ltb_spec (fsm_logical_to_physical a) (fsm_nblocks r)) as [Hin|]; [|lia].
  pose proof (leaf_below_root r a (snd (fsm_get_location b)) (acc_sound r Hacc) Ha Hs Hin) as H0.
  change FSM_BOTTOM_LEVEL with 0 in Hl. change FSM_ROOT_LEVEL with 2 in *.
  destruct (root_above r a Hacc Ha) as (H1 & Ha1 & Hin1); [change FSM_ROOT_LEVEL with 2; lia | done|].
  set (a1 := fst (fsm_get_parent a)) in *. assert (Hl1 : level a1 = 1) by (unfold a1, fsm_get_parent; cbn [fst level]; lia).
  destruct (root_above r a1 Hacc Ha1) as (H2 & Ha2 & _); [change FSM_ROOT_LEVEL with 2; lia | done|].
  assert (E2 : fst (fsm_get_parent a1) = FSM_ROOT_ADDRESS).
  { set (a2 := fst (fsm_get_parent a1)) in *. assert (Hl2 : level a2 = 2) by (unfold a2, fsm_get_parent; cbn [fst level]; lia).
    destruct Ha2 as (_ & Hp & Hlt). destruct a2 as [l2 p2]. cbn [level logpageno] in *. subst l2. unfold FSM_ROOT_ADDRESS. f_equal. pows. lia. }
  rewrite E2 in H2. unfold page_at in H0. lia.
Qed.

(** C35.  In an accurate map the search is exact, as long as no page is damaged and
    no I/O fails: it returns a block that has the room asked for, and it returns
    none only if no block of the relation has it.  The map does not change. *)
Theorem fsm_search_exact io `{!FsmRunning io} needed cat r :
  accurate r -> fsm_ok r -> main_nblocks r <= InvalidBlockNumber -> (forall k, damaged io k = false) ->
  0 <= needed -> fsm_space_needed_to_cat needed = Ok cat ->
  exists x r', GetPageWithFreeSpace io needed r = (x, r') /\
    match x with
    | Ok blk =>
        accurate r' /\ (forall b, free_cat r' b = free_cat r b) /\
        ((0 <= blk < main_nblocks r /\ cat <= free_cat r blk) \/
         (blk = InvalidBlockNumber /\ forall b, 0 <= b < main_nblocks r -> free_cat r b < cat))
    | Err _ => True
    | Panic => False
    end.
Proof.
  intros Hacc Hok Hmn Hd Hn Hc.
  assert (Hcat : 1 <= cat).
  { unfold fsm_space_needed_to_cat, MaxFSMRequestSize in Hc. change FSM_CAT_STEP with 32 in Hc.
    destruct (needed >? 8160); [done|]. destruct (Z.eqb_spec needed 0); [by injection Hc as <-|]. cbv zeta in Hc.
    destruct (_ >? 255); injection Hc as <-; [lia | zdiv]. }
  assert (H : wp (fsm_search io cat)
    (fun blk r' => same_map r r' /\
       ((0 <= blk < main_nblocks r /\ cat <= free_cat r blk) \/
        (blk = InvalidBlockNumber /\ forall b, 0 <= b < main_nblocks r -> free_cat r b < cat))) (survives r) r).
  { destruct (Z.le_gt_cases cat (root_of r FSM_ROOT_ADDRESS)) as [Hle|Hgt].
    - eapply wp_impl; [apply (exact_down_wp io Hd cat (Z.to_nat 30010)); [done | done | done | done | apply root_ok | done|] | | done].
      + rewrite Z2Nat.id by lia. change (level FSM_ROOT_ADDRESS) with 2. lia.
      + intros blk r' (SM & Hb & Hx). auto.
    - assert (Hall : forall b, 0 <= b < main_nblocks r -> free_cat r b < cat).
      { intros b Hb. pose proof (free_cat_below_root r b Hacc) as Hx. unfold is_u32, InvalidBlockNumber in *. lia. }
      unfold fsm_search. change (Z.to_nat 30010) with (S (Z.to_nat 30009)). generalize (Z.to_nat 30009). intros fuel.
      cbn [fsm_search_loop]. destruct (Z.lt_ge_cases (fsm_logical_to_physical FSM_ROOT_ADDRESS) (fsm_nblocks r)) as [Hin|Hout].
      + apply wp_pair. eapply wp_impl; [apply (exact_step_wp io Hd); [done | apply Hacc | apply root_ok | done] | | done].
        intros [held [slot mx]] r1 (SM & -> & Hres). cbn [fst snd] in *. destruct Hres as [[-> _]|[Hs Hv]].
        * change (-1 =? -1) with true. change (level FSM_ROOT_ADDRESS =? FSM_ROOT_LEVEL) with true. cbn [negb]. wp_step. auto.
        * pose proof (leaf_below_root r FSM_ROOT_ADDRESS slot (acc_sound r Hacc) root_ok Hs Hin). lia.
      + wp_step. eapply wp_impl; [by apply (readbuf_nodes_wp io) | | done]. intros [b|] r1 (B1 & S1 & H1).
        * destruct H1 as [-> [Hb _]]. pose proof (base_len _ _ B1). lia.
        * repeat wp_step. cbn [fst snd]. change (-1 =? -1) with true. change (level FSM_ROOT_ADDRESS =? FSM_ROOT_LEVEL) with true.
          cbn [negb]. wp_step. split; [done | auto]. }
  unfold GetPageWithFreeSpace. rewrite Hc. change (mbnd (mlift (Ok cat)) (fsm_search io) r) with (fsm_search io cat r).
  unfold wp in H. destruct (fsm_search io cat r) as [[blk|e|] r'] eqn:E; [| by exists (Err e), r' | done].
  destruct H as (SM & H). exists (Ok blk), r'. split; [done|]. split; [by eapply same_map_accurate|]. split; [|done].
  intros b. rewrite !free_cat_avail. by apply same_map_avail.
Qed.

(** ** Vacuum *)

(** The last heap block there can be, and the first one past it. *)
Definition MaxBlockNumber : Z := 0xFFFFFFFE.

(** A map whose upper levels may be stale: its pages are sound, nothing is
    recorded for blocks that do not or cannot exist. *)
Record tidy (r : FsmRel) : Prop := {
  tidy_sound : sound r;
  tidy_bottom : forall a slot, addr_ok a -> level a = FSM_BOTTOM_LEVEL -> 0 <= slot < LEAF_NODES_PER_PAGE ->
    main_nblocks r <= logpageno a * SLOTS_PER_FSM_PAGE + slot -> avail r (fsm_logical_to_physical a) slot = 0;
  tidy_length : fsm_nblocks r <= fsm_logical_to_physical (fst (fsm_get_location MaxBlockNumber)) + 1;
  tidy_upper : forall c, addr_ok c -> level c < FSM_ROOT_LEVEL -> ~ covers 0 InvalidBlockNumber c -> slot_for r c = 0
}.

(** Pages for blocks that cannot exist are past the end. *)
Lemma uncovered_past c :
  addr_ok c -> level c < FSM_ROOT_LEVEL -> ~ covers 0 InvalidBlockNumber c ->
  fsm_logical_to_physical (fst (fsm_get_location MaxBlockNumber)) < fsm_logical_to_physical c.
Proof.
  intros Hc Hl Hx. rewrite physical_location by done. destruct (physical_small c Hc) as [-> _]. pose proof Hc as (Hlc & Hp & _).
  unfold covers, MaxBlockNumber, leafno in *. change (InvalidBlockNumber - 1) with 4294967294 in *. change FSM_ROOT_LEVEL with 2 in *.
  assert (level c = 0 \/ level c = 1) as [E|E] by lia; rewrite E in *; [change (0 + 1) with 1 in * | change (1 + 1) with 2 in *]; pows;
    rewrite Z.div_0_l in Hx by lia; change (0xFFFFFFFE / 4069) with 1055533 in *; change (4294967294 / 4069) with 1055533 in *;
    change (0xFFFFFFFE / 16556761) with 259 in *; change (4294967294 / 16556761) with 259 in *; zdiv.
Qed.

(** Some heap block there can be is below [c]. *)
Definition leads_to_blocks (c : FSMAddress) : Prop := covers 0 InvalidBlockNumber c.

Lemma under_root c : addr_ok c -> level c < FSM_ROOT_LEVEL -> under FSM_ROOT_ADDRESS c.
Proof.
  intros (Hlc & Hpc & Hx) Hl. unfold under, FSM_ROOT_ADDRESS. cbn [level logpageno]. change FSM_ROOT_LEVEL with 2 in *.
  split; [lia|]. apply Z.div_small. split; [done|]. assert (level c = 0 \/ level c = 1) as [El|El] by lia; rewrite El in *;
    [change (2 - 0) with 2 | change (2 - 1) with 1]; pows; lia.
Qed.

(** What vacuum leaves of the upper levels and of the heap blocks, whatever the map
    held before. *)
Record upper_repaired (r r' : FsmRel) : Prop := {
  repaired_slots : forall c, addr_ok c -> level c < FSM_ROOT_LEVEL ->
    fsm_logical_to_physical (fst (fsm_get_parent c)) < fsm_nblocks r' ->
    (leads_to_blocks c -> slot_for r' c = root_of r' c) /\ (~ leads_to_blocks c -> slot_for r' c = slot_for r c);
  repaired_sound : sound r -> sound r';
  repaired_avail : forall a slot, addr_ok a -> level a = FSM_BOTTOM_LEVEL ->
    avail r' (fsm_logical_to_physical a) slot = avail r (fsm_logical_to_physical a) slot
}.

Lemma walked_repaired r x r' : walked 0 InvalidBlockNumber FSM_ROOT_ADDRESS r x r' -> upper_repaired r r'.
Proof.
  intros [B _ F D T]. pose proof (base_len _ _ B) as L. split; [| done |].
  - intros c Hc Hl Hp. apply (T c Hc (under_root c Hc Hl) Hl). by rewrite <- L.
  - intros a slot Ha Hl. unfold avail. rewrite L. destruct (_ <? _); [|done]. apply (F a); [done | by left].
Qed.

(** A map that was tidy is accurate afterwards. *)
Lemma repaired_accurate r r' : base r r' -> upper_repaired r r' -> tidy r -> accurate r'.
Proof.
  intros [_ Mn L _] [S D A] [Td Tb Tl Tu]. split; [by apply D | |].
  - intros c Hc Hl Hp. destruct (S c Hc Hl Hp) as [Ti To]. unfold leads_to_blocks in *.
    assert (covers 0 InvalidBlockNumber c \/ ~ covers 0 InvalidBlockNumber c) as [Hx|Hx] by (unfold covers; lia); [by apply Ti|].
    rewrite To, Tu by done. unfold root_of. pose proof (uncovered_past c Hc Hl Hx).
    by destruct (Z.ltb_spec (fsm_logical_to_physical c) (fsm_nblocks r')); [lia|].
  - intros a slot Ha Hl Hs Hm. rewrite A by done. unfold main_same in Mn. apply Tb; [done | done | done | lia].
Qed.


(** A map whose bottom page knows a page with room, and whose upper pages do not. *)
Definition one_page : FsmPage :=
  {| fp_nodes n := if Z.land n (n + 1) =? 0 then if n <? 4096 then 9 else 0 else 0; fp_next_slot := 0 |}.

Definition stale_map : FsmRel := {|
  fsm_page b := if b =? 2 then one_page else zero_fsm_page; fsm_new _ := false; fsm_exists := true;
  fsm_nblocks := 3; fsm_cached_nblocks := InvalidBlockNumber; main_nblocks := 5; main_cached_nblocks := InvalidBlockNumber |}.

Definition node_okb (page : FsmPage) (n : nat) : bool := fp_nodes page (Z.of_nat n) =? child_max (fp_nodes page) (Z.of_nat n).

Lemma one_page_heap : heap_ok one_page.
Proof.
  assert (H : forallb (node_okb one_page) (seq 0 4095) = true) by (vm_compute; reflexivity).
  intros n Hn. rewrite forallb_forall in H. specialize (H (Z.to_nat n)). unfold node_okb in H. rewrite Z2Nat.id in H by lia.
  apply Z.eqb_eq, H. apply in_seq. sizes. lia.
Qed.

Lemma one_page_leaf slot : 0 < slot < LEAF_NODES_PER_PAGE -> leaf one_page slot = 0.
Proof.
  intros Hs. assert (H : forallb (fun k => leaf one_page (Z.of_nat k) =? 0) (seq 1 4068) = true) by (vm_compute; reflexivity).
  rewrite forallb_forall in H. specialize (H (Z.to_nat slot)). rewrite Z2Nat.id in H by lia. apply Z.eqb_eq, H, in_seq. sizes. lia.
Qed.

Lemma stale_map_ok : fsm_ok stale_map.
Proof.
  split; [|by left | done | done | by left]. intros b n _. unfold stale_map. cbn. destruct (b =? 2); cbn; [|lia].
  destruct (_ =? 0); [|lia]. destruct (_ <? _); lia.
Qed.

Lemma stale_upper c : addr_ok c -> level c <> FSM_BOTTOM_LEVEL -> page_at stale_map c = zero_fsm_page.
Proof.
  intros Hc Hl. unfold page_at, stale_map. cbn [fsm_page]. destruct (Z.eqb_spec (fsm_logical_to_physical c) 2) as [E|]; [|done].
  exfalso. destruct (physical_small c Hc) as [Ep _]. destruct Hc as (Hlc & Hp & _). unfold leafno in Ep.
  change FSM_BOTTOM_LEVEL with 0 in Hl. assert (level c = 1 \/ level c = 2) as [El|El] by lia; rewrite El in *; pows; zdiv.
Qed.

Lemma stale_map_tidy : tidy stale_map.
Proof.
  split.
  - intros a Ha. unfold page_at, stale_map. cbn [fsm_page]. destruct (_ =? 2); [apply one_page_heap | apply zero_heap].
  - intros a slot Ha Hl Hs Hm. unfold avail, stale_map in *. cbn [fsm_nblocks fsm_page main_nblocks] in *.
    destruct (_ <? 3); [|done]. destruct (Z.eqb_spec (fsm_logical_to_physical a) 2) as [E|]; [|done]. apply one_page_leaf.
    destruct (physical_small a Ha) as [Ep _]. destruct Ha as (_ & Hp & _). unfold leafno in Ep. rewrite Hl in Ep.
    change FSM_BOTTOM_LEVEL with 0 in *. change SLOTS_PER_FSM_PAGE with 4069 in *. pows. split; [|lia]. zdiv.
  - rewrite physical_location by done. by vm_compute.
  - intros c Hc Hl _. destruct (parent_ok c Hc) as [Hp Hs]; [lia|]. unfold slot_for. rewrite stale_upper; [done | done|].
    destruct Hc as (Hlc & _). change (level (fst (fsm_get_parent c))) with (level c + 1). change FSM_BOTTOM_LEVEL with 0. lia.
Qed.

(** The stale map is made accurate, and a map with a torn root page (slot 300 set,
    and neither its parent nodes nor any page below it) keeps that slot. *)
Definition torn_root : FsmPage := {| fp_nodes n := if n =? NON_LEAF_NODES_PER_PAGE + 300 then 7 else 0; fp_next_slot := 0 |}.

Definition torn_map : FsmRel := {|
  fsm_page b := if b =? 0 then torn_root else zero_fsm_page; fsm_new _ := false; fsm_exists := true;
  fsm_nblocks := 3; fsm_cached_nblocks := InvalidBlockNumber; main_nblocks := 5; main_cached_nblocks := InvalidBlockNumber |}.

Lemma torn_map_ok : fsm_ok torn_map.
Proof.
  split; [|by left | done | done | by left]. intros b n _. unfold torn_map. cbn. destruct (b =? 0); cbn; [|lia]. destruct (_ =? _); lia.
Qed.


(** A relation whose map was never made: nothing is recorded, and that is right. *)
Lemma no_map_accurate n : 0 <= n -> accurate (no_map n).
Proof.
  intros Hn. split.
  - intros a _. apply zero_heap.
  - intros c Hc Hl Hp. cbn [fsm_nblocks no_map] in Hp. destruct (parent_ok c Hc) as [Hpc _]; [lia|].
    pose proof (physical_small _ Hpc) as [Ep ?]. destruct Hpc as (? & _). zdiv.
  - intros a slot Ha Hl Hs Hm. unfold avail. cbn. by destruct (_ <? 0).
Qed.

Lemma fsm_search_exact_witness :
  accurate (no_map 5) /\ exists x r', GetPageWithFreeSpace quiet_io 100 (no_map 5) = (x, r') /\
    match x with Ok _ => accurate r' | Err _ => True | Panic => False end.
Proof.
  split; [apply no_map_accurate; lia|].
  destruct (fsm_search_exact quiet_io 100 4 (no_map 5)) as (x & r' & E & H);
    [apply no_map_accurate; lia | apply no_map_ok | by vm_compute | done | lia | done |].
  exists x, r'. split; [exact E|]. destruct x; [apply H | exact I | exact H].
Defined.
