(* ===== verification/XactState.v ===== *)
(** * The state of the transaction manager: [access/transam/xact/src/state.rs]

    One stack of transaction nodes per backend, the top-level transaction at the
    bottom, and the scalars that go with it.  The calls into other components are
    recorded, newest first, so that their order can be spoken about. *)

From S2P Require Import Prelude Xid.

Inductive TransState : Type :=
| TRANS_DEFAULT | TRANS_START | TRANS_INPROGRESS | TRANS_COMMIT | TRANS_ABORT | TRANS_PREPARE.

Inductive TBlockState : Type :=
| TBLOCK_DEFAULT | TBLOCK_STARTED
| TBLOCK_BEGIN | TBLOCK_INPROGRESS | TBLOCK_IMPLICIT_INPROGRESS | TBLOCK_PARALLEL_INPROGRESS
| TBLOCK_END | TBLOCK_ABORT | TBLOCK_ABORT_END | TBLOCK_ABORT_PENDING | TBLOCK_PREPARE
| TBLOCK_SUBBEGIN | TBLOCK_SUBINPROGRESS | TBLOCK_SUBRELEASE | TBLOCK_SUBCOMMIT | TBLOCK_SUBABORT
| TBLOCK_SUBABORT_END | TBLOCK_SUBABORT_PENDING | TBLOCK_SUBRESTART | TBLOCK_SUBABORT_RESTART.

#[export] Instance TransState_eq_dec : EqDecision TransState.
Proof. solve_decision. Defined.
#[export] Instance TBlockState_eq_dec : EqDecision TBlockState.
Proof. solve_decision. Defined.

Definition InvalidSubTransactionId : Z := 0.
Definition TopSubTransactionId : Z := 1.
Definition FirstCommandId : Z := 0.
Definition InvalidCommandId : Z := 0xFFFFFFFF.
Definition InvalidFullTransactionId : Z := 0.

(** ** Calls into other components *)

(** The ones whose order or arguments matter are spelled out; [Call] is any other
    by name, [Warn] a warning sent to the client or the log. *)
Inductive Event : Type :=
| Call (fn : string)
| Warn (msg : string)
| GetNewTransactionId (full : Z)
| SubTransSetParent (xid parent : Z)
| XactLogCommitRecord (xid : Z) (children : list Z)
| XactLogAbortRecord (xid : Z) (children : list Z)
| XLogFlush
| XLogSetAsyncXactLSN
| TransactionIdCommitTree (xid : Z) (children : list Z)
| TransactionIdAsyncCommitTree (xid : Z) (children : list Z)
| TransactionIdAbortTree (xid : Z) (children : list Z)
| ProcArrayEndTransaction (latest : Z)
| ResourceOwnerReleaseLocks (is_commit is_top : bool)
| EndPrepare (xid : Z) (children : list Z).

(** ** One node of the stack *)

Record TransactionNode := {
  full_transaction_id : Z;
  sub_transaction_id : Z;
  name : option string;
  savepoint_level : Z;
  state : TransState;
  block_state : TBlockState;
  nesting_level : Z;
  guc_nest_level : Z;
  child_xids : list Z;
  prev_user : Z;
  prev_sec_context : Z;
  prev_xact_read_only : bool;
  started_in_recovery : bool;
  did_log_xid : bool;
  parallel_mode_level : Z;
  parallel_child_xact : bool;
  chain : bool;
  top_xid_logged : bool;
  has_resource_owner : bool
}.

Definition set_full_transaction_id (v : Z) (n : TransactionNode) : TransactionNode :=
  {|
    full_transaction_id := v; sub_transaction_id := sub_transaction_id n; name := name n;
    savepoint_level := savepoint_level n; state := state n; block_state := block_state n;
    nesting_level := nesting_level n; guc_nest_level := guc_nest_level n; child_xids := child_xids n;
    prev_user := prev_user n; prev_sec_context := prev_sec_context n;
    prev_xact_read_only := prev_xact_read_only n; started_in_recovery := started_in_recovery n;
    did_log_xid := did_log_xid n; parallel_mode_level := parallel_mode_level n;
    parallel_child_xact := parallel_child_xact n; chain := chain n; top_xid_logged := top_xid_logged n;
    has_resource_owner := has_resource_owner n |}.

Definition set_sub_transaction_id (v : Z) (n : TransactionNode) : TransactionNode :=
  {|
    full_transaction_id := full_transaction_id n; sub_transaction_id := v; name := name n;
    savepoint_level := savepoint_level n; state := state n; block_state := block_state n;
    nesting_level := nesting_level n; guc_nest_level := guc_nest_level n; child_xids := child_xids n;
    prev_user := prev_user n; prev_sec_context := prev_sec_context n;
    prev_xact_read_only := prev_xact_read_only n; started_in_recovery := started_in_recovery n;
    did_log_xid := did_log_xid n; parallel_mode_level := parallel_mode_level n;
    parallel_child_xact := parallel_child_xact n; chain := chain n; top_xid_logged := top_xid_logged n;
    has_resource_owner := has_resource_owner n |}.

Definition set_name (v : option string) (n : TransactionNode) : TransactionNode :=
  {|
    full_transaction_id := full_transaction_id n; sub_transaction_id := sub_transaction_id n; name := v;
    savepoint_level := savepoint_level n; state := state n; block_state := block_state n;
    nesting_level := nesting_level n; guc_nest_level := guc_nest_level n; child_xids := child_xids n;
    prev_user := prev_user n; prev_sec_context := prev_sec_context n;
    prev_xact_read_only := prev_xact_read_only n; started_in_recovery := started_in_recovery n;
    did_log_xid := did_log_xid n; parallel_mode_level := parallel_mode_level n;
    parallel_child_xact := parallel_child_xact n; chain := chain n; top_xid_logged := top_xid_logged n;
    has_resource_owner := has_resource_owner n |}.

Definition set_savepoint_level (v : Z) (n : TransactionNode) : TransactionNode :=
  {|
    full_transaction_id := full_transaction_id n; sub_transaction_id := sub_transaction_id n; name := name n;
    savepoint_level := v; state := state n; block_state := block_state n; nesting_level := nesting_level n;
    guc_nest_level := guc_nest_level n; child_xids := child_xids n; prev_user := prev_user n;
    prev_sec_context := prev_sec_context n; prev_xact_read_only := prev_xact_read_only n;
    started_in_recovery := started_in_recovery n; did_log_xid := did_log_xid n;
    parallel_mode_level := parallel_mode_level n; parallel_child_xact := parallel_child_xact n;
    chain := chain n; top_xid_logged := top_xid_logged n; has_resource_owner := has_resource_owner n |}.

Definition set_state (v : TransState) (n : TransactionNode) : TransactionNode :=
  {|
    full_transaction_id := full_transaction_id n; sub_transaction_id := sub_transaction_id n; name := name n;
    savepoint_level := savepoint_level n; state := v; block_state := block_state n;
    nesting_level := nesting_level n; guc_nest_level := guc_nest_level n; child_xids := child_xids n;
    prev_user := prev_user n; prev_sec_context := prev_sec_context n;
    prev_xact_read_only := prev_xact_read_only n; started_in_recovery := started_in_recovery n;
    did_log_xid := did_log_xid n; parallel_mode_level := parallel_mode_level n;
    parallel_child_xact := parallel_child_xact n; chain := chain n; top_xid_logged := top_xid_logged n;
    has_resource_owner := has_resource_owner n |}.

Definition set_block_state (v : TBlockState) (n : TransactionNode) : TransactionNode :=
  {|
    full_transaction_id := full_transaction_id n; sub_transaction_id := sub_transaction_id n; name := name n;
    savepoint_level := savepoint_level n; state := state n; block_state := v; nesting_level := nesting_level n;
    guc_nest_level := guc_nest_level n; child_xids := child_xids n; prev_user := prev_user n;
    prev_sec_context := prev_sec_context n; prev_xact_read_only := prev_xact_read_only n;
    started_in_recovery := started_in_recovery n; did_log_xid := did_log_xid n;
    parallel_mode_level := parallel_mode_level n; parallel_child_xact := parallel_child_xact n;
    chain := chain n; top_xid_logged := top_xid_logged n; has_resource_owner := has_resource_owner n |}.

Definition set_nesting_level (v : Z) (n : TransactionNode) : TransactionNode :=
  {|
    full_transaction_id := full_transaction_id n; sub_transaction_id := sub_transaction_id n; name := name n;
    savepoint_level := savepoint_level n; state := state n; block_state := block_state n; nesting_level := v;
    guc_nest_level := guc_nest_level n; child_xids := child_xids n; prev_user := prev_user n;
    prev_sec_context := prev_sec_context n; prev_xact_read_only := prev_xact_read_only n;
    started_in_recovery := started_in_recovery n; did_log_xid := did_log_xid n;
    parallel_mode_level := parallel_mode_level n; parallel_child_xact := parallel_child_xact n;
    chain := chain n; top_xid_logged := top_xid_logged n; has_resource_owner := has_resource_owner n |}.

Definition set_guc_nest_level (v : Z) (n : TransactionNode) : TransactionNode :=
  {|
    full_transaction_id := full_transaction_id n; sub_transaction_id := sub_transaction_id n; name := name n;
    savepoint_level := savepoint_level n; state := state n; block_state := block_state n;
    nesting_level := nesting_level n; guc_nest_level := v; child_xids := child_xids n;
    prev_user := prev_user n; prev_sec_context := prev_sec_context n;
    prev_xact_read_only := prev_xact_read_only n; started_in_recovery := started_in_recovery n;
    did_log_xid := did_log_xid n; parallel_mode_level := parallel_mode_level n;
    parallel_child_xact := parallel_child_xact n; chain := chain n; top_xid_logged := top_xid_logged n;
    has_resource_owner := has_resource_owner n |}.

Definition set_child_xids (v : list Z) (n : TransactionNode) : TransactionNode :=
  {|
    full_transaction_id := full_transaction_id n; sub_transaction_id := sub_transaction_id n; name := name n;
    savepoint_level := savepoint_level n; state := state n; block_state := block_state n;
    nesting_level := nesting_level n; guc_nest_level := guc_nest_level n; child_xids := v;
    prev_user := prev_user n; prev_sec_context := prev_sec_context n;
    prev_xact_read_only := prev_xact_read_only n; started_in_recovery := started_in_recovery n;
    did_log_xid := did_log_xid n; parallel_mode_level := parallel_mode_level n;
    parallel_child_xact := parallel_child_xact n; chain := chain n; top_xid_logged := top_xid_logged n;
    has_resource_owner := has_resource_owner n |}.

Definition set_did_log_xid (v : bool) (n : TransactionNode) : TransactionNode :=
  {|
    full_transaction_id := full_transaction_id n; sub_transaction_id := sub_transaction_id n; name := name n;
    savepoint_level := savepoint_level n; state := state n; block_state := block_state n;
    nesting_level := nesting_level n; guc_nest_level := guc_nest_level n; child_xids := child_xids n;
    prev_user := prev_user n; prev_sec_context := prev_sec_context n;
    prev_xact_read_only := prev_xact_read_only n; started_in_recovery := started_in_recovery n;
    did_log_xid := v; parallel_mode_level := parallel_mode_level n;
    parallel_child_xact := parallel_child_xact n; chain := chain n; top_xid_logged := top_xid_logged n;
    has_resource_owner := has_resource_owner n |}.

Definition set_parallel_mode_level (v : Z) (n : TransactionNode) : TransactionNode :=
  {|
    full_transaction_id := full_transaction_id n; sub_transaction_id := sub_transaction_id n; name := name n;
    savepoint_level := savepoint_level n; state := state n; block_state := block_state n;
    nesting_level := nesting_level n; guc_nest_level := guc_nest_level n; child_xids := child_xids n;
    prev_user := prev_user n; prev_sec_context := prev_sec_context n;
    prev_xact_read_only := prev_xact_read_only n; started_in_recovery := started_in_recovery n;
    did_log_xid := did_log_xid n; parallel_mode_level := v; parallel_child_xact := parallel_child_xact n;
    chain := chain n; top_xid_logged := top_xid_logged n; has_resource_owner := has_resource_owner n |}.

Definition set_parallel_child_xact (v : bool) (n : TransactionNode) : TransactionNode :=
  {|
    full_transaction_id := full_transaction_id n; sub_transaction_id := sub_transaction_id n; name := name n;
    savepoint_level := savepoint_level n; state := state n; block_state := block_state n;
    nesting_level := nesting_level n; guc_nest_level := guc_nest_level n; child_xids := child_xids n;
    prev_user := prev_user n; prev_sec_context := prev_sec_context n;
    prev_xact_read_only := prev_xact_read_only n; started_in_recovery := started_in_recovery n;
    did_log_xid := did_log_xid n; parallel_mode_level := parallel_mode_level n; parallel_child_xact := v;
    chain := chain n; top_xid_logged := top_xid_logged n; has_resource_owner := has_resource_owner n |}.

Definition set_chain (v : bool) (n : TransactionNode) : TransactionNode :=
  {|
    full_transaction_id := full_transaction_id n; sub_transaction_id := sub_transaction_id n; name := name n;
    savepoint_level := savepoint_level n; state := state n; block_state := block_state n;
    nesting_level := nesting_level n; guc_nest_level := guc_nest_level n; child_xids := child_xids n;
    prev_user := prev_user n; prev_sec_context := prev_sec_context n;
    prev_xact_read_only := prev_xact_read_only n; started_in_recovery := started_in_recovery n;
    did_log_xid := did_log_xid n; parallel_mode_level := parallel_mode_level n;
    parallel_child_xact := parallel_child_xact n; chain := v; top_xid_logged := top_xid_logged n;
    has_resource_owner := has_resource_owner n |}.

Definition set_has_resource_owner (v : bool) (n : TransactionNode) : TransactionNode :=
  {|
    full_transaction_id := full_transaction_id n; sub_transaction_id := sub_transaction_id n; name := name n;
    savepoint_level := savepoint_level n; state := state n; block_state := block_state n;
    nesting_level := nesting_level n; guc_nest_level := guc_nest_level n; child_xids := child_xids n;
    prev_user := prev_user n; prev_sec_context := prev_sec_context n;
    prev_xact_read_only := prev_xact_read_only n; started_in_recovery := started_in_recovery n;
    did_log_xid := did_log_xid n; parallel_mode_level := parallel_mode_level n;
    parallel_child_xact := parallel_child_xact n; chain := chain n; top_xid_logged := top_xid_logged n;
    has_resource_owner := v |}.

Definition set_started_in_recovery (v : bool) (n : TransactionNode) : TransactionNode :=
  {|
    full_transaction_id := full_transaction_id n; sub_transaction_id := sub_transaction_id n; name := name n;
    savepoint_level := savepoint_level n; state := state n; block_state := block_state n;
    nesting_level := nesting_level n; guc_nest_level := guc_nest_level n; child_xids := child_xids n;
    prev_user := prev_user n; prev_sec_context := prev_sec_context n;
    prev_xact_read_only := prev_xact_read_only n; started_in_recovery := v; did_log_xid := did_log_xid n;
    parallel_mode_level := parallel_mode_level n; parallel_child_xact := parallel_child_xact n;
    chain := chain n; top_xid_logged := top_xid_logged n; has_resource_owner := has_resource_owner n |}.

Definition set_prev_user (v : Z) (n : TransactionNode) : TransactionNode :=
  {|
    full_transaction_id := full_transaction_id n; sub_transaction_id := sub_transaction_id n; name := name n;
    savepoint_level := savepoint_level n; state := state n; block_state := block_state n;
    nesting_level := nesting_level n; guc_nest_level := guc_nest_level n; child_xids := child_xids n;
    prev_user := v; prev_sec_context := prev_sec_context n; prev_xact_read_only := prev_xact_read_only n;
    started_in_recovery := started_in_recovery n; did_log_xid := did_log_xid n;
    parallel_mode_level := parallel_mode_level n; parallel_child_xact := parallel_child_xact n;
    chain := chain n; top_xid_logged := top_xid_logged n; has_resource_owner := has_resource_owner n |}.

Definition set_prev_sec_context (v : Z) (n : TransactionNode) : TransactionNode :=
  {|
    full_transaction_id := full_transaction_id n; sub_transaction_id := sub_transaction_id n; name := name n;
    savepoint_level := savepoint_level n; state := state n; block_state := block_state n;
    nesting_level := nesting_level n; guc_nest_level := guc_nest_level n; child_xids := child_xids n;
    prev_user := prev_user n; prev_sec_context := v; prev_xact_read_only := prev_xact_read_only n;
    started_in_recovery := started_in_recovery n; did_log_xid := did_log_xid n;
    parallel_mode_level := parallel_mode_level n; parallel_child_xact := parallel_child_xact n;
    chain := chain n; top_xid_logged := top_xid_logged n; has_resource_owner := has_resource_owner n |}.


(** [TransactionNode::top] *)
Definition top_node : TransactionNode := {|
  full_transaction_id := InvalidFullTransactionId; sub_transaction_id := InvalidSubTransactionId; name := None;
  savepoint_level := 0; state := TRANS_DEFAULT; block_state := TBLOCK_DEFAULT; nesting_level := 0; guc_nest_level := 0;
  child_xids := []; prev_user := 0; prev_sec_context := 0; prev_xact_read_only := false; started_in_recovery := false;
  did_log_xid := false; parallel_mode_level := 0; parallel_child_xact := false; chain := false; top_xid_logged := false;
  has_resource_owner := false |}.

(** ** The state of a backend *)

(** [subs] holds the subtransactions, the current one first. *)
Record XactState := {
  DefaultXactIsoLevel : Z;
  XactIsoLevel : Z;
  DefaultXactReadOnly : bool;
  XactReadOnly : bool;
  DefaultXactDeferrable : bool;
  XactDeferrable : bool;
  synchronous_commit : Z;
  MyXactFlags : Z;
  top_full_xid : Z;
  parallel_current_xids : list Z;
  current_sub_transaction_id : Z;
  command_id : Z;
  command_id_used : bool;
  force_sync_commit : bool;
  prepare_gid : option string;
  unreported_xids : list Z;
  top : TransactionNode;
  subs : list TransactionNode;
  events : list Event
}.

Definition set_XactIsoLevel (v : Z) (s : XactState) : XactState :=
  {|
    DefaultXactIsoLevel := DefaultXactIsoLevel s; XactIsoLevel := v;
    DefaultXactReadOnly := DefaultXactReadOnly s; XactReadOnly := XactReadOnly s;
    DefaultXactDeferrable := DefaultXactDeferrable s; XactDeferrable := XactDeferrable s;
    synchronous_commit := synchronous_commit s; MyXactFlags := MyXactFlags s; top_full_xid := top_full_xid s;
    parallel_current_xids := parallel_current_xids s;
    current_sub_transaction_id := current_sub_transaction_id s; command_id := command_id s;
    command_id_used := command_id_used s; force_sync_commit := force_sync_commit s;
    prepare_gid := prepare_gid s; unreported_xids := unreported_xids s; top := top s; subs := subs s;
    events := events s |}.

Definition set_XactReadOnly (v : bool) (s : XactState) : XactState :=
  {|
    DefaultXactIsoLevel := DefaultXactIsoLevel s; XactIsoLevel := XactIsoLevel s;
    DefaultXactReadOnly := DefaultXactReadOnly s; XactReadOnly := v;
    DefaultXactDeferrable := DefaultXactDeferrable s; XactDeferrable := XactDeferrable s;
    synchronous_commit := synchronous_commit s; MyXactFlags := MyXactFlags s; top_full_xid := top_full_xid s;
    parallel_current_xids := parallel_current_xids s;
    current_sub_transaction_id := current_sub_transaction_id s; command_id := command_id s;
    command_id_used := command_id_used s; force_sync_commit := force_sync_commit s;
    prepare_gid := prepare_gid s; unreported_xids := unreported_xids s; top := top s; subs := subs s;
    events := events s |}.

Definition set_XactDeferrable (v : bool) (s : XactState) : XactState :=
  {|
    DefaultXactIsoLevel := DefaultXactIsoLevel s; XactIsoLevel := XactIsoLevel s;
    DefaultXactReadOnly := DefaultXactReadOnly s; XactReadOnly := XactReadOnly s;
    DefaultXactDeferrable := DefaultXactDeferrable s; XactDeferrable := v;
    synchronous_commit := synchronous_commit s; MyXactFlags := MyXactFlags s; top_full_xid := top_full_xid s;
    parallel_current_xids := parallel_current_xids s;
    current_sub_transaction_id := current_sub_transaction_id s; command_id := command_id s;
    command_id_used := command_id_used s; force_sync_commit := force_sync_commit s;
    prepare_gid := prepare_gid s; unreported_xids := unreported_xids s; top := top s; subs := subs s;
    events := events s |}.

Definition set_MyXactFlags (v : Z) (s : XactState) : XactState :=
  {|
    DefaultXactIsoLevel := DefaultXactIsoLevel s; XactIsoLevel := XactIsoLevel s;
    DefaultXactReadOnly := DefaultXactReadOnly s; XactReadOnly := XactReadOnly s;
    DefaultXactDeferrable := DefaultXactDeferrable s; XactDeferrable := XactDeferrable s;
    synchronous_commit := synchronous_commit s; MyXactFlags := v; top_full_xid := top_full_xid s;
    parallel_current_xids := parallel_current_xids s;
    current_sub_transaction_id := current_sub_transaction_id s; command_id := command_id s;
    command_id_used := command_id_used s; force_sync_commit := force_sync_commit s;
    prepare_gid := prepare_gid s; unreported_xids := unreported_xids s; top := top s; subs := subs s;
    events := events s |}.

Definition set_top_full_xid (v : Z) (s : XactState) : XactState :=
  {|
    DefaultXactIsoLevel := DefaultXactIsoLevel s; XactIsoLevel := XactIsoLevel s;
    DefaultXactReadOnly := DefaultXactReadOnly s; XactReadOnly := XactReadOnly s;
    DefaultXactDeferrable := DefaultXactDeferrable s; XactDeferrable := XactDeferrable s;
    synchronous_commit := synchronous_commit s; MyXactFlags := MyXactFlags s; top_full_xid := v;
    parallel_current_xids := parallel_current_xids s;
    current_sub_transaction_id := current_sub_transaction_id s; command_id := command_id s;
    command_id_used := command_id_used s; force_sync_commit := force_sync_commit s;
    prepare_gid := prepare_gid s; unreported_xids := unreported_xids s; top := top s; subs := subs s;
    events := events s |}.

Definition set_parallel_current_xids (v : list Z) (s : XactState) : XactState :=
  {|
    DefaultXactIsoLevel := DefaultXactIsoLevel s; XactIsoLevel := XactIsoLevel s;
    DefaultXactReadOnly := DefaultXactReadOnly s; XactReadOnly := XactReadOnly s;
    DefaultXactDeferrable := DefaultXactDeferrable s; XactDeferrable := XactDeferrable s;
    synchronous_commit := synchronous_commit s; MyXactFlags := MyXactFlags s; top_full_xid := top_full_xid s;
    parallel_current_xids := v; current_sub_transaction_id := current_sub_transaction_id s;
    command_id := command_id s; command_id_used := command_id_used s; force_sync_commit := force_sync_commit s;
    prepare_gid := prepare_gid s; unreported_xids := unreported_xids s; top := top s; subs := subs s;
    events := events s |}.

Definition set_current_sub_transaction_id (v : Z) (s : XactState) : XactState :=
  {|
    DefaultXactIsoLevel := DefaultXactIsoLevel s; XactIsoLevel := XactIsoLevel s;
    DefaultXactReadOnly := DefaultXactReadOnly s; XactReadOnly := XactReadOnly s;
    DefaultXactDeferrable := DefaultXactDeferrable s; XactDeferrable := XactDeferrable s;
    synchronous_commit := synchronous_commit s; MyXactFlags := MyXactFlags s; top_full_xid := top_full_xid s;
    parallel_current_xids := parallel_current_xids s; current_sub_transaction_id := v;
    command_id := command_id s; command_id_used := command_id_used s; force_sync_commit := force_sync_commit s;
    prepare_gid := prepare_gid s; unreported_xids := unreported_xids s; top := top s; subs := subs s;
    events := events s |}.

Definition set_command_id (v : Z) (s : XactState) : XactState :=
  {|
    DefaultXactIsoLevel := DefaultXactIsoLevel s; XactIsoLevel := XactIsoLevel s;
    DefaultXactReadOnly := DefaultXactReadOnly s; XactReadOnly := XactReadOnly s;
    DefaultXactDeferrable := DefaultXactDeferrable s; XactDeferrable := XactDeferrable s;
    synchronous_commit := synchronous_commit s; MyXactFlags := MyXactFlags s; top_full_xid := top_full_xid s;
    parallel_current_xids := parallel_current_xids s;
    current_sub_transaction_id := current_sub_transaction_id s; command_id := v;
    command_id_used := command_id_used s; force_sync_commit := force_sync_commit s;
    prepare_gid := prepare_gid s; unreported_xids := unreported_xids s; top := top s; subs := subs s;
    events := events s |}.

Definition set_command_id_used (v : bool) (s : XactState) : XactState :=
  {|
    DefaultXactIsoLevel := DefaultXactIsoLevel s; XactIsoLevel := XactIsoLevel s;
    DefaultXactReadOnly := DefaultXactReadOnly s; XactReadOnly := XactReadOnly s;
    DefaultXactDeferrable := DefaultXactDeferrable s; XactDeferrable := XactDeferrable s;
    synchronous_commit := synchronous_commit s; MyXactFlags := MyXactFlags s; top_full_xid := top_full_xid s;
    parallel_current_xids := parallel_current_xids s;
    current_sub_transaction_id := current_sub_transaction_id s; command_id := command_id s;
    command_id_used := v; force_sync_commit := force_sync_commit s; prepare_gid := prepare_gid s;
    unreported_xids := unreported_xids s; top := top s; subs := subs s; events := events s |}.

Definition set_force_sync_commit (v : bool) (s : XactState) : XactState :=
  {|
    DefaultXactIsoLevel := DefaultXactIsoLevel s; XactIsoLevel := XactIsoLevel s;
    DefaultXactReadOnly := DefaultXactReadOnly s; XactReadOnly := XactReadOnly s;
    DefaultXactDeferrable := DefaultXactDeferrable s; XactDeferrable := XactDeferrable s;
    synchronous_commit := synchronous_commit s; MyXactFlags := MyXactFlags s; top_full_xid := top_full_xid s;
    parallel_current_xids := parallel_current_xids s;
    current_sub_transaction_id := current_sub_transaction_id s; command_id := command_id s;
    command_id_used := command_id_used s; force_sync_commit := v; prepare_gid := prepare_gid s;
    unreported_xids := unreported_xids s; top := top s; subs := subs s; events := events s |}.

Definition set_prepare_gid (v : option string) (s : XactState) : XactState :=
  {|
    DefaultXactIsoLevel := DefaultXactIsoLevel s; XactIsoLevel := XactIsoLevel s;
    DefaultXactReadOnly := DefaultXactReadOnly s; XactReadOnly := XactReadOnly s;
    DefaultXactDeferrable := DefaultXactDeferrable s; XactDeferrable := XactDeferrable s;
    synchronous_commit := synchronous_commit s; MyXactFlags := MyXactFlags s; top_full_xid := top_full_xid s;
    parallel_current_xids := parallel_current_xids s;
    current_sub_transaction_id := current_sub_transaction_id s; command_id := command_id s;
    command_id_used := command_id_used s; force_sync_commit := force_sync_commit s; prepare_gid := v;
    unreported_xids := unreported_xids s; top := top s; subs := subs s; events := events s |}.

Definition set_unreported_xids (v : list Z) (s : XactState) : XactState :=
  {|
    DefaultXactIsoLevel := DefaultXactIsoLevel s; XactIsoLevel := XactIsoLevel s;
    DefaultXactReadOnly := DefaultXactReadOnly s; XactReadOnly := XactReadOnly s;
    DefaultXactDeferrable := DefaultXactDeferrable s; XactDeferrable := XactDeferrable s;
    synchronous_commit := synchronous_commit s; MyXactFlags := MyXactFlags s; top_full_xid := top_full_xid s;
    parallel_current_xids := parallel_current_xids s;
    current_sub_transaction_id := current_sub_transaction_id s; command_id := command_id s;
    command_id_used := command_id_used s; force_sync_commit := force_sync_commit s;
    prepare_gid := prepare_gid s; unreported_xids := v; top := top s; subs := subs s; events := events s |}.

Definition set_top (v : TransactionNode) (s : XactState) : XactState :=
  {|
    DefaultXactIsoLevel := DefaultXactIsoLevel s; XactIsoLevel := XactIsoLevel s;
    DefaultXactReadOnly := DefaultXactReadOnly s; XactReadOnly := XactReadOnly s;
    DefaultXactDeferrable := DefaultXactDeferrable s; XactDeferrable := XactDeferrable s;
    synchronous_commit := synchronous_commit s; MyXactFlags := MyXactFlags s; top_full_xid := top_full_xid s;
    parallel_current_xids := parallel_current_xids s;
    current_sub_transaction_id := current_sub_transaction_id s; command_id := command_id s;
    command_id_used := command_id_used s; force_sync_commit := force_sync_commit s;
    prepare_gid := prepare_gid s; unreported_xids := unreported_xids s; top := v; subs := subs s;
    events := events s |}.

Definition set_subs (v : list TransactionNode) (s : XactState) : XactState :=
  {|
    DefaultXactIsoLevel := DefaultXactIsoLevel s; XactIsoLevel := XactIsoLevel s;
    DefaultXactReadOnly := DefaultXactReadOnly s; XactReadOnly := XactReadOnly s;
    DefaultXactDeferrable := DefaultXactDeferrable s; XactDeferrable := XactDeferrable s;
    synchronous_commit := synchronous_commit s; MyXactFlags := MyXactFlags s; top_full_xid := top_full_xid s;
    parallel_current_xids := parallel_current_xids s;
    current_sub_transaction_id := current_sub_transaction_id s; command_id := command_id s;
    command_id_used := command_id_used s; force_sync_commit := force_sync_commit s;
    prepare_gid := prepare_gid s; unreported_xids := unreported_xids s; top := top s; subs := v;
    events := events s |}.

Definition set_events (v : list Event) (s : XactState) : XactState :=
  {|
    DefaultXactIsoLevel := DefaultXactIsoLevel s; XactIsoLevel := XactIsoLevel s;
    DefaultXactReadOnly := DefaultXactReadOnly s; XactReadOnly := XactReadOnly s;
    DefaultXactDeferrable := DefaultXactDeferrable s; XactDeferrable := XactDeferrable s;
    synchronous_commit := synchronous_commit s; MyXactFlags := MyXactFlags s; top_full_xid := top_full_xid s;
    parallel_current_xids := parallel_current_xids s;
    current_sub_transaction_id := current_sub_transaction_id s; command_id := command_id s;
    command_id_used := command_id_used s; force_sync_commit := force_sync_commit s;
    prepare_gid := prepare_gid s; unreported_xids := unreported_xids s; top := top s; subs := subs s;
    events := v |}.


Definition XACT_READ_COMMITTED : Z := 1.
Definition SYNCHRONOUS_COMMIT_OFF : Z := 0.
Definition SYNCHRONOUS_COMMIT_ON : Z := 3.

(** [XactState::new] *)
Definition new_XactState : XactState := {|
  DefaultXactIsoLevel := XACT_READ_COMMITTED; XactIsoLevel := XACT_READ_COMMITTED; DefaultXactReadOnly := false;
  XactReadOnly := false; DefaultXactDeferrable := false; XactDeferrable := false;
  synchronous_commit := SYNCHRONOUS_COMMIT_ON; MyXactFlags := 0; top_full_xid := InvalidFullTransactionId;
  parallel_current_xids := []; current_sub_transaction_id := InvalidSubTransactionId; command_id := FirstCommandId;
  command_id_used := false; force_sync_commit := false; prepare_gid := None; unreported_xids := []; top := top_node;
  subs := []; events := [] |}.

Definition current (s : XactState) : TransactionNode :=
  match subs s with
  | [] => top s
  | n :: _ => n
  end.

(** [current_mut] *)
Definition on_current (f : TransactionNode -> TransactionNode) (s : XactState) : XactState :=
  match subs s with
  | [] => set_top (f (top s)) s
  | n :: ns => set_subs (f n :: ns) s
  end.

Definition stack_len (s : XactState) : nat := S (length (subs s)).

(** [node(i)]: [0] is the top-level transaction; out of range panics in the
    source and cannot be asked for here, every caller stays below [stack_len]. *)
Definition node (i : nat) (s : XactState) : TransactionNode :=
  match i with
  | O => top s
  | S _ => default (top s) (subs s !! (length (subs s) - i)%nat)
  end.

Definition on_node (i : nat) (f : TransactionNode -> TransactionNode) (s : XactState) : XactState :=
  match i with
  | O => set_top (f (top s)) s
  | S _ => set_subs (alter f (length (subs s) - i)%nat (subs s)) s
  end.

(** The stack from the current node down to the top-level one. *)
Definition nodes_rev (s : XactState) : list TransactionNode := subs s ++ [top s].

(** Index of the innermost node that satisfies [f]. *)
Definition rposition_node (f : TransactionNode -> bool) (s : XactState) : option nat :=
  match list_find (fun n => f n = true) (subs s) with
  | Some (k, _) => Some (length (subs s) - k)%nat
  | None => if f (top s) then Some O else None
  end.

Definition is_subxact (s : XactState) : bool :=
  match subs s with [] => false | _ :: _ => true end.

Definition try_push_node (n : TransactionNode) (s : XactState) : XactState := set_subs (n :: subs s) s.
Definition pop_node (s : XactState) : XactState := set_subs (tail (subs s)) s.
