(* ===== verification/Xact.v ===== *)
(** * The transaction manager: [access/transam/xact/src/engine.rs] and [lib.rs]

    Start, commit, abort and cleanup of transactions and subtransactions, the
    durable commit and abort records, and the state machine that drives them from
    BEGIN, COMMIT, ROLLBACK, SAVEPOINT and the start and end of every command.

    A call into another component is recorded and answered by the environment; it
    may fail wherever the source lets it, and is taken to leave the transaction
    state alone.  Memory contexts, resource owners, timestamps and timeouts are
    such calls or left out.  A seam that is not installed is a call that
    succeeds. *)

From S2P Require Import Prelude Xid Transam XactState.

(** What the other components answer; [list Event] is what has been called so far,
    newest first. *)
Record XactEnv := {
  ext : Event -> list Event -> result unit;
  (** an id from [varsup], for a subtransaction or not *)
  new_xid : bool -> list Event -> result Z;
  did_commit : Z -> list Event -> result bool;
  is_parallel_worker : bool;
  recovery_in_progress : bool;
  xlog_logical_info_active : bool;
  xlog_standby_info_active : bool;
  (** [PreCommit_Portals] finds something to do this many times *)
  portal_rounds : nat;
  (** whether there are files to delete, statistics to drop, invalidations to
      send at commit or abort *)
  pending_deletes : bool -> list Event -> result bool;
  dropped_stats : bool -> list Event -> result bool;
  inval_msgs : list Event -> result bool;
  (** [XactLastRecEnd != 0] *)
  wrote_wal : list Event -> bool;
  replorigin : bool;
  has_exported_snapshots : bool;
  user_and_context : Z * Z;
  NewGUCNestLevel : Z;
  (** [try_reserve] of the containers *)
  reserve : list Event -> bool;
  (** flags of the main loop: a timeout is enabled, a configuration reload pending *)
  due : string -> list Event -> bool
}.

(** ** Errors *)

Definition BlockStateAsString (b : TBlockState) : string :=
  match b with
  | TBLOCK_DEFAULT => "DEFAULT"
  | TBLOCK_STARTED => "STARTED"
  | TBLOCK_BEGIN => "BEGIN"
  | TBLOCK_INPROGRESS => "INPROGRESS"
  | TBLOCK_IMPLICIT_INPROGRESS => "IMPLICIT_INPROGRESS"
  | TBLOCK_PARALLEL_INPROGRESS => "PARALLEL_INPROGRESS"
  | TBLOCK_END => "END"
  | TBLOCK_ABORT => "ABORT"
  | TBLOCK_ABORT_END => "ABORT_END"
  | TBLOCK_ABORT_PENDING => "ABORT_PENDING"
  | TBLOCK_PREPARE => "PREPARE"
  | TBLOCK_SUBBEGIN => "SUBBEGIN"
  | TBLOCK_SUBINPROGRESS => "SUBINPROGRESS"
  | TBLOCK_SUBRELEASE => "SUBRELEASE"
  | TBLOCK_SUBCOMMIT => "SUBCOMMIT"
  | TBLOCK_SUBABORT => "SUBABORT"
  | TBLOCK_SUBABORT_END => "SUBABORT_END"
  | TBLOCK_SUBABORT_PENDING => "SUBABORT_PENDING"
  | TBLOCK_SUBRESTART => "SUBRESTART"
  | TBLOCK_SUBABORT_RESTART => "SUBABORT_RESTART"
  end.

Definition TransStateAsString (t : TransState) : string :=
  match t with
  | TRANS_DEFAULT => "DEFAULT"
  | TRANS_START => "START"
  | TRANS_INPROGRESS => "INPROGRESS"
  | TRANS_COMMIT => "COMMIT"
  | TRANS_ABORT => "ABORT"
  | TRANS_PREPARE => "PREPARE"
  end.

(** An error with its [errcode], or the default one of its level. *)
Definition raise {A} (lvl : Elevel) (code : SqlState) (msg : string) : M XactState A :=
  mlift (Err (PgRaise lvl code msg)).

Definition unexpected_block_state {A} (function : string) (st : TBlockState) : M XactState A :=
  raise FATAL ERRCODE_INTERNAL_ERROR (function +:+ ": unexpected state " +:+ BlockStateAsString st).

Definition log_event (e : Event) (s : XactState) : XactState := set_events (e :: events s) s.

(** A call whose outcome the source ignores or that cannot fail. *)
Definition note (e : Event) : M XactState unit := mput (log_event e).
Definition warn (msg : string) : M XactState unit := note (Warn msg).
Fixpoint notes (fns : list string) : M XactState unit :=
  match fns with
  | [] => mret tt
  | f :: fns => note (Call f) ;! notes fns
  end.

Definition when (b : bool) (m : M XactState unit) : M XactState unit := if b then m else mret tt.

Definition cur_block_state : M XactState TBlockState := let! s := mget in mret (block_state (current s)).
Definition cur_state : M XactState TransState := let! s := mget in mret (state (current s)).
Definition put_current (f : TransactionNode -> TransactionNode) : M XactState unit := mput (on_current f).
Definition become (b : TBlockState) : M XactState unit := put_current (set_block_state b).

(** The warning of the routines that expect to be in another state. *)
Definition warn_state (function : string) : M XactState unit :=
  let! t := cur_state in warn (function +:+ " while in " +:+ TransStateAsString t +:+ " state").

Section Engine.
Variable env : XactEnv.

(** A call into another component.  It is recorded whether it succeeds or fails: a
    failed call may have done part of its work, and what is said about the record
    is said about calls made.  A failed call ends the operation, so whatever is
    recorded after it comes from the error handling. *)
Definition call (e : Event) : M XactState unit :=
  fun s => (ext env e (events s), log_event e s).
Fixpoint calls (fns : list string) : M XactState unit :=
  match fns with
  | [] => mret tt
  | f :: fns => call (Call f) ;! calls fns
  end.

(** The result of a block whose error is looked at later. *)
Definition finally {A} (m : M XactState A) : M XactState (result A) :=
  fun s => let '(r, s') := m s in
           match r with Panic => (Panic, s') | _ => (Ok r, s') end.

Definition asking {A} (f : list Event -> result A) : M XactState A := let! s := mget in mlift (f (events s)).

(** [try_reserve], with its error. *)
Definition try_reserve (msg : string) : M XactState unit :=
  let! s := mget in if reserve env (events s) then mret tt else raise ERROR ERRCODE_INTERNAL_ERROR msg.

(** ** Ids, commands, parallel mode: [lib.rs] *)

Definition IsInParallelMode (s : XactState) : bool :=
  negb (parallel_mode_level (current s) =? 0) || parallel_child_xact (current s).

Definition EnterParallelMode : M XactState unit :=
  put_current (fun n => set_parallel_mode_level (parallel_mode_level n + 1) n).
Definition ExitParallelMode : M XactState unit :=
  put_current (fun n => set_parallel_mode_level (parallel_mode_level n - 1) n).

Definition IsTransactionState (s : XactState) : bool := bool_decide (state (current s) = TRANS_INPROGRESS).
Definition IsAbortedTransactionBlockState (s : XactState) : bool :=
  match block_state (current s) with TBLOCK_ABORT | TBLOCK_SUBABORT => true | _ => false end.

Definition GetTopTransactionIdIfAny (s : XactState) : Z := FullTransactionId.xid (top_full_xid s).
Definition GetCurrentTransactionIdIfAny (s : XactState) : Z := FullTransactionId.xid (full_transaction_id (current s)).

Definition PGPROC_MAX_CACHED_SUBXIDS : nat := 64.

(** Everything [AssignTransactionId] does for node [idx] once its parents have ids. *)
Definition assign_one (idx : nat) : M XactState unit :=
  let is_subxact := negb (Nat.eqb idx 0) in
  let! s := mget in
  let log_unknown_top := is_subxact && xlog_logical_info_active env && negb (did_log_xid (node 0 s)) in
  let! full := asking (new_xid env is_subxact) in
  note (GetNewTransactionId full) ;!
  mput (on_node idx (set_full_transaction_id full)) ;!
  when (negb is_subxact) (mput (set_top_full_xid full)) ;!
  let! s := mget in
  (if is_subxact
   then call (SubTransSetParent (FullTransactionId.xid full) (FullTransactionId.xid (full_transaction_id (node (idx - 1) s))))
   else call (Call "RegisterPredicateLockingXid")) ;!
  call (Call "XactLockTableInsert") ;!
  when (is_subxact && xlog_standby_info_active env)
    (try_reserve "out of memory tracking unreported subtransaction IDs" ;!
     mput (fun s => set_unreported_xids (unreported_xids s ++ [FullTransactionId.xid full]) s) ;!
     let! s := mget in
     when ((PGPROC_MAX_CACHED_SUBXIDS <=? length (unreported_xids s))%nat || log_unknown_top)
       (try_reserve "out of memory building xid-assignment record" ;!
        call (Call "XLogInsert(XLOG_XACT_ASSIGNMENT)") ;!
        mput (set_unreported_xids []) ;! mput (on_node 0 (set_did_log_xid true)))).

(** The ancestors without an id, the nearest first. *)
Fixpoint unassigned_parents (idx : nat) (s : XactState) : list nat :=
  match idx with
  | O => []
  | S p => if FullTransactionId.is_valid (full_transaction_id (node p s)) then [] else p :: unassigned_parents p s
  end.

Fixpoint miter {A} (f : A -> M XactState unit) (l : list A) : M XactState unit :=
  match l with
  | [] => mret tt
  | x :: l => f x ;! miter f l
  end.

(** The recursion ends at the first ancestor: its own parent has an id, or it is
    the top. *)
Fixpoint assign_transaction_id_at (fuel : nat) (idx : nat) : M XactState unit :=
  match fuel with
  | O => mlift Panic
  | S fuel =>
      let! s := mget in
      if IsInParallelMode s || is_parallel_worker env
      then raise ERROR ERRCODE_INVALID_TRANSACTION_STATE "cannot assign transaction IDs during a parallel operation"
      else
        let parents := unassigned_parents idx s in
        miter (fun _ => try_reserve "out of memory assigning transaction IDs") parents ;!
        miter (assign_transaction_id_at fuel) (reverse parents) ;!
        assign_one idx
  end.

Definition AssignTransactionId : M XactState unit :=
  let! s := mget in assign_transaction_id_at (stack_len s) (stack_len s - 1).

Definition GetCurrentTransactionId : M XactState Z :=
  let! s := mget in
  when (negb (FullTransactionId.is_valid (full_transaction_id (current s)))) AssignTransactionId ;!
  let! s := mget in mret (GetCurrentTransactionIdIfAny s).

Definition GetCurrentCommandId (used : bool) : M XactState Z :=
  (if used then
     if is_parallel_worker env then raise ERROR ERRCODE_INVALID_TRANSACTION_STATE "cannot modify data in a parallel worker"
     else mput (set_command_id_used true)
   else mret tt) ;! let! s := mget in mret (command_id s).

Definition CommandCounterIncrement : M XactState unit :=
  let! s := mget in
  if negb (command_id_used s) then mret tt
  else if IsInParallelMode s || is_parallel_worker env
  then raise ERROR ERRCODE_INVALID_TRANSACTION_STATE "cannot start commands during a parallel operation"
  else
    let next := wrap32 (command_id s + 1) in
    if next =? InvalidCommandId then raise ERROR ERRCODE_PROGRAM_LIMIT_EXCEEDED "cannot have more than 2^32-2 commands in a transaction"
    else
      mput (fun s => set_command_id_used false (set_command_id next s)) ;!
      note (Call "SnapshotSetCommandId") ;! calls ["AtCCI_RelationMap"; "CommandEndInvalidationMessages"].

(** *** Is this transaction ours? *)

(** The loop of [binary_search_xids]; [fuel] bounds the number of probes. *)
Fixpoint bsearch_xids (fuel : nat) (xids : list Z) (xid low high : Z) : bool :=
  match fuel with
  | O => false
  | S fuel =>
      if low <=? high then
        let middle := low + (high - low) / 2 in
        let probe := default 0 (xids !! Z.to_nat middle) in
        if probe =? xid then true
        else if TransactionIdPrecedes probe xid then bsearch_xids fuel xids xid (middle + 1) high
        else bsearch_xids fuel xids xid low (middle - 1)
      else false
  end.

Definition binary_search_xids (xids : list Z) (xid : Z) : bool :=
  bsearch_xids (S (length xids)) xids xid 0 (Z.of_nat (length xids) - 1).

Fixpoint xid_in_nodes (xid : Z) (ns : list TransactionNode) : bool :=
  match ns with
  | [] => false
  | n :: ns =>
      if bool_decide (state n = TRANS_ABORT) then xid_in_nodes xid ns
      else if negb (FullTransactionId.is_valid (full_transaction_id n)) then xid_in_nodes xid ns
      else if xid =? FullTransactionId.xid (full_transaction_id n) then true
      else if binary_search_xids (child_xids n) xid then true
      else xid_in_nodes xid ns
  end.

(** A parallel worker's list arrives sorted; [slice::binary_search] finds what is in it. *)
Definition TransactionIdIsCurrentTransactionId (xid : Z) (s : XactState) : bool :=
  if negb (TransactionIdIsNormal xid) then false
  else if xid =? GetTopTransactionIdIfAny s then true
  else
    match parallel_current_xids s with
    | _ :: _ => bool_decide (xid ∈ parallel_current_xids s)
    | [] => xid_in_nodes xid (nodes_rev s)
    end.

Definition SubTransactionIsActive (subxid : Z) (s : XactState) : bool :=
  existsb (fun n => negb (bool_decide (state n = TRANS_ABORT)) && (sub_transaction_id n =? subxid)) (nodes_rev s).

Definition MAX_ALLOC_SIZE : Z := 0x3fffffff.

(** The current subtransaction hands its id and its children to its parent. *)
Definition AtSubCommit_childXids : M XactState unit :=
  let! s := mget in
  let idx := (stack_len s - 1)%nat in
  let my_full := full_transaction_id (node idx s) in
  let my_children := child_xids (node idx s) in
  mput (on_node idx (set_child_xids [])) ;!
  let! s := mget in
  let new_n := Z.of_nat (length (child_xids (node (idx - 1) s))) + Z.of_nat (length my_children) + 1 in
  if MAX_ALLOC_SIZE / 4 <? new_n then raise ERROR ERRCODE_PROGRAM_LIMIT_EXCEEDED "maximum number of committed subtransactions (268435455) exceeded"
  else
    try_reserve "out of memory recording committed subtransactions" ;!
    mput (on_node (idx - 1) (fun n => set_child_xids (child_xids n ++ FullTransactionId.xid my_full :: my_children) n)).

Definition AtSubAbort_childXids : M XactState unit := put_current (set_child_xids []).

(** [IsTransactionBlock] and the guards of utility commands. *)
Definition IsTransactionBlock (s : XactState) : bool :=
  match block_state (current s) with TBLOCK_DEFAULT | TBLOCK_STARTED => false | _ => true end.
Definition IsSubTransaction (s : XactState) : bool := 2 <=? nesting_level (current s).
Definition IsTransactionOrTransactionBlock (s : XactState) : bool :=
  negb (bool_decide (block_state (current s) = TBLOCK_DEFAULT)).

Definition XACT_FLAGS_ACCESSEDTEMPNAMESPACE : Z := 1.
Definition XACT_FLAGS_NEEDIMMEDIATECOMMIT : Z := 4.
Definition XACT_FLAGS_PIPELINING : Z := 8.

Definition PreventInTransactionBlock (isTopLevel : bool) (stmtType : string) : M XactState unit :=
  let! s := mget in
  if IsTransactionBlock s then raise ERROR ERRCODE_ACTIVE_SQL_TRANSACTION (stmtType +:+ " cannot run inside a transaction block")
  else if IsSubTransaction s then raise ERROR ERRCODE_ACTIVE_SQL_TRANSACTION (stmtType +:+ " cannot run inside a subtransaction")
  else if negb isTopLevel then raise ERROR ERRCODE_ACTIVE_SQL_TRANSACTION (stmtType +:+ " cannot be executed from a function")
  else
    match block_state (current s) with
    | TBLOCK_DEFAULT | TBLOCK_STARTED =>
        mput (fun s => set_MyXactFlags (Z.lor (MyXactFlags s) XACT_FLAGS_NEEDIMMEDIATECOMMIT) s)
    | _ => raise FATAL ERRCODE_INTERNAL_ERROR "cannot prevent transaction chain"
    end.

Definition CheckTransactionBlock (isTopLevel throwError : bool) (stmtType : string) : M XactState unit :=
  let! s := mget in
  if IsTransactionBlock s then mret tt
  else if IsSubTransaction s then mret tt
  else if negb isTopLevel then mret tt
  else
    let msg := stmtType +:+ " can only be used in transaction blocks" in
    if throwError then raise ERROR ERRCODE_NO_ACTIVE_SQL_TRANSACTION msg else warn msg.

Definition IsInTransactionBlock (isTopLevel : bool) (s : XactState) : bool :=
  if IsTransactionBlock s then true
  else if IsSubTransaction s then true
  else if negb isTopLevel then true
  else match block_state (current s) with TBLOCK_DEFAULT | TBLOCK_STARTED => false | _ => true end.

(** What the client is told in [ReadyForQuery]: idle, in a block, failed. *)
Inductive StatusCode : Type := StatusI | StatusT | StatusE.
Definition TransactionBlockStatusCode (s : XactState) : StatusCode :=
  match block_state (current s) with
  | TBLOCK_DEFAULT | TBLOCK_STARTED => StatusI
  | TBLOCK_BEGIN | TBLOCK_SUBBEGIN | TBLOCK_INPROGRESS | TBLOCK_IMPLICIT_INPROGRESS | TBLOCK_PARALLEL_INPROGRESS
  | TBLOCK_SUBINPROGRESS | TBLOCK_END | TBLOCK_SUBRELEASE | TBLOCK_SUBCOMMIT | TBLOCK_PREPARE => StatusT
  | TBLOCK_ABORT | TBLOCK_SUBABORT | TBLOCK_ABORT_END | TBLOCK_SUBABORT_END | TBLOCK_ABORT_PENDING
  | TBLOCK_SUBABORT_PENDING | TBLOCK_SUBRESTART | TBLOCK_SUBABORT_RESTART => StatusE
  end.

(** ** The durable record of the outcome: [engine.rs] *)

(** Writes the commit record, forces it to disk if the commit is synchronous, and
    only then marks the transaction tree committed in [pg_xact]. *)
Definition RecordTransactionCommit : M XactState Z :=
  let! s := mget in
  let xid := GetTopTransactionIdIfAny s in
  let mark_xid_committed := negb (xid =? InvalidTransactionId) in
  when (xlog_logical_info_active env) (call (Call "LogLogicalInvalidations")) ;!
  let! rels := asking (pending_deletes env true) in
  try_reserve "out of memory copying committed subtransactions" ;!
  let children := child_xids (current s) in
  let! drops := asking (dropped_stats env true) in
  let! invals := (if xlog_standby_info_active env then asking (inval_msgs env) else mret false) in
  let! s := mget in
  let wrote_xlog := wrote_wal env (events s) in
  early
    (if negb mark_xid_committed then
       if rels || drops then raise ERROR ERRCODE_INTERNAL_ERROR "cannot commit a transaction that deleted files but has no xid"
       else
         when invals (call (Call "LogStandbyInvalidations")) ;!
         if negb (wrote_xlog || invals) then returning InvalidTransactionId else fall_through
     else
       notes ["StartCriticalSection"; "delayChkptFlags |= DELAY_CHKPT_START"] ;!
       call (XactLogCommitRecord xid children) ;!
       when (replorigin env) (call (Call "replorigin_session_advance")) ;!
       call (Call "TransactionTreeSetCommitTsData") ;!
       fall_through)
    (let! s := mget in
     let wrote_xlog := wrote_xlog || negb mark_xid_committed && invals in
     (if (wrote_xlog && mark_xid_committed && (SYNCHRONOUS_COMMIT_OFF <? synchronous_commit s))
         || force_sync_commit s || rels
      then call XLogFlush ;! when mark_xid_committed (call (TransactionIdCommitTree xid children))
      else note XLogSetAsyncXactLSN ;! when mark_xid_committed (call (TransactionIdAsyncCommitTree xid children))) ;!
     when mark_xid_committed (notes ["delayChkptFlags &= !DELAY_CHKPT_START"; "EndCriticalSection"]) ;!
     when (wrote_xlog && mark_xid_committed) (call (Call "SyncRepWaitForLSN")) ;!
     note (Call "XactLastRecEnd = 0") ;!
     mret (TransactionIdLatest xid children)).

Definition RecordTransactionAbort (is_subxact : bool) : M XactState Z :=
  let! s := mget in
  let xid := GetCurrentTransactionIdIfAny s in
  if xid =? InvalidTransactionId then
    when (negb is_subxact) (note (Call "XactLastRecEnd = 0")) ;! mret InvalidTransactionId
  else
    let! committed := asking (did_commit env xid) in
    if committed then raise PANIC ERRCODE_INTERNAL_ERROR "cannot abort transaction, it was already committed"
    else
      let! _ := asking (pending_deletes env false) in
      try_reserve "out of memory copying committed subtransactions" ;!
      let children := child_xids (current s) in
      let! _ := asking (dropped_stats env false) in
      note (Call "StartCriticalSection") ;!
      let! res := finally
        (call (XactLogAbortRecord xid children) ;!
         when (replorigin env) (call (Call "replorigin_session_advance")) ;!
         when (negb is_subxact) (note XLogSetAsyncXactLSN) ;!
         call (TransactionIdAbortTree xid children)) in
      note (Call "EndCriticalSection") ;!
      mlift res ;!
      when is_subxact (call (Call "XidCacheRemoveRunningXids")) ;!
      when (negb is_subxact) (note (Call "XactLastRecEnd = 0")) ;!
      mret (TransactionIdLatest xid children).

(** ** Top-level transactions *)

Definition release_transaction_owner_before_locks : M XactState unit := call (Call "ResourceOwnerRelease(BEFORE_LOCKS)").
Definition release_transaction_owner_locks (is_commit : bool) : M XactState unit :=
  call (ResourceOwnerReleaseLocks is_commit true) ;! call (Call "ResourceOwnerRelease(AFTER_LOCKS)").
Definition release_subxact_owner_before_locks : M XactState unit := call (Call "ResourceOwnerRelease(BEFORE_LOCKS)").
Definition release_subxact_owner_locks (is_commit : bool) : M XactState unit :=
  call (ResourceOwnerReleaseLocks is_commit false) ;! call (Call "ResourceOwnerRelease(AFTER_LOCKS)").

Definition StartTransaction : M XactState unit :=
  put_current (fun n => set_full_transaction_id InvalidFullTransactionId (set_state TRANS_START n)) ;!
  put_current (fun n => set_child_xids [] (set_guc_nest_level 1 (set_nesting_level 1 n))) ;!
  put_current (fun n => set_prev_sec_context (snd (user_and_context env)) (set_prev_user (fst (user_and_context env)) n)) ;!
  (if recovery_in_progress env
    then put_current (set_started_in_recovery true) ;! mput (set_XactReadOnly true)
    else put_current (set_started_in_recovery false) ;! mput (fun s => set_XactReadOnly (DefaultXactReadOnly s) s)) ;!
  mput (fun s => set_XactDeferrable (DefaultXactDeferrable s) s) ;!
  mput (fun s => set_XactIsoLevel (DefaultXactIsoLevel s) s) ;!
  mput (set_force_sync_commit false) ;!
  mput (set_MyXactFlags 0) ;!
  put_current (set_sub_transaction_id TopSubTransactionId) ;!
  mput (set_current_sub_transaction_id TopSubTransactionId) ;!
  mput (fun s => set_command_id_used false (set_command_id FirstCommandId s)) ;!
  mput (set_unreported_xids []) ;!
  put_current (set_did_log_xid false) ;!
  put_current (set_has_resource_owner true) ;!
  calls ["ResourceOwnerCreate(TopTransaction)"; "VirtualXactLockTableInsert"] ;!
  notes ["pgstat_report_xact_timestamp"; "AtStart_GUC"] ;!
  calls ["AcceptInvalidationMessages"; "AfterTriggerBeginXact"] ;!
  put_current (set_state TRANS_INPROGRESS).

(** Deferred triggers and held portals may keep making work for each other. *)
Fixpoint fire_deferred (rounds : nat) : M XactState unit :=
  calls ["AfterTriggerFireDeferred"; "PreCommit_Portals"] ;!
  match rounds with
  | O => mret tt
  | S rounds => fire_deferred rounds
  end.

(** The node is handed back as it is between transactions. *)
Definition forget_transaction : M XactState unit :=
  put_current (fun n => set_child_xids [] (set_guc_nest_level 0 (set_nesting_level 0
    (set_sub_transaction_id InvalidSubTransactionId (set_full_transaction_id InvalidFullTransactionId n))))) ;!
  mput (set_top_full_xid InvalidFullTransactionId) ;!
  mput (set_parallel_current_xids []) ;! put_current (set_state TRANS_DEFAULT).

Definition CommitTransaction : M XactState unit :=
  let! b := cur_block_state in
  let is_pw := bool_decide (b = TBLOCK_PARALLEL_INPROGRESS) in
  when is_pw EnterParallelMode ;!
  let! t := cur_state in
  when (negb (bool_decide (t = TRANS_INPROGRESS))) (warn_state "CommitTransaction") ;!
  fire_deferred (portal_rounds env) ;!
  calls ["CallXactCallbacks(PRE_COMMIT)"; "AtEOXact_Parallel"] ;!
  let! s := mget in
  let level := parallel_mode_level (current s) in
  when (if is_pw then negb (level =? 1) else negb (level =? 0)) (warn "parallelModeLevel at end of transaction") ;!
  calls ["AfterTriggerEndXact"; "PreCommit_on_commit_actions"; "smgrDoPendingSyncs"; "AtEOXact_LargeObject"; "PreCommit_Notify"] ;!
  when (negb is_pw) (call (Call "PreCommit_CheckForSerializationFailure")) ;!
  note (Call "HoldInterrupts") ;!
  call (Call "AtEOXact_RelationMap") ;!
  put_current (fun n => set_parallel_child_xact false (set_parallel_mode_level 0 (set_state TRANS_COMMIT n))) ;!
  let! latest_xid := (if negb is_pw then RecordTransactionCommit
                       else call (Call "ParallelWorkerReportLastRecEnd") ;! mret InvalidTransactionId) in
  call (ProcArrayEndTransaction latest_xid) ;!
  call (Call "CallXactCallbacks(COMMIT)") ;!
  release_transaction_owner_before_locks ;!
  notes ["AtEOXact_Aio"; "AtEOXact_Buffers"] ;!
  call (Call "AtEOXact_RelationCache") ;!
  note (Call "AtEOXact_TypeCache") ;!
  call (Call "AtEOXact_Inval") ;!
  note (Call "AtEOXact_MultiXact") ;!
  release_transaction_owner_locks true ;!
  calls ["smgrDoPendingDeletes"; "AtCommit_Notify"] ;!
  note (Call "AtEOXact_GUC") ;!
  call (Call "AtEOXact_SPI") ;!
  notes ["AtEOXact_Enum"; "AtEOXact_on_commit_actions"; "AtEOXact_Namespace"; "AtEOXact_SMgr"] ;!
  call (Call "AtEOXact_Files") ;!
  notes ["AtEOXact_ComboCid"; "AtEOXact_PgStat"] ;!
  call (Call "AtEOXact_Snapshot") ;!
  notes ["AtEOXact_ApplyLauncher"; "AtEOXact_LogicalRepWorkers"; "ResourceOwnerDelete"] ;!
  put_current (set_has_resource_owner false) ;!
  forget_transaction ;! note (Call "ResumeInterrupts").

(** Only a failed transaction is cleaned up. *)
Definition CleanupTransaction : M XactState unit :=
  let! t := cur_state in
  if negb (bool_decide (t = TRANS_ABORT)) then raise FATAL ERRCODE_INTERNAL_ERROR ("CleanupTransaction: unexpected state " +:+ TransStateAsString t)
  else
    calls ["AtCleanup_Portals"; "AtEOXact_Snapshot"] ;!
    note (Call "ResourceOwnerDelete") ;!
    put_current (set_has_resource_owner false) ;!
    put_current (fun n => set_parallel_child_xact false (set_parallel_mode_level 0 n)) ;!
    forget_transaction.

Definition AbortTransaction : M XactState unit :=
  notes ["HoldInterrupts"; "LWLockReleaseAll"; "pgaio_error_cleanup"; "UnlockBuffers"; "XLogResetInsertion";
         "ConditionVariableCancelSleep"] ;!
  call (Call "LockErrorCleanup") ;!
  let! b := cur_block_state in
  let is_pw := bool_decide (b = TBLOCK_PARALLEL_INPROGRESS) in
  let! t := cur_state in
  when (negb (bool_decide (t = TRANS_INPROGRESS)) && negb (bool_decide (t = TRANS_PREPARE))) (warn_state "AbortTransaction") ;!
  put_current (set_state TRANS_ABORT) ;!
  notes ["SetUserIdAndSecContext"; "ResetReindexState"; "ResetLogicalStreamingState"; "SnapBuildResetExportedSnapshotState"] ;!
  call (Call "AtEOXact_Parallel") ;!
  put_current (fun n => set_parallel_child_xact false (set_parallel_mode_level 0 n)) ;!
  calls ["AfterTriggerEndXact"; "AtAbort_Portals"; "smgrDoPendingSyncs"; "AtEOXact_LargeObject"] ;!
  note (Call "AtAbort_Notify") ;!
  call (Call "AtEOXact_RelationMap") ;!
  note (Call "AtAbort_Twophase") ;!
  let! latest_xid := (if negb is_pw then RecordTransactionAbort false
                       else note XLogSetAsyncXactLSN ;! mret InvalidTransactionId) in
  call (ProcArrayEndTransaction latest_xid) ;!
  (let! s := mget in
   when (has_resource_owner (current s))
     (call (Call "CallXactCallbacks(ABORT)") ;!
      release_transaction_owner_before_locks ;!
      notes ["AtEOXact_Aio"; "AtEOXact_Buffers"] ;!
      call (Call "AtEOXact_RelationCache") ;!
      note (Call "AtEOXact_TypeCache") ;!
      call (Call "AtEOXact_Inval") ;!
      note (Call "AtEOXact_MultiXact") ;!
      release_transaction_owner_locks false ;!
      call (Call "smgrDoPendingDeletes") ;!
      note (Call "AtEOXact_GUC") ;!
      call (Call "AtEOXact_SPI") ;!
      notes ["AtEOXact_Enum"; "AtEOXact_on_commit_actions"; "AtEOXact_Namespace"; "AtEOXact_SMgr"] ;!
      call (Call "AtEOXact_Files") ;!
      notes ["AtEOXact_ComboCid"; "AtEOXact_PgStat"; "AtEOXact_ApplyLauncher";
             "AtEOXact_LogicalRepWorkers"])) ;!
  note (Call "ResumeInterrupts").

Definition PrepareTransaction : M XactState unit :=
  let! xid := GetCurrentTransactionId in
  let! t := cur_state in
  when (negb (bool_decide (t = TRANS_INPROGRESS))) (warn_state "PrepareTransaction") ;!
  fire_deferred (portal_rounds env) ;!
  calls ["CallXactCallbacks(PRE_PREPARE)"; "AfterTriggerEndXact"; "PreCommit_on_commit_actions"; "smgrDoPendingSyncs";
         "AtEOXact_LargeObject"; "PreCommit_CheckForSerializationFailure"] ;!
  let! s := mget in
  if has (MyXactFlags s) XACT_FLAGS_ACCESSEDTEMPNAMESPACE
  then raise ERROR ERRCODE_FEATURE_NOT_SUPPORTED "cannot PREPARE a transaction that has operated on temporary objects"
  else if has_exported_snapshots env
  then raise ERROR ERRCODE_FEATURE_NOT_SUPPORTED "cannot PREPARE a transaction that has exported snapshots"
  else
    note (Call "HoldInterrupts") ;!
    put_current (set_state TRANS_PREPARE) ;!
    mput (set_prepare_gid None) ;!
    match prepare_gid s with
    | None => raise ERROR ERRCODE_INTERNAL_ERROR "PrepareTransaction: no prepared-transaction GID set"
    | Some _ =>
        call (Call "MarkAsPreparing") ;!
        let! _ := asking (pending_deletes env true) in
        let! _ := asking (pending_deletes env false) in
        try_reserve "out of memory copying committed subtransactions" ;!
        let! s := mget in
        let children := child_xids (current s) in
        let! _ := asking (dropped_stats env true) in
        let! _ := asking (dropped_stats env false) in
        let! _ := asking (inval_msgs env) in
        calls ["StartPrepare"; "AtPrepare_Notify"; "AtPrepare_Locks"; "AtPrepare_PredicateLocks"; "AtPrepare_PgStat";
               "AtPrepare_MultiXact"; "AtPrepare_RelationMap"] ;!
        call (EndPrepare xid children) ;!
        note (Call "XactLastRecEnd = 0") ;!
        calls ["PostPrepare_Locks"; "ProcArrayClearTransaction"; "CallXactCallbacks(PREPARE)"] ;!
        release_transaction_owner_before_locks ;!
        notes ["AtEOXact_Aio"; "AtEOXact_Buffers"] ;!
        call (Call "AtEOXact_RelationCache") ;!
        notes ["AtEOXact_TypeCache"; "PostPrepare_PgStat"] ;!
        call (Call "PostPrepare_Inval") ;!
        notes ["PostPrepare_smgr"; "PostPrepare_MultiXact"] ;!
        call (Call "PostPrepare_PredicateLocks") ;!
        release_transaction_owner_locks true ;!
        notes ["PostPrepare_Twophase"; "AtEOXact_GUC"] ;!
        call (Call "AtEOXact_SPI") ;!
        notes ["AtEOXact_Enum"; "AtEOXact_on_commit_actions"; "AtEOXact_Namespace"; "AtEOXact_SMgr"] ;!
        call (Call "AtEOXact_Files") ;!
        note (Call "AtEOXact_ComboCid") ;!
        call (Call "AtEOXact_Snapshot") ;!
        notes ["AtEOXact_ApplyLauncher"; "AtEOXact_LogicalRepWorkers"; "ResourceOwnerDelete"] ;!
        put_current (set_has_resource_owner false) ;!
        forget_transaction ;!
        note (Call "ResumeInterrupts")
    end.

(** ** Subtransactions *)

Definition PushTransaction : M XactState unit :=
  let! s := mget in
  let subid := wrap32 (current_sub_transaction_id s + 1) in
  if subid =? InvalidSubTransactionId
  then raise ERROR ERRCODE_PROGRAM_LIMIT_EXCEEDED "cannot have more than 2^32-1 subtransactions in a transaction"
  else
    mput (set_current_sub_transaction_id subid) ;!
    try_reserve "out of memory pushing transaction state" ;!
    mput (fun s =>
      let parent := current s in
      try_push_node {|
        full_transaction_id := InvalidFullTransactionId; sub_transaction_id := subid; name := None;
        savepoint_level := savepoint_level parent; state := TRANS_DEFAULT; block_state := TBLOCK_SUBBEGIN;
        nesting_level := nesting_level parent + 1; guc_nest_level := NewGUCNestLevel env; child_xids := [];
        prev_user := fst (user_and_context env); prev_sec_context := snd (user_and_context env);
        prev_xact_read_only := XactReadOnly s; started_in_recovery := started_in_recovery parent; did_log_xid := false;
        parallel_mode_level := 0;
        parallel_child_xact := negb (parallel_mode_level parent =? 0) || parallel_child_xact parent;
        chain := false; top_xid_logged := false; has_resource_owner := false |} s).

Definition PopTransaction : M XactState unit :=
  let! t := cur_state in
  when (negb (bool_decide (t = TRANS_DEFAULT))) (warn_state "PopTransaction") ;!
  let! s := mget in
  if is_subxact s then mput pop_node else raise FATAL ERRCODE_INTERNAL_ERROR "PopTransaction with no parent".

Definition StartSubTransaction : M XactState unit :=
  let! t := cur_state in
  when (negb (bool_decide (t = TRANS_DEFAULT))) (warn_state "StartSubTransaction") ;!
  put_current (set_state TRANS_START) ;!
  put_current (set_has_resource_owner true) ;!
  calls ["ResourceOwnerCreate(SubTransaction)"; "AfterTriggerBeginSubXact"] ;!
  put_current (set_state TRANS_INPROGRESS) ;!
  call (Call "CallSubXactCallbacks(START_SUB)").

Definition CommitSubTransaction : M XactState unit :=
  let! t := cur_state in
  when (negb (bool_decide (t = TRANS_INPROGRESS))) (warn_state "CommitSubTransaction") ;!
  calls ["CallSubXactCallbacks(PRE_COMMIT_SUB)"; "AtEOSubXact_Parallel"] ;!
  let! s := mget in
  when (negb (parallel_mode_level (current s) =? 0))
    (warn "parallelModeLevel at end of subtransaction" ;! put_current (set_parallel_mode_level 0)) ;!
  put_current (set_state TRANS_COMMIT) ;!
  CommandCounterIncrement ;!
  let! s := mget in
  when (FullTransactionId.is_valid (full_transaction_id (current s))) AtSubCommit_childXids ;!
  call (Call "AfterTriggerEndSubXact") ;!
  note (Call "AtSubCommit_Portals") ;!
  calls ["AtEOSubXact_LargeObject"; "AtSubCommit_Notify"; "CallSubXactCallbacks(COMMIT_SUB)"] ;!
  release_subxact_owner_before_locks ;!
  call (Call "AtEOSubXact_RelationCache") ;!
  note (Call "AtEOSubXact_TypeCache") ;!
  call (Call "AtEOSubXact_Inval") ;!
  note (Call "AtSubCommit_smgr") ;!
  let! s := mget in
  when (FullTransactionId.is_valid (full_transaction_id (current s))) (call (Call "XactLockTableDelete")) ;!
  release_subxact_owner_locks true ;!
  note (Call "AtEOXact_GUC") ;!
  call (Call "AtEOSubXact_SPI") ;!
  notes ["AtEOSubXact_on_commit_actions"; "AtEOSubXact_Namespace"; "AtEOSubXact_Files"; "AtEOSubXact_PgStat";
         "AtSubCommit_Snapshot"] ;!
  mput (fun s => set_XactReadOnly (prev_xact_read_only (current s)) s) ;!
  note (Call "ResourceOwnerDelete") ;!
  put_current (set_has_resource_owner false) ;!
  call (Call "AtSubCommit_Memory") ;!
  put_current (set_state TRANS_DEFAULT) ;!
  PopTransaction.

Definition AbortSubTransaction : M XactState unit :=
  notes ["HoldInterrupts"; "LWLockReleaseAll"; "pgaio_error_cleanup"; "UnlockBuffers"; "XLogResetInsertion";
         "ConditionVariableCancelSleep"] ;!
  call (Call "LockErrorCleanup") ;!
  let! t := cur_state in
  when (negb (bool_decide (t = TRANS_INPROGRESS))) (warn_state "AbortSubTransaction") ;!
  put_current (set_state TRANS_ABORT) ;!
  notes ["SetUserIdAndSecContext"; "ResetReindexState"; "ResetLogicalStreamingState"] ;!
  call (Call "AtEOSubXact_Parallel") ;!
  put_current (set_parallel_mode_level 0) ;!
  let! s := mget in
  when (has_resource_owner (current s))
    (calls ["AfterTriggerEndSubXact"; "AtSubAbort_Portals"; "AtEOSubXact_LargeObject"] ;!
     note (Call "AtSubAbort_Notify") ;!
     RecordTransactionAbort true ;!
     let! s := mget in
     when (FullTransactionId.is_valid (full_transaction_id (current s))) AtSubAbort_childXids ;!
     call (Call "CallSubXactCallbacks(ABORT_SUB)") ;!
     release_subxact_owner_before_locks ;!
     note (Call "AtEOXact_Aio") ;!
     call (Call "AtEOSubXact_RelationCache") ;!
     note (Call "AtEOSubXact_TypeCache") ;!
     call (Call "AtEOSubXact_Inval") ;!
     release_subxact_owner_locks false ;!
     call (Call "AtSubAbort_smgr") ;!
     note (Call "AtEOXact_GUC") ;!
     call (Call "AtEOSubXact_SPI") ;!
     notes ["AtEOSubXact_on_commit_actions"; "AtEOSubXact_Namespace"; "AtEOSubXact_Files"; "AtEOSubXact_PgStat"] ;!
     call (Call "AtSubAbort_Snapshot")) ;!
  mput (fun s => set_XactReadOnly (prev_xact_read_only (current s)) s) ;!
  note (Call "ResumeInterrupts").

Definition CleanupSubTransaction : M XactState unit :=
  let! t := cur_state in
  when (negb (bool_decide (t = TRANS_ABORT))) (warn_state "CleanupSubTransaction") ;!
  call (Call "AtSubCleanup_Portals") ;!
  let! s := mget in
  when (has_resource_owner (current s)) (note (Call "ResourceOwnerDelete")) ;!
  put_current (set_has_resource_owner false) ;!
  put_current (set_state TRANS_DEFAULT) ;!
  PopTransaction.

(** ** Blocks *)

Definition StartTransactionCommand : M XactState unit :=
  let! b := cur_block_state in
  match b with
  | TBLOCK_DEFAULT => StartTransaction ;! become TBLOCK_STARTED
  | TBLOCK_INPROGRESS | TBLOCK_IMPLICIT_INPROGRESS | TBLOCK_SUBINPROGRESS => mret tt
  | TBLOCK_ABORT | TBLOCK_SUBABORT => mret tt
  | other => raise ERROR ERRCODE_INTERNAL_ERROR ("StartTransactionCommand: unexpected state " +:+ BlockStateAsString other)
  end.

Definition DefineSavepoint (nm : option string) : M XactState unit :=
  let! s := mget in
  if IsInParallelMode s || is_parallel_worker env
  then raise ERROR ERRCODE_INVALID_TRANSACTION_STATE "cannot define savepoints during a parallel operation"
  else
    match block_state (current s) with
    | TBLOCK_INPROGRESS | TBLOCK_SUBINPROGRESS =>
        PushTransaction ;!
        match nm with
        | Some nm => try_reserve "out of memory saving savepoint name" ;! put_current (set_name (Some nm))
        | None => mret tt
        end
    | TBLOCK_IMPLICIT_INPROGRESS => raise ERROR ERRCODE_NO_ACTIVE_SQL_TRANSACTION "SAVEPOINT can only be used in transaction blocks"
    | other => unexpected_block_state "DefineSavepoint" other
    end.

(** What a chained transaction inherits. *)
Definition RestoreTransactionCharacteristics (saved : XactState) : M XactState unit :=
  mput (fun s => set_XactDeferrable (XactDeferrable saved) (set_XactReadOnly (XactReadOnly saved)
                   (set_XactIsoLevel (XactIsoLevel saved) s))).

(** [COMMIT AND CHAIN], [ROLLBACK AND CHAIN]: a new transaction, in a block at once. *)
Definition start_chained (saved : XactState) : M XactState unit :=
  let! s := mget in
  when (chain (current s))
    (StartTransaction ;!
     put_current (fun n => set_chain false (set_block_state TBLOCK_INPROGRESS n)) ;!
     RestoreTransactionCharacteristics saved).

(** [loop \{ CommitSubTransaction()?; if cur_block_state() != b \{ break; \} \}]; every
    round pops a node. *)
Fixpoint commit_subs (fuel : nat) (b : TBlockState) : M XactState unit :=
  match fuel with
  | O => mlift Panic
  | S fuel =>
      CommitSubTransaction ;!
      let! b' := cur_block_state in
      if bool_decide (b' = b) then commit_subs fuel b else mret tt
  end.

(** The savepoint is set up again under its name. *)
Definition restart_savepoint (nm : option string) (lvl : Z) : M XactState unit :=
  CleanupSubTransaction ;!
  DefineSavepoint None ;!
  put_current (fun n => set_savepoint_level lvl (set_name nm n)) ;!
  StartSubTransaction ;!
  become TBLOCK_SUBINPROGRESS.

(** One iteration; [false] asks for another. *)
Definition CommitTransactionCommandInternal : M XactState bool :=
  let! s := mget in
  let savetc := s in
  match block_state (current s) with
  | TBLOCK_DEFAULT | TBLOCK_PARALLEL_INPROGRESS =>
      raise FATAL ERRCODE_INTERNAL_ERROR ("CommitTransactionCommand: unexpected state " +:+ BlockStateAsString (block_state (current s)))
  | TBLOCK_STARTED => CommitTransaction ;! become TBLOCK_DEFAULT ;! mret true
  | TBLOCK_BEGIN => become TBLOCK_INPROGRESS ;! mret true
  | TBLOCK_INPROGRESS | TBLOCK_IMPLICIT_INPROGRESS | TBLOCK_SUBINPROGRESS => CommandCounterIncrement ;! mret true
  | TBLOCK_END => CommitTransaction ;! become TBLOCK_DEFAULT ;! start_chained savetc ;! mret true
  | TBLOCK_ABORT | TBLOCK_SUBABORT => mret true
  | TBLOCK_ABORT_END => CleanupTransaction ;! become TBLOCK_DEFAULT ;! start_chained savetc ;! mret true
  | TBLOCK_ABORT_PENDING =>
      AbortTransaction ;! CleanupTransaction ;! become TBLOCK_DEFAULT ;! start_chained savetc ;! mret true
  | TBLOCK_PREPARE => PrepareTransaction ;! become TBLOCK_DEFAULT ;! mret true
  | TBLOCK_SUBBEGIN => StartSubTransaction ;! become TBLOCK_SUBINPROGRESS ;! mret true
  | TBLOCK_SUBRELEASE => commit_subs (stack_len s) TBLOCK_SUBRELEASE ;! mret true
  | TBLOCK_SUBCOMMIT =>
      commit_subs (stack_len s) TBLOCK_SUBCOMMIT ;!
      let! b := cur_block_state in
      match b with
      | TBLOCK_END => CommitTransaction ;! become TBLOCK_DEFAULT ;! start_chained savetc ;! mret true
      | TBLOCK_PREPARE => PrepareTransaction ;! become TBLOCK_DEFAULT ;! mret true
      | other => raise ERROR ERRCODE_INTERNAL_ERROR ("CommitTransactionCommand: unexpected state " +:+ BlockStateAsString other)
      end
  | TBLOCK_SUBABORT_END => CleanupSubTransaction ;! mret false
  | TBLOCK_SUBABORT_PENDING => AbortSubTransaction ;! CleanupSubTransaction ;! mret false
  | TBLOCK_SUBRESTART =>
      put_current (set_name None) ;!
      AbortSubTransaction ;!
      restart_savepoint (name (current s)) (savepoint_level (current s)) ;! mret true
  | TBLOCK_SUBABORT_RESTART =>
      put_current (set_name None) ;!
      restart_savepoint (name (current s)) (savepoint_level (current s)) ;! mret true
  end.

(** [while !Internal()? \{\}] *)
Fixpoint until_true (fuel : nat) (m : M XactState bool) : M XactState unit :=
  match fuel with
  | O => mlift Panic
  | S fuel => let! done := m in if done then mret tt else until_true fuel m
  end.

(** Every further iteration works on a shorter stack. *)
Definition CommitTransactionCommand : M XactState unit :=
  let! s := mget in until_true (stack_len s) CommitTransactionCommandInternal.

Definition AbortCurrentTransactionInternal : M XactState bool :=
  let! b := cur_block_state in
  match b with
  | TBLOCK_DEFAULT =>
      let! t := cur_state in
      (if bool_decide (t = TRANS_DEFAULT) then mret tt
       else
         when (bool_decide (t = TRANS_START)) (put_current (set_state TRANS_INPROGRESS)) ;!
         AbortTransaction ;! CleanupTransaction) ;! mret true
  | TBLOCK_STARTED | TBLOCK_IMPLICIT_INPROGRESS | TBLOCK_BEGIN | TBLOCK_END | TBLOCK_ABORT_PENDING | TBLOCK_PREPARE =>
      AbortTransaction ;! CleanupTransaction ;! become TBLOCK_DEFAULT ;! mret true
  | TBLOCK_INPROGRESS | TBLOCK_PARALLEL_INPROGRESS => AbortTransaction ;! become TBLOCK_ABORT ;! mret true
  | TBLOCK_ABORT | TBLOCK_SUBABORT => mret true
  | TBLOCK_ABORT_END => CleanupTransaction ;! become TBLOCK_DEFAULT ;! mret true
  | TBLOCK_SUBINPROGRESS => AbortSubTransaction ;! become TBLOCK_SUBABORT ;! mret true
  | TBLOCK_SUBBEGIN | TBLOCK_SUBRELEASE | TBLOCK_SUBCOMMIT | TBLOCK_SUBABORT_PENDING | TBLOCK_SUBRESTART =>
      AbortSubTransaction ;! CleanupSubTransaction ;! mret false
  | TBLOCK_SUBABORT_END | TBLOCK_SUBABORT_RESTART => CleanupSubTransaction ;! mret false
  end.

Definition AbortCurrentTransaction : M XactState unit :=
  let! s := mget in until_true (stack_len s) AbortCurrentTransactionInternal.

Definition BeginTransactionBlock : M XactState unit :=
  let! b := cur_block_state in
  match b with
  | TBLOCK_STARTED | TBLOCK_IMPLICIT_INPROGRESS => become TBLOCK_BEGIN
  | TBLOCK_INPROGRESS | TBLOCK_PARALLEL_INPROGRESS | TBLOCK_SUBINPROGRESS | TBLOCK_ABORT | TBLOCK_SUBABORT =>
      warn "there is already a transaction in progress"
  | other => unexpected_block_state "BeginTransactionBlock" other
  end.

(** The subtransactions, innermost first, change their block state by [f] until it
    gives none; then the top does.  [Some b] is the state that was not expected. *)
Fixpoint mark_subs (f : TBlockState -> option TBlockState) (ns : list TransactionNode)
    : list TransactionNode * option TBlockState :=
  match ns with
  | [] => ([], None)
  | n :: ns =>
      match f (block_state n) with
      | Some b => let '(ns', bad) := mark_subs f ns in (set_block_state b n :: ns', bad)
      | None => (n :: ns, Some (block_state n))
      end
  end.

Definition mark_stack (f ft : TBlockState -> option TBlockState) : M XactState (option TBlockState) :=
  let! s := mget in
  let '(ns, bad) := mark_subs f (subs s) in
  mput (set_subs ns) ;!
  match bad with
  | Some b => mret (Some b)
  | None =>
      match ft (block_state (top s)) with
      | Some b => mput (fun s => set_top (set_block_state b (top s)) s) ;! mret None
      | None => mret (Some (block_state (top s)))
      end
  end.

(** COMMIT inside subtransactions. *)
Definition commit_sub (b : TBlockState) : option TBlockState :=
  match b with TBLOCK_SUBINPROGRESS => Some TBLOCK_SUBCOMMIT | _ => None end.
Definition commit_top (b : TBlockState) : option TBlockState :=
  match b with TBLOCK_INPROGRESS => Some TBLOCK_END | _ => None end.

(** ROLLBACK inside subtransactions. *)
Definition abort_sub (b : TBlockState) : option TBlockState :=
  match b with
  | TBLOCK_SUBINPROGRESS => Some TBLOCK_SUBABORT_PENDING
  | TBLOCK_SUBABORT => Some TBLOCK_SUBABORT_END
  | _ => None
  end.
Definition abort_top (b : TBlockState) : option TBlockState :=
  match b with
  | TBLOCK_INPROGRESS => Some TBLOCK_ABORT_PENDING
  | TBLOCK_ABORT => Some TBLOCK_ABORT_END
  | _ => None
  end.

Definition EndTransactionBlock (chn : bool) : M XactState bool :=
  let! b := cur_block_state in
  let! result :=
    match b with
    | TBLOCK_INPROGRESS => become TBLOCK_END ;! mret true
    | TBLOCK_IMPLICIT_INPROGRESS =>
        if chn then raise ERROR ERRCODE_NO_ACTIVE_SQL_TRANSACTION "COMMIT AND CHAIN can only be used in transaction blocks"
        else warn "there is no transaction in progress" ;! become TBLOCK_END ;! mret true
    | TBLOCK_ABORT => become TBLOCK_ABORT_END ;! mret false
    | TBLOCK_SUBINPROGRESS =>
        let! bad := mark_stack commit_sub commit_top in
        match bad with
        | Some bs => unexpected_block_state "EndTransactionBlock" bs
        | None => mret true
        end
    | TBLOCK_SUBABORT =>
        let! bad := mark_stack abort_sub abort_top in
        match bad with
        | Some bs => unexpected_block_state "EndTransactionBlock" bs
        | None => mret false
        end
    | TBLOCK_STARTED =>
        if chn then raise ERROR ERRCODE_NO_ACTIVE_SQL_TRANSACTION "COMMIT AND CHAIN can only be used in transaction blocks"
        else warn "there is no transaction in progress" ;! mret true
    | TBLOCK_PARALLEL_INPROGRESS => raise FATAL ERRCODE_INVALID_TRANSACTION_STATE "cannot commit during a parallel operation"
    | other => unexpected_block_state "EndTransactionBlock" other
    end in
  mput (on_node 0 (set_chain chn)) ;!
  mret result.

Definition UserAbortTransactionBlock (chn : bool) : M XactState unit :=
  let! b := cur_block_state in
  match b with
  | TBLOCK_INPROGRESS => become TBLOCK_ABORT_PENDING
  | TBLOCK_ABORT => become TBLOCK_ABORT_END
  | TBLOCK_SUBINPROGRESS | TBLOCK_SUBABORT =>
      let! bad := mark_stack abort_sub abort_top in
      match bad with
      | Some bs => unexpected_block_state "UserAbortTransactionBlock" bs
      | None => mret tt
      end
  | TBLOCK_STARTED | TBLOCK_IMPLICIT_INPROGRESS =>
      if chn then raise ERROR ERRCODE_NO_ACTIVE_SQL_TRANSACTION "ROLLBACK AND CHAIN can only be used in transaction blocks"
      else warn "there is no transaction in progress" ;! become TBLOCK_ABORT_PENDING
  | TBLOCK_PARALLEL_INPROGRESS => raise FATAL ERRCODE_INVALID_TRANSACTION_STATE "cannot abort during a parallel operation"
  | other => unexpected_block_state "UserAbortTransactionBlock" other
  end ;!
  mput (on_node 0 (set_chain chn)).

Definition PrepareTransactionBlock (gid : string) : M XactState bool :=
  let! result := EndTransactionBlock false in
  if result then
    let! s := mget in
    if bool_decide (block_state (node 0 s) = TBLOCK_END) then
      try_reserve "out of memory saving prepared-transaction GID" ;!
      mput (fun s => on_node 0 (set_block_state TBLOCK_PREPARE) (set_prepare_gid (Some gid) s)) ;!
      mret true
    else mret false
  else mret false.

Definition BeginImplicitTransactionBlock : M XactState unit :=
  let! b := cur_block_state in when (bool_decide (b = TBLOCK_STARTED)) (become TBLOCK_IMPLICIT_INPROGRESS).
Definition EndImplicitTransactionBlock : M XactState unit :=
  let! b := cur_block_state in when (bool_decide (b = TBLOCK_IMPLICIT_INPROGRESS)) (become TBLOCK_STARTED).

(** ** Savepoints *)

Definition has_name (nm : string) (n : TransactionNode) : bool := bool_decide (name n = Some nm).

(** [savepoint "nm" does not exist]; the text after the quotes is [what]. *)
Definition savepoint_msg (nm what : string) : string :=
  let quote := String (Ascii.ascii_of_nat 34) EmptyString in "savepoint " +:+ quote +:+ nm +:+ quote +:+ what.

Definition find_savepoint (nm : string) : M XactState nat :=
  let! s := mget in
  match rposition_node (has_name nm) s with
  | None => raise ERROR ERRCODE_S_E_INVALID_SPECIFICATION (savepoint_msg nm " does not exist")
  | Some t =>
      if savepoint_level (node t s) =? savepoint_level (current s) then mret t
      else raise ERROR ERRCODE_S_E_INVALID_SPECIFICATION (savepoint_msg nm " does not exist within current savepoint level")
  end.

(** The nodes from the current one down to index [target] get block state [b]. *)
Definition mark_down_to (target : nat) (b : TBlockState) (s : XactState) : XactState :=
  let k := (stack_len s - target)%nat in
  let s := set_subs (map (set_block_state b) (take k (subs s)) ++ drop k (subs s)) s in
  match target with
  | O => set_top (set_block_state b (top s)) s
  | S _ => s
  end.

Definition ReleaseSavepoint (nm : string) : M XactState unit :=
  let! s := mget in
  if IsInParallelMode s || is_parallel_worker env
  then raise ERROR ERRCODE_INVALID_TRANSACTION_STATE "cannot release savepoints during a parallel operation"
  else
    match block_state (current s) with
    | TBLOCK_INPROGRESS => raise ERROR ERRCODE_S_E_INVALID_SPECIFICATION (savepoint_msg nm " does not exist")
    | TBLOCK_IMPLICIT_INPROGRESS => raise ERROR ERRCODE_NO_ACTIVE_SQL_TRANSACTION "RELEASE SAVEPOINT can only be used in transaction blocks"
    | TBLOCK_SUBINPROGRESS =>
        let! target := find_savepoint nm in mput (mark_down_to target TBLOCK_SUBRELEASE)
    | other => unexpected_block_state "ReleaseSavepoint" other
    end.

Definition restart_sub (b : TBlockState) : option TBlockState :=
  match b with
  | TBLOCK_SUBINPROGRESS => Some TBLOCK_SUBRESTART
  | TBLOCK_SUBABORT => Some TBLOCK_SUBABORT_RESTART
  | _ => None
  end.

(** The subtransactions inside of the target are to be aborted, the target restarted. *)
Definition mark_rollback_to (target : nat) : M XactState unit :=
  let! s := mget in
  let k := (stack_len s - 1 - target)%nat in
  let '(ns, bad) := mark_subs abort_sub (take k (subs s)) in
  mput (set_subs (ns ++ drop k (subs s))) ;!
  match bad with
  | Some bs => unexpected_block_state "RollbackToSavepoint" bs
  | None =>
      match restart_sub (block_state (node target s)) with
      | Some b => mput (on_node target (set_block_state b))
      | None => unexpected_block_state "RollbackToSavepoint" (block_state (node target s))
      end
  end.

Definition RollbackToSavepoint (nm : string) : M XactState unit :=
  let! s := mget in
  if IsInParallelMode s || is_parallel_worker env
  then raise ERROR ERRCODE_INVALID_TRANSACTION_STATE "cannot rollback to savepoints during a parallel operation"
  else
    match block_state (current s) with
    | TBLOCK_INPROGRESS | TBLOCK_ABORT => raise ERROR ERRCODE_S_E_INVALID_SPECIFICATION (savepoint_msg nm " does not exist")
    | TBLOCK_IMPLICIT_INPROGRESS => raise ERROR ERRCODE_NO_ACTIVE_SQL_TRANSACTION "ROLLBACK TO SAVEPOINT can only be used in transaction blocks"
    | TBLOCK_SUBINPROGRESS | TBLOCK_SUBABORT =>
        let! target := find_savepoint nm in mark_rollback_to target
    | other => unexpected_block_state "RollbackToSavepoint" other
    end.

(** ** Internal subtransactions *)

Definition BeginInternalSubTransaction (nm : option string) : M XactState unit :=
  let! b := cur_block_state in
  match b with
  | TBLOCK_STARTED | TBLOCK_INPROGRESS | TBLOCK_IMPLICIT_INPROGRESS | TBLOCK_PARALLEL_INPROGRESS | TBLOCK_END
  | TBLOCK_PREPARE | TBLOCK_SUBINPROGRESS =>
      PushTransaction ;!
      match nm with
      | Some nm => try_reserve "out of memory saving savepoint name" ;! put_current (set_name (Some nm))
      | None => mret tt
      end
  | other => unexpected_block_state "BeginInternalSubTransaction" other
  end ;!
  CommitTransactionCommand ;!
  StartTransactionCommand.

Definition ReleaseCurrentSubTransaction : M XactState unit :=
  let! b := cur_block_state in
  if bool_decide (b = TBLOCK_SUBINPROGRESS) then CommitSubTransaction
  else raise ERROR ERRCODE_INTERNAL_ERROR ("ReleaseCurrentSubTransaction: unexpected state " +:+ BlockStateAsString b).

Definition RollbackAndReleaseCurrentSubTransaction : M XactState unit :=
  let! b := cur_block_state in
  match b with
  | TBLOCK_SUBINPROGRESS => AbortSubTransaction ;! CleanupSubTransaction
  | TBLOCK_SUBABORT => CleanupSubTransaction
  | other => raise FATAL ERRCODE_INTERNAL_ERROR ("RollbackAndReleaseCurrentSubTransaction: unexpected state " +:+ BlockStateAsString other)
  end.

(** One round of [AbortOutOfAnyTransaction]. *)
Definition abort_out_round : M XactState unit :=
  let! b := cur_block_state in
  match b with
  | TBLOCK_DEFAULT =>
      let! t := cur_state in
      if bool_decide (t = TRANS_DEFAULT) then mret tt
      else
        when (bool_decide (t = TRANS_START)) (put_current (set_state TRANS_INPROGRESS)) ;!
        AbortTransaction ;! CleanupTransaction
  | TBLOCK_STARTED | TBLOCK_BEGIN | TBLOCK_INPROGRESS | TBLOCK_IMPLICIT_INPROGRESS | TBLOCK_PARALLEL_INPROGRESS
  | TBLOCK_END | TBLOCK_ABORT_PENDING | TBLOCK_PREPARE =>
      AbortTransaction ;! CleanupTransaction ;! become TBLOCK_DEFAULT
  | TBLOCK_ABORT | TBLOCK_ABORT_END =>
      call (Call "AtAbort_Portals") ;! CleanupTransaction ;! become TBLOCK_DEFAULT
  | TBLOCK_SUBBEGIN | TBLOCK_SUBINPROGRESS | TBLOCK_SUBRELEASE | TBLOCK_SUBCOMMIT | TBLOCK_SUBABORT_PENDING
  | TBLOCK_SUBRESTART =>
      AbortSubTransaction ;! CleanupSubTransaction
  | TBLOCK_SUBABORT | TBLOCK_SUBABORT_END | TBLOCK_SUBABORT_RESTART =>
      let! s := mget in
      when (has_resource_owner (current s)) (call (Call "AtSubAbort_Portals")) ;!
      CleanupSubTransaction
  end.

Definition AbortOutOfAnyTransaction : M XactState unit :=
  let! s := mget in
  until_true (stack_len s)
    (abort_out_round ;!
     let! b := cur_block_state in
     mret (bool_decide (b = TBLOCK_DEFAULT))).
End Engine.
