(* ===== verification/Session.v ===== *)
(** * A client session: [tcop/postgres] and the transaction statements of [tcop/utility]

    What a simple query does to the transaction state: the start of a transaction
    command, the statements of the query string one by one, its end, and the
    recovery after an error.  Parsing, planning and the execution of statements other
    than the transaction statements are calls or parameters.  [xact_started] is passed
    along; an error resets it. *)

From S2P Require Import Prelude Xid Transam XactState Xact.

Inductive TransactionStmtKind : Type :=
| TRANS_STMT_BEGIN (options : list string)
| TRANS_STMT_START (options : list string)
| TRANS_STMT_COMMIT (chain : bool)
| TRANS_STMT_ROLLBACK (chain : bool)
| TRANS_STMT_SAVEPOINT (savepoint_name : string)
| TRANS_STMT_RELEASE (savepoint_name : string)
| TRANS_STMT_ROLLBACK_TO (savepoint_name : string)
| TRANS_STMT_PREPARE (gid : string)
| TRANS_STMT_COMMIT_PREPARED (gid : string)
| TRANS_STMT_ROLLBACK_PREPARED (gid : string).

(** Any other statement comes with what running it does. *)
Inductive Stmt : Type :=
| TransactionStmt (kind : TransactionStmtKind)
| OtherStmt (portal_run : M XactState unit).

Definition is_TransactionStmt (st : Stmt) : bool :=
  match st with TransactionStmt _ => true | OtherStmt _ => false end.

Definition IsTransactionExitStmt (st : Stmt) : bool :=
  match st with
  | TransactionStmt (TRANS_STMT_COMMIT _ | TRANS_STMT_PREPARE _ | TRANS_STMT_ROLLBACK _ | TRANS_STMT_ROLLBACK_TO _) => true
  | _ => false
  end.

Definition begin_option (name : string) : bool :=
  bool_decide (name ∈ ["transaction_isolation"; "transaction_read_only"; "transaction_deferrable"]).

(** [PgError::level() >= FATAL] *)
Definition level_fatal (e : PgError) : bool :=
  match e with
  | PgErr _ => false
  | PgRaise ERROR _ _ | PgReport ERROR _ _ _ _ => false
  | PgRaise (FATAL | PANIC) _ _ => true
  | PgReport (FATAL | PANIC) _ _ _ _ => true
  end.

(** [std::panic::catch_unwind] *)
Definition catch_unwind {A} (m : M XactState A) : M XactState (result A) :=
  fun s => let '(r, s') := m s in (Ok r, s').

Section Session.
Variable env : XactEnv.

Definition start_xact_command (xact_started : bool) : M XactState bool :=
  let! s := mget in
  (if negb xact_started then StartTransactionCommand env
   else when (has (MyXactFlags s) XACT_FLAGS_PIPELINING) BeginImplicitTransactionBlock) ;!
  calls env ["enable_statement_timeout"; "enable_timeout_after(CLIENT_CONNECTION_CHECK_TIMEOUT)"] ;!
  mret true.

Definition finish_xact_command (xact_started : bool) : M XactState bool :=
  call env (Call "disable_statement_timeout") ;!
  when xact_started (CommitTransactionCommand env) ;!
  mret false.

Definition RequireTransactionBlock (isTopLevel : bool) (stmtType : string) : M XactState unit :=
  CheckTransactionBlock isTopLevel true stmtType.

(** The options of BEGIN, by name; any other name is a panic. *)
Definition set_pg_variables (options : list string) : M XactState unit :=
  miter (fun name => if begin_option name then call env (Call "SetPGVariable") else mlift Panic) options.

(** The transaction statements of [dispatch_switch], at top level; [true] when the
    client is told ROLLBACK instead. *)
Definition dispatch_transaction_stmt (kind : TransactionStmtKind) : M XactState bool :=
  match kind with
  | TRANS_STMT_BEGIN options | TRANS_STMT_START options =>
      BeginTransactionBlock ;! set_pg_variables options ;! mret false
  | TRANS_STMT_COMMIT chn => let! r := EndTransactionBlock chn in mret (negb r)
  | TRANS_STMT_PREPARE gid => let! r := PrepareTransactionBlock env gid in mret (negb r)
  | TRANS_STMT_COMMIT_PREPARED _ =>
      PreventInTransactionBlock true "COMMIT PREPARED" ;! call env (Call "FinishPreparedTransaction(commit)") ;! mret false
  | TRANS_STMT_ROLLBACK_PREPARED _ =>
      PreventInTransactionBlock true "ROLLBACK PREPARED" ;! call env (Call "FinishPreparedTransaction(abort)") ;! mret false
  | TRANS_STMT_ROLLBACK chn => UserAbortTransactionBlock chn ;! mret false
  | TRANS_STMT_SAVEPOINT nm =>
      RequireTransactionBlock true "SAVEPOINT" ;! DefineSavepoint env (Some nm) ;! mret false
  | TRANS_STMT_RELEASE nm =>
      RequireTransactionBlock true "RELEASE SAVEPOINT" ;! ReleaseSavepoint env nm ;! mret false
  | TRANS_STMT_ROLLBACK_TO nm =>
      RequireTransactionBlock true "ROLLBACK TO SAVEPOINT" ;! RollbackToSavepoint env nm ;! mret false
  end.

Definition PortalRun (st : Stmt) : M XactState bool :=
  match st with
  | TransactionStmt kind =>
      call env (Call "ClassifyUtilityCommandAsReadOnly") ;!
      let! told_rollback := dispatch_transaction_stmt kind in
      CommandCounterIncrement env ;!
      mret told_rollback
  | OtherStmt portal_run => portal_run ;! mret false
  end.

(** The loop over the parse trees of one query string. *)
Fixpoint exec_parsetrees (use_implicit_block xact_started : bool) (l : list Stmt) : M XactState (bool * list bool) :=
  match l with
  | [] => mret (xact_started, [])
  | st :: rest =>
      let! s := mget in
      if IsAbortedTransactionBlockState s && negb (IsTransactionExitStmt st)
      then raise ERROR ERRCODE_IN_FAILED_SQL_TRANSACTION "current transaction is aborted, commands ignored until end of transaction block"
      else
        let! xact_started := start_xact_command xact_started in
        when use_implicit_block BeginImplicitTransactionBlock ;!
        calls env ["CHECK_FOR_INTERRUPTS"; "pg_analyze_and_rewrite_fixedparams"; "pg_plan_queries"; "PortalStart"] ;!
        let! told_rollback := PortalRun st in
        call env (Call "PortalDrop") ;!
        let! xact_started :=
          match rest with
          | [] => when use_implicit_block EndImplicitTransactionBlock ;! finish_xact_command xact_started
          | _ :: _ =>
              if is_TransactionStmt st then finish_xact_command xact_started
              else
                CommandCounterIncrement env ;! call env (Call "disable_statement_timeout") ;! mret xact_started
          end in
        call env (Call "EndCommand") ;!
        let! r := exec_parsetrees use_implicit_block xact_started rest in
        mret (fst r, told_rollback :: snd r)
  end.

(** The result says, per statement, whether ROLLBACK was reported for it. *)
Definition exec_simple_query (xact_started : bool) (parsetree_list : list Stmt) : M XactState (list bool) :=
  let! xact_started := start_xact_command xact_started in
  call env (Call "pg_parse_query") ;!
  let! r := exec_parsetrees (1 <? length parsetree_list)%nat xact_started parsetree_list in
  finish_xact_command (fst r) ;!
  when (bool_decide (parsetree_list = [])) (call env (Call "NullCommand")) ;!
  mret (snd r).

(** ** After an error: [main_loop.rs] *)

Definition error_recovery (first_attempt : bool) : M XactState unit :=
  when first_attempt (note (Call "emit_error_report_for")) ;!
  call env (Call "disable_all_timeouts") ;!
  note (Call "pq_comm_reset") ;!
  AbortCurrentTransaction env ;!
  calls env ["wal_snd_error_cleanup"; "PortalErrorCleanup"; "ReplicationSlotRelease"; "ReplicationSlotCleanup"] ;!
  note (Call "FlushErrorState") ;!
  call env (Call "pq_is_reading_msg").

Definition MAX_RECOVERY_ATTEMPTS : nat := 16.

(** [true] once the transaction has settled. *)
Fixpoint recovery_attempts (n : nat) (first_attempt : bool) : M XactState bool :=
  match n with
  | O => mret false
  | S n =>
      let! r := catch_unwind (error_recovery first_attempt) in
      match r with
      | Ok _ => mret true
      | Err next => if level_fatal next then mlift (Err next) else recovery_attempts n false
      | Panic => recovery_attempts n false
      end
  end.

(** What is left of an iteration once a query message was read: timeouts, interrupts
    and a pending configuration reload come before the query, and may fail. *)
Definition if_due (flag : string) (c : M XactState unit) : M XactState unit :=
  let! s := mget in if due env flag (events s) then c else mret tt.

Definition run_one_iteration_inner (parsetree_list : list Stmt) : M XactState (list bool) :=
  if_due "idle_in_transaction_timeout_enabled" (call env (Call "disable_timeout(IDLE_IN_TRANSACTION_SESSION_TIMEOUT)")) ;!
  if_due "idle_session_timeout_enabled" (call env (Call "disable_timeout(IDLE_SESSION_TIMEOUT)")) ;!
  call env (Call "check_for_interrupts") ;!
  if_due "ConfigReloadPending" (call env (Call "ProcessConfigFile")) ;!
  exec_simple_query false parsetree_list.

(** One query message, with what the main loop does when it fails; [None] is a query
    that failed in a session that goes on.  [run_one_iteration] turns a panic into an
    ordinary error. *)
Definition postgres_query (parsetree_list : list Stmt) : M XactState (option (list bool)) :=
  let! r := catch_unwind (run_one_iteration_inner parsetree_list) in
  let recover : M XactState (option (list bool)) :=
    let! settled := recovery_attempts MAX_RECOVERY_ATTEMPTS true in
    if settled then mret None
    else raise FATAL ERRCODE_INTERNAL_ERROR "error recovery failed to settle the transaction; terminating backend" in
  match r with
  | Ok tags => mret (Some tags)
  | Err err => if level_fatal err then mlift (Err err) else recover
  | Panic => recover
  end.

(** The main loop over the query messages of a client.  An iteration that fails before
    its message is read ([ready_state], [ReadCommand]) is not modelled. *)
Fixpoint postgres_loop (messages : list (list Stmt)) : M XactState (list (option (list bool))) :=
  match messages with
  | [] => mret []
  | parsetree_list :: rest =>
      let! answer := postgres_query parsetree_list in
      let! answers := postgres_loop rest in
      mret (answer :: answers)
  end.
End Session.
