(* ===== verification/SessionDemo.v ===== *)
(** * A session to run

    A concrete environment, statements and a sequence of query messages, for the
    examples of the theorems on sessions. *)

From S2P Require Import Prelude Xid Transam XactState Xact Session.

(** Nothing fails, except that notifications cannot be sent at commit. *)
Definition demo_env (fails : bool) : XactEnv := {|
  ext e _ := if fails && match e with Call fn => String.eqb fn "PreCommit_Notify" | _ => false end
             then Err (PgErr "notify queue is full") else Ok tt;
  new_xid _ h := Ok (100 + Z.of_nat (length h));
  did_commit _ _ := Ok false;
  is_parallel_worker := false; recovery_in_progress := false; xlog_logical_info_active := false;
  xlog_standby_info_active := false; portal_rounds := 1; pending_deletes _ _ := Ok false; dropped_stats _ _ := Ok false;
  inval_msgs _ := Ok false; wrote_wal _ := true; replorigin := false; has_exported_snapshots := false;
  user_and_context := (10, 0); NewGUCNestLevel := 2; reserve _ := true; due _ _ := true |}.

(** A statement that writes, and one that fails. *)
Definition demo_write (fails : bool) : Stmt :=
  OtherStmt (let! _ := GetCurrentTransactionId (demo_env fails) in let! _ := GetCurrentCommandId (demo_env fails) true in mret tt).
Definition demo_error : Stmt := OtherStmt (mlift (Err (PgErr "division by zero"))).

(** A block with a savepoint that fails and is rolled back to, a chained commit, and two
    statements in one message. *)
Definition demo_messages (fails : bool) : list (list Stmt) := [
  [TransactionStmt (TRANS_STMT_BEGIN ["transaction_read_only"])]; [demo_write fails]; [TransactionStmt (TRANS_STMT_SAVEPOINT "a")]; [demo_write fails];
  [demo_error]; [demo_write fails]; [TransactionStmt (TRANS_STMT_ROLLBACK_TO "a")]; [demo_write fails; demo_write fails];
  [TransactionStmt (TRANS_STMT_COMMIT true)]; [demo_write fails; TransactionStmt (TRANS_STMT_ROLLBACK false)] ].

