(* ===== verification/XactView.v ===== *)
(** * What the block machine of the transaction manager looks at

    [view] keeps, of the state of a backend, what decides the course of a command:
    for every node its states, name, levels and flags.  Calls into other components
    and the bookkeeping of ids do not change it ([Neutral]); [wpv m Q E v] is the
    weakest precondition of a program over views, with the error it may end in. *)

From S2P Require Import Prelude Xid Transam XactState Xact.

(** ** Running to an end, with the error in sight *)

Definition wpe {S A} (m : M S A) (Q : A -> S -> Prop) (E : PgError -> S -> Prop) (s : S) : Prop :=
  match m s with
  | (Ok a, s') => Q a s'
  | (Err e, s') => E e s'
  | (Panic, _) => False
  end.

(** The errors the block machine itself may raise when nothing around it fails: the
    limits of a transaction and the things PREPARE TRANSACTION refuses. *)
Definition limits : list PgError := [
  PgRaise ERROR ERRCODE_INVALID_TRANSACTION_STATE "cannot assign transaction IDs during a parallel operation";
  PgRaise ERROR ERRCODE_INVALID_TRANSACTION_STATE "cannot start commands during a parallel operation";
  PgRaise ERROR ERRCODE_PROGRAM_LIMIT_EXCEEDED "cannot have more than 2^32-2 commands in a transaction";
  PgRaise ERROR ERRCODE_PROGRAM_LIMIT_EXCEEDED "cannot have more than 2^32-1 subtransactions in a transaction";
  PgRaise ERROR ERRCODE_PROGRAM_LIMIT_EXCEEDED "maximum number of committed subtransactions (268435455) exceeded";
  PgRaise ERROR ERRCODE_INTERNAL_ERROR "cannot commit a transaction that deleted files but has no xid";
  PgRaise ERROR ERRCODE_FEATURE_NOT_SUPPORTED "cannot PREPARE a transaction that has operated on temporary objects";
  PgRaise ERROR ERRCODE_FEATURE_NOT_SUPPORTED "cannot PREPARE a transaction that has exported snapshots";
  PgRaise ERROR ERRCODE_INTERNAL_ERROR "PrepareTransaction: no prepared-transaction GID set"].

Class Tolerates (ok : PgError -> Prop) : Prop := tolerates : forall e, e ∈ limits -> ok e.

Definition civil {A} (ok : PgError -> Prop) (r : result A) : Prop :=
  match r with
  | Ok _ => True
  | Err e => ok e
  | Panic => False
  end.

(** An environment that may fail at any call, but only with the errors [ok], in a
    backend that is not a parallel worker. *)
Class Civil (ok : PgError -> Prop) (env : XactEnv) : Prop := {
  civil_ext : forall e h, civil ok (ext env e h);
  civil_new_xid : forall b h, civil ok (new_xid env b h);
  civil_did_commit : forall x h, civil ok (did_commit env x h);
  civil_pending_deletes : forall b h, civil ok (pending_deletes env b h);
  civil_dropped_stats : forall b h, civil ok (dropped_stats env b h);
  civil_inval_msgs : forall h, civil ok (inval_msgs env h);
  civil_reserve : forall h msg, reserve env h = false -> ok (PgRaise ERROR ERRCODE_INTERNAL_ERROR msg);
  civil_panic : forall x h, did_commit env x h = Ok true ->
    ok (PgRaise PANIC ERRCODE_INTERNAL_ERROR "cannot abort transaction, it was already committed");
  civil_not_worker : is_parallel_worker env = false
}.

(** ** Views *)

Record NView := mkN {
  nv_state : TransState;
  nv_block : TBlockState;
  nv_name : option string;
  nv_level : Z;
  nv_nest : Z;
  nv_chain : bool;
  nv_pml : Z;
  nv_pcx : bool
}.

Definition nview (n : TransactionNode) : NView := {|
  nv_state := state n; nv_block := block_state n; nv_name := name n; nv_level := savepoint_level n;
  nv_nest := nesting_level n; nv_chain := chain n; nv_pml := parallel_mode_level n;
  nv_pcx := parallel_child_xact n |}.

(** Some node with that view. *)
Definition inflate (c : NView) : TransactionNode := {|
  full_transaction_id := 0; sub_transaction_id := 0; name := nv_name c; savepoint_level := nv_level c;
  state := nv_state c; block_state := nv_block c; nesting_level := nv_nest c; guc_nest_level := 0;
  child_xids := []; prev_user := 0; prev_sec_context := 0; prev_xact_read_only := false;
  started_in_recovery := false; did_log_xid := false; parallel_mode_level := nv_pml c;
  parallel_child_xact := nv_pcx c; chain := nv_chain c; top_xid_logged := false; has_resource_owner := false |}.

(** What an update of a node does to its view. *)
Definition vapp (f : TransactionNode -> TransactionNode) (c : NView) : NView := nview (f (inflate c)).



Record View := mkV {
  vsubs : list NView;
  vtop : NView;
  vpipe : bool
}.

Definition view (s : XactState) : View := {|
  vsubs := nview <$> subs s; vtop := nview (top s); vpipe := has (MyXactFlags s) XACT_FLAGS_PIPELINING |}.

Definition vcur (v : View) : NView :=
  match vsubs v with
  | [] => vtop v
  | c :: _ => c
  end.

Definition von_cur (g : NView -> NView) (v : View) : View :=
  match vsubs v with
  | [] => {| vsubs := []; vtop := g (vtop v); vpipe := vpipe v |}
  | c :: cs => {| vsubs := g c :: cs; vtop := vtop v; vpipe := vpipe v |}
  end.

Lemma view_current s : nview (current s) = vcur (view s).
Proof. unfold current, vcur, view. by destruct (subs s). Qed.

Lemma view_on_current f s :
  (forall n, nview (f n) = vapp f (nview n)) -> view (on_current f s) = von_cur (vapp f) (view s).
Proof. intros Hf. unfold on_current, von_cur, view. destruct (subs s) eqn:Es; cbn; by rewrite ?Es, Hf. Qed.

Lemma view_cur_fields s v : view s = v ->
  state (current s) = nv_state (vcur v) /\
  block_state (current s) = nv_block (vcur v) /\
  name (current s) = nv_name (vcur v) /\
  savepoint_level (current s) = nv_level (vcur v) /\
  nesting_level (current s) = nv_nest (vcur v) /\
  chain (current s) = nv_chain (vcur v) /\
  parallel_mode_level (current s) = nv_pml (vcur v) /\
  parallel_child_xact (current s) = nv_pcx (vcur v).
Proof. intros <-. by rewrite <- view_current. Qed.

Lemma view_stack_len s : stack_len s = S (length (vsubs (view s))).
Proof. unfold stack_len, view. cbn. by rewrite length_fmap. Qed.

(** ** Weakest preconditions over views *)

Definition wpv {A} (m : M XactState A) (Q : A -> View -> Prop) (E : PgError -> View -> Prop) (v : View) : Prop :=
  forall s, view s = v -> wpe m (fun a s' => Q a (view s')) (fun e s' => E e (view s')) s.

Section Rules.
Context {A B : Type}.
Implicit Types (Q : A -> View -> Prop) (E : PgError -> View -> Prop).

Lemma wpv_bind (m : M XactState B) (k : B -> M XactState A) Q E v :
  wpv m (fun b v' => wpv (k b) Q E v') E v -> wpv (mbnd m k) Q E v.
Proof.
  intros H s Hs. specialize (H s Hs). unfold wpe, mbnd in *.
  destruct (m s) as [[b|e|] s']; try done. by apply (H s').
Qed.

Lemma wpv_assoc {C} (m : M XactState C) (k : C -> M XactState B) (l : B -> M XactState A) Q E v :
  wpv (mbnd (mbnd m k) l) Q E v -> wpv (mbnd m (fun c => mbnd (k c) l)) Q E v.
Proof. intros H s Hs. specialize (H s Hs). unfold wpe, mbnd in *. by destruct (m s) as [[c|e|] s']. Qed.

Lemma wpv_conseq (m : M XactState A) Q Q' E E' v :
  wpv m Q E v -> (forall a v', Q a v' -> Q' a v') -> (forall e v', E e v' -> E' e v') -> wpv m Q' E' v.
Proof. intros H HQ HE s Hs. specialize (H s Hs). unfold wpe in *. destruct (m s) as [[a|e|] s']; auto. Qed.

Lemma wpv_ret (a : A) Q E v : Q a v -> wpv (mret a) Q E v.
Proof. by intros H s <-. Qed.

Lemma wpv_raise lvl code msg Q E v : E (PgRaise lvl code msg) v -> wpv (raise lvl code msg) Q E v.
Proof. by intros H s <-. Qed.

Lemma wpv_err e Q E v : E e v -> wpv (mlift (Err e)) Q E v.
Proof. by intros H s <-. Qed.

Lemma wpv_lift (r : result A) Q E v :
  civil (fun e => E e v) r -> (forall a, Q a v) -> wpv (mlift r) Q E v.
Proof. intros Hr HQ s <-. unfold wpe, mlift. destruct r; cbn in Hr; auto. Qed.
End Rules.

Lemma wpv_get (Q : XactState -> View -> Prop) E v : (forall s, view s = v -> Q s v) -> wpv mget Q E v.
Proof. intros H s Hs. unfold wpe, mget. rewrite Hs. by apply H. Qed.

Lemma wpv_put f (Q : unit -> View -> Prop) E v v' :
  (forall s, view s = v -> view (f s) = v') -> Q tt v' -> wpv (mput f) Q E v.
Proof. intros Hf H s Hs. unfold wpe, mput. by rewrite (Hf s Hs). Qed.

Lemma wpv_current f (Q : unit -> View -> Prop) E v :
  (forall n, nview (f n) = vapp f (nview n)) -> Q tt (von_cur (vapp f) v) -> wpv (put_current f) Q E v.
Proof. intros Hf. apply wpv_put. intros s <-. by apply view_on_current. Qed.

Lemma wpv_block Q E v : Q (nv_block (vcur v)) v -> wpv cur_block_state Q E v.
Proof.
  intros H. apply wpv_bind, wpv_get. intros s Hs. apply wpv_ret.
  by destruct (view_cur_fields s v Hs) as (_ & -> & _).
Qed.

Lemma wpv_state Q E v : Q (nv_state (vcur v)) v -> wpv cur_state Q E v.
Proof.
  intros H. apply wpv_bind, wpv_get. intros s Hs. apply wpv_ret.
  by destruct (view_cur_fields s v Hs) as (-> & _).
Qed.

(** ** Programs that leave the view alone *)

Class Neutral {A} (ok : PgError -> Prop) (m : M XactState A) : Prop :=
  neutral : forall v, wpv m (fun _ v' => v' = v) (fun e v' => v' = v /\ ok e) v.

Section NeutralRules.
Variable ok : PgError -> Prop.

Lemma wpv_neutral {A} (m : M XactState A) `{!Neutral ok m} (Q : A -> View -> Prop) E v :
  (forall a, Q a v) -> (forall e, ok e -> E e v) -> wpv m Q E v.
Proof. intros HQ HE. eapply wpv_conseq; [apply neutral| |]; [by intros a v' -> | intros e v' [-> He]; auto]. Qed.

#[export] Instance Neutral_bind {A B} (m : M XactState A) (k : A -> M XactState B) :
  Neutral ok m -> (forall a, Neutral ok (k a)) -> Neutral ok (mbnd m k).
Proof.
  intros Hm Hk v. apply wpv_bind. eapply wpv_conseq; [apply Hm| |]; cbn; [intros a v' -> | intros e v' []; auto].
  apply Hk.
Qed.
#[export] Instance Neutral_ret {A} (a : A) : Neutral ok (mret a).
Proof. intros v. by apply wpv_ret. Qed.
#[export] Instance Neutral_get : Neutral ok mget.
Proof. intros v. by apply wpv_get. Qed.
#[export] Instance Neutral_if {A} (b : bool) (m m' : M XactState A) : Neutral ok m -> Neutral ok m' -> Neutral ok (if b then m else m').
Proof. by destruct b. Qed.
#[export] Instance Neutral_when b m : Neutral ok m -> Neutral ok (when b m).
Proof. destruct b; cbn; [done | intros _; apply _]. Qed.
Lemma Neutral_raise {A} lvl code msg : ok (PgRaise lvl code msg) -> Neutral ok (@raise A lvl code msg).
Proof. intros H v. by apply wpv_raise. Qed.
Lemma Neutral_error {A} `{!Tolerates ok} code msg : PgRaise ERROR code msg ∈ limits -> Neutral ok (@raise A ERROR code msg).
Proof. intros H. by apply Neutral_raise, tolerates. Qed.
#[export] Instance Neutral_early {A} (c : M XactState (option A)) k : Neutral ok c -> Neutral ok k -> Neutral ok (early c k).
Proof. intros Hc Hk. apply Neutral_bind; [done|]. intros []; apply _. Qed.
#[export] Instance Neutral_returning {A} (a : A) : Neutral ok (returning a).
Proof. apply Neutral_ret. Qed.
#[export] Instance Neutral_fall {A} : Neutral ok (@fall_through XactState A).
Proof. apply Neutral_ret. Qed.
#[export] Instance Neutral_note e : Neutral ok (note e).
Proof. intros v. by apply (wpv_put _ _ _ v v). Qed.
#[export] Instance Neutral_notes l : Neutral ok (notes l).
Proof. induction l; cbn; apply _. Qed.
#[export] Instance Neutral_warn msg : Neutral ok (warn msg).
Proof. apply Neutral_note. Qed.
#[export] Instance Neutral_block : Neutral ok cur_block_state.
Proof. intros v. by apply wpv_block. Qed.
#[export] Instance Neutral_state : Neutral ok cur_state.
Proof. intros v. by apply wpv_state. Qed.
#[export] Instance Neutral_warn_state f : Neutral ok (warn_state f).
Proof. unfold warn_state. apply _. Qed.
#[export] Instance Neutral_miter {A} (f : A -> M XactState unit) l : (forall a, a ∈ l -> Neutral ok (f a)) -> Neutral ok (miter f l).
Proof.
  induction l as [|a l IH]; cbn; intros H; [apply _|].
  apply Neutral_bind; [|intros _; apply IH]; intros; apply H; set_solver.
Qed.

Lemma neutral_put f : (forall s, view (f s) = view s) -> Neutral ok (mput f).
Proof. intros Hf v. eapply wpv_put; [|done]. intros s <-. apply Hf. Qed.

Lemma neutral_current f : (forall n, nview (f n) = nview n) -> Neutral ok (put_current f).
Proof.
  intros Hf. apply neutral_put. intros s. unfold on_current, view.
  destruct (subs s) eqn:Es; cbn; rewrite ?Es, ?Hf; by cbn.
Qed.

Lemma view_on_node i f s : (forall n, nview (f n) = nview n) -> view (on_node i f s) = view s.
Proof.
  intros Hf. unfold on_node, view. destruct i as [|i]; cbn; [by rewrite Hf|].
  f_equal. rewrite (list_fmap_alter _ _ id); [by rewrite list_alter_id|].
  apply Forall_forall. intros n _. apply Hf.
Qed.

Lemma neutral_on_node i f : (forall n, nview (f n) = nview n) -> Neutral ok (mput (on_node i f)).
Proof. intros Hf. apply neutral_put. intros s. by apply view_on_node. Qed.

#[export] Instance Neutral_lift {A} (r : result A) : civil ok r -> Neutral ok (mlift r).
Proof. intros Hr v. apply wpv_lift; [|done]. destruct r; [done|by split|done]. Qed.

(** The outcome of a block that is looked at later is as civil as the block. *)
Lemma wpv_finally {A} (m : M XactState A) `{!Neutral ok m} (Q : result A -> View -> Prop) E v :
  (forall r, civil ok r -> Q r v) -> wpv (finally m) Q E v.
Proof.
  intros HQ s Hs. pose proof (neutral v s Hs) as H. unfold wpe, finally in *.
  destruct (m s) as [[a|e|] s'] eqn:Em; cbn in *; [| |done].
  - rewrite H. by apply HQ.
  - destruct H as [-> He]. by apply HQ.
Qed.

#[export] Instance Neutral_finally {A B} (m : M XactState A) (k : result A -> M XactState B) :
  Neutral ok m -> (forall r, civil ok r -> Neutral ok (k r)) -> Neutral ok (mbnd (finally m) k).
Proof. intros Hm Hk v. apply wpv_bind, wpv_finally; [done|]. intros r Hr. by apply Hk. Qed.

End NeutralRules.

(** Takes a program apart; [finally] is met before [mbnd] splits its result off. *)
Ltac neutral_step :=
  lazymatch goal with
  | |- forall _, _ => intro
  | |- Neutral _ (mbnd (finally _) _) => apply Neutral_finally
  | |- Neutral _ (mbnd _ _) => apply Neutral_bind
  | |- Neutral _ (early _ _) => apply Neutral_early
  | |- Neutral _ (if _ then _ else _) => apply Neutral_if
  | |- Neutral _ (when _ _) => apply Neutral_when
  | |- Neutral _ (match ?x with _ => _ end) => destruct x
  | |- Neutral _ (put_current _) => apply neutral_current; reflexivity
  | |- Neutral _ (mput (on_node _ _)) => apply neutral_on_node; reflexivity
  | |- Neutral _ (mput _) => apply neutral_put; reflexivity
  | |- Neutral _ (mlift _) => apply Neutral_lift; assumption
  | |- Neutral _ (raise ERROR _ _) => apply Neutral_error; [apply _ | repeat constructor]
  | |- Neutral _ _ => apply _
  end.
Ltac neutral := repeat neutral_step.

Section Env.
Variable ok : PgError -> Prop.
Variable env : XactEnv.
Context {HC : Civil ok env}.

#[export] Instance Neutral_call e : Neutral ok (call env e).
Proof. intros v s <-. unfold call, wpe. pose proof (civil_ext e (events s)) as H. by destruct (ext env e (events s)). Qed.

#[export] Instance Neutral_calls l : Neutral ok (calls env l).
Proof. induction l; cbn; apply _. Qed.

#[export] Instance Neutral_asking {A} (f : list Event -> result A) : (forall h, civil ok (f h)) -> Neutral ok (asking f).
Proof. intros Hf. apply Neutral_bind; [apply _|]. intros s. apply Neutral_lift, Hf. Qed.

#[export] Instance Neutral_reserve msg : Neutral ok (try_reserve env msg).
Proof.
  unfold try_reserve. apply Neutral_bind; [apply _|]. intros s. destruct (reserve env (events s)) eqn:Hr; [apply _|].
  by apply Neutral_raise, (civil_reserve (events s)).
Qed.

(** What follows an answer may use what was asked. *)
Lemma Neutral_asked {A B} (f : list Event -> result A) (k : A -> M XactState B) :
  (forall h, civil ok (f h)) -> (forall h a, f h = Ok a -> Neutral ok (k a)) -> Neutral ok (mbnd (asking f) k).
Proof.
  intros Hf Hk v. apply wpv_bind, wpv_bind, wpv_get. intros s Hs s' Hs'. unfold wpe, mlift.
  specialize (Hf (events s)). destruct (f (events s)) eqn:Ef; cbn in Hf; [|by rewrite Hs'|done].
  rewrite Hs'. by apply (Hk _ _ Ef).
Qed.

#[export] Instance Neutral_new_xid b : Neutral ok (asking (new_xid env b)).
Proof. apply Neutral_asking, civil_new_xid. Qed.
#[export] Instance Neutral_did_commit x : Neutral ok (asking (did_commit env x)).
Proof. apply Neutral_asking, civil_did_commit. Qed.
#[export] Instance Neutral_deletes b : Neutral ok (asking (pending_deletes env b)).
Proof. apply Neutral_asking, civil_pending_deletes. Qed.
#[export] Instance Neutral_drops b : Neutral ok (asking (dropped_stats env b)).
Proof. apply Neutral_asking, civil_dropped_stats. Qed.
#[export] Instance Neutral_invals : Neutral ok (asking (inval_msgs env)).
Proof. apply Neutral_asking, civil_inval_msgs. Qed.

(** ** The bookkeeping of ids and commands *)

#[export] Instance Neutral_AtSubAbort_childXids : Neutral ok AtSubAbort_childXids.
Proof. unfold AtSubAbort_childXids. neutral. Qed.
#[export] Instance Neutral_RecordTransactionAbort b : Neutral ok (RecordTransactionAbort env b).
Proof.
  unfold RecordTransactionAbort. do 3 neutral_step; [neutral|].
  apply Neutral_asked; [apply civil_did_commit|]. intros h [] Hc; [|neutral].
  by eapply Neutral_raise, civil_panic.
Qed.
#[export] Instance Neutral_fire_deferred n : Neutral ok (fire_deferred env n).
Proof. induction n; cbn; neutral. Qed.

Context {HT : Tolerates ok}.

#[export] Instance Neutral_assign_one idx : Neutral ok (assign_one env idx).
Proof. unfold assign_one. neutral. Qed.

Lemma unassigned_parents_lt s idx p : p ∈ unassigned_parents idx s -> (p < idx)%nat.
Proof. induction idx; cbn; [set_solver|]. case_match; [set_solver|]. intros [->|Hp%IHidx]%elem_of_cons; lia. Qed.

(** The fuel [AssignTransactionId] gives is enough. *)
Lemma neutral_assign fuel idx : (idx < fuel)%nat -> Neutral ok (assign_transaction_id_at env fuel idx).
Proof.
  revert idx. induction fuel as [|fuel IH]; intros idx Hi; [lia|]. cbn.
  apply Neutral_bind; [apply _|]. intros s. apply Neutral_if; [neutral|].
  apply Neutral_bind; [apply Neutral_miter; intros; apply _|]. intros _.
  apply Neutral_bind; [|intros; apply _].
  apply Neutral_miter. intros p Hp%elem_of_reverse%unassigned_parents_lt. apply IH. lia.
Qed.

#[export] Instance Neutral_AssignTransactionId : Neutral ok (AssignTransactionId env).
Proof. apply Neutral_bind; [apply _|]. intros s. apply neutral_assign. unfold stack_len. lia. Qed.
#[export] Instance Neutral_GetCurrentTransactionId : Neutral ok (GetCurrentTransactionId env).
Proof. unfold GetCurrentTransactionId. neutral. Qed.
#[export] Instance Neutral_GetCurrentCommandId used : Neutral ok (GetCurrentCommandId env used).
Proof. unfold GetCurrentCommandId. rewrite civil_not_worker. neutral. Qed.
#[export] Instance Neutral_CommandCounterIncrement : Neutral ok (CommandCounterIncrement env).
Proof. unfold CommandCounterIncrement. neutral. Qed.
#[export] Instance Neutral_AtSubCommit_childXids : Neutral ok (AtSubCommit_childXids env).
Proof. unfold AtSubCommit_childXids. neutral. Qed.
#[export] Instance Neutral_RecordTransactionCommit : Neutral ok (RecordTransactionCommit env).
Proof. unfold RecordTransactionCommit. neutral. Qed.
End Env.
