(* ===== verification/XactOps.v ===== *)
(** * The operations of the transaction manager, over views

    For every environment that may fail at any call: what each operation makes of
    the view when it succeeds, and what it can leave behind when it fails. *)

From S2P Require Import Prelude Xid Transam XactState Xact XactView.

(** What an operation that fails half-way may have changed of its node. *)
Definition erase (c : NView) : NView := {|
  nv_state := TRANS_DEFAULT; nv_block := nv_block c; nv_name := nv_name c; nv_level := nv_level c; nv_nest := 0;
  nv_chain := nv_chain c; nv_pml := 0; nv_pcx := nv_pcx c |}.
Definition touched (c c' : NView) : Prop := erase c' = erase c.

Lemma touched_block c c' : touched c c' -> nv_block c' = nv_block c.
Proof. intros H. exact (f_equal nv_block H). Qed.

(** The errors of an operation on the current node. *)
Definition Etouch (ok : PgError -> Prop) (v : View) (e : PgError) (v' : View) : Prop :=
  ok e /\ exists c', v' = von_cur (fun _ => c') v /\ touched (vcur v) c'.

#[global] Arguments vapp _ _ /.
#[global] Arguments nview _ /.

Ltac vsimpl :=
  cbn [vcur von_cur vsubs vtop vpipe vapp nview inflate nv_state nv_block nv_name nv_level nv_nest nv_chain nv_pml nv_pcx
       state block_state name savepoint_level nesting_level chain parallel_mode_level parallel_child_xact
       set_full_transaction_id set_sub_transaction_id set_name set_savepoint_level set_state set_block_state
       set_nesting_level set_guc_nest_level set_child_xids set_did_log_xid set_parallel_mode_level
       set_parallel_child_xact set_chain set_has_resource_owner set_started_in_recovery set_prev_sec_context
       set_prev_user negb andb orb when] in *.

Lemma wpv_no_flags (Q : unit -> View -> Prop) E v : Q tt (mkV (vsubs v) (vtop v) false) -> wpv (mput (set_MyXactFlags 0)) Q E v.
Proof. apply wpv_put. by intros s <-. Qed.

Lemma wpv_put_same f (Q : unit -> View -> Prop) E v : (forall s, view (f s) = view s) -> Q tt v -> wpv (mput f) Q E v.
Proof. intros Hf. apply wpv_put. intros s <-. apply Hf. Qed.

Lemma wpv_note e (Q : unit -> View -> Prop) E v : Q tt v -> wpv (note e) Q E v.
Proof. by apply wpv_put_same. Qed.

Ltac vstep :=
  lazymatch goal with
  | |- wpv (mbnd _ _) _ _ _ => apply wpv_bind
  | |- wpv (mret _) _ _ _ => apply wpv_ret
  | |- wpv (raise _ _ _) _ _ _ => apply wpv_raise
  | |- wpv mget _ _ _ => apply wpv_get; intros ? ?
  | |- wpv cur_block_state _ _ _ => apply wpv_block
  | |- wpv cur_state _ _ _ => apply wpv_state
  | |- wpv (mput (set_MyXactFlags 0)) _ _ _ => apply wpv_no_flags
  | |- wpv (mput (on_node _ _)) _ _ _ => fail
  | |- wpv (mput _) _ _ _ => apply wpv_put_same; [reflexivity|]
  | |- wpv (note _) _ _ _ => apply wpv_note
  | |- wpv (warn _) _ _ _ => apply wpv_note
  | |- wpv (put_current _) _ _ _ => apply wpv_current; [reflexivity|]
  | |- wpv (become _) _ _ _ => apply wpv_current; [reflexivity|]
  | H : Civil ?ok _ |- wpv _ _ _ _ => apply (wpv_neutral ok); [solve [neutral] | intros ? | intros ? ?]
  end; vsimpl.

(** Decides the comparisons of known states. *)
Ltac bdec :=
  repeat match goal with
    | |- context [bool_decide (?a = ?b)] =>
        first [ rewrite (bool_decide_eq_true_2 (a = b)) by reflexivity
              | rewrite (bool_decide_eq_false_2 (a = b)) by discriminate ]
    end; cbn [when negb].

(** The current node, whatever it is, at an error. *)
Ltac etouch :=
  lazymatch goal with
  | |- Etouch _ _ _ _ => split; [assumption || (apply tolerates; repeat constructor) | eexists; split; reflexivity]
  end.
Ltac vsteps := repeat (vstep; try solve [etouch]).

Section Ops.
Variable ok : PgError -> Prop.
Variable env : XactEnv.
Context {HC : Civil ok env}.

Lemma StartTransaction_wpv st b nm lv ne ch pm px p :
  wpv (StartTransaction env)
    (fun _ v' => v' = mkV [] (mkN TRANS_INPROGRESS b nm lv 1 ch pm px) false)
    (fun e v' => ok e /\ exists p', v' = mkV [] (mkN TRANS_START b nm lv 1 ch pm px) p')
    (mkV [] (mkN st b nm lv ne ch pm px) p).
Proof. unfold StartTransaction. repeat (vstep; [|eauto]). all: repeat vstep; eauto. Qed.

Lemma forget_transaction_wpv st b nm lv ne ch pm px p (Q : unit -> View -> Prop) E :
  Q tt (mkV [] (mkN TRANS_DEFAULT b nm lv 0 ch pm px) p) ->
  wpv forget_transaction Q E (mkV [] (mkN st b nm lv ne ch pm px) p).
Proof. intros H. unfold forget_transaction. repeat vstep; try done. Qed.

Lemma AbortTransaction_wpv st b nm lv ne ch pm p :
  let v := mkV [] (mkN st b nm lv ne ch pm false) p in
  wpv (AbortTransaction env) (fun _ v' => v' = mkV [] (mkN TRANS_ABORT b nm lv ne ch 0 false) p)
    (fun e v' => ok e /\ exists st' pm', (st' = st \/ st' = TRANS_ABORT) /\ v' = mkV [] (mkN st' b nm lv ne ch pm' false) p) v.
Proof.
  intros v. subst v. unfold AbortTransaction, release_transaction_owner_before_locks, release_transaction_owner_locks.
  repeat (vstep; eauto 6).
Qed.

(** Only a failed transaction may be cleaned up. *)
Lemma CleanupTransaction_wpv b nm lv ne ch pm px p :
  let v := mkV [] (mkN TRANS_ABORT b nm lv ne ch pm px) p in
  wpv (CleanupTransaction env) (fun _ v' => v' = mkV [] (mkN TRANS_DEFAULT b nm lv 0 ch 0 false) p)
    (fun e v' => ok e /\ v' = v) v.
Proof.
  intros v. unfold CleanupTransaction. subst v. do 2 vstep. rewrite bool_decide_eq_true_2 by done. vsimpl.
  repeat (vstep; eauto). by apply forget_transaction_wpv.
Qed.

Lemma PopTransaction_wpv c cs t p (Q : unit -> View -> Prop) (E : PgError -> View -> Prop) :
  (forall e, ok e -> E e (mkV (c :: cs) t p)) -> Q tt (mkV cs t p) ->
  wpv PopTransaction Q E (mkV (c :: cs) t p).
Proof.
  intros HE HQ. unfold PopTransaction. repeat vstep; [|by apply HE].
  unfold is_subxact. destruct (subs s) as [|n ns] eqn:Es; [unfold view in H; by rewrite Es in H|].
  eapply wpv_put; [|exact HQ]. intros s' Hs'. unfold view, pop_node in *. cbn. injection Hs' as H1 H2 H3.
  destruct (subs s'); [done|]. cbn in *. by simplify_eq.
Qed.

Lemma StartSubTransaction_wpv st b nm lv ne ch pm px cs t p :
  let v := mkV (mkN st b nm lv ne ch pm px :: cs) t p in
  wpv (StartSubTransaction env) (fun _ v' => v' = mkV (mkN TRANS_INPROGRESS b nm lv ne ch pm px :: cs) t p) (Etouch ok v) v.
Proof. intros v. subst v. unfold StartSubTransaction. by vsteps. Qed.

Lemma AbortSubTransaction_wpv st b nm lv ne ch pm px cs t p :
  let v := mkV (mkN st b nm lv ne ch pm px :: cs) t p in
  wpv (AbortSubTransaction env) (fun _ v' => v' = mkV (mkN TRANS_ABORT b nm lv ne ch 0 px :: cs) t p) (Etouch ok v) v.
Proof.
  intros v. subst v. unfold AbortSubTransaction, release_subxact_owner_before_locks, release_subxact_owner_locks.
  by vsteps.
Qed.

Lemma CleanupSubTransaction_wpv c cs t p :
  let v := mkV (c :: cs) t p in wpv (CleanupSubTransaction env) (fun _ v' => v' = mkV cs t p) (Etouch ok v) v.
Proof.
  intros v. subst v. destruct c. unfold CleanupSubTransaction. vsteps.
  apply PopTransaction_wpv; [|done]. intros. etouch.
Qed.

Context {HT : Tolerates ok}.

Lemma CommitTransaction_wpv st b nm lv ne ch pm p :
  b <> TBLOCK_PARALLEL_INPROGRESS ->
  let v := mkV [] (mkN st b nm lv ne ch pm false) p in
  wpv (CommitTransaction env) (fun _ v' => v' = mkV [] (mkN TRANS_DEFAULT b nm lv 0 ch 0 false) p) (Etouch ok v) v.
Proof.
  intros Hb v. subst v. unfold CommitTransaction, release_transaction_owner_before_locks, release_transaction_owner_locks.
  do 2 vstep. rewrite bool_decide_eq_false_2 by done. vsimpl. vsteps. apply forget_transaction_wpv. by vsteps.
Qed.

Lemma PrepareTransaction_wpv st b nm lv ne ch pm px p :
  let v := mkV [] (mkN st b nm lv ne ch pm px) p in
  wpv (PrepareTransaction env) (fun _ v' => v' = mkV [] (mkN TRANS_DEFAULT b nm lv 0 ch pm px) p) (Etouch ok v) v.
Proof.
  intros v. subst v. unfold PrepareTransaction, release_transaction_owner_before_locks, release_transaction_owner_locks.
  vsteps. case_match; [vsteps|]. case_match; vsteps. case_match; vsteps. apply forget_transaction_wpv. by vsteps.
Qed.

Lemma PushTransaction_wpv v (E : PgError -> View -> Prop) (Q : unit -> View -> Prop) :
  let c := vcur v in
  (forall e, ok e -> E e v) ->
  Q tt (mkV (mkN TRANS_DEFAULT TBLOCK_SUBBEGIN None (nv_level c) (nv_nest c + 1) false 0 (negb (nv_pml c =? 0) || nv_pcx c)
             :: vsubs v) (vtop v) (vpipe v)) ->
  wpv (PushTransaction env) Q E v.
Proof.
  intros c HE HQ. unfold PushTransaction. repeat vstep. case_match; repeat vstep; eauto; [apply HE, tolerates; repeat constructor|].
  eapply wpv_put; [|exact HQ]. intros s' Hs'. destruct (view_cur_fields _ _ Hs') as (_ & _ & _ & H1 & H2 & _ & H3 & H4).
  subst c. rewrite <- H1, <- H2, <- H3, <- H4, <- Hs'. reflexivity.
Qed.

Lemma CommitSubTransaction_wpv c cs t p :
  let v := mkV (c :: cs) t p in wpv (CommitSubTransaction env) (fun _ v' => v' = mkV cs t p) (Etouch ok v) v.
Proof.
  intros v. subst v. destruct c. unfold CommitSubTransaction, release_subxact_owner_before_locks, release_subxact_owner_locks.
  vsteps. destruct (_ =? 0); vsimpl; vsteps; (apply PopTransaction_wpv; [|done]); intros; etouch.
Qed.
End Ops.
