(* ===== verification/SessionSpec.v ===== *)
(** * What a client session promises

    The states a client can tell apart, what each transaction statement makes of
    them, and what is left of them when something fails on the way; then how they
    show in the views of the transaction manager. *)

From S2P Require Import Prelude Xid Transam XactState Xact XactView XactOps Session.

(** ** The session machine *)

(** [Single] and [Implicit] occur only while a query runs.  A block carries its
    savepoints, the innermost first. *)
Inductive Sess : Type :=
| Idle
| Single
| Implicit
| Block (saves : list string)
| Failed (saves : list string).

(** The savepoints outside of [nm]. *)
Fixpoint outside (nm : string) (saves : list string) : option (list string) :=
  match saves with
  | [] => None
  | x :: saves => if bool_decide (x = nm) then Some saves else outside nm saves
  end.

(** What an error leaves of a session. *)
Definition sess_abort (q : Sess) : Sess :=
  match q with
  | Idle | Single | Implicit => Idle
  | Block saves | Failed saves => Failed saves
  end.

Definition block_end (chn : bool) : Sess := if chn then Block [] else Idle.

(** A transaction statement: the state it leads to, and whether ROLLBACK is reported
    for it; [None] when it is refused. *)
Definition sess_exec (q : Sess) (kind : TransactionStmtKind) : option (Sess * bool) :=
  match kind, q with
  | (TRANS_STMT_BEGIN _ | TRANS_STMT_START _), (Single | Implicit) => Some (Block [], false)
  | (TRANS_STMT_BEGIN _ | TRANS_STMT_START _), Block saves => Some (Block saves, false)
  | (TRANS_STMT_COMMIT false | TRANS_STMT_ROLLBACK false), (Single | Implicit) => Some (Idle, false)
  | (TRANS_STMT_COMMIT chn | TRANS_STMT_ROLLBACK chn), Block _ => Some (block_end chn, false)
  | TRANS_STMT_COMMIT chn, Failed _ => Some (block_end chn, true)
  | TRANS_STMT_ROLLBACK chn, Failed _ => Some (block_end chn, false)
  | TRANS_STMT_SAVEPOINT nm, Block saves => Some (Block (nm :: saves), false)
  | TRANS_STMT_RELEASE nm, Block saves => (fun saves' => (Block saves', false)) <$> outside nm saves
  | TRANS_STMT_ROLLBACK_TO nm, (Block saves | Failed saves) =>
      (fun saves' => (Block (nm :: saves'), false)) <$> outside nm saves
  | TRANS_STMT_PREPARE _, (Implicit | Block _) => Some (Idle, false)
  | TRANS_STMT_PREPARE _, (Single | Failed _) => Some (Idle, true)
  | (TRANS_STMT_COMMIT_PREPARED _ | TRANS_STMT_ROLLBACK_PREPARED _), Single => Some (Idle, false)
  | _, _ => None
  end.

(** The errors a statement is refused with. *)
Definition outside_block (what : string) : PgError :=
  PgRaise ERROR ERRCODE_NO_ACTIVE_SQL_TRANSACTION (what +:+ " can only be used in transaction blocks").
Definition inside_block (what : string) : PgError :=
  PgRaise ERROR ERRCODE_ACTIVE_SQL_TRANSACTION (what +:+ " cannot run inside a transaction block").
Definition no_savepoint (nm : string) : PgError :=
  PgRaise ERROR ERRCODE_S_E_INVALID_SPECIFICATION (savepoint_msg nm " does not exist").
Definition block_failed : PgError :=
  PgRaise ERROR ERRCODE_IN_FAILED_SQL_TRANSACTION
    "current transaction is aborted, commands ignored until end of transaction block".

(** Which one, for a transaction statement [sess_exec] refuses: a failed block takes
    only the statements that end it, chaining and savepoints need a block, a savepoint
    must be there, and prepared transactions are not finished inside a block. *)
Definition sess_refusal (q : Sess) (kind : TransactionStmtKind) : PgError :=
  match kind, q with
  | TRANS_STMT_ROLLBACK_TO nm, (Block _ | Failed _) => no_savepoint nm
  | _, Failed _ => block_failed
  | TRANS_STMT_COMMIT _, _ => outside_block "COMMIT AND CHAIN"
  | TRANS_STMT_ROLLBACK _, _ => outside_block "ROLLBACK AND CHAIN"
  | TRANS_STMT_RELEASE nm, Block _ => no_savepoint nm
  | TRANS_STMT_SAVEPOINT _, _ => outside_block "SAVEPOINT"
  | TRANS_STMT_RELEASE _, _ => outside_block "RELEASE SAVEPOINT"
  | TRANS_STMT_ROLLBACK_TO _, _ => outside_block "ROLLBACK TO SAVEPOINT"
  | TRANS_STMT_COMMIT_PREPARED _, _ => inside_block "COMMIT PREPARED"
  | TRANS_STMT_ROLLBACK_PREPARED _, _ => inside_block "ROLLBACK PREPARED"
  | _, _ => block_failed
  end.

Definition stmt_refusal (q : Sess) (st : Stmt) : PgError :=
  match st with
  | TransactionStmt kind => sess_refusal q kind
  | OtherStmt _ => block_failed
  end.

(** A transaction statement that was accepted but failed before it was through. *)
Definition sess_mid (q : Sess) (kind : TransactionStmtKind) : Sess :=
  match kind, q with
  | (TRANS_STMT_COMMIT _ | TRANS_STMT_ROLLBACK _ | TRANS_STMT_PREPARE _), _ => Idle
  | (TRANS_STMT_RELEASE nm | TRANS_STMT_ROLLBACK_TO nm), (Block saves | Failed saves) =>
      from_option Failed (Failed saves) (outside nm saves)
  | _, _ => sess_abort q
  end.

(** Around a statement: a transaction of its own, or of its query string. *)
Definition sess_begin (multi : bool) (q : Sess) : Sess :=
  match q with
  | Idle | Single => if multi then Implicit else Single
  | q => q
  end.
Definition sess_leave (q : Sess) : Sess :=
  match q with
  | Single | Implicit => Idle
  | q => q
  end.

(** One statement: its own effect, and the end of the query string if it is the last. *)
Definition sess_stmt (q : Sess) (st : Stmt) (rest : list Stmt) : option (Sess * bool) :=
  match st, q with
  | TransactionStmt kind, q => sess_exec q kind
  | OtherStmt _, Failed _ => None
  | OtherStmt _, q => Some (match rest with [] => sess_leave q | _ :: _ => q end, false)
  end.

(** The statements of a query that succeeds. *)
Fixpoint sess_run (multi : bool) (q : Sess) (l : list Stmt) : option (Sess * list bool) :=
  match l with
  | [] => Some (q, [])
  | st :: rest =>
      r ← sess_stmt (sess_begin multi q) st rest;
      rs ← sess_run multi (fst r) rest;
      Some (fst rs, snd r :: snd rs)
  end.

(** The first statement of a query that the machine refuses: the error it raises, and
    where that leaves the session.  [None] if the machine accepts them all. *)
Fixpoint sess_refused (multi : bool) (q : Sess) (l : list Stmt) : option (PgError * Sess) :=
  match l with
  | [] => None
  | st :: rest =>
      let q := sess_begin multi q in
      match sess_stmt q st rest with
      | Some (q', _) => sess_refused multi q' rest
      | None => Some (stmt_refusal q st, sess_abort q)
      end
  end.

(** Where a query that fails can leave the session. *)
Fixpoint sess_fails (multi : bool) (q : Sess) (l : list Stmt) : list Sess :=
  match l with
  | [] => [sess_abort q]
  | st :: rest =>
      let q := sess_begin multi q in
      sess_abort q ::
      match st with TransactionStmt kind => [sess_mid q kind] | OtherStmt _ => [] end ++
      match sess_stmt q st rest with
      | Some (q', _) => sess_fails multi q' rest
      | None => []
      end
  end.

Definition is_multi (l : list Stmt) : bool := (1 <? length l)%nat.

(** A whole query. *)
Definition sess_query (q : Sess) (l : list Stmt) : option (Sess * list bool) :=
  match l with
  | [] => Some (sess_leave (sess_begin false q), [])
  | _ :: _ => sess_run (is_multi l) q l
  end.

(** A session: every message is answered, or fails. *)
Inductive sess_trace : Sess -> list (list Stmt) -> list (option (list bool)) -> Sess -> Prop :=
| trace_nil q : sess_trace q [] [] q
| trace_done q l told q1 ls answers q2 :
    sess_query q l = Some (q1, told) -> sess_trace q1 ls answers q2 -> sess_trace q (l :: ls) (Some told :: answers) q2
| trace_failed q l q1 ls answers q2 :
    q1 ∈ sess_fails (is_multi l) q l -> sess_trace q1 ls answers q2 -> sess_trace q (l :: ls) (None :: answers) q2.

(** What the client is told about the state of its transaction. *)
Definition sess_status (q : Sess) : StatusCode :=
  match q with
  | Idle | Single => StatusI
  | Implicit | Block _ => StatusT
  | Failed _ => StatusE
  end.

(** A refusal is an ordinary error, and one of the ways a query fails. *)
Lemma refusal_ordinary q st : level_fatal (stmt_refusal q st) = false.
Proof. by destruct st as [[]|], q. Qed.

Lemma sess_refused_None multi q l : sess_refused multi q l = None <-> is_Some (sess_run multi q l).
Proof.
  revert q. induction l as [|st rest IH]; intros q; cbn; [split; [by eexists | done]|].
  destruct (sess_stmt _ _ _) as [[q' told]|]; cbn; [|split; [done | by intros []]].
  rewrite IH. destruct (sess_run multi q' rest) as [[]|]; cbn; split; try done; try (by intros []); by eexists.
Qed.

Lemma sess_refused_fails multi q l e q' :
  sess_refused multi q l = Some (e, q') -> level_fatal e = false /\ q' ∈ sess_fails multi q l.
Proof.
  revert q. induction l as [|st rest IH]; intros q; cbn; [done|].
  destruct (sess_stmt _ _ _) as [[q2 told]|].
  - intros [Hf Hin]%IH. split; [done|]. set_solver.
  - intros [= <- <-]. split; [apply refusal_ordinary | set_solver].
Qed.

(** ** The machine in the views of the transaction manager *)

Definition live (nm : string) (c : NView) : Prop :=
  exists ne, c = mkN TRANS_INPROGRESS TBLOCK_SUBINPROGRESS (Some nm) 0 ne false 0 false.
Definition lives : list string -> list NView -> Prop := Forall2 live.

Definition top_is (st : TransState) (b : TBlockState) (t : NView) : Prop := exists ne ch, t = mkN st b None 0 ne ch 0 false.

Definition Shows (q : Sess) (v : View) : Prop :=
  match q with
  | Idle => vsubs v = [] /\ top_is TRANS_DEFAULT TBLOCK_DEFAULT (vtop v)
  | Single => vsubs v = [] /\ vpipe v = false /\ exists ch, vtop v = mkN TRANS_INPROGRESS TBLOCK_STARTED None 0 1 ch 0 false
  | Implicit => vsubs v = [] /\ top_is TRANS_INPROGRESS TBLOCK_IMPLICIT_INPROGRESS (vtop v)
  | Block saves => lives saves (vsubs v) /\ top_is TRANS_INPROGRESS TBLOCK_INPROGRESS (vtop v)
  | Failed [] => vsubs v = [] /\ top_is TRANS_ABORT TBLOCK_ABORT (vtop v)
  | Failed (nm :: saves) =>
      exists ne cs, vsubs v = mkN TRANS_ABORT TBLOCK_SUBABORT (Some nm) 0 ne false 0 false :: cs /\
      lives saves cs /\ top_is TRANS_INPROGRESS TBLOCK_INPROGRESS (vtop v)
  end.

Definition sess_block (q : Sess) : TBlockState :=
  match q with
  | Idle => TBLOCK_DEFAULT
  | Single => TBLOCK_STARTED
  | Implicit => TBLOCK_IMPLICIT_INPROGRESS
  | Block [] => TBLOCK_INPROGRESS
  | Block (_ :: _) => TBLOCK_SUBINPROGRESS
  | Failed [] => TBLOCK_ABORT
  | Failed (_ :: _) => TBLOCK_SUBABORT
  end.

Lemma Shows_block q v : Shows q v -> nv_block (vcur v) = sess_block q.
Proof.
  destruct v as [cs t p]. destruct q as [| | |saves|[|nm saves]]; cbn.
  - by intros [-> (ne & ch & ->)].
  - by intros (-> & _ & ch & ->).
  - by intros [-> (ne & ch & ->)].
  - intros [Hl (ne & ch & ->)]. by destruct Hl as [|nm c saves cs (ne' & ->) _].
  - by intros [-> (ne & ch & ->)].
  - by intros (ne & cs' & -> & _).
Qed.

(** ** Where an abort will land *)

Definition lands_top (t : NView) (q : Sess) : Prop :=
  nv_name t = None /\ nv_level t = 0 /\ nv_pcx t = false /\
  match nv_block t with
  | TBLOCK_DEFAULT => (nv_state t = TRANS_DEFAULT -> nv_pml t = 0) /\ q = Idle
  | TBLOCK_STARTED | TBLOCK_IMPLICIT_INPROGRESS | TBLOCK_BEGIN | TBLOCK_END | TBLOCK_ABORT_PENDING | TBLOCK_PREPARE => q = Idle
  | TBLOCK_INPROGRESS => q = Failed []
  | TBLOCK_ABORT => nv_state t = TRANS_ABORT /\ nv_pml t = 0 /\ q = Failed []
  | TBLOCK_ABORT_END => nv_state t = TRANS_ABORT /\ q = Idle
  | _ => False
  end.

(** From here the abort stops: at this savepoint, with [cs] around it. *)
Definition lands_here (c : NView) (cs : list NView) (t : NView) (q : Sess) : Prop :=
  exists nm saves, q = Failed (nm :: saves) /\ nv_name c = Some nm /\ nv_level c = 0 /\ nv_chain c = false /\
  nv_pcx c = false /\ lives saves cs /\ top_is TRANS_INPROGRESS TBLOCK_INPROGRESS t.

Fixpoint lands (cs : list NView) (t : NView) (q : Sess) : Prop :=
  match cs with
  | [] => lands_top t q
  | c :: cs =>
      match nv_block c with
      | TBLOCK_SUBINPROGRESS => lands_here c cs t q
      | TBLOCK_SUBABORT => nv_state c = TRANS_ABORT /\ nv_pml c = 0 /\ lands_here c cs t q
      | TBLOCK_SUBBEGIN | TBLOCK_SUBRELEASE | TBLOCK_SUBCOMMIT | TBLOCK_SUBABORT_PENDING | TBLOCK_SUBRESTART
      | TBLOCK_SUBABORT_END | TBLOCK_SUBABORT_RESTART => lands cs t q
      | _ => False
      end
  end.

Definition Lands (v : View) (q : Sess) : Prop := lands (vsubs v) (vtop v) q.

Lemma lives_lands saves cs t :
  lives saves cs -> top_is TRANS_INPROGRESS TBLOCK_INPROGRESS t -> lands cs t (Failed saves).
Proof.
  intros Hl Ht. destruct Hl as [|nm c saves cs [ne ->] Hl]; cbn.
  - by destruct Ht as (ne & ch & ->).
  - by exists nm, saves.
Qed.

(** An error in a settled session lands where the machine says. *)
Lemma Shows_lands q v : Shows q v -> Lands v (sess_abort q).
Proof.
  destruct v as [cs t p]. destruct q as [| | |saves|[|nm saves]]; cbn; unfold Lands; cbn.
  1,3: by intros [-> (ne & ch & ->)].
  - by intros (-> & _ & ch & ->).
  - intros []. by apply lives_lands.
  - intros [-> (ne & ch & ->)]. done.
  - intros (ne & cs' & -> & Hl & Ht). cbn. repeat split. by exists nm, saves.
Qed.

(** ** An abort does land there *)

Section Abort.
Variable ok : PgError -> Prop.
Variable env : XactEnv.
Context {HC : Civil ok env}.

(** The errors on the way do not change where it will land. *)
Definition Eland (q : Sess) (e : PgError) (v : View) : Prop := ok e /\ Lands v q.

(** The ways a top-level transaction ends. *)
Lemma abort_and_forget st b nm lv ne ch pm p (Q : unit -> View -> Prop) (E : PgError -> View -> Prop) :
  Q tt (mkV [] (mkN TRANS_DEFAULT b nm lv 0 ch 0 false) p) ->
  (forall e st' pm', ok e -> st' = st \/ st' = TRANS_ABORT -> E e (mkV [] (mkN st' b nm lv ne ch pm' false) p)) ->
  wpv (AbortTransaction env ;! CleanupTransaction env) Q E (mkV [] (mkN st b nm lv ne ch pm false) p).
Proof.
  intros HQ HE. vstep. eapply wpv_conseq; [by apply (AbortTransaction_wpv ok)| |]; cbn.
  - intros _ v' ->. eapply wpv_conseq; [by apply (CleanupTransaction_wpv ok)| |]; cbn; [by intros [] v' -> | ].
    intros e v' [He ->]. apply HE; auto.
  - intros e v' [He (st' & pm' & Hst & ->)]. by apply HE.
Qed.

Lemma sub_abort_and_forget c cs t p (Q : unit -> View -> Prop) (E : PgError -> View -> Prop) :
  Q tt (mkV cs t p) ->
  (forall e c', ok e -> nv_block c' = nv_block c -> E e (mkV (c' :: cs) t p)) ->
  wpv (AbortSubTransaction env ;! CleanupSubTransaction env) Q E (mkV (c :: cs) t p).
Proof.
  intros HQ HE. destruct c. vstep. eapply wpv_conseq; [by apply (AbortSubTransaction_wpv ok)| |]; cbn.
  - intros _ v' ->. eapply wpv_conseq; [by apply (CleanupSubTransaction_wpv ok)| |]; cbn; [by intros [] v' -> | ].
    intros e v' [He (c' & -> & Ht)]. apply HE; [done|]. by apply touched_block in Ht.
  - intros e v' [He (c' & -> & Ht)]. apply HE; [done|]. by apply touched_block in Ht.
Qed.

Lemma sub_forget c cs t p (Q : unit -> View -> Prop) (E : PgError -> View -> Prop) :
  Q tt (mkV cs t p) ->
  (forall e c', ok e -> nv_block c' = nv_block c -> E e (mkV (c' :: cs) t p)) ->
  wpv (CleanupSubTransaction env) Q E (mkV (c :: cs) t p).
Proof.
  intros HQ HE. eapply wpv_conseq; [by apply (CleanupSubTransaction_wpv ok)| |]; cbn; [by intros [] v' -> | ].
  intros e v' [He (c' & -> & Ht)]. apply HE; [done|]. by apply touched_block in Ht.
Qed.

(** One round at the top. *)
Lemma AbortCurrent_top t p q :
  lands_top t q ->
  wpv (AbortCurrentTransactionInternal env) (fun done v' => done = true /\ Shows q v') (Eland q) (mkV [] t p).
Proof.
  destruct t as [st b nm lv ne ch pm px]. unfold lands_top. cbn. intros (-> & -> & -> & Hb).
  unfold AbortCurrentTransactionInternal. do 2 vstep.
  destruct b; cbn in Hb; try done; destruct_and?; subst;
    try (apply wpv_assoc; vstep; apply abort_and_forget; [|by intros]; repeat vstep; split; [done|]; by repeat eexists).
  - do 2 vstep. destruct (bool_decide_reflect (st = TRANS_DEFAULT)) as [->|Hst].
    { rewrite H by done. repeat vstep. split; [done|]. by repeat eexists. }
    vstep.
    assert (Hgo : forall st, st <> TRANS_DEFAULT ->
      wpv (AbortTransaction env ;! CleanupTransaction env)
        (fun _ => wpv (mret true) (fun done v' => done = true /\ Shows Idle v') (Eland Idle)) (Eland Idle)
        (mkV [] (mkN st TBLOCK_DEFAULT None 0 ne ch pm false) p)).
    { clear H Hst st. intros st Hst. apply abort_and_forget; [repeat vstep; split; [done|]; by repeat eexists|].
      intros e st' pm' He Hst'. split; [done|]. repeat split. cbn. naive_solver. }
    vstep. case_bool_decide; vsimpl; vstep; by apply Hgo.
  - vstep. eapply wpv_conseq; [by apply (AbortTransaction_wpv ok)| |]; cbn.
    + intros _ v' ->. repeat vstep. split; [done|]. by repeat eexists.
    + intros e v' [He (st' & pm' & _ & ->)]. by split.
  - repeat vstep. split; [done|]. by repeat eexists.
  - vstep. eapply wpv_conseq; [by apply (CleanupTransaction_wpv ok)| |]; cbn.
    + intros _ v' ->. repeat vstep. split; [done|]. by repeat eexists.
    + intros e v' [He ->]. by split.
Qed.

(** One round in a subtransaction: it stops here, or the stack gets shorter. *)
Lemma AbortCurrent_sub c cs t p q :
  lands (c :: cs) t q ->
  wpv (AbortCurrentTransactionInternal env)
    (fun done v' => if done : bool then Shows q v' else v' = mkV cs t p /\ lands cs t q) (Eland q) (mkV (c :: cs) t p).
Proof.
  unfold AbortCurrentTransactionInternal. intros Hl. do 2 vstep.
  destruct c as [st b nm lv ne ch pm px]. destruct b; cbn in Hl |- *; try done;
    try (apply wpv_assoc; vstep; apply sub_abort_and_forget;
         [by repeat vstep | intros e c' He Hb; split; [done|]; unfold Lands; cbn; by rewrite Hb]);
    try (vstep; apply sub_forget;
         [by repeat vstep | intros e c' He Hb; split; [done|]; unfold Lands; cbn; by rewrite Hb]).
  - unfold lands_here in Hl. cbn in Hl. destruct Hl as (nm' & saves & -> & -> & -> & -> & -> & Hl & Ht). cbn. vstep.
    eapply wpv_conseq; [by apply (AbortSubTransaction_wpv ok)| |]; cbn.
    + intros _ v' ->. repeat vstep. by exists ne, cs.
    + intros e v' [He (c' & -> & Htt)]. split; [done|]. injection Htt as Hb Hn Hlv Hc Hpx.
      unfold Lands; cbn. rewrite Hb. by exists nm', saves.
  - unfold lands_here in Hl. cbn in Hl. destruct Hl as (-> & -> & nm' & saves & -> & -> & -> & -> & -> & Hl & Ht). vstep. by exists ne, cs.
Qed.

(** An abort lands where it should, however often it fails on the way; the fuel is
    enough. *)
Lemma AbortCurrentTransaction_lands v q :
  Lands v q -> wpv (AbortCurrentTransaction env) (fun _ v' => Shows q v') (Eland q) v.
Proof.
  destruct v as [cs t p]. unfold Lands. cbn. intros Hl. unfold AbortCurrentTransaction. do 2 vstep.
  rewrite (view_stack_len s), H. cbn [vsubs]. clear s H.
  induction cs as [|c cs IH]; cbn [length until_true]; vstep.
  - eapply wpv_conseq; [by apply AbortCurrent_top| |]; cbn; [|done]. intros done v' [-> HS]. by vstep.
  - eapply wpv_conseq; [by apply AbortCurrent_sub| |]; cbn; [|done]. intros [] v'; [intros HS; by vstep|].
    intros [-> Hl']. by apply IH.
Qed.

Lemma Eland_neutral {A} (m : M XactState A) `{!Neutral ok m} q (Q : A -> View -> Prop) v :
  Lands v q -> (forall a, Q a v) -> wpv m Q (Eland q) v.
Proof. intros Hl HQ. by apply (wpv_neutral ok). Qed.

Lemma Shows_settled q v : sess_abort q = q -> Shows q v -> Lands v q.
Proof. intros Hq HS. rewrite <- Hq. by apply Shows_lands. Qed.

(** Whatever fails in the recovery, the session settles there or the backend ends. *)
Lemma error_recovery_lands first v q :
  sess_abort q = q -> Lands v q -> wpv (error_recovery env first) (fun _ v' => Shows q v') (Eland q) v.
Proof.
  intros Hq Hl. unfold error_recovery. do 3 (vstep; apply Eland_neutral; [neutral|done|intros _]).
  vstep. eapply wpv_conseq; [by apply AbortCurrentTransaction_lands| |done]. cbn. intros _ v' HS.
  pose proof (Shows_settled q v' Hq HS). do 2 (vstep; apply Eland_neutral; [neutral|done|intros _]).
  by apply Eland_neutral; [neutral| |].
Qed.

Lemma wpv_catch {A} (m : M XactState A) (Q : result A -> View -> Prop) E v :
  wpv m (fun a => Q (Ok a)) (fun e => Q (Err e)) v -> wpv (catch_unwind m) Q E v.
Proof. intros H s Hs. specialize (H s Hs). unfold wpe, catch_unwind in *. by destruct (m s) as [[a|e|] s']. Qed.

Lemma recovery_attempts_lands n first v q :
  sess_abort q = q -> Lands v q ->
  wpv (recovery_attempts env n first) (fun settled v' => settled = true -> Shows q v')
    (fun e _ => ok e /\ level_fatal e = true) v.
Proof.
  intros Hq. revert first v. induction n as [|n IH]; intros first v Hl; cbn; [by vstep|].
  vstep. apply wpv_catch. eapply wpv_conseq; [by apply error_recovery_lands| |]; cbn.
  - intros _ v' HS. by vstep.
  - intros e v' [He Hl']. destruct (level_fatal e) eqn:Hf; [by apply wpv_err|]. by apply IH.
Qed.
End Abort.
