(* ===== verification/SessionExec.v ===== *)
(** * The transaction statements, from the session machine's point of view

    Each statement marks the stack of transaction nodes, and the end of the command
    acts on the marks.  For every statement: what is marked, where the end of the
    command gets from there, and where an error on the way lands. *)

From S2P Require Import Prelude Xid Transam XactState Xact XactView XactOps Session SessionSpec.

(** Rewrites with the fields of the current node. *)
Ltac use_view H :=
  let Es := fresh in let Eb := fresh in let En := fresh in let El := fresh in
  let Ene := fresh in let Ec := fresh in let Em := fresh in let Ex := fresh in
  destruct (view_cur_fields _ _ H) as (Es & Eb & En & El & Ene & Ec & Em & Ex);
  rewrite ?Es, ?Eb, ?En, ?El, ?Ene, ?Ec, ?Em, ?Ex; vsimpl; clear Es Eb En El Ene Ec Em Ex.

Section Exec.
Variable ok : PgError -> Prop.
Variable env : XactEnv.
Context {HC : Civil ok env}.
Context {HT : Tolerates ok}.

(** ** The end of a command *)

Lemma commit_command v (Q : unit -> View -> Prop) E :
  wpv (until_true (S (length (vsubs v))) (CommitTransactionCommandInternal env)) Q E v ->
  wpv (CommitTransactionCommand env) Q E v.
Proof. intros Hw. unfold CommitTransactionCommand. do 2 vstep. by rewrite (view_stack_len s), H. Qed.

Lemma until_one n m (Q : unit -> View -> Prop) E v :
  wpv m (fun b v' => b = true /\ Q tt v') E v -> wpv (until_true (S n) m) Q E v.
Proof. intros H. cbn. vstep. eapply wpv_conseq; [exact H| |done]. intros b v' [-> HQ]. by vstep. Qed.

Lemma touched_lands_top t t' p q :
  touched t t' -> (forall st ne pm, lands_top (mkN st (nv_block t) (nv_name t) (nv_level t) ne (nv_chain t) pm (nv_pcx t)) q) ->
  Lands (mkV [] t' p) q.
Proof. destruct t'. intros Ht Hl. injection Ht as -> -> -> -> ->. apply Hl. Qed.

Lemma start_chained_wpv saved ch p :
  wpv (start_chained env saved ;! mret true) (fun b v' => b = true /\ Shows (block_end ch) v') (Eland ok Idle)
    (mkV [] (mkN TRANS_DEFAULT TBLOCK_DEFAULT None 0 0 ch 0 false) p).
Proof.
  unfold start_chained. repeat vstep. use_view H. destruct ch; vsimpl; [|repeat vstep; by repeat eexists].
  vstep. eapply wpv_conseq; [by apply (StartTransaction_wpv ok)| |].
  - intros _ v' ->. unfold RestoreTransactionCharacteristics. repeat vstep. split; [done|]. split; [constructor|]. by repeat eexists.
  - intros e v' [He (p' & ->)]. by repeat split.
Qed.

(** A committed top-level transaction, from STARTED or END. *)
Lemma commit_top_wpv {A} st b ne ch pm p (k : M XactState A) (Q : A -> View -> Prop) :
  b = TBLOCK_STARTED \/ b = TBLOCK_END ->
  wpv k Q (Eland ok Idle) (mkV [] (mkN TRANS_DEFAULT TBLOCK_DEFAULT None 0 0 ch 0 false) p) ->
  wpv (CommitTransaction env ;! become TBLOCK_DEFAULT ;! k) Q (Eland ok Idle) (mkV [] (mkN st b None 0 ne ch pm false) p).
Proof.
  intros Hb Hk. vstep. eapply wpv_conseq; [apply (CommitTransaction_wpv ok); by destruct Hb as [-> | ->]| |].
  - intros _ v' ->. by do 2 vstep.
  - intros e v' [He (t' & -> & Ht)]. split; [done|]. apply (touched_lands_top _ _ _ _ Ht). intros. by destruct Hb as [-> | ->].
Qed.
(** [v] is a stack whose marks make the end of the command lead to [q2], with
    errors that land in [qm]. *)
Definition Ready (v : View) (q2 qm : Sess) : Prop :=
  Lands v qm /\ nv_block (vcur v) <> TBLOCK_IMPLICIT_INPROGRESS /\
  wpv (until_true (S (length (vsubs v))) (CommitTransactionCommandInternal env)) (fun _ v' => Shows q2 v') (Eland ok qm) v.

Lemma ready_commit v q2 qm :
  Ready v q2 qm -> wpv (CommitTransactionCommand env) (fun _ v' => Shows q2 v') (Eland ok qm) v.
Proof. intros (_ & _ & H). by apply commit_command. Qed.

(** Opens the case of one block state. *)
Ltac commit_case :=
  unfold CommitTransactionCommandInternal; do 2 vstep;
  match goal with H : view _ = _ |- _ => use_view H end.

Lemma ready_started st ne ch pm p : Ready (mkV [] (mkN st TBLOCK_STARTED None 0 ne ch pm false) p) Idle Idle.
Proof.
  repeat split; [done|]. cbn [vsubs length]. apply until_one. commit_case.
  apply commit_top_wpv; [auto|]. repeat vstep. by repeat eexists.
Qed.

Lemma ready_begin ne ch p : Ready (mkV [] (mkN TRANS_INPROGRESS TBLOCK_BEGIN None 0 ne ch 0 false) p) (Block []) Idle.
Proof.
  repeat split; [done|]. cbn [vsubs length]. apply until_one. commit_case. repeat vstep.
  repeat split; [constructor | by repeat eexists].
Qed.

Lemma ready_block saves v : Shows (Block saves) v -> Ready v (Block saves) (Failed saves).
Proof.
  intros HS. pose proof (Shows_lands _ _ HS) as HL. split; [done|]. destruct v as [cs t p].
  destruct HS as [Hl (ne & ch & Ht)]. cbn in *. subst t.
  destruct Hl as [|nm c saves cs [ne' ->] Hl]; (split; [done|]); cbn [vsubs length]; apply until_one; commit_case.
  all: vstep; apply Eland_neutral; [neutral|done|intros _]; vstep; split; [done|]; split; [|by repeat eexists].
  - constructor.
  - constructor; [by exists ne' | done].
Qed.

(** A failed block stays as it is. *)
Lemma ready_failed saves v : Shows (Failed saves) v -> Ready v (Failed saves) (Failed saves).
Proof.
  intros HS. split; [by apply (Shows_lands (Failed saves))|]. rewrite (Shows_block _ _ HS). split; [by destruct saves|].
  apply until_one. unfold CommitTransactionCommandInternal. do 2 vstep. use_view H. rewrite (Shows_block _ _ HS).
  destruct saves; cbn; by vstep.
Qed.

Lemma ready_end st ne ch pm p : Ready (mkV [] (mkN st TBLOCK_END None 0 ne ch pm false) p) (block_end ch) Idle.
Proof.
  repeat split; [done|]. cbn [vsubs length]. apply until_one. commit_case.
  apply commit_top_wpv; [auto|]. apply start_chained_wpv.
Qed.

Lemma ready_abort_end ne ch pm p : Ready (mkV [] (mkN TRANS_ABORT TBLOCK_ABORT_END None 0 ne ch pm false) p) (block_end ch) Idle.
Proof.
  repeat split; [done|]. cbn [vsubs length]. apply until_one. commit_case. vstep.
  eapply wpv_conseq; [by apply (CleanupTransaction_wpv ok)| |]; cbn.
  - intros _ v' ->. do 2 vstep. apply start_chained_wpv.
  - intros e v' [He ->]. by split.
Qed.

Lemma ready_abort_pending st ne ch pm p : Ready (mkV [] (mkN st TBLOCK_ABORT_PENDING None 0 ne ch pm false) p) (block_end ch) Idle.
Proof.
  repeat split; [done|]. cbn [vsubs length]. apply until_one. commit_case. apply wpv_assoc. vstep.
  apply (abort_and_forget ok); [done| |by intros]. do 2 vstep. apply start_chained_wpv.
Qed.

Lemma prepare_top_wpv st ne ch p :
  wpv (PrepareTransaction env ;! become TBLOCK_DEFAULT ;! mret true) (fun b v' => b = true /\ Shows Idle v') (Eland ok Idle)
    (mkV [] (mkN st TBLOCK_PREPARE None 0 ne ch 0 false) p).
Proof.
  vstep. eapply wpv_conseq; [by apply (PrepareTransaction_wpv ok)| |]; cbn.
  - intros _ v' ->. repeat vstep. by repeat eexists.
  - intros e v' [He (t' & -> & Ht)]. split; [done|]. by apply (touched_lands_top _ _ _ _ Ht).
Qed.

Lemma ready_prepare st ne ch p : Ready (mkV [] (mkN st TBLOCK_PREPARE None 0 ne ch 0 false) p) Idle Idle.
Proof. repeat split; [done|]. cbn [vsubs length]. apply until_one. commit_case. apply prepare_top_wpv. Qed.

(** ** Marked stacks *)

(** The marks of ROLLBACK: one more subtransaction to abort. *)
Lemma ready_pending c cs t p q2 qm :
  nv_block c = TBLOCK_SUBABORT_PENDING \/ nv_block c = TBLOCK_SUBABORT_END ->
  Ready (mkV cs t p) q2 qm -> Ready (mkV (c :: cs) t p) q2 qm.
Proof.
  intros Hb (HL & _ & Hw). unfold Lands in HL. cbn [vsubs vtop length] in HL, Hw.
  assert (Hlands : forall e c', ok e -> nv_block c' = nv_block c -> Eland ok qm e (mkV (c' :: cs) t p)).
  { intros e c' He Hc. split; [done|]. unfold Lands. cbn. rewrite Hc. by destruct Hb as [-> | ->]. }
  split; [unfold Lands; cbn; by destruct Hb as [-> | ->]|]. split; [cbn; by destruct Hb as [-> | ->]|].
  cbn [vsubs length]. remember (S (length cs)) as n. cbn [until_true]. vstep. commit_case.
  destruct Hb as [Hb | Hb]; rewrite Hb; [apply wpv_assoc|]; vstep.
  - apply (sub_abort_and_forget ok); [done | by vstep | done].
  - apply (sub_forget ok); [done | by vstep | done].
Qed.

(** The mark of SAVEPOINT. *)
Lemma ready_savepoint nm ne saves cs t p :
  lives saves cs -> top_is TRANS_INPROGRESS TBLOCK_INPROGRESS t ->
  Ready (mkV (mkN TRANS_DEFAULT TBLOCK_SUBBEGIN (Some nm) 0 ne false 0 false :: cs) t p) (Block (nm :: saves)) (Failed saves).
Proof.
  intros Hl Ht. pose proof (lives_lands _ _ _ Hl Ht) as HL. repeat split; [done..|].
  cbn [vsubs length]. apply until_one. commit_case. vstep.
  eapply wpv_conseq; [by apply (StartSubTransaction_wpv ok)| |]; cbn.
  - intros _ v' ->. repeat vstep. split; [done|]. split; [|done]. constructor; [by exists ne | done].
  - intros e v' [He (c' & -> & Hb%touched_block)]. split; [done|]. unfold Lands. cbn in *. by rewrite Hb.
Qed.

(** The marks of RELEASE, and of COMMIT. *)
Lemma commit_subs_wpv b rel cs t p qm (Q : unit -> View -> Prop) n :
  (b = TBLOCK_SUBRELEASE \/ b = TBLOCK_SUBCOMMIT) ->
  Forall (fun c => nv_block c = b) rel -> rel <> [] -> nv_block (vcur (mkV cs t p)) <> b ->
  lands cs t qm -> (length rel <= n)%nat -> Q tt (mkV cs t p) ->
  wpv (commit_subs env n b) Q (Eland ok qm) (mkV (rel ++ cs) t p).
Proof.
  intros Hb Hrel Hne Hcs HL Hn HQ. revert n Hn. induction Hrel as [|c rel Hc Hrel IH]; intros n Hn; [done|].
  destruct n as [|n]; [cbn in Hn; lia|]. cbn [commit_subs]. vstep.
  assert (Hl : lands (rel ++ cs) t qm).
  { clear -Hrel HL Hb. induction Hrel as [|c' rel Hc' Hrel IH]; [done|]. cbn. rewrite Hc'. by destruct Hb as [-> | ->]. }
  eapply wpv_conseq; [by apply (CommitSubTransaction_wpv ok)| |]; cbn.
  - intros _ v' ->. do 2 vstep. destruct rel as [|c2 rel]; cbn.
    + rewrite bool_decide_eq_false_2 by done. by vstep.
    + rewrite bool_decide_eq_true_2 by (by inversion Hrel). apply IH; [done|]. cbn in Hn. cbn. lia.
  - intros e v' [He (c' & -> & Hc'%touched_block)]. split; [done|]. unfold Lands. cbn in *. rewrite Hc', Hc.
    by destruct Hb as [-> | ->].
Qed.
Lemma ready_release rel saves cs t p :
  Forall (fun c => nv_block c = TBLOCK_SUBRELEASE) rel -> rel <> [] ->
  lives saves cs -> top_is TRANS_INPROGRESS TBLOCK_INPROGRESS t ->
  Ready (mkV (rel ++ cs) t p) (Block saves) (Failed saves).
Proof.
  intros Hrel Hne Hl Ht. pose proof (lives_lands _ _ _ Hl Ht) as HL.
  assert (Hc : nv_block (vcur (mkV (rel ++ cs) t p)) = TBLOCK_SUBRELEASE) by (by destruct Hrel).
  split; [unfold Lands; cbn; clear -Hrel HL; induction Hrel as [|c rel Hc Hrel IH]; [done|]; cbn; by rewrite Hc|].
  split; [by rewrite Hc|]. cbn [vsubs length]. apply until_one. commit_case. rewrite Hc. vstep.
  eapply commit_subs_wpv; eauto.
  - destruct Hl as [|nm c saves cs [ne ->] _]; cbn; [|done]. by destruct Ht as (? & ? & ->).
  - rewrite (view_stack_len s), H. cbn. rewrite length_app. lia.
  - vstep. by split.
Qed.

(** COMMIT or PREPARE TRANSACTION with open savepoints: all are released first. *)
Lemma ready_subcommit cs t p q2 :
  Forall (fun c => nv_block c = TBLOCK_SUBCOMMIT) cs -> cs <> [] ->
  nv_name t = None -> nv_level t = 0 -> nv_pml t = 0 -> nv_pcx t = false ->
  nv_block t = TBLOCK_END /\ q2 = block_end (nv_chain t) \/ nv_block t = TBLOCK_PREPARE /\ q2 = Idle ->
  Ready (mkV cs t p) q2 Idle.
Proof.
  intros Hrel Hne. destruct t as [st b nm lv ne ch pm px]. cbn. intros -> -> -> -> Hb.
  assert (HL : lands [] (mkN st b None 0 ne ch 0 false) Idle) by (by destruct Hb as [[-> _]|[-> _]]).
  assert (Hc : nv_block (vcur (mkV cs (mkN st b None 0 ne ch 0 false) p)) = TBLOCK_SUBCOMMIT) by (by destruct Hrel).
  split; [unfold Lands; cbn; clear -Hrel HL; induction Hrel as [|c rel Hc Hrel IH]; [done|]; cbn; by rewrite Hc|].
  split; [by rewrite Hc|]. cbn [vsubs length]. apply until_one. commit_case. rewrite Hc. vstep.
  rewrite <- (app_nil_r cs) at 1. eapply commit_subs_wpv; eauto.
  - cbn. by destruct Hb as [[-> _]|[-> _]].
  - rewrite (view_stack_len s), H. cbn. lia.
  - do 2 vstep. destruct Hb as [[-> ->]|[-> ->]]; [|apply prepare_top_wpv].
    apply commit_top_wpv; [auto|]. apply start_chained_wpv.
Qed.

Lemma not_parallel s v :
  view s = v -> nv_pml (vcur v) = 0 -> nv_pcx (vcur v) = false -> IsInParallelMode s || is_parallel_worker env = false.
Proof. intros Hs Hm Hx. unfold IsInParallelMode. rewrite civil_not_worker. use_view Hs. by rewrite Hm, Hx. Qed.

(** The innermost node of a block is as calm as the others. *)
Lemma block_cur saves v : Shows (Block saves) v ->
  nv_level (vcur v) = 0 /\ nv_pml (vcur v) = 0 /\ nv_pcx (vcur v) = false /\
  nv_block (vcur v) = match saves with [] => TBLOCK_INPROGRESS | _ :: _ => TBLOCK_SUBINPROGRESS end.
Proof.
  destruct v as [cs t p]. intros [Hl (ne & ch & Ht)]. cbn in *. subst t.
  by destruct Hl as [|nm c saves cs [ne' ->] Hl].
Qed.

Lemma DefineSavepoint_wpv nm saves cs t p :
  lives saves cs -> top_is TRANS_INPROGRESS TBLOCK_INPROGRESS t ->
  wpv (DefineSavepoint env nm)
    (fun _ v' => exists ne, v' = mkV (mkN TRANS_DEFAULT TBLOCK_SUBBEGIN nm 0 ne false 0 false :: cs) t p)
    (Eland ok (Failed saves)) (mkV cs t p).
Proof.
  intros Hl Ht. pose proof (lives_lands _ _ _ Hl Ht) as HL.
  destruct (block_cur saves (mkV cs t p)) as (Hlv & Hm & Hx & Hb); [done|].
  unfold DefineSavepoint. do 2 vstep. rewrite (not_parallel s _ H) by done. use_view H. rewrite Hb.
  assert (Hgo : wpv (PushTransaction env ;!
      match nm with
      | Some nm => try_reserve env "out of memory saving savepoint name" ;! put_current (set_name (Some nm))
      | None => mret tt
      end) (fun _ v' => exists ne, v' = mkV (mkN TRANS_DEFAULT TBLOCK_SUBBEGIN nm 0 ne false 0 false :: cs) t p)
      (Eland ok (Failed saves)) (mkV cs t p)); [|by destruct saves].
  vstep. apply (PushTransaction_wpv ok); [done..|]. rewrite Hlv, Hm, Hx. cbn. destruct nm as [nm|].
  - vstep. apply Eland_neutral; [neutral|done|intros _]. repeat vstep. by eexists.
  - vstep. by eexists.
Qed.
(** The mark of ROLLBACK TO: the savepoint is aborted, and set again. *)
Lemma restart_savepoint_wpv nm c saves cs t p :
  lives saves cs -> top_is TRANS_INPROGRESS TBLOCK_INPROGRESS t ->
  (forall c', nv_block c' = nv_block c -> lands (c' :: cs) t (Failed saves)) ->
  wpv (restart_savepoint env (Some nm) 0) (fun _ v' => Shows (Block (nm :: saves)) v') (Eland ok (Failed saves)) (mkV (c :: cs) t p).
Proof.
  intros Hl Ht Hc. pose proof (lives_lands _ _ _ Hl Ht) as HL. unfold restart_savepoint. vstep.
  apply (sub_forget ok); [done | | by intros e c' He Hb; split; [|apply Hc]].
  vstep. eapply wpv_conseq; [by apply (DefineSavepoint_wpv None saves)| |done]. intros _ v' (ne & ->).
  do 2 vstep. vstep. eapply wpv_conseq; [by apply (StartSubTransaction_wpv ok)| |]; cbn.
  - intros _ v' ->. repeat vstep. split; [|done]. constructor; [by exists ne | done].
  - intros e v' [He (c' & -> & Hb%touched_block)]. split; [done|]. unfold Lands. cbn in *. by rewrite Hb.
Qed.

Lemma ready_restart nm c saves cs t p :
  lives saves cs -> top_is TRANS_INPROGRESS TBLOCK_INPROGRESS t ->
  nv_block c = TBLOCK_SUBRESTART \/ nv_block c = TBLOCK_SUBABORT_RESTART ->
  nv_name c = Some nm -> nv_level c = 0 ->
  Ready (mkV (c :: cs) t p) (Block (nm :: saves)) (Failed saves).
Proof.
  intros Hl Ht Hb Hn Hlv. pose proof (lives_lands _ _ _ Hl Ht) as HL.
  assert (Hc : forall c', nv_block c' = nv_block c -> lands (c' :: cs) t (Failed saves)).
  { intros c' Hc'. cbn. rewrite Hc'. by destruct Hb as [-> | ->]. }
  split; [by apply Hc|]. split; [cbn; by destruct Hb as [-> | ->]|].
  cbn [vsubs length]. apply until_one. commit_case. rewrite Hn, Hlv. destruct Hb as [Hb | Hb]; rewrite Hb.
  - do 2 vstep. vstep. destruct c as [st b nm' lv ne ch pm px]. cbn in *. subst.
    eapply wpv_conseq; [by apply (AbortSubTransaction_wpv ok)| |]; cbn.
    + intros _ v' ->. vstep. eapply wpv_conseq; [by apply (restart_savepoint_wpv nm _ saves)| |done].
      intros [] v' HS. by vstep.
    + intros e v' [He (c' & -> & Hb%touched_block)]. split; [done|]. by apply Hc.
  - do 2 vstep. vstep. eapply wpv_conseq; [by apply (restart_savepoint_wpv nm _ saves)| |done].
    intros [] v' HS. by vstep.
Qed.

(** ** The marks *)

Definition with_block (b : TBlockState) (c : NView) : NView := vapp (set_block_state b) c.

(** Every node of a list gets its mark; the views follow. *)
Lemma mark_subs_all f ns :
  Forall (fun c => is_Some (f (nv_block c))) (nview <$> ns) ->
  exists ns', mark_subs f ns = (ns', None) /\
    nview <$> ns' = (fun c => with_block (default TBLOCK_DEFAULT (f (nv_block c))) c) <$> (nview <$> ns).
Proof.
  induction ns as [|n ns IH]; cbn; intros Hf; [by exists []|].
  inversion_clear Hf as [|? ? [b Hb] Hf']. rename Hf' into Hf. cbn in Hb. rewrite Hb. destruct (IH Hf) as (ns' & -> & E).
  eexists. split; [done|]. cbn. by rewrite E.
Qed.

Lemma mark_stack_wpv f ft b cs t p :
  Forall (fun c => is_Some (f (nv_block c))) cs -> ft (nv_block t) = Some b ->
  wpv (mark_stack f ft)
    (fun bad v' => bad = None /\ v' = mkV ((fun c => with_block (default TBLOCK_DEFAULT (f (nv_block c))) c) <$> cs) (with_block b t) p)
    (fun _ _ => False) (mkV cs t p).
Proof.
  intros Hf Hb s Hs. assert (Hsub : nview <$> subs s = cs) by (by injection Hs).
  assert (Htop : nview (top s) = t) by (by injection Hs). assert (Hp : has (MyXactFlags s) XACT_FLAGS_PIPELINING = p) by (by injection Hs).
  destruct (mark_subs_all f (subs s)) as (ns' & Hm & Hv); [by rewrite Hsub|].
  unfold wpe, mark_stack, mbnd, mget. rewrite Hm. unfold mput. cbn.
  replace (block_state (top s)) with (nv_block t) by (by rewrite <- Htop). rewrite Hb. cbn.
  split; [done|]. unfold view. cbn. rewrite Hv, Hsub, <- Htop, <- Hp. reflexivity.
Qed.

Lemma chain_wpv chn cs t p (Q : unit -> View -> Prop) E :
  Q tt (mkV cs (vapp (set_chain chn) t) p) -> wpv (mput (on_node 0 (set_chain chn))) Q E (mkV cs t p).
Proof. apply wpv_put. intros s Hs. unfold view in *. cbn. by simplify_eq. Qed.
(** ** Savepoints by name *)

Definition named (nm : string) (c : NView) : Prop := nv_name c = Some nm /\ nv_level c = 0.

Lemma lives_named saves cs : lives saves cs -> Forall2 named saves cs.
Proof. apply Forall2_impl. by intros nm c (ne & ->). Qed.

Lemma outside_split nm saves cs : Forall2 named saves cs ->
  match outside nm saves with
  | None => Forall (fun c => nv_name c <> Some nm) cs
  | Some saves' => exists pre c rest, cs = pre ++ c :: rest /\ Forall (fun c => nv_name c <> Some nm) pre /\
      named nm c /\ Forall2 named saves' rest /\ exists k, saves' = drop (S k) saves /\ rest = drop (S k) cs
  end.
Proof.
  induction 1 as [|x c saves cs [Hx Hl] Hn IH]; cbn; [done|]. case_bool_decide as Hnm.
  - subst x. exists [], c, cs. repeat split; try done. by exists 0%nat.
  - destruct (outside nm saves) as [saves'|].
    + destruct IH as (pre & c' & rest & -> & Hpre & Hc & Hr & k & Hs & Hk). exists (c :: pre), c', rest.
      repeat split; try done; [by constructor; [congruence|]|apply Hc|apply Hc|]. by exists (S k).
    + constructor; [congruence | done].
Qed.

Lemma list_find_view {A B} (g : A -> B) (f : A -> bool) (h : B -> Prop) l pre c rest :
  (forall a, f a = true <-> h (g a)) -> g <$> l = pre ++ c :: rest -> Forall (fun b => ~ h b) pre -> h c ->
  exists a, list_find (fun a => f a = true) l = Some (length pre, a) /\ g a = c.
Proof.
  intros Hf. revert l. induction pre as [|b pre IH]; intros [|a l] E Hpre Hc; try done; injection E as E1 E2.
  - exists a. cbn. rewrite decide_True; [by split|]. apply Hf. congruence.
  - inversion_clear Hpre as [|? ? Hb Hp]. destruct (IH l E2 Hp Hc) as (a' & Hl & Ha'). exists a'. cbn.
    rewrite decide_False; [by rewrite Hl|]. intros Ha%Hf. apply Hb. congruence.
Qed.

Lemma has_name_view nm n : has_name nm n = true <-> nv_name (nview n) = Some nm.
Proof. unfold has_name. cbn. apply bool_decide_eq_true. Qed.

(** The innermost savepoint of that name, if there is one. *)
Lemma find_savepoint_wpv nm saves cs t p (Q : nat -> View -> Prop) (E : PgError -> View -> Prop) :
  Forall2 named saves cs -> nv_name t = None -> nv_level t = 0 ->
  (outside nm saves = None -> E (no_savepoint nm) (mkV cs t p)) ->
  (forall saves' pre c rest, outside nm saves = Some saves' -> cs = pre ++ c :: rest -> named nm c ->
     (exists k, saves' = drop (S k) saves /\ rest = drop (S k) cs) -> Q (S (length rest)) (mkV cs t p)) ->
  wpv (find_savepoint nm) Q E (mkV cs t p).
Proof.
  intros Hn Ht Hlt HE HQ. unfold find_savepoint. do 2 vstep.
  assert (Hsub : nview <$> subs s = cs) by (by injection H). assert (Htop : nview (top s) = t) by (by injection H).
  pose proof (outside_split nm saves cs Hn) as Ho. unfold rposition_node. destruct (outside nm saves) as [saves'|].
  - destruct Ho as (pre & c & rest & Ecs & Hpre & Hc & _ & Hk).
    destruct (list_find_view nview (has_name nm) (fun c => nv_name c = Some nm) (subs s) pre c rest) as (n & Hf & Hnc);
      [apply has_name_view | by rewrite Hsub | done | apply Hc |].
    assert (Hlen : length (subs s) = (length pre + S (length rest))%nat).
    { rewrite <- (length_fmap nview), Hsub, Ecs, length_app. done. }
    rewrite Hf. replace (length (subs s) - length pre)%nat with (S (length rest)) by lia.
    assert (Hlk : subs s !! length pre = Some n) by (by apply list_find_Some in Hf as (Hf & _)).
    cbn. replace (length (subs s) - S (length rest))%nat with (length pre) by lia. rewrite Hlk. cbn.
    assert (Hln : savepoint_level n = 0) by (change (nv_level (nview n) = 0); rewrite Hnc; apply Hc).
    use_view H. rewrite Hln. replace (nv_level _) with 0; [rewrite Z.eqb_refl; vstep; by eapply HQ|].
    destruct Hn as [|? ? ? ? [] _]; cbn; [by destruct pre | done].
  - rewrite (proj2 (list_find_None _ _)).
    + replace (has_name nm (top s)) with false; [vstep; by apply HE|]. symmetry. apply not_true_iff_false.
      rewrite has_name_view, Htop, Ht. done.
    + rewrite <- Hsub in Ho. rewrite Forall_forall in Ho |- *. intros n Hin Hnm%has_name_view.
      by apply (Ho (nview n)); [apply (in_map nview)|].
Qed.
Lemma set_subs_wpv ns v (Q : unit -> View -> Prop) E :
  Q tt (mkV (nview <$> ns) (vtop v) (vpipe v)) -> wpv (mput (set_subs ns)) Q E v.
Proof. apply wpv_put. by intros s <-. Qed.

Lemma on_node_wpv f pre c rest t p (Q : unit -> View -> Prop) E :
  (forall n, nview (f n) = vapp f (nview n)) ->
  Q tt (mkV (pre ++ vapp f c :: rest) t p) -> wpv (mput (on_node (S (length rest)) f)) Q E (mkV (pre ++ c :: rest) t p).
Proof.
  intros Hf. apply wpv_put. intros s Hs. unfold view, on_node in *. injection Hs as Hs Ht Hp. cbn. rewrite Ht, Hp. f_equal.
  assert (Hlen : length (subs s) = (length pre + S (length rest))%nat).
  { rewrite <- (length_fmap nview), Hs, length_app. done. }
  rewrite (list_fmap_alter _ _ (vapp f)), Hs.
  - replace (length (subs s) - S (length rest))%nat with (length pre + 0)%nat by lia. by rewrite alter_app_r.
  - apply Forall_forall. intros n _. apply Hf.
Qed.

(** RELEASE marks the savepoint and what is inside of it. *)
Lemma mark_down_wpv b pre c rest t p (Q : unit -> View -> Prop) E :
  Q tt (mkV ((with_block b <$> pre ++ [c]) ++ rest) t p) ->
  wpv (mput (mark_down_to (S (length rest)) b)) Q E (mkV (pre ++ c :: rest) t p).
Proof.
  apply wpv_put. intros s Hs. unfold view, mark_down_to in *. injection Hs as Hs Ht Hp. cbn. rewrite Ht, Hp. f_equal.
  assert (Hlen : length (subs s) = (length pre + S (length rest))%nat).
  { rewrite <- (length_fmap nview), Hs, length_app. done. }
  replace (length (subs s) - length rest)%nat with (length (pre ++ [c])) by (rewrite length_app; cbn; lia).
  change (map (set_block_state b)) with (fmap (M := list) (set_block_state b)).
  rewrite fmap_app, fmap_drop, <- list_fmap_compose, (list_fmap_ext _ (with_block b ∘ nview)) by done.
  rewrite list_fmap_compose, fmap_take, Hs. rewrite (cons_middle c pre rest), app_assoc.
  by rewrite take_app_length, drop_app_length.
Qed.

Lemma abort_sub_live saves cs : lives saves cs -> Forall (fun c => is_Some (abort_sub (nv_block c))) cs.
Proof. induction 1 as [|nm c saves cs (ne & ->) _ IH]; constructor; [by eexists | done]. Qed.

(** What ROLLBACK leaves to be done for the subtransactions. *)
Lemma ready_aborts cs rest t p q2 qm :
  Forall (fun c => nv_block c = TBLOCK_SUBINPROGRESS \/ nv_block c = TBLOCK_SUBABORT) cs ->
  Ready (mkV rest t p) q2 qm ->
  Ready (mkV (((fun c => with_block (default TBLOCK_DEFAULT (abort_sub (nv_block c))) c) <$> cs) ++ rest) t p) q2 qm.
Proof.
  induction 1 as [|c cs Hc _ IH]; cbn; [done|]. intros HR. apply ready_pending; [|by apply IH].
  destruct Hc as [-> | ->]; auto.
Qed.
End Exec.
