(* ===== verification/SessionStmts.v ===== *)
(** * Every transaction statement does what the session machine says *)

From S2P Require Import Prelude Xid Transam XactState Xact XactView XactOps Session SessionSpec SessionExec.

Section Stmts.
Variable ok : PgError -> Prop.
Variable env : XactEnv.
Context {HC : Civil ok env}.
Context {HT : Tolerates ok}.

(** An error is one of the surroundings, which lands where the session was or where a
    half-executed statement leaves it; or it is the one the machine refuses the
    statement with, which lands where the session was. *)
Definition Eexec (q : Sess) (kind : TransactionStmtKind) (e : PgError) (v : View) : Prop :=
  (ok e /\ (Lands v (sess_abort q) \/ Lands v (sess_mid q kind))) \/
  (sess_exec q kind = None /\ e = sess_refusal q kind /\ Lands v (sess_abort q)).

Definition Dispatches (q : Sess) (kind : TransactionStmtKind) (v : View) : Prop :=
  wpv (dispatch_transaction_stmt env kind)
    (fun told v' => exists q2, sess_exec q kind = Some (q2, told) /\ Ready ok env v' q2 (sess_mid q kind))
    (Eexec q kind) v.

Lemma Eexec_mid q kind e v : ok e -> Lands v (sess_mid q kind) -> Eexec q kind e v.
Proof. left. auto. Qed.

Lemma Eexec_refused q kind e v : sess_exec q kind = None -> e = sess_refusal q kind -> Shows q v -> Eexec q kind e v.
Proof. intros He Hf Hs. right. split; [done|]. split; [done|]. by apply Shows_lands. Qed.

Lemma Eexec_neutral {A} (m : M XactState A) `{!Neutral ok m} q kind (Q : A -> View -> Prop) v :
  Lands v (sess_abort q) \/ Lands v (sess_mid q kind) -> (forall a, Q a v) -> wpv m Q (Eexec q kind) v.
Proof. intros Hl HQ. apply (wpv_neutral ok); [done..|]. intros e He. left. auto. Qed.

(** The parser gives BEGIN no other options. *)
Definition known_options (kind : TransactionStmtKind) : Prop :=
  match kind with
  | TRANS_STMT_BEGIN options | TRANS_STMT_START options => Forall (fun name => begin_option name = true) options
  | _ => True
  end.

Lemma Neutral_set_pg_variables n : Forall (fun name => begin_option name = true) n -> Neutral ok (set_pg_variables env n).
Proof. induction 1 as [|name n Hn _ IH]; cbn; [apply _|]. rewrite Hn. apply Neutral_bind; [apply _ | intros _; exact IH]. Qed.

(** ** BEGIN *)

Lemma begin_dispatches q n v :
  Shows q v -> match q with Single | Implicit | Block _ => True | _ => False end ->
  Forall (fun name => begin_option name = true) n ->
  Dispatches q (TRANS_STMT_BEGIN n) v /\ Dispatches q (TRANS_STMT_START n) v.
Proof.
  intros HS Hq Hn. pose proof (Neutral_set_pg_variables n Hn) as HN. assert (H : wpv (BeginTransactionBlock ;! set_pg_variables env n ;! mret false)
    (fun told v' => exists q2, sess_exec q (TRANS_STMT_BEGIN n) = Some (q2, told) /\ Ready ok env v' q2 (sess_mid q (TRANS_STMT_BEGIN n)))
    (Eexec q (TRANS_STMT_BEGIN n)) v); [|done].
  unfold BeginTransactionBlock. destruct v as [cs t p]. destruct q as [| | |saves|]; try done.
  - destruct HS as (? & ? & ch & ?). cbn in *. subst. do 4 vstep. vstep.
    pose proof (ready_begin ok env 1 ch false) as HR. apply Eexec_neutral; [apply _ | by right | intros _].
    vstep. by exists (Block []).
  - destruct HS as (? & ne & ch & ?). cbn in *. subst. do 4 vstep. vstep.
    pose proof (ready_begin ok env ne ch p) as HR. apply Eexec_neutral; [apply _ | by right | intros _].
    vstep. by exists (Block []).
  - destruct (block_cur _ _ HS) as (_ & _ & _ & Hb). do 3 vstep. rewrite Hb.
    assert (HL : Lands (mkV cs t p) (Failed saves)) by (by apply (Shows_lands (Block saves))).
    destruct saves; (apply Eexec_neutral; [apply _ | by left | intros _]);
      vstep; (apply Eexec_neutral; [apply _ | by left | intros _]); vstep; eexists; (split; [done|]); by apply ready_block.
Qed.
(** ** COMMIT, PREPARE TRANSACTION *)

Lemma mark_commit saves cs : lives saves cs ->
  Forall (fun c => is_Some (commit_sub (nv_block c))) cs /\
  Forall (fun c => nv_block c = TBLOCK_SUBCOMMIT)
    ((fun c => with_block (default TBLOCK_DEFAULT (commit_sub (nv_block c))) c) <$> cs).
Proof. induction 1 as [|nm c saves cs (ne & ->) _ [IH1 IH2]]; split; by constructor. Qed.

(** The nodes of a block, failed or not, are the ones ROLLBACK knows how to mark. *)
Lemma failed_marks nm saves v : Shows (Failed (nm :: saves)) v ->
  Forall (fun c => is_Some (abort_sub (nv_block c))) (vsubs v) /\
  Forall (fun c => nv_block c = TBLOCK_SUBINPROGRESS \/ nv_block c = TBLOCK_SUBABORT) (vsubs v) /\
  top_is TRANS_INPROGRESS TBLOCK_INPROGRESS (vtop v).
Proof.
  intros (ne & cs & -> & Hl & Ht). split; [|split; [|done]].
  - constructor; [by eexists | by eapply abort_sub_live].
  - constructor; [by right|]. induction Hl as [|? ? ? ? (? & ->) _ IH]; constructor; auto.
Qed.

(** The stack once the end of the block is asked for. *)
Definition Ended (q : Sess) (chn r : bool) (v : View) : Prop :=
  match q with
  | Idle => False
  | Single => r = true /\ v = mkV [] (mkN TRANS_INPROGRESS TBLOCK_STARTED None 0 1 chn 0 false) false
  | Implicit | Block _ =>
      r = true /\ exists cs ne p, v = mkV cs (mkN TRANS_INPROGRESS TBLOCK_END None 0 ne chn 0 false) p /\
      Forall (fun c => nv_block c = TBLOCK_SUBCOMMIT) cs
  | Failed _ => r = false /\ Ready ok env v (block_end chn) Idle
  end.

(** ROLLBACK of a block with savepoints, and COMMIT of a failed one. *)
Lemma mark_aborts_wpv cs ne ch p (Q : option TBlockState -> View -> Prop) E :
  Forall (fun c => is_Some (abort_sub (nv_block c))) cs ->
  Forall (fun c => nv_block c = TBLOCK_SUBINPROGRESS \/ nv_block c = TBLOCK_SUBABORT) cs ->
  (forall cs', (forall chn, Ready ok env (mkV cs' (mkN TRANS_INPROGRESS TBLOCK_ABORT_PENDING None 0 ne chn 0 false) p) (block_end chn) Idle) ->
     Q None (mkV cs' (mkN TRANS_INPROGRESS TBLOCK_ABORT_PENDING None 0 ne ch 0 false) p)) ->
  wpv (mark_stack abort_sub abort_top) Q E (mkV cs (mkN TRANS_INPROGRESS TBLOCK_INPROGRESS None 0 ne ch 0 false) p).
Proof.
  intros Hs Hb HQ. eapply wpv_conseq; [by apply (mark_stack_wpv abort_sub abort_top TBLOCK_ABORT_PENDING)| |done].
  intros bad v' [-> ->]. apply HQ. intros chn.
  rewrite <- (app_nil_r (_ <$> cs)). apply ready_aborts; [done..|]. apply ready_abort_pending; apply _.
Qed.

Lemma EndTransactionBlock_wpv q chn v :
  Shows q v -> q <> Idle ->
  wpv (EndTransactionBlock chn) (fun r v' => (chn = true -> q <> Single /\ q <> Implicit) /\ Ended q chn r v')
    (fun e v' => v' = v /\ sess_exec q (TRANS_STMT_COMMIT chn) = None /\ e = sess_refusal q (TRANS_STMT_COMMIT chn)) v.
Proof.
  intros HS Hq. unfold EndTransactionBlock. destruct v as [cs t p]. do 2 vstep.
  destruct q as [| | |[|nm saves]|[|nm saves]]; try done.
  - destruct HS as (? & ? & ch & ?). cbn in *. subst. vsimpl. destruct chn; repeat vstep; try done.
    apply chain_wpv. repeat vstep. done.
  - destruct HS as (? & ne & ch & ?). cbn in *. subst. vsimpl. destruct chn; repeat vstep; try done.
    apply chain_wpv. repeat vstep. split; [done|]. split; [done|]. by exists [], ne, p.
  - destruct HS as [Hl (ne & ch & ?)]. inversion Hl. cbn in *. subst. repeat vstep.
    apply chain_wpv. repeat vstep. split; [done|]. split; [done|]. by exists [], ne, p.
  - destruct HS as [Hl (ne & ch & ?)]. cbn in *. subst. destruct (mark_commit _ _ Hl) as [Hm1 Hm2].
    destruct cs as [|c cs]; [by inversion Hl|]. assert (Hc : nv_block c = TBLOCK_SUBINPROGRESS) by (by inversion Hl as [|? ? ? ? (? & ->)]).
    cbn [vcur vsubs]. rewrite Hc. do 2 vstep. eapply wpv_conseq; [by apply (mark_stack_wpv commit_sub commit_top TBLOCK_END)| |done].
    intros bad v' [-> ->]. repeat vstep. apply chain_wpv. repeat vstep. split; [done|]. split; [done|]. by eexists _, ne, p.
  - destruct HS as [? (ne & ch & ?)]. cbn in *. subst. repeat vstep.
    apply chain_wpv. repeat vstep. split; [done|]. split; [done|]. apply ready_abort_end; apply _.
  - destruct (failed_marks _ _ _ HS) as (Hm1 & Hm2 & ne & ch & Ht). destruct HS as (ne' & cs' & Hcs & _). cbn in *. subst t.
    replace (nv_block _) with TBLOCK_SUBABORT by (by rewrite Hcs). do 2 vstep. apply mark_aborts_wpv; [done..|].
    intros cs2 HR. repeat vstep. apply chain_wpv. repeat vstep. split; [done|]. split; [done|]. apply HR.
Qed.

Lemma ended_ready q chn r v : q <> Idle -> Ended q chn r v -> (chn = true -> q <> Single /\ q <> Implicit) ->
  exists q2, sess_exec q (TRANS_STMT_COMMIT chn) = Some (q2, negb r) /\ Ready ok env v q2 Idle.
Proof.
  intros Hq HE Hc. destruct q as [| | |saves|saves]; cbn in HE; try done.
  - destruct HE as [-> ->]. destruct chn; [by destruct (Hc eq_refl)|]. exists Idle. split; [done|]. apply ready_started; apply _.
  - destruct HE as [-> (cs & ne & p & -> & Hcs)]. destruct chn; [by destruct (Hc eq_refl)|].
    exists Idle. split; [done|]. destruct (decide (cs = [])) as [->|Hne]; [apply (ready_end _ _ _ _ false); apply _|].
    eapply ready_subcommit; eauto.
  - destruct HE as [-> (cs & ne & p & -> & Hcs)]. exists (block_end chn). split; [by destruct chn|].
    destruct (decide (cs = [])) as [->|Hne]; [apply ready_end; apply _|]. eapply ready_subcommit; eauto.
  - destruct HE as [-> HR]. exists (block_end chn). split; [by destruct chn | done].
Qed.

Lemma commit_dispatches q chn v : Shows q v -> q <> Idle -> Dispatches q (TRANS_STMT_COMMIT chn) v.
Proof.
  intros HS Hq. unfold Dispatches. cbn [dispatch_transaction_stmt]. vstep.
  eapply wpv_conseq; [by apply (EndTransactionBlock_wpv q)| |].
  - intros r v' [Hc HE]. vstep. destruct (ended_ready q chn r v') as (q2 & He & HR); [done..|]. exists q2. by destruct q, chn.
  - intros e v' (-> & Hr & Hf). by apply Eexec_refused.
Qed.
Lemma node0_block s v : view s = v -> block_state (node 0 s) = nv_block (vtop v).
Proof. by intros <-. Qed.

(** A block that can be prepared, or a statement of its own that has nothing to prepare. *)
Lemma prepare_ready cs ne p :
  Forall (fun c => nv_block c = TBLOCK_SUBCOMMIT) cs ->
  Ready ok env (mkV cs (mkN TRANS_INPROGRESS TBLOCK_PREPARE None 0 ne false 0 false) p) Idle Idle.
Proof.
  intros Hcs. destruct (decide (cs = [])) as [->|Hne]; [apply ready_prepare; apply _|].
  eapply ready_subcommit; eauto.
Qed.

Lemma prepare_dispatches q gid v : Shows q v -> q <> Idle -> Dispatches q (TRANS_STMT_PREPARE gid) v.
Proof.
  intros HS Hq. unfold Dispatches. cbn [dispatch_transaction_stmt]. unfold PrepareTransactionBlock. do 2 vstep.
  eapply wpv_conseq; [by apply (EndTransactionBlock_wpv q)| |].
  2: { intros e v' (_ & Hr & _). destruct q; cbn in Hr; congruence. }
  intros r v' [_ HE].
  assert (HL : Lands v' Idle) by (destruct (ended_ready q false r v') as (q2 & _ & HR & _); done).
  assert (Hprep : r = true -> forall cs ne p, v' = mkV cs (mkN TRANS_INPROGRESS TBLOCK_END None 0 ne false 0 false) p ->
    Forall (fun c => nv_block c = TBLOCK_SUBCOMMIT) cs -> sess_exec q (TRANS_STMT_PREPARE gid) = Some (Idle, false) ->
    wpv (let! s := mget in
         if bool_decide (block_state (node 0 s) = TBLOCK_END) then
           try_reserve env "out of memory saving prepared-transaction GID" ;!
           mput (fun s => on_node 0 (set_block_state TBLOCK_PREPARE) (set_prepare_gid (Some gid) s)) ;! mret true
         else mret false)
      (fun r => wpv (mret (negb r)) (fun told v' => exists q2, sess_exec q (TRANS_STMT_PREPARE gid) = Some (q2, told) /\ Ready ok env v' q2 Idle)
         (Eexec q (TRANS_STMT_PREPARE gid))) (Eexec q (TRANS_STMT_PREPARE gid)) v').
  { intros -> cs ne p -> Hcs He. do 2 vstep. rewrite bool_decide_eq_true_2 by (by rewrite (node0_block _ _ H)).
    vstep. apply Eexec_neutral; [apply _ | by right | intros _]. vstep.
    apply (wpv_put _ _ _ _ (mkV cs (mkN TRANS_INPROGRESS TBLOCK_PREPARE None 0 ne false 0 false) p)).
    - intros s' Hs'. unfold view in *. injection Hs' as ??????????. cbn. congruence.
    - repeat vstep. exists Idle. split; [exact He | by apply prepare_ready]. }
  destruct q as [| | |saves|saves]; cbn in HE; try done.
  - destruct HE as [-> ->]. do 2 vstep. rewrite bool_decide_eq_false_2 by (by rewrite (node0_block _ _ H)).
    repeat vstep. exists Idle. split; [done|]. apply ready_started; apply _.
  - destruct HE as [-> (cs & ne & p & -> & Hcs)]. by eapply Hprep.
  - destruct HE as [-> (cs & ne & p & -> & Hcs)]. by eapply Hprep.
  - destruct HE as [-> HR]. repeat vstep. exists Idle. by split.
Qed.

(** ** ROLLBACK *)

Lemma rollback_dispatches q chn v : Shows q v -> q <> Idle -> Dispatches q (TRANS_STMT_ROLLBACK chn) v.
Proof.
  intros HS Hq. unfold Dispatches. cbn [dispatch_transaction_stmt]. unfold UserAbortTransactionBlock.
  destruct v as [cs t p]. do 4 vstep. destruct q as [| | |[|nm saves]|[|nm saves]]; try done.
  - destruct HS as (? & ? & ch & ?). cbn in *. subst. vsimpl. destruct chn; repeat vstep; [by apply Eexec_refused; repeat eexists|].
    apply chain_wpv. repeat vstep. exists Idle. split; [done|]. apply (ready_abort_pending _ _ _ _ false); apply _.
  - destruct HS as (? & ne & ch & ?). cbn in *. subst. vsimpl. destruct chn; repeat vstep; [by apply Eexec_refused; repeat eexists|].
    apply chain_wpv. repeat vstep. exists Idle. split; [done|]. apply (ready_abort_pending _ _ _ _ false); apply _.
  - destruct HS as [Hl (ne & ch & ?)]. inversion Hl. cbn in *. subst. vsimpl. repeat vstep.
    apply chain_wpv. repeat vstep. exists (block_end chn). split; [by destruct chn|]. apply ready_abort_pending; apply _.
  - destruct (block_cur _ _ HS) as (_ & _ & _ & Hb). rewrite Hb. destruct HS as [Hl (ne & ch & ?)]. cbn in *. subst. vstep.
    apply mark_aborts_wpv; [by eapply abort_sub_live| |].
    { clear -Hl. induction Hl as [|? ? ? ? (? & ->) _ IH]; constructor; auto. }
    intros cs' HR. repeat vstep. apply chain_wpv. repeat vstep. exists (block_end chn). split; [by destruct chn|]. apply HR.
  - destruct HS as [? (ne & ch & ?)]. cbn in *. subst. vsimpl. repeat vstep.
    apply chain_wpv. repeat vstep. exists (block_end chn). split; [by destruct chn|]. apply ready_abort_end; apply _.
  - destruct (failed_marks _ _ _ HS) as (Hm1 & Hm2 & ne & ch & Ht). destruct HS as (ne' & cs' & Hcs & _). cbn in *. subst t.
    replace (nv_block _) with TBLOCK_SUBABORT by (by rewrite Hcs). vstep. apply mark_aborts_wpv; [done..|].
    intros cs2 HR. repeat vstep. apply chain_wpv. repeat vstep. exists (block_end chn). split; [by destruct chn|]. apply HR.
Qed.
(** ** Savepoints *)

Lemma require_block_wpv q ty v (Q : unit -> View -> Prop) (E : PgError -> View -> Prop) :
  Shows q v -> q <> Idle -> (q = Single -> E (outside_block ty) v) -> (q <> Single -> Q tt v) -> wpv (RequireTransactionBlock true ty) Q E v.
Proof.
  intros HS Hq HE HQ. unfold RequireTransactionBlock, CheckTransactionBlock, IsTransactionBlock, IsSubTransaction.
  do 2 vstep. use_view H. rewrite (Shows_block _ _ HS).
  destruct q as [| | |[|nm saves]|[|nm saves]]; cbn; try done; try (vstep; by apply HQ).
  destruct HS as (Hcs & _ & ch & Ht). unfold vcur. rewrite Hcs, Ht. cbn. vstep. by apply HE.
Qed.

Lemma savepoint_dispatches q nm v : Shows q v -> match q with Single | Implicit | Block _ => True | _ => False end ->
  Dispatches q (TRANS_STMT_SAVEPOINT nm) v.
Proof.
  intros HS Hq. unfold Dispatches. cbn [dispatch_transaction_stmt]. vstep.
  eapply require_block_wpv; [exact HS | by destruct q | intros ->; by apply Eexec_refused |]. intros Hns.
  destruct q as [| | |saves|]; try done.
  - unfold DefineSavepoint. do 3 vstep. destruct HS as (Hs & ne & ch & Ht). destruct v as [cs t p]. cbn in *. subst.
    rewrite (not_parallel ok env s _ H) by done. use_view H. vstep. apply Eexec_refused; [done..|]. by repeat eexists.
  - destruct v as [cs t p]. destruct HS as [Hl Ht]. cbn in Hl, Ht. vstep.
    eapply wpv_conseq; [by apply (DefineSavepoint_wpv ok env (Some nm) saves)| |].
    + intros _ v' (ne & ->). vstep. exists (Block (nm :: saves)). split; [done|]. by apply ready_savepoint.
    + intros e v' [He HL]. by apply Eexec_mid.
Qed.

Lemma release_dispatches q nm v : Shows q v -> match q with Single | Implicit | Block _ => True | _ => False end ->
  Dispatches q (TRANS_STMT_RELEASE nm) v.
Proof.
  intros HS Hq. unfold Dispatches. cbn [dispatch_transaction_stmt]. vstep.
  eapply require_block_wpv; [exact HS | by destruct q | intros ->; by apply Eexec_refused |]. intros Hns.
  unfold ReleaseSavepoint. do 3 vstep. destruct q as [| | |saves|]; try done.
  - destruct HS as (Hs & ne & ch & Ht). destruct v as [cs t p]. cbn in *. subst.
    rewrite (not_parallel ok env s _ H) by done. use_view H. vstep. apply Eexec_refused; [done..|]. by repeat eexists.
  - destruct (block_cur _ _ HS) as (_ & Hm & Hx & Hb). rewrite (not_parallel ok env s _ H) by done. use_view H. rewrite Hb.
    destruct saves as [|x saves]; [vstep; by apply Eexec_refused|].
    destruct v as [cs t p]. pose proof HS as [Hl (ne & ch & Ht)]. cbn in Hl, Ht. subst t. vstep.
    eapply find_savepoint_wpv; [by apply lives_named | done | done | |].
    + intros Ho. apply Eexec_refused; [|done..]. cbn in *. by rewrite Ho.
    + intros saves' pre c rest Ho -> Hc (k & -> & Hrest). apply mark_down_wpv. vstep.
      exists (Block (drop (S k) (x :: saves))). cbn [sess_exec sess_mid]. rewrite Ho. split; [done|].
      apply ready_release; try done.
      * clear. induction (pre ++ [c]); by constructor.
      * by destruct pre.
      * rewrite Hrest. by apply Forall2_drop.
      * by repeat eexists.
Qed.
(** A block with savepoints, failed or not: named nodes, all in progress but perhaps
    the current one. *)
Lemma savepoint_stack q x saves v :
  q = Block (x :: saves) \/ q = Failed (x :: saves) -> Shows q v ->
  exists c cs, vsubs v = c :: cs /\ Forall2 named (x :: saves) (c :: cs) /\ lives saves cs /\
    top_is TRANS_INPROGRESS TBLOCK_INPROGRESS (vtop v) /\ nv_pml c = 0 /\ nv_pcx c = false /\
    Forall (fun c => nv_block c = TBLOCK_SUBINPROGRESS \/ nv_block c = TBLOCK_SUBABORT) (c :: cs).
Proof.
  assert (Hb : forall saves cs, lives saves cs -> Forall (fun c => nv_block c = TBLOCK_SUBINPROGRESS \/ nv_block c = TBLOCK_SUBABORT) cs).
  { induction 1 as [|? ? ? ? (? & ->) _ IH]; constructor; auto. }
  destruct v as [cs t p]. intros [-> | ->].
  - intros [Hl Ht]. cbn in *. inversion Hl as [|? c ? cs' Hc Hl']. subst. exists c, cs'. repeat split; try done.
    + by apply lives_named.
    + by destruct Hc as (? & ->).
    + by destruct Hc as (? & ->).
    + by apply (Hb (x :: saves)).
  - intros (ne & cs' & -> & Hl & Ht). eexists _, cs'. repeat split; try done.
    + constructor; [done | by apply lives_named].
    + constructor; [by right | by apply (Hb saves)].
Qed.

Lemma abort_sub_Some cs :
  Forall (fun c => nv_block c = TBLOCK_SUBINPROGRESS \/ nv_block c = TBLOCK_SUBABORT) cs ->
  Forall (fun c => is_Some (abort_sub (nv_block c))) cs.
Proof. apply Forall_impl. intros c [-> | ->]; by eexists. Qed.

Lemma mark_rollback_to_wpv pre c rest t p b (Q : unit -> View -> Prop) E :
  Forall (fun c => nv_block c = TBLOCK_SUBINPROGRESS \/ nv_block c = TBLOCK_SUBABORT) pre ->
  restart_sub (nv_block c) = Some b ->
  Q tt (mkV (((fun c => with_block (default TBLOCK_DEFAULT (abort_sub (nv_block c))) c) <$> pre) ++ with_block b c :: rest) t p) ->
  wpv (mark_rollback_to (S (length rest))) Q E (mkV (pre ++ c :: rest) t p).
Proof.
  intros Hpre Hb HQ. unfold mark_rollback_to. do 2 vstep.
  assert (Hsub : nview <$> subs s = pre ++ c :: rest) by (by injection H).
  assert (Hlen : length (subs s) = (length pre + S (length rest))%nat).
  { rewrite <- (length_fmap nview), Hsub, length_app. done. }
  replace (stack_len s - 1 - S (length rest))%nat with (length pre) by (unfold stack_len; lia).
  destruct (mark_subs_all abort_sub (take (length pre) (subs s))) as (ns & -> & Hns).
  { rewrite fmap_take, Hsub, take_app_length. by apply abort_sub_Some. }
  vstep. apply set_subs_wpv. cbn [vtop vpipe].
  assert (Hc : block_state (node (S (length rest)) s) = nv_block c).
  { cbn. replace (length (subs s) - S (length rest))%nat with (length pre) by lia.
    assert (Hk : (nview <$> subs s) !! length pre = Some c) by (by rewrite Hsub, list_lookup_middle).
    rewrite list_lookup_fmap in Hk. destruct (subs s !! length pre); [|done]. cbn in *. by injection Hk as <-. }
  rewrite Hc, Hb, fmap_app, Hns, fmap_take, fmap_drop, Hsub, take_app_length, drop_app_length.
  by apply on_node_wpv.
Qed.

Lemma calm_session q v : Shows q v -> nv_pml (vcur v) = 0 /\ nv_pcx (vcur v) = false.
Proof.
  destruct v as [cs t p]. destruct q as [| | |saves|[|x saves]]; intros HS.
  - by destruct HS as (Hs & ne & ch & Ht); cbn in *; subst.
  - by destruct HS as (Hs & _ & ch & Ht); cbn in *; subst.
  - by destruct HS as (Hs & ne & ch & Ht); cbn in *; subst.
  - by destruct (block_cur _ _ HS) as (_ & ? & ? & _).
  - by destruct HS as (Hs & ne & ch & Ht); cbn in *; subst.
  - by destruct HS as (ne & cs' & Hs & _); cbn in *; subst.
Qed.

Lemma rollback_to_savepoint q x saves nm v (Q : unit -> View -> Prop) :
  q = Block (x :: saves) \/ q = Failed (x :: saves) -> Shows q v ->
  (forall saves' v', outside nm (x :: saves) = Some saves' -> Ready ok env v' (Block (nm :: saves')) (Failed saves') -> Q tt v') ->
  wpv (let! target := find_savepoint nm in mark_rollback_to target) Q (Eexec q (TRANS_STMT_ROLLBACK_TO nm)) v.
Proof.
  intros Hq HS HQ. destruct (savepoint_stack q x saves v Hq HS) as (c0 & cs & Hcs & Hn & Hl & Ht & _ & _ & Hb).
  destruct v as [cs' t p]. cbn in Hcs, Ht. subst cs'. pose proof Ht as (ne & ch & ->). vstep.
  eapply find_savepoint_wpv; [exact Hn | done | done | |].
  - intros Ho. cbn in Ho. apply Eexec_refused; [| |done]; destruct Hq as [-> | ->]; cbn; by rewrite ?Ho.
  - intros saves' pre c rest Ho Ecs [Hnm Hlv] (k & -> & Hrest). rewrite Ecs in *.
    apply Forall_app in Hb as [Hpre Hb]. inversion_clear Hb as [|? ? Hbc _].
    assert (Hbr : exists b, restart_sub (nv_block c) = Some b /\ (b = TBLOCK_SUBRESTART \/ b = TBLOCK_SUBABORT_RESTART)).
    { destruct Hbc as [-> | ->]; eauto. }
    destruct Hbr as (b & Hb & Hbb). eapply mark_rollback_to_wpv; [done..|]. eapply HQ; [exact Ho|].
    apply ready_aborts; [done..|]. apply ready_restart; try done.
    rewrite Hrest. rewrite <- Ecs. cbn. by apply Forall2_drop.
Qed.

Lemma rollback_to_dispatches q nm v : Shows q v -> q <> Idle -> Dispatches q (TRANS_STMT_ROLLBACK_TO nm) v.
Proof.
  intros HS Hq. unfold Dispatches. cbn [dispatch_transaction_stmt]. vstep.
  eapply require_block_wpv; [exact HS | done | intros ->; by apply Eexec_refused |]. intros Hns.
  unfold RollbackToSavepoint. do 3 vstep. destruct (calm_session q v HS) as [Hm Hx].
  rewrite (not_parallel ok env s _ H) by done. use_view H. rewrite (Shows_block _ _ HS).
  destruct q as [| | |[|x saves]|[|x saves]]; cbn [sess_block]; try done; try (vstep; by apply Eexec_refused).
  - eapply rollback_to_savepoint; [by left | done |]. intros saves' v' Ho HR. vstep. cbn [sess_exec sess_mid]. rewrite Ho. by eexists.
  - eapply rollback_to_savepoint; [by right | done |]. intros saves' v' Ho HR. vstep. cbn [sess_exec sess_mid]. rewrite Ho. by eexists.
Qed.
(** ** COMMIT PREPARED, ROLLBACK PREPARED *)

Lemma prevent_block_wpv q ty v (Q : unit -> View -> Prop) (E : PgError -> View -> Prop) :
  Shows q v -> q <> Idle -> (q <> Single -> E (inside_block ty) v) -> (q = Single -> Q tt v) -> wpv (PreventInTransactionBlock true ty) Q E v.
Proof.
  intros HS Hq HE HQ. unfold PreventInTransactionBlock, IsTransactionBlock, IsSubTransaction.
  do 2 vstep. use_view H. rewrite (Shows_block _ _ HS).
  destruct q as [| | |[|nm saves]|[|nm saves]]; cbn; try done; try (vstep; by apply HE).
  pose proof HS as (Hcs & _ & ch & Ht). unfold vcur. rewrite Hcs, Ht. cbn.
  eapply wpv_put; [|by apply HQ]. intros s' <-. unfold view. cbn. f_equal. unfold has.
  by rewrite Z.land_lor_distr_l, Z.lor_0_r.
Qed.

Lemma finish_prepared_dispatches q gid v :
  Shows q v -> match q with Single | Implicit | Block _ => True | _ => False end ->
  Dispatches q (TRANS_STMT_COMMIT_PREPARED gid) v /\ Dispatches q (TRANS_STMT_ROLLBACK_PREPARED gid) v.
Proof.
  intros HS Ha. assert (HL := Shows_lands _ _ HS). assert (Hq : q <> Idle) by (by destruct q).
  split; unfold Dispatches; cbn [dispatch_transaction_stmt]; vstep;
    (eapply prevent_block_wpv; [exact HS | done | intros Hs; apply Eexec_refused; by destruct q | intros ->]);
    vstep; (apply Eexec_neutral; [apply _ | by left | intros _]); vstep; exists Idle; (split; [done|]);
    destruct v as [cs t p]; destruct HS as (? & ? & ch & ?); cbn in *; subst; by apply ready_started.
Qed.

(** A statement of a failed block is let through only if it ends the failure. *)
Definition admitted (q : Sess) (kind : TransactionStmtKind) : Prop :=
  match q with
  | Failed _ => IsTransactionExitStmt (TransactionStmt kind) = true
  | Idle => False
  | _ => True
  end.

(** Every transaction statement, in every state of the session. *)
Lemma dispatch_all q kind v : Shows q v -> admitted q kind -> known_options kind -> Dispatches q kind v.
Proof.
  intros HS Ha Hk. assert (Hq : q <> Idle) by (by destruct q).
  destruct kind.
  - apply begin_dispatches; [done | by destruct q | done].
  - apply begin_dispatches; [done | by destruct q | done].
  - by apply commit_dispatches.
  - by apply rollback_dispatches.
  - apply savepoint_dispatches; by destruct q.
  - apply release_dispatches; by destruct q.
  - by apply rollback_to_dispatches.
  - by apply prepare_dispatches.
  - apply finish_prepared_dispatches; [done | by destruct q].
  - apply finish_prepared_dispatches; [done | by destruct q].
Qed.
End Stmts.
