(* ===== verification/SessionThms.v ===== *)
(** * Sessions refine the session machine

    For any sequence of query messages and any failures of the surrounding
    components, what the client sees of its transaction is what the session machine
    says. *)

From S2P Require Import Prelude Xid Transam XactState Xact XactView XactOps Session SessionDemo SessionSpec SessionExec SessionStmts.

Section Query.
Variable ok : PgError -> Prop.
Variable env : XactEnv.
Context {HC : Civil ok env}.
Context {HT : Tolerates ok}.

(** A statement other than a transaction statement neither begins nor ends
    (sub)transactions; when it fails it may have left the current node anyhow.  BEGIN
    comes with the options the parser knows. *)
Definition well_behaved (st : Stmt) : Prop :=
  match st with
  | TransactionStmt kind => known_options kind
  | OtherStmt m => forall v, wpv m (fun _ v' => v' = v) (Etouch ok v) v
  end.

(** Whether a transaction command is open. *)
Definition At (q : Sess) (started : bool) : Prop :=
  if started then q <> Idle else q <> Single /\ q <> Implicit.

Definition sess_start (q : Sess) : Sess := match q with Idle => Single | q => q end.

Lemma abort_begin multi q : sess_abort (sess_begin multi q) = sess_abort q.
Proof. by destruct q, multi. Qed.

Lemma sess_exec_shape q kind q2 told : sess_exec q kind = Some (q2, told) -> q2 <> Single /\ q2 <> Implicit.
Proof.
  intros H. destruct kind as [| |[]|[]| | | | | |], q; cbn in H; try done;
    try (apply fmap_Some in H as (? & ? & H)); by simplify_eq.
Qed.

(** ** The pieces of a command *)

Lemma start_wpv q started v :
  Shows q v -> At q started ->
  wpv (start_xact_command env started) (fun r v' => r = true /\ Shows (sess_start q) v') (Eland ok (sess_abort q)) v.
Proof.
  intros HS HA. assert (HL := Shows_lands _ _ HS). unfold start_xact_command. do 2 vstep.
  assert (Hrest : forall v', Shows (sess_start q) v' ->
    wpv (calls env ["enable_statement_timeout"; "enable_timeout_after(CLIENT_CONNECTION_CHECK_TIMEOUT)"] ;! mret true)
      (fun r v' => r = true /\ Shows (sess_start q) v') (Eland ok (sess_abort q)) v').
  { intros v' HS'. vstep. apply Eland_neutral; [apply _ | | intros _; by vstep].
    destruct q; by apply Shows_lands in HS'. }
  vstep. destruct started; cbn in HA |- *.
  - assert (Hw : wpv (when (has (MyXactFlags s) XACT_FLAGS_PIPELINING) BeginImplicitTransactionBlock) (fun _ v' => v' = v) (Eland ok (sess_abort q)) v).
    { destruct (has _ _) eqn:Hp; cbn [when]; [|by vstep]. unfold BeginImplicitTransactionBlock. do 2 vstep.
      rewrite bool_decide_eq_false_2; [cbn [when]; by vstep|]. rewrite (Shows_block _ _ HS).
      destruct q as [| | |[]|[]]; try done. destruct HS as (_ & Hpipe & _). rewrite <- H in Hpipe. cbn in Hpipe. congruence. }
    eapply wpv_conseq; [exact Hw | | done]. intros _ v' ->. apply Hrest. by destruct q.
  - unfold StartTransactionCommand. do 2 vstep. rewrite (Shows_block _ _ HS).
    destruct q as [| | |[]|[]]; cbn; try (by destruct HA); try (vstep; by apply Hrest).
    destruct v as [cs t p]. destruct HS as (? & ne & ch & ?). cbn in *. subst. vstep.
    eapply wpv_conseq; [by apply (StartTransaction_wpv ok)| |].
    + intros _ v' ->. vstep. apply Hrest. repeat split. by exists ch.
    + intros e v' [He (p' & ->)]. by repeat split.
Qed.

Lemma implicit_wpv multi q v :
  Shows q v -> q <> Idle ->
  wpv (when multi BeginImplicitTransactionBlock) (fun _ v' => Shows (sess_begin multi q) v') (Eland ok (sess_abort q)) v.
Proof.
  intros HS Hq. destruct multi; cbn; [|vstep; by destruct q]. unfold BeginImplicitTransactionBlock. do 2 vstep.
  rewrite (Shows_block _ _ HS). destruct q as [| | |[]|[]]; cbn; bdec; try done; try (by vstep).
  destruct v as [cs t p]. destruct HS as (? & ? & ch & ?). cbn in *. subst. vstep. by repeat eexists.
Qed.

Lemma touched_lands q v c' :
  Shows q v -> match q with Single | Implicit | Block _ => True | _ => False end ->
  touched (vcur v) c' -> Lands (von_cur (fun _ => c') v) (sess_abort q).
Proof.
  intros HS Hq Ht. destruct v as [cs t p]. destruct c'. unfold Lands.
  destruct q as [| | |saves|]; try done.
  - destruct HS as (? & ? & ch & ?). cbn in *. subst. injection Ht as -> -> -> -> ->. done.
  - destruct HS as (? & ne & ch & ?). cbn in *. subst. injection Ht as -> -> -> -> ->. done.
  - destruct HS as [Hl Htop]. cbn in *. destruct Hl as [|nm c saves cs (ne & ->) Hl].
    + destruct Htop as (ne & ch & ->). injection Ht as -> -> -> -> ->. done.
    + injection Ht as -> -> -> -> ->. cbn. by exists nm, saves.
Qed.

Lemma finish_wpv v q2 qm :
  Ready ok env v q2 qm -> wpv (finish_xact_command env true) (fun r v' => r = false /\ Shows q2 v') (Eland ok qm) v.
Proof.
  intros HR. unfold finish_xact_command. vstep. apply Eland_neutral; [apply _ | apply HR | intros _].
  cbn. vstep. eapply wpv_conseq; [by apply ready_commit| |done]. intros [] v' HS. by vstep.
Qed.

Lemma ready_leave q v : Shows q v -> q <> Idle -> q <> Implicit -> Ready ok env v (sess_leave q) (sess_abort q).
Proof.
  intros HS Hq Hi. destruct q; try done; [|by apply ready_block | by apply ready_failed].
  destruct v as [cs t p]. destruct HS as (? & ? & ch & ?). cbn in *. subst. by apply ready_started.
Qed.

(** The end of a query string outside of a block. *)
Lemma leave_wpv multi q v :
  Shows q v -> q <> Idle -> (multi = true -> q <> Single) -> (multi = false -> q <> Implicit) ->
  wpv (when multi EndImplicitTransactionBlock ;! finish_xact_command env true)
    (fun r v' => r = false /\ Shows (sess_leave q) v') (Eland ok (sess_abort q)) v.
Proof.
  intros HS Hq Hm1 Hm2.
  assert (Hend : q <> Implicit -> wpv (when multi EndImplicitTransactionBlock) (fun _ v' => v' = v) (Eland ok (sess_abort q)) v).
  { intros Hi. destruct multi; cbn; [|by vstep]. unfold EndImplicitTransactionBlock. do 2 vstep. rewrite (Shows_block _ _ HS).
    destruct q as [| | |[]|[]]; cbn; bdec; try done; by vstep. }
  vstep. destruct (decide (nv_block (vcur v) = TBLOCK_IMPLICIT_INPROGRESS)) as [Hb|Hb]; rewrite (Shows_block _ _ HS) in Hb.
  - assert (q = Implicit) as -> by (by destruct q as [| | |[]|[]]). destruct multi; [|by destruct (Hm2 eq_refl)].
    cbn. unfold EndImplicitTransactionBlock. do 2 vstep. rewrite (Shows_block _ _ HS). cbn. bdec.
    destruct v as [cs t p]. destruct HS as (? & ne & ch & ?). cbn in *. subst. vstep.
    apply (finish_wpv _ Idle Idle). by apply ready_started.
  - assert (Hi : q <> Implicit) by (by intros ->). eapply wpv_conseq; [by apply Hend| |done].
    intros _ v' ->. by apply finish_wpv, ready_leave.
Qed.

Lemma PortalRun_wpv q kind v :
  Shows q v -> admitted q kind -> known_options kind ->
  wpv (PortalRun env (TransactionStmt kind))
    (fun told v' => exists q2, sess_exec q kind = Some (q2, told) /\ Ready ok env v' q2 (sess_mid q kind)) (Eexec ok q kind) v.
Proof.
  intros HS Ha Hk. cbn. vstep. apply Eexec_neutral; [apply _ | left; by apply Shows_lands | intros _].
  vstep. eapply wpv_conseq; [by apply dispatch_all| |done]. intros told v' (q2 & He & HR).
  vstep. apply Eexec_neutral; [apply _ | right; apply HR | intros _]. vstep. by exists q2.
Qed.

(** ** The loop over the statements *)

(** Errors are explained, and land where the machine says: one of the surroundings
    anywhere on the way, the refusal of a statement where that statement stood. *)
Definition Erun (multi : bool) (q : Sess) (l : list Stmt) (e : PgError) (v : View) : Prop :=
  (ok e /\ exists q', q' ∈ sess_fails multi q l /\ Lands v q') \/
  (exists q', sess_refused multi q l = Some (e, q') /\ Lands v q').

Lemma abort_in_fails multi q l : sess_abort q ∈ sess_fails multi q l.
Proof. destruct l; cbn; [set_solver|]. rewrite abort_begin. set_solver. Qed.

Lemma Erun_here multi q l e v : ok e -> Lands v (sess_abort q) -> Erun multi q l e v.
Proof. intros He HL. left. split; [done|]. exists (sess_abort q). split; [apply abort_in_fails | done]. Qed.

Lemma Erun_Eland multi q l e v : Eland ok (sess_abort q) e v -> Erun multi q l e v.
Proof. intros []. by apply Erun_here. Qed.

(** The end of one statement: of the query string, of its transaction statement, or
    just of its command. *)
Definition stmt_end (multi : bool) (st : Stmt) (rest : list Stmt) : M XactState bool :=
  match rest with
  | [] => when multi EndImplicitTransactionBlock ;! finish_xact_command env true
  | _ :: _ =>
      if is_TransactionStmt st then finish_xact_command env true
      else
        CommandCounterIncrement env ;! call env (Call "disable_statement_timeout") ;! mret true
  end.

Definition Estmt (q : Sess) (st : Stmt) (rest : list Stmt) (e : PgError) (v : View) : Prop :=
  (ok e /\ (Lands v (sess_abort q) \/ match st with TransactionStmt kind => Lands v (sess_mid q kind) | OtherStmt _ => False end)) \/
  (sess_stmt q st rest = None /\ e = stmt_refusal q st /\ Lands v (sess_abort q)).

Lemma stmt_wpv multi q st rest v :
  Shows q v -> q <> Idle -> (multi = true -> q <> Single) -> (multi = false -> q <> Implicit /\ rest = []) ->
  (match q with Failed _ => IsTransactionExitStmt st = true | _ => True end) -> well_behaved st ->
  wpv (let! told := PortalRun env st in call env (Call "PortalDrop") ;! let! b := stmt_end multi st rest in mret (b, told))
    (fun r v' => exists q2, sess_stmt q st rest = Some (q2, snd r) /\ Shows q2 v' /\ At q2 (fst r) /\ (rest = [] -> fst r = false))
    (Estmt q st rest) v.
Proof.
  intros HS Hq Hm1 Hm2 Ha Hwb. assert (HL := Shows_lands _ _ HS). destruct st as [kind|m].
  - assert (Hadm : admitted q kind) by (by destruct q). vstep.
    eapply wpv_conseq; [by apply PortalRun_wpv| |done]. intros told v' (q2 & He & HR).
    vstep. apply (wpv_neutral ok); [apply _ | | intros e Hok; left; split; [done | right; apply HR]]. intros _. vstep.
    assert (Hfin : wpv (stmt_end multi (TransactionStmt kind) rest) (fun r v' => r = false /\ Shows q2 v') (Eland ok (sess_mid q kind)) v').
    { assert (Hf := finish_wpv _ _ _ HR).
      destruct rest; [|done]. cbn. vstep. destruct multi; cbn; [|by vstep].
      unfold EndImplicitTransactionBlock. do 2 vstep. destruct HR as (_ & Hb & _).
      rewrite bool_decide_eq_false_2 by done. cbn [when]. by vstep. }
    eapply wpv_conseq; [exact Hfin| |].
    + intros b v2 [-> HS2]. vstep. exists q2. repeat split; try done; by eapply sess_exec_shape.
    + intros e v2 [Hok HL2]. left. split; [done | by right].
  - assert (Hnf : match q with Single | Implicit | Block _ => True | _ => False end) by (by destruct q).
    assert (Hs : forall q', sess_stmt q (OtherStmt m) rest = Some (q', false) <->
      q' = match rest with [] => sess_leave q | _ :: _ => q end).
    { intros q'. destruct q; try done; cbn; naive_solver. }
    vstep. cbn [PortalRun]. vstep. eapply wpv_conseq; [apply Hwb| |].
    2: { intros e v' [Hok (c' & -> & Ht)]. left. split; [done|]. left. by apply touched_lands. }
    intros _ v' ->. do 2 vstep. apply (wpv_neutral ok); [apply _ | | intros e Hok; left; split; [done | by left]]. intros _. vstep.
    destruct rest as [|st rest].
    + eapply wpv_conseq; [by apply leave_wpv; [..|intros E; apply Hm2]| |].
      * intros b v' [-> HS']. vstep. exists (sess_leave q). split; [by apply Hs|]. repeat split; try done; by destruct q.
      * intros e v' [Hok HL']. left. split; [done | by left].
    + cbn. do 2 (vstep; apply (wpv_neutral ok); [apply _ | intros _ | intros e Hok; left; split; [done | by left]]).
      repeat vstep. exists q. split; [by apply Hs|]. by repeat split.
Qed.
Lemma wpv_pack {A B C} (m : M XactState A) (c : M XactState unit) (m' : M XactState B) (k : B -> A -> M XactState C) Q E v :
  wpv (let! r := (let! a := m in c ;! let! b := m' in mret (b, a)) in k (fst r) (snd r)) Q E v ->
  wpv (let! a := m in c ;! let! b := m' in k b a) Q E v.
Proof.
  intros H s Hs. specialize (H s Hs). unfold wpe, mbnd, mret in *.
  destruct (m s) as [[a|e|] s1]; try done. destruct (c s1) as [[[]|e|] s2]; try done.
  by destruct (m' s2) as [[b|e|] s3].
Qed.

Lemma Erun_stmt multi q st rest e v : Estmt (sess_begin multi q) st rest e v -> Erun multi q (st :: rest) e v.
Proof.
  intros [[He HL]|(Hs & -> & HL)].
  - left. split; [done|]. destruct HL as [HL|HL]; [exists (sess_abort q); rewrite abort_begin in HL; by split; [apply abort_in_fails|]|].
    destruct st as [kind|]; [|done]. exists (sess_mid (sess_begin multi q) kind). cbn. split; [set_solver | done].
  - right. exists (sess_abort (sess_begin multi q)). split; [|done]. cbn. by rewrite Hs.
Qed.

Lemma Erun_next multi q st rest q2 told e v :
  sess_stmt (sess_begin multi q) st rest = Some (q2, told) -> Erun multi q2 rest e v -> Erun multi q (st :: rest) e v.
Proof.
  intros Hs [[He (q' & Hq' & HL)]|(q' & Hr & HL)].
  - left. split; [done|]. exists q'. split; [|done]. cbn. rewrite Hs. set_solver.
  - right. exists q'. split; [|done]. cbn. by rewrite Hs.
Qed.

Lemma begin_start multi q : sess_begin multi (sess_start q) = sess_begin multi q.
Proof. by destruct q. Qed.

Lemma Erun_start multi q st rest e v : Erun multi (sess_start q) (st :: rest) e v -> Erun multi q (st :: rest) e v.
Proof. unfold Erun. cbn [sess_refused sess_fails]. by rewrite begin_start. Qed.

(** What follows the gate for one statement. *)
Lemma exec_step multi q st rest v (k : bool -> bool -> M XactState (bool * list bool)) Q :
  Shows q v -> q <> Idle -> (multi = false -> q <> Implicit /\ rest = []) ->
  (match q with Failed _ => IsTransactionExitStmt st = true | _ => True end) -> well_behaved st ->
  (forall b told q2 v', sess_stmt (sess_begin multi q) st rest = Some (q2, told) -> Shows q2 v' -> At q2 b ->
     (rest = [] -> b = false) -> wpv (k b told) Q (Erun multi q (st :: rest)) v') ->
  wpv (when multi BeginImplicitTransactionBlock ;!
       calls env ["CHECK_FOR_INTERRUPTS"; "pg_analyze_and_rewrite_fixedparams"; "pg_plan_queries"; "PortalStart"] ;!
       let! told := PortalRun env st in call env (Call "PortalDrop") ;! let! b := stmt_end multi st rest in k b told)
    Q (Erun multi q (st :: rest)) v.
Proof.
  intros HS Hq Hm Ha Hwb Hk. vstep. eapply wpv_conseq; [by apply implicit_wpv| |by intros; apply Erun_Eland].
  intros [] v1 HS1. assert (HL1 := Shows_lands _ _ HS1). rewrite abort_begin in HL1.
  vstep. apply (wpv_neutral ok); [apply _ | intros _ | intros; by apply Erun_here].
  apply wpv_pack. vstep. eapply wpv_conseq; [apply (stmt_wpv multi (sess_begin multi q)); try done| |].
  - by destruct q, multi.
  - by destruct multi, q.
  - intros ->. destruct (Hm eq_refl). by destruct q.
  - destruct q, multi; done.
  - intros [b told] v' (q2 & Hs & HS2 & HA2 & Hb). by eapply Hk.
  - intros e v' HE. by apply Erun_stmt.
Qed.

(** Every run of the statements of a query is a run of the machine. *)
Lemma exec_wpv multi l : (multi = false -> (length l <= 1)%nat) -> Forall well_behaved l -> forall q started v,
  Shows q v -> At q started -> (multi = false -> q <> Implicit) ->
  wpv (exec_parsetrees env multi started l)
    (fun r v' => exists q', sess_run multi q l = Some (q', snd r) /\ Shows q' v' /\ At q' (fst r) /\ fst r = (match l with [] => started | _ => false end))
    (Erun multi q l) v.
Proof.
  induction l as [|st rest IH]; intros Hlen Hwb q started v HS HA Hmi; cbn [exec_parsetrees].
  { vstep. by exists q. }
  inversion_clear Hwb as [|? ? Hst Hrest]. assert (HL := Shows_lands _ _ HS). do 2 vstep.
  assert (Hgate : IsAbortedTransactionBlockState s = match q with Failed _ => true | _ => false end).
  { unfold IsAbortedTransactionBlockState. destruct (view_cur_fields _ _ H) as (_ & -> & _). rewrite (Shows_block _ _ HS).
    by destruct q as [| | |[]|[]]. }
  rewrite Hgate. destruct (match q with Failed _ => true | _ => false end && negb (IsTransactionExitStmt st)) eqn:Hg.
  { vstep. apply andb_true_iff in Hg as [Hf Hx]. destruct q; try done. apply Erun_stmt. right. split; [by destruct st as [[]|]|]. split; [by destruct st as [[]|]|]. done. }
  vstep. eapply wpv_conseq; [by apply start_wpv| |by intros; apply Erun_Eland].
  intros ? v1 [-> HS1].
  eapply wpv_conseq; [eapply (exec_step multi (sess_start q) st rest) | intros r v' HQ; exact HQ | by intros; apply Erun_start]; try done.
  - by destruct q.
  - intros Hf. split; [specialize (Hmi Hf); by destruct q|]. specialize (Hlen Hf). destruct rest; [done|]. cbn in Hlen. lia.
  - destruct q; try done. cbn. by destruct (IsTransactionExitStmt st).
  - intros b told q2 v' Hs HS2 HA2 Hb. rewrite begin_start in Hs.
    vstep. apply (wpv_neutral ok); [apply _ | intros _ | ].
    2: { intros e Hok. eapply Erun_next; [by rewrite begin_start|]. apply Erun_here; [done|]. by apply Shows_lands. }
    vstep. eapply wpv_conseq; [apply (IH ltac:(intros E; specialize (Hlen E); cbn in Hlen; lia) Hrest q2 b v' HS2 HA2)| |].
    + intros E. destruct rest; [|specialize (Hlen E); cbn in Hlen; lia]. rewrite (Hb eq_refl) in HA2. by destruct HA2.
    + intros r v2 (q' & Hr & HS' & HA' & Hfst). vstep. exists q'. cbn. rewrite Hs. cbn. rewrite Hr. repeat split; try done.
      rewrite Hfst. destruct rest; [by apply Hb | done].
    + intros e v2 HE. eapply Erun_next; [by rewrite begin_start | done].
Qed.
(** ** A whole query, and what follows when it fails *)

(** The states between queries. *)
Definition resting (q : Sess) : Prop := q <> Single /\ q <> Implicit.

Lemma leave_resting multi q : resting (sess_leave (sess_begin multi q)).
Proof. by destruct multi, q. Qed.

(** A query can still fail when all its statements are through. *)
Lemma run_in_fails multi q l q' told : sess_run multi q l = Some (q', told) -> sess_abort q' ∈ sess_fails multi q l.
Proof.
  revert q told. induction l as [|st rest IH]; intros q told; cbn; [intros [= -> <-]; set_solver|].
  destruct (sess_stmt _ _ _) as [[q2 t]|]; cbn; [|done]. destruct (sess_run multi q2 rest) as [[q3 ts]|] eqn:Hr; cbn; [|done].
  intros [= -> <-]. specialize (IH q2 ts Hr). set_solver.
Qed.

Lemma run_start multi q st rest : sess_run multi (sess_start q) (st :: rest) = sess_run multi q (st :: rest).
Proof. cbn. by rewrite begin_start. Qed.

Lemma simple_query_wpv q l v :
  Shows q v -> resting q -> Forall well_behaved l ->
  wpv (exec_simple_query env false l)
    (fun told v' => exists q', sess_query q l = Some (q', told) /\ resting q' /\ Shows q' v')
    (Erun (is_multi l) q l) v.
Proof.
  intros HS Hr Hwb. unfold exec_simple_query.
  assert (HE : forall e v', Eland ok (sess_abort q) e v' -> Erun (is_multi l) q l e v') by (intros; by apply Erun_Eland).
  vstep. eapply wpv_conseq; [by apply start_wpv| |done]. intros ? v1 [-> HS1].
  assert (HL1 : Lands v1 (sess_abort q)) by (apply Shows_lands in HS1; by destruct q).
  vstep. apply (wpv_neutral ok); [apply _ | intros _ | intros e He; by apply HE].
  assert (HA : At (sess_start q) true) by (by destruct q). assert (Hi : sess_start q <> Implicit) by (destruct Hr; by destruct q).
  destruct l as [|st rest].
  - cbn [exec_parsetrees]. do 2 vstep. cbn [fst snd]. vstep.
    eapply wpv_conseq; [apply finish_wpv, (ready_leave (sess_start q)); [done | by destruct q | done]| |].
    + intros ? v2 [-> HS2]. vstep. apply (wpv_neutral ok); [apply _ | intros _ |].
      * vstep. exists (sess_leave (sess_begin false q)). split; [done|]. split; [apply leave_resting | by destruct q].
      * intros e Hok. apply HE. split; [done|]. apply Shows_lands in HS2. by destruct q.
    + intros e v2 [Hok HL2]. apply HE. split; [done|]. by destruct q.
  - rewrite (bool_decide_eq_false_2 (st :: rest = [])) by done. cbn [when].
    vstep. eapply wpv_conseq; [apply (exec_wpv (is_multi (st :: rest)) (st :: rest) ltac:(unfold is_multi; cbn; destruct rest; cbn; [lia|done])
      Hwb (sess_start q) true v1 HS1 HA ltac:(done))| |].
    + intros [b told] v2 (q' & Hrun & HS2 & HA2 & Hb). cbn [fst snd] in *. subst b. rewrite run_start in Hrun.
      unfold finish_xact_command. vstep. vstep. apply (wpv_neutral ok); [apply _ | intros _ |].
      * repeat vstep. by exists q'.
      * intros e Hok. left. split; [done|]. exists (sess_abort q'). split; [by eapply run_in_fails | by apply Shows_lands].
    + intros e v2 HEr. apply Erun_start in HEr. exact HEr.
Qed.

Lemma fails_settled multi q l q' : q' ∈ sess_fails multi q l -> sess_abort q' = q'.
Proof.
  assert (Ha : forall q, sess_abort (sess_abort q) = sess_abort q) by (by intros []).
  assert (Hm : forall q kind, sess_abort (sess_mid q kind) = sess_mid q kind).
  { intros q0 kind. destruct kind, q0; cbn; try done; by destruct (outside _ _). }
  revert q. induction l as [|st rest IH]; intros q; cbn; [set_solver|].
  intros [->|[Hin|Hin]%elem_of_app]%elem_of_cons; [done| |].
  - destruct st; [|set_solver]. apply list_elem_of_singleton in Hin as ->. apply Hm.
  - destruct (sess_stmt _ _ _) as [[q2 t]|]; [by apply (IH q2) | set_solver].
Qed.

Lemma Erun_lands multi q l e v : Erun multi q l e v -> exists q', q' ∈ sess_fails multi q l /\ Lands v q'.
Proof. intros [[_ H]|(q' & [_ Hin]%sess_refused_fails & HL)]; [done | by exists q']. Qed.

#[export] Instance Neutral_if_due flag c : Neutral ok c -> Neutral ok (if_due env flag c).
Proof. intros Hc. unfold if_due. apply Neutral_bind; [apply _|]. intros s. destruct (due _ _ _); apply _. Qed.

Lemma iteration_wpv q l v :
  Shows q v -> resting q -> Forall well_behaved l ->
  wpv (run_one_iteration_inner env l)
    (fun told v' => exists q', sess_query q l = Some (q', told) /\ resting q' /\ Shows q' v') (Erun (is_multi l) q l) v.
Proof.
  intros HS Hr Hwb. unfold run_one_iteration_inner.
  do 4 (vstep; apply (wpv_neutral ok); [apply _ | intros _ | intros e He; apply Erun_here; [done | by apply Shows_lands]]).
  by apply simple_query_wpv.
Qed.

(** One message of the client: answered as the machine says, or failed and settled
    where the machine allows; or the backend ends, with an error of the surroundings
    or after sixteen recoveries that failed. *)
Lemma postgres_query_wpv q l v :
  Shows q v -> resting q -> Forall well_behaved l ->
  wpv (postgres_query env l)
    (fun r v' => exists q', match r with
                            | Some told => sess_query q l = Some (q', told)
                            | None => q' ∈ sess_fails (is_multi l) q l
                            end /\ resting q' /\ Shows q' v')
    (fun e _ => ok e /\ level_fatal e = true \/
       e = PgRaise FATAL ERRCODE_INTERNAL_ERROR "error recovery failed to settle the transaction; terminating backend") v.
Proof.
  intros HS Hr Hwb. unfold postgres_query. vstep. apply wpv_catch.
  eapply wpv_conseq; [by apply iteration_wpv| |]; cbv beta iota.
  - intros told v' (q' & Hq & Hr' & HS'). vstep. by exists q'.
  - intros e v' HEr. destruct (level_fatal e) eqn:Hf.
    { apply wpv_err. left. destruct HEr as [[? _]|(q' & [Hf' _]%sess_refused_fails & _)]; [done | congruence]. }
    destruct (Erun_lands _ _ _ _ _ HEr) as (q' & Hq' & HL). assert (Hset := fails_settled _ _ _ _ Hq').
    vstep. eapply wpv_conseq; [by apply (recovery_attempts_lands ok env MAX_RECOVERY_ATTEMPTS true v' q')| |].
    + intros [] v2 HS2; vstep; [|by right]. exists q'. split; [done|]. split; [by destruct q' | by apply HS2].
    + intros e2 v2 [Hok Hf2]. by left.
Qed.

Lemma postgres_loop_wpv ls q v :
  Shows q v -> resting q -> Forall (Forall well_behaved) ls ->
  wpv (postgres_loop env ls) (fun answers v' => exists q', sess_trace q ls answers q' /\ Shows q' v')
    (fun e _ => ok e /\ level_fatal e = true \/
       e = PgRaise FATAL ERRCODE_INTERNAL_ERROR "error recovery failed to settle the transaction; terminating backend") v.
Proof.
  revert q v. induction ls as [|l ls IH]; intros q v HS Hr Hwb; cbn; [vstep; exists q; by split; [constructor|]|].
  inversion_clear Hwb as [|? ? Hl Hls]. vstep. eapply wpv_conseq; [by apply (postgres_query_wpv q)| |done].
  intros r v1 (q1 & Hq1 & Hr1 & HS1). vstep. eapply wpv_conseq; [by apply (IH q1)| |done].
  intros answers v2 (q2 & Ht & HS2). vstep. exists q2. split; [|done]. destruct r; by econstructor.
Qed.
End Query.

Lemma Shows_new : Shows Idle (view new_XactState).
Proof. by repeat eexists. Qed.

Lemma Shows_status q s : Shows q (view s) -> TransactionBlockStatusCode s = sess_status q.
Proof.
  intros HS%Shows_block. unfold TransactionBlockStatusCode.
  destruct (view_cur_fields s (view s) eq_refl) as (_ & -> & _). rewrite HS. by destruct q as [| | |[]|[]].
Qed.

(** C3. Whatever sequence of query messages a client sends (transaction statements
    with savepoints, chaining and PREPARE, other statements, several per message), and
    whichever calls into other components fail on the way, the transaction manager
    behaves as the session machine: every answered query is the machine's transition,
    every failed one leaves a state the machine allows, and the status sent to the
    client is the machine's.  The backend ends only with a fatal error of a component
    it calls, or after sixteen failed recoveries. *)
Theorem session_refines (ok : PgError -> Prop) (env : XactEnv) (messages : list (list Stmt)) :
  Civil ok env -> Tolerates ok -> Forall (Forall (well_behaved ok)) messages ->
  match postgres_loop env messages new_XactState with
  | (Ok answers, s') =>
      exists q, sess_trace Idle messages answers q /\ Shows q (view s') /\ TransactionBlockStatusCode s' = sess_status q
  | (Err e, _) =>
      ok e /\ level_fatal e = true \/
      e = PgRaise FATAL ERRCODE_INTERNAL_ERROR "error recovery failed to settle the transaction; terminating backend"
  | (Panic, _) => False
  end.
Proof.
  intros HC HT Hwb.
  pose proof (postgres_loop_wpv ok env messages Idle _ Shows_new ltac:(done) Hwb _ eq_refl) as H. unfold wpe in H.
  destruct (postgres_loop env messages new_XactState) as [[answers|e|] s']; [|done..].
  destruct H as (q & Ht & HS). exists q. split; [done|]. split; [done|]. by apply Shows_status.
Qed.

(** C12. Which error a query raises.  Run on a session in any state, whatever fails
    around it, [exec_simple_query] ends.  If it succeeds, the machine refuses none of
    its statements.  If it fails, the error is one of the components it calls or of a
    limit; or it is the very error (severity, SQLSTATE and message) the machine
    prescribes for the first statement it refuses, in the state that statement is met
    in: a savepoint that is not there, a savepoint or AND CHAIN outside a block,
    finishing a prepared transaction inside one, anything but the end of a failed
    block; and then the session is where that statement stood.  In either case
    aborting what is left lands in a state the machine allows. *)
Theorem query_errors (ok : PgError -> Prop) (env : XactEnv) (q : Sess) (parsetree_list : list Stmt) (s : XactState) :
  Civil ok env -> Tolerates ok -> Forall (well_behaved ok) parsetree_list ->
  Shows q (view s) -> resting q ->
  match exec_simple_query env false parsetree_list s with
  | (Ok _, _) => sess_refused (is_multi parsetree_list) q parsetree_list = None
  | (Err e, s') =>
      exists q',
        (ok e /\ q' ∈ sess_fails (is_multi parsetree_list) q parsetree_list \/
         sess_refused (is_multi parsetree_list) q parsetree_list = Some (e, q')) /\
        Lands (view s') q' /\
        wpv (AbortCurrentTransaction env) (fun _ v' => Shows q' v') (Eland ok q') (view s')
  | (Panic, _) => False
  end.
Proof.
  intros HC HT Hwb HS Hr. pose proof (simple_query_wpv ok env q parsetree_list _ HS Hr Hwb s eq_refl) as H.
  unfold wpe in H. destruct (exec_simple_query env false parsetree_list s) as [[told|e|] s']; [| |done].
  - destruct H as (q' & Hq & _). destruct parsetree_list as [|st rest]; [done|].
    apply sess_refused_None. unfold sess_query in Hq. rewrite Hq. by eexists.
  - destruct H as [[He (q' & Hq' & HL)]|(q' & Hq' & HL)]; exists q'; (split; [auto|]; split; [done|]);
      by apply AbortCurrentTransaction_lands.
Qed.

(** ** Concrete sessions *)

Definition demo_ok (e : PgError) : Prop := e = PgErr "notify queue is full" \/ e = PgErr "division by zero" \/ e ∈ limits.

Lemma demo_Tolerates : Tolerates demo_ok.
Proof. intros e He. right. by right. Qed.

Lemma demo_Civil fails : Civil demo_ok (demo_env fails).
Proof.
  split; try done. intros e h. unfold demo_ok. cbn.
  destruct (fails && _); cbn; [by left | done].
Qed.

Lemma neutral_well_behaved ok m `{!Neutral ok m} : well_behaved ok (OtherStmt m).
Proof.
  intros v. apply (wpv_neutral ok); [done..|]. intros e He. split; [done|]. exists (vcur v). split; [|done].
  destruct v as [[] t p]; done.
Qed.

Lemma demo_well_behaved fails : Forall (Forall (well_behaved demo_ok)) (demo_messages fails).
Proof.
  pose proof (demo_Civil fails). pose proof demo_Tolerates.
  assert (Hw : well_behaved demo_ok (demo_write fails)) by (apply neutral_well_behaved; neutral).
  assert (He : well_behaved demo_ok demo_error).
  { apply neutral_well_behaved, Neutral_lift. right. by left. }
  repeat first [exact I | assumption | reflexivity | apply List.Forall_nil | apply List.Forall_cons].
Qed.

(** The block fails after the savepoint, refuses a statement, goes back to the
    savepoint and commits; with a commit that fails there is no block to roll back. *)
Lemma session_refines_witness :
  fst (postgres_loop (demo_env false) (demo_messages false) new_XactState) =
    Ok [Some [false]; Some [false]; Some [false]; Some [false]; None; None; Some [false]; Some [false; false];
        Some [false]; Some [false; false]] /\
  fst (postgres_loop (demo_env true) (demo_messages true) new_XactState) =
    Ok [Some [false]; Some [false]; Some [false]; Some [false]; None; None; Some [false]; Some [false; false];
        None; Some [false; false]] /\
  match postgres_loop (demo_env true) (demo_messages true) new_XactState with
  | (Ok answers, s') =>
      exists q, sess_trace Idle (demo_messages true) answers q /\ Shows q (view s') /\ TransactionBlockStatusCode s' = sess_status q
  | (Err e, _) =>
      demo_ok e /\ level_fatal e = true \/
      e = PgRaise FATAL ERRCODE_INTERNAL_ERROR "error recovery failed to settle the transaction; terminating backend"
  | (Panic, _) => False
  end.
Proof.
  split; [vm_compute; reflexivity|]. split; [vm_compute; reflexivity|].
  exact (session_refines demo_ok (demo_env true) (demo_messages true) (demo_Civil true) demo_Tolerates (demo_well_behaved true)).
Defined.

(** RELEASE of a savepoint that is not there; and, in one message after a statement that
    is carried out, AND CHAIN outside of a block. *)
Definition demo_state : XactState :=
  snd (postgres_loop (demo_env false) [[TransactionStmt (TRANS_STMT_BEGIN [])]; [TransactionStmt (TRANS_STMT_SAVEPOINT "a")]] new_XactState).
Definition demo_release : list Stmt := [TransactionStmt (TRANS_STMT_RELEASE "b")].
Definition demo_chain : list Stmt := [demo_write false; TransactionStmt (TRANS_STMT_COMMIT true)].

Lemma query_errors_witness :
  (exists q',
    (demo_ok (no_savepoint "b") /\ q' ∈ sess_fails false (Block ["a"]) demo_release \/
     sess_refused false (Block ["a"]) demo_release = Some (no_savepoint "b", q')) /\
    Lands (view (snd (exec_simple_query (demo_env false) false demo_release demo_state))) q') /\
  (exists q',
    (demo_ok (outside_block "COMMIT AND CHAIN") /\ q' ∈ sess_fails true Idle demo_chain \/
     sess_refused true Idle demo_chain = Some (outside_block "COMMIT AND CHAIN", q')) /\
    Lands (view (snd (exec_simple_query (demo_env false) false demo_chain new_XactState))) q').
Proof.
  pose proof (demo_Civil false) as HC. pose proof demo_Tolerates as HT. split.
  - pose proof (query_errors demo_ok (demo_env false) (Block ["a"]) demo_release demo_state HC HT
      ltac:(repeat first [exact I | apply List.Forall_nil | apply List.Forall_cons])) as H.
    rewrite (surjective_pairing (exec_simple_query _ _ _ _)) in H.
    replace (fst (exec_simple_query (demo_env false) false demo_release demo_state)) with (@Err (list bool) (no_savepoint "b")) in H
      by (vm_compute; reflexivity).
    destruct H as (q' & H1 & H2 & _); [| by split | by exists q'].
    vm_compute. split; [|by repeat eexists]. repeat first [apply List.Forall2_cons | apply List.Forall2_nil]. by eexists.
  - pose proof (query_errors demo_ok (demo_env false) Idle demo_chain new_XactState HC HT) as H.
    rewrite (surjective_pairing (exec_simple_query _ _ _ _)) in H.
    replace (fst (exec_simple_query (demo_env false) false demo_chain new_XactState))
      with (@Err (list bool) (outside_block "COMMIT AND CHAIN")) in H by (vm_compute; reflexivity).
    destruct H as (q' & H1 & H2 & _); [| apply Shows_new | by split | by exists q'].
    apply List.Forall_cons; [|apply List.Forall_cons; [exact I | apply List.Forall_nil]]. apply neutral_well_behaved. neutral.
Defined.
