(* ===== verification/XactTrace.v ===== *)
(** * The order of the calls the transaction manager makes

    The commit and abort records go to the log before the commit and abort bits are
    set, a synchronous commit is flushed in between, and a committed transaction
    leaves the process array and releases its locks only after that.  This holds
    whatever the called components answer. *)

From S2P Require Import Prelude Xid Transam XactState Xact Session.

(** ** The discipline, on traces with the newest call first *)

Fixpoint last_commit_record (h : list Event) : option (Z * list Z) :=
  match h with
  | [] => None
  | XactLogCommitRecord xid children :: _ => Some (xid, children)
  | _ :: h => last_commit_record h
  end.

Fixpoint last_abort_record (h : list Event) : option (Z * list Z) :=
  match h with
  | [] => None
  | XactLogAbortRecord xid children :: _ => Some (xid, children)
  | _ :: h => last_abort_record h
  end.

(** What must have come before a call. *)
Definition justified (e : Event) (h : list Event) : Prop :=
  match e with
  | TransactionIdCommitTree xid children => exists h', h = XLogFlush :: h' /\ last_commit_record h' = Some (xid, children)
  | TransactionIdAsyncCommitTree xid children =>
      exists h', h = XLogSetAsyncXactLSN :: h' /\ last_commit_record h' = Some (xid, children)
  | TransactionIdAbortTree xid children => last_abort_record h = Some (xid, children)
  | _ => True
  end.

Fixpoint wal_first (h : list Event) : Prop :=
  match h with
  | [] => True
  | e :: h => justified e h /\ wal_first h
  end.

(** ** Programs that keep to it *)

(** Whatever a program returns, [P] of the trace is kept. *)
Class Keeps (P : list Event -> Prop) {A} (m : M XactState A) : Prop :=
  keeps : forall s, P (events s) -> P (events (snd (m s))).

(** [P] does not depend on ordinary calls. *)
Definition plain (e : Event) : bool :=
  match e with
  | XactLogCommitRecord _ _ | XactLogAbortRecord _ _ | TransactionIdCommitTree _ _ | TransactionIdAsyncCommitTree _ _
  | TransactionIdAbortTree _ _ => false
  | _ => true
  end.

Class PlainStable (P : list Event -> Prop) : Prop := plain_stable : forall e h, plain e = true -> P h -> P (e :: h).

#[export] Instance wal_first_stable : PlainStable wal_first.
Proof. intros e h He Hh. split; [|done]. by destruct e. Qed.

Section Keep.
Variable P : list Event -> Prop.
Context {HP : PlainStable P}.

#[export] Instance Keeps_bind {A B} (m : M XactState A) (k : A -> M XactState B) :
  Keeps P m -> (forall a, Keeps P (k a)) -> Keeps P (mbnd m k).
Proof.
  intros Hm Hk s Hs. specialize (Hm s Hs). unfold mbnd. destruct (m s) as [[a|e|] s']; cbn in *; [by apply Hk | done..].
Qed.
#[export] Instance Keeps_ret {A} (a : A) : Keeps P (mret a).
Proof. by intros s. Qed.
#[export] Instance Keeps_lift {A} (r : result A) : Keeps P (mlift r).
Proof. by intros s. Qed.
#[export] Instance Keeps_raise {A} l code msg : Keeps P (@raise A l code msg).
Proof. by intros s. Qed.
#[export] Instance Keeps_unexpected {A} fn b : Keeps P (@unexpected_block_state A fn b).
Proof. by intros s. Qed.
#[export] Instance Keeps_get : Keeps P mget.
Proof. by intros s. Qed.
#[export] Instance Keeps_returning {A} (a : A) : Keeps P (returning a).
Proof. by intros s. Qed.
#[export] Instance Keeps_fall {A} : Keeps P (@fall_through XactState A).
Proof. by intros s. Qed.
#[export] Instance Keeps_early {A} (c : M XactState (option A)) k : Keeps P c -> Keeps P k -> Keeps P (early c k).
Proof. intros Hc Hk. apply Keeps_bind; [done|]. intros []; apply _. Qed.
#[export] Instance Keeps_finally {A} (m : M XactState A) : Keeps P m -> Keeps P (finally m).
Proof. intros Hm s Hs. specialize (Hm s Hs). unfold finally. by destruct (m s) as [[] s']. Qed.
#[export] Instance Keeps_catch {A} (m : M XactState A) : Keeps P m -> Keeps P (catch_unwind m).
Proof. intros Hm s Hs. specialize (Hm s Hs). unfold catch_unwind. by destruct (m s). Qed.
#[export] Instance Keeps_when b m : Keeps P m -> Keeps P (when b m).
Proof. destruct b; [done | intros _; apply Keeps_ret]. Qed.

Lemma keeps_put f : (forall s, events (f s) = events s) -> Keeps P (mput f).
Proof. intros Hf s Hs. cbn. by rewrite Hf. Qed.
Lemma events_on_current f s : events (on_current f s) = events s.
Proof. unfold on_current. by destruct (subs s). Qed.
Lemma events_on_node i f s : events (on_node i f s) = events s.
Proof. by destruct i. Qed.

#[export] Instance Keeps_current f : Keeps P (put_current f).
Proof. apply keeps_put. apply events_on_current. Qed.
#[export] Instance Keeps_on_node i f : Keeps P (mput (on_node i f)).
Proof. apply keeps_put. apply events_on_node. Qed.

Lemma keeps_note e : plain e = true -> Keeps P (note e).
Proof. intros He s Hs. by apply plain_stable. Qed.
#[export] Instance Keeps_notes l : Keeps P (notes l).
Proof. induction l; cbn; [apply _|]. apply Keeps_bind; [by apply keeps_note | by intros]. Qed.
#[export] Instance Keeps_warn msg : Keeps P (warn msg).
Proof. by apply keeps_note. Qed.
#[export] Instance Keeps_block : Keeps P cur_block_state.
Proof. unfold cur_block_state. apply _. Qed.
#[export] Instance Keeps_state : Keeps P cur_state.
Proof. unfold cur_state. apply _. Qed.
#[export] Instance Keeps_warn_state f : Keeps P (warn_state f).
Proof. unfold warn_state. apply _. Qed.
#[export] Instance Keeps_asking {A} (f : list Event -> result A) : Keeps P (asking f).
Proof. unfold asking. apply _. Qed.
#[export] Instance Keeps_miter {A} (f : A -> M XactState unit) l : (forall a, Keeps P (f a)) -> Keeps P (miter f l).
Proof. intros Hf. induction l; cbn; apply _. Qed.

Section Env.
Variable env : XactEnv.

Lemma keeps_call e : plain e = true -> Keeps P (call env e).
Proof. intros He s Hs. by apply plain_stable. Qed.
#[export] Instance Keeps_calls l : Keeps P (calls env l).
Proof. induction l; cbn; [apply _|]. apply Keeps_bind; [by apply keeps_call | by intros]. Qed.
#[export] Instance Keeps_reserve msg : Keeps P (try_reserve env msg).
Proof. unfold try_reserve. apply Keeps_bind; [apply _|]. intros s. destruct (reserve _ _); apply _. Qed.
End Env.
End Keep.

Ltac keeps_step :=
  lazymatch goal with
  | |- forall _, _ => intro
  | |- Keeps _ (mbnd _ _) => apply Keeps_bind
  | |- Keeps _ (early _ _) => apply Keeps_early
  | |- Keeps _ (when _ _) => apply Keeps_when
  | |- Keeps _ (finally _) => apply Keeps_finally
  | |- Keeps _ (catch_unwind _) => apply Keeps_catch
  | |- Keeps _ (miter _ _) => apply Keeps_miter
  | |- Keeps _ (match ?x with _ => _ end) => destruct x
  | |- Keeps _ (note _) => apply keeps_note; [apply _ | reflexivity]
  | |- Keeps _ (call _ _) => apply keeps_call; [apply _ | reflexivity]
  | |- Keeps _ (become _) => apply Keeps_current
  | |- Keeps _ (mput (on_node _ _)) => apply Keeps_on_node
  | |- Keeps _ (mput _) => apply keeps_put; reflexivity
  | |- Keeps _ _ => apply _
  end.
Ltac keeps := repeat keeps_step.

(** ** The two places where the outcome is made durable *)

(** A program that takes the trace from [P] to [Q], or stops in order. *)
Definition moves (P Q : list Event -> Prop) {A} (m : M XactState A) : Prop :=
  forall s, P (events s) -> match m s with (Ok _, s') => Q (events s') | (_, s') => wal_first (events s') end.

Lemma moves_bind P Q R {A B} (m : M XactState A) (k : A -> M XactState B) :
  moves P Q m -> (forall a, moves Q R (k a)) -> moves P R (mbnd m k).
Proof.
  intros Hm Hk s Hs. specialize (Hm s Hs). unfold mbnd. destruct (m s) as [[a|e|] s']; cbn in *; [by apply Hk | auto..].
Qed.

Lemma keeps_moves P {A} (m : M XactState A) : (forall h, P h -> wal_first h) -> Keeps P m -> moves P P m.
Proof. intros HP Hk s Hs. specialize (Hk s Hs). destruct (m s) as [[] s']; cbn in *; auto. Qed.

Lemma moves_keeps {A} (m : M XactState A) : moves wal_first wal_first m -> Keeps wal_first m.
Proof. intros Hm s Hs. specialize (Hm s Hs). by destruct (m s) as [[] s']. Qed.

Lemma moves_weaken P Q R {A} (m : M XactState A) : (forall h, Q h -> R h) -> moves P Q m -> moves P R m.
Proof. intros HQ Hm s Hs. specialize (Hm s Hs). destruct (m s) as [[] s']; auto. Qed.

Definition committing (xid : Z) (children : list Z) (h : list Event) : Prop :=
  wal_first h /\ last_commit_record h = Some (xid, children).
Definition aborting (xid : Z) (children : list Z) (h : list Event) : Prop :=
  wal_first h /\ last_abort_record h = Some (xid, children).

#[export] Instance committing_stable xid children : PlainStable (committing xid children).
Proof. intros e h He [Hw Hl]. split; [by apply wal_first_stable|]. by destruct e. Qed.
#[export] Instance aborting_stable xid children : PlainStable (aborting xid children).
Proof. intros e h He [Hw Hl]. split; [by apply wal_first_stable|]. by destruct e. Qed.

Lemma committing_wal xid children h : committing xid children h -> wal_first h.
Proof. by intros []. Qed.
Lemma aborting_wal xid children h : aborting xid children h -> wal_first h.
Proof. by intros []. Qed.

Section Trace.
Variable env : XactEnv.

Lemma log_commit_moves xid children : moves wal_first (committing xid children) (call env (XactLogCommitRecord xid children)).
Proof. intros s Hs. unfold call. by destruct (ext env _ (events s)). Qed.
Lemma log_abort_moves xid children : moves wal_first (aborting xid children) (call env (XactLogAbortRecord xid children)).
Proof. intros s Hs. unfold call. by destruct (ext env _ (events s)). Qed.

Lemma commit_bit_moves (sync : bool) xid children :
  moves (committing xid children) wal_first
    (if sync then call env XLogFlush ;! call env (TransactionIdCommitTree xid children)
     else note XLogSetAsyncXactLSN ;! call env (TransactionIdAsyncCommitTree xid children)).
Proof.
  intros s [Hw Hl]. destruct sync; unfold mbnd, note, mput, call; [destruct (ext env XLogFlush (events s)); [|done..]|];
    match goal with |- context [ext env ?e ?h] => destruct (ext env e h) end; cbn; repeat split; try done; by eexists.
Qed.

#[export] Instance Keeps_RecordTransactionCommit : Keeps wal_first (RecordTransactionCommit env).
Proof.
  unfold RecordTransactionCommit. apply Keeps_bind; [apply _|]. intros s.
  set (xid := GetTopTransactionIdIfAny s). set (children := child_xids (current s)).
  do 6 (apply Keeps_bind; [keeps|]; intros ?). destruct (xid =? InvalidTransactionId); cbn [negb]; [cbn [when]; keeps|].
  apply moves_keeps. unfold early. apply (moves_bind _ (committing xid children)).
  - apply (moves_bind _ wal_first); [apply keeps_moves; [done | keeps]|]. intros _.
    apply (moves_bind _ (committing xid children)); [apply log_commit_moves|]. intros _.
    apply keeps_moves; [apply committing_wal | keeps].
  - intros [v|]; [apply (moves_weaken _ (committing xid children)); [apply committing_wal|]; apply keeps_moves; [apply committing_wal | keeps]|].
    apply (moves_bind _ (committing xid children)); [apply keeps_moves; [apply committing_wal | keeps]|]. intros s'.
    apply (moves_bind _ wal_first); [cbn [when]; apply commit_bit_moves|]. intros _. apply keeps_moves; [done | keeps].
Qed.

#[export] Instance Keeps_RecordTransactionAbort b : Keeps wal_first (RecordTransactionAbort env b).
Proof.
  unfold RecordTransactionAbort. apply Keeps_bind; [apply _|]. intros s. destruct (_ =? _); [keeps|].
  set (xid := GetCurrentTransactionIdIfAny s). set (children := child_xids (current s)).
  keeps_step; [keeps|]. intros []; [keeps|]. do 4 (apply Keeps_bind; [keeps|]; intros _).
  apply Keeps_bind; [|keeps]. apply Keeps_finally. apply moves_keeps.
  apply (moves_bind _ (aborting xid children)); [apply log_abort_moves|]. intros _.
  apply (moves_bind _ (aborting xid children)); [apply keeps_moves; [apply aborting_wal | keeps]|]. intros _.
  apply (moves_bind _ (aborting xid children)); [apply keeps_moves; [apply aborting_wal | keeps]|]. intros _.
  intros s' [Hw Hl]. unfold call. by destruct (ext env _ (events s')).
Qed.

(** ** Everything else only makes ordinary calls *)

#[local] Abbreviation K m := (Keeps wal_first m).

#[export] Instance Keeps_assign_one idx : K (assign_one env idx).
Proof. unfold assign_one. keeps. Qed.
#[export] Instance Keeps_assign fuel idx : K (assign_transaction_id_at env fuel idx).
Proof. revert idx. induction fuel; intros idx; cbn [assign_transaction_id_at]; keeps. Qed.
#[export] Instance Keeps_AssignTransactionId : K (AssignTransactionId env).
Proof. unfold AssignTransactionId. keeps. Qed.
#[export] Instance Keeps_GetCurrentTransactionId : K (GetCurrentTransactionId env).
Proof. unfold GetCurrentTransactionId. keeps. Qed.
#[export] Instance Keeps_CommandCounterIncrement : K (CommandCounterIncrement env).
Proof. unfold CommandCounterIncrement. keeps. Qed.
#[export] Instance Keeps_AtSubCommit_childXids : K (AtSubCommit_childXids env).
Proof. unfold AtSubCommit_childXids. keeps. Qed.
#[export] Instance Keeps_AtSubAbort_childXids : K AtSubAbort_childXids.
Proof. unfold AtSubAbort_childXids. keeps. Qed.
#[export] Instance Keeps_before_locks : K (release_transaction_owner_before_locks env).
Proof. unfold release_transaction_owner_before_locks. keeps. Qed.
#[export] Instance Keeps_locks b : K (release_transaction_owner_locks env b).
Proof. unfold release_transaction_owner_locks. keeps. Qed.
#[export] Instance Keeps_sub_before_locks : K (release_subxact_owner_before_locks env).
Proof. unfold release_subxact_owner_before_locks. keeps. Qed.
#[export] Instance Keeps_sub_locks b : K (release_subxact_owner_locks env b).
Proof. unfold release_subxact_owner_locks. keeps. Qed.
#[export] Instance Keeps_fire_deferred n : K (fire_deferred env n).
Proof. induction n; cbn [fire_deferred]; keeps. Qed.
#[export] Instance Keeps_forget : K forget_transaction.
Proof. unfold forget_transaction. keeps. Qed.
#[export] Instance Keeps_StartTransaction : K (StartTransaction env).
Proof. unfold StartTransaction. keeps. Qed.
#[export] Instance Keeps_CommitTransaction : K (CommitTransaction env).
Proof. unfold CommitTransaction, EnterParallelMode. keeps. Qed.
#[export] Instance Keeps_PrepareTransaction : K (PrepareTransaction env).
Proof. unfold PrepareTransaction. keeps. Qed.
#[export] Instance Keeps_AbortTransaction : K (AbortTransaction env).
Proof. unfold AbortTransaction. keeps. Qed.
#[export] Instance Keeps_CleanupTransaction : K (CleanupTransaction env).
Proof. unfold CleanupTransaction. keeps. Qed.
#[export] Instance Keeps_PushTransaction : K (PushTransaction env).
Proof. unfold PushTransaction. keeps. Qed.
#[export] Instance Keeps_PopTransaction : K PopTransaction.
Proof. unfold PopTransaction. keeps. Qed.
#[export] Instance Keeps_StartSubTransaction : K (StartSubTransaction env).
Proof. unfold StartSubTransaction. keeps. Qed.
#[export] Instance Keeps_CommitSubTransaction : K (CommitSubTransaction env).
Proof. unfold CommitSubTransaction. keeps. Qed.
#[export] Instance Keeps_AbortSubTransaction : K (AbortSubTransaction env).
Proof. unfold AbortSubTransaction. keeps. Qed.
#[export] Instance Keeps_CleanupSubTransaction : K (CleanupSubTransaction env).
Proof. unfold CleanupSubTransaction. keeps. Qed.
#[export] Instance Keeps_StartTransactionCommand : K (StartTransactionCommand env).
Proof. unfold StartTransactionCommand. keeps. Qed.
#[export] Instance Keeps_DefineSavepoint nm : K (DefineSavepoint env nm).
Proof. unfold DefineSavepoint. keeps. Qed.
#[export] Instance Keeps_start_chained s : K (start_chained env s).
Proof. unfold start_chained, RestoreTransactionCharacteristics. keeps. Qed.
#[export] Instance Keeps_commit_subs n b : K (commit_subs env n b).
Proof. induction n; cbn [commit_subs]; keeps. Qed.
#[export] Instance Keeps_restart_savepoint nm lvl : K (restart_savepoint env nm lvl).
Proof. unfold restart_savepoint. keeps. Qed.
#[export] Instance Keeps_CommitInternal : K (CommitTransactionCommandInternal env).
Proof. unfold CommitTransactionCommandInternal. keeps. Qed.
#[export] Instance Keeps_until n m : K m -> K (until_true n m).
Proof. intros Hm. induction n; cbn [until_true]; keeps. Qed.
#[export] Instance Keeps_CommitTransactionCommand : K (CommitTransactionCommand env).
Proof. unfold CommitTransactionCommand. keeps. Qed.
#[export] Instance Keeps_AbortInternal : K (AbortCurrentTransactionInternal env).
Proof. unfold AbortCurrentTransactionInternal. keeps. Qed.
#[export] Instance Keeps_AbortCurrentTransaction : K (AbortCurrentTransaction env).
Proof. unfold AbortCurrentTransaction. keeps. Qed.
#[export] Instance Keeps_BeginTransactionBlock : K BeginTransactionBlock.
Proof. unfold BeginTransactionBlock. keeps. Qed.
#[export] Instance Keeps_mark_stack f ft : K (mark_stack f ft).
Proof. unfold mark_stack. keeps. Qed.
#[export] Instance Keeps_EndTransactionBlock chn : K (EndTransactionBlock chn).
Proof. unfold EndTransactionBlock. keeps. Qed.
#[export] Instance Keeps_UserAbortTransactionBlock chn : K (UserAbortTransactionBlock chn).
Proof. unfold UserAbortTransactionBlock. keeps. Qed.
#[export] Instance Keeps_PrepareTransactionBlock gid : K (PrepareTransactionBlock env gid).
Proof. unfold PrepareTransactionBlock. keeps. Qed.
#[export] Instance Keeps_find_savepoint nm : K (find_savepoint nm).
Proof. unfold find_savepoint. keeps. Qed.
#[export] Instance Keeps_ReleaseSavepoint nm : K (ReleaseSavepoint env nm).
Proof. unfold ReleaseSavepoint. keeps. apply keeps_put. intros s. by destruct a0. Qed.
#[export] Instance Keeps_mark_rollback_to t : K (mark_rollback_to t).
Proof. unfold mark_rollback_to. keeps. Qed.
#[export] Instance Keeps_RollbackToSavepoint nm : K (RollbackToSavepoint env nm).
Proof. unfold RollbackToSavepoint. keeps. Qed.
#[export] Instance Keeps_BeginInternalSubTransaction nm : K (BeginInternalSubTransaction env nm).
Proof. unfold BeginInternalSubTransaction. keeps. Qed.
#[export] Instance Keeps_ReleaseCurrentSubTransaction : K (ReleaseCurrentSubTransaction env).
Proof. unfold ReleaseCurrentSubTransaction. keeps. Qed.
#[export] Instance Keeps_RollbackAndRelease : K (RollbackAndReleaseCurrentSubTransaction env).
Proof. unfold RollbackAndReleaseCurrentSubTransaction. keeps. Qed.
#[export] Instance Keeps_abort_out_round : K (abort_out_round env).
Proof. unfold abort_out_round. keeps. Qed.
#[export] Instance Keeps_AbortOutOfAnyTransaction : K (AbortOutOfAnyTransaction env).
Proof. unfold AbortOutOfAnyTransaction. keeps. Qed.

#[export] Instance Keeps_BeginImplicit : K BeginImplicitTransactionBlock.
Proof. unfold BeginImplicitTransactionBlock. keeps. Qed.
#[export] Instance Keeps_EndImplicit : K EndImplicitTransactionBlock.
Proof. unfold EndImplicitTransactionBlock. keeps. Qed.
#[export] Instance Keeps_start b : K (start_xact_command env b).
Proof. unfold start_xact_command. keeps. Qed.
#[export] Instance Keeps_finish b : K (finish_xact_command env b).
Proof. unfold finish_xact_command. keeps. Qed.
#[export] Instance Keeps_dispatch kind : K (dispatch_transaction_stmt env kind).
Proof. unfold dispatch_transaction_stmt, set_pg_variables, PreventInTransactionBlock, RequireTransactionBlock, CheckTransactionBlock. keeps. Qed.
#[export] Instance Keeps_error_recovery b : K (error_recovery env b).
Proof. unfold error_recovery. keeps. Qed.
#[export] Instance Keeps_attempts n b : K (recovery_attempts env n b).
Proof. revert b. induction n; intros b; cbn [recovery_attempts]; keeps. Qed.

(** A statement may call what it likes, as long as it leaves the records and bits of
    transactions to the transaction manager. *)
Definition keeps_stmt (st : Stmt) : Prop :=
  match st with
  | TransactionStmt _ => True
  | OtherStmt m => K m
  end.

Lemma keeps_PortalRun st : keeps_stmt st -> K (PortalRun env st).
Proof. destruct st; cbn [PortalRun keeps_stmt]; intros Hst; keeps. Qed.

Lemma keeps_exec multi l : Forall keeps_stmt l -> forall b, K (exec_parsetrees env multi b l).
Proof.
  induction 1 as [|st rest Hst _ IH]; intros b; cbn [exec_parsetrees]; [keeps|]. apply keeps_PortalRun in Hst. keeps.
Qed.

Lemma keeps_simple_query b l : Forall keeps_stmt l -> K (exec_simple_query env b l).
Proof. intros Hl. pose proof (keeps_exec (1 <? length l)%nat l Hl). unfold exec_simple_query. keeps. Qed.

Lemma keeps_postgres_query l : Forall keeps_stmt l -> K (postgres_query env l).
Proof. intros Hl. pose proof (keeps_simple_query false l Hl). unfold postgres_query, run_one_iteration_inner, if_due. keeps. Qed.

Lemma keeps_postgres_loop ls : Forall (Forall keeps_stmt) ls -> K (postgres_loop env ls).
Proof. induction 1 as [|l ls Hl _ IH]; cbn [postgres_loop]; [keeps|]. apply keeps_postgres_query in Hl. keeps. Qed.
End Trace.
