(* ===== verification/XactCommit.v ===== *)
(** * A commit, call by call

    The order in time of the calls of a top-level commit that succeeds. *)

From S2P Require Import Prelude Xid Transam XactState Xact Session SessionDemo XactTrace.

(** ** Programs that only call *)

(** The state with more calls made. *)
Definition logged (l : list Event) (s : XactState) : XactState := set_events (l ++ events s) s.

Class Quiet {A} (m : M XactState A) : Prop := quiet : forall s, exists l, snd (m s) = logged l s.

Lemma logged_nil s : logged [] s = s.
Proof. by destruct s. Qed.
Lemma logged_logged l l' s : logged l' (logged l s) = logged (l' ++ l) s.
Proof. unfold logged. cbn. by rewrite app_assoc. Qed.

#[export] Instance Quiet_ret {A} (a : A) : Quiet (mret a).
Proof. intros s. exists []. by rewrite logged_nil. Qed.
#[export] Instance Quiet_lift {A} (r : result A) : Quiet (mlift r).
Proof. intros s. exists []. by rewrite logged_nil. Qed.
#[export] Instance Quiet_raise {A} l code msg : Quiet (@raise A l code msg).
Proof. apply Quiet_lift. Qed.
#[export] Instance Quiet_get : Quiet mget.
Proof. intros s. exists []. by rewrite logged_nil. Qed.
#[export] Instance Quiet_bind {A B} (m : M XactState A) (k : A -> M XactState B) :
  Quiet m -> (forall a, Quiet (k a)) -> Quiet (mbnd m k).
Proof.
  intros Hm Hk s. destruct (Hm s) as [l Hl]. unfold mbnd. destruct (m s) as [[a|e|] s'] eqn:Em; cbn in Hl; subst s'.
  - destruct (Hk a (logged l s)) as [l' ->]. exists (l' ++ l). by rewrite logged_logged.
  - by exists l.
  - by exists l.
Qed.
#[export] Instance Quiet_note e : Quiet (note e).
Proof. intros s. by exists [e]. Qed.
#[export] Instance Quiet_notes l : Quiet (notes l).
Proof. induction l; cbn; apply _. Qed.
#[export] Instance Quiet_warn msg : Quiet (warn msg).
Proof. apply Quiet_note. Qed.
#[export] Instance Quiet_when b m : Quiet m -> Quiet (when b m).
Proof. destruct b; [done | intros _; apply Quiet_ret]. Qed.
#[export] Instance Quiet_if {A} (b : bool) (m m' : M XactState A) : Quiet m -> Quiet m' -> Quiet (if b then m else m').
Proof. by destruct b. Qed.
#[export] Instance Quiet_asking {A} (f : list Event -> result A) : Quiet (asking f).
Proof. unfold asking. apply _. Qed.
#[export] Instance Quiet_block : Quiet cur_block_state.
Proof. unfold cur_block_state. apply _. Qed.
#[export] Instance Quiet_state : Quiet cur_state.
Proof. unfold cur_state. apply _. Qed.
#[export] Instance Quiet_warn_state f : Quiet (warn_state f).
Proof. unfold warn_state. apply _. Qed.

(** ** What holds if a program succeeds *)

Definition succeeds {A} (m : M XactState A) (Q : A -> XactState -> Prop) (s : XactState) : Prop :=
  forall a s', m s = (Ok a, s') -> Q a s'.

Lemma succeeds_bind {A B} (m : M XactState A) (k : A -> M XactState B) Q s :
  succeeds m (fun a => succeeds (k a) Q) s -> succeeds (mbnd m k) Q s.
Proof. intros H b s'. unfold mbnd. destruct (m s) as [[a|e|] s1] eqn:Em; try done. by apply (H a s1). Qed.
Lemma succeeds_ret {A} (a : A) (Q : A -> XactState -> Prop) s : Q a s -> succeeds (mret a) Q s.
Proof. by intros H b s' [= -> ->]. Qed.
Lemma succeeds_get (Q : XactState -> XactState -> Prop) s : Q s s -> succeeds mget Q s.
Proof. by intros H b s' [= -> ->]. Qed.
Lemma succeeds_put f (Q : unit -> XactState -> Prop) s : Q tt (f s) -> succeeds (mput f) Q s.
Proof. by intros H [] s' [= <-]. Qed.
Lemma succeeds_quiet {A} (m : M XactState A) `{!Quiet m} (Q : A -> XactState -> Prop) s :
  (forall a l, Q a (logged l s)) -> succeeds m Q s.
Proof. intros H a s' Em. destruct (quiet s) as [l Hl]. rewrite Em in Hl. cbn in Hl. subst. apply H. Qed.
Lemma succeeds_keeps {A} P (m : M XactState A) `{!Keeps P m} (Q : A -> XactState -> Prop) s :
  P (events s) -> (forall a s', P (events s') -> Q a s') -> succeeds m Q s.
Proof. intros HP HQ a s' Em. apply HQ. pose proof (keeps s HP) as Hk. by rewrite Em in Hk. Qed.

Lemma succeeds_conseq {A} (m : M XactState A) (Q Q' : A -> XactState -> Prop) s :
  succeeds m Q s -> (forall a s', Q a s' -> Q' a s') -> succeeds m Q' s.
Proof. intros H HQ a s' Em. by apply HQ, H. Qed.

Section Commit.
Variable env : XactEnv.

#[export] Instance Quiet_call e : Quiet (call env e).
Proof. intros s. by exists [e]. Qed.
#[export] Instance Quiet_calls l : Quiet (calls env l).
Proof. induction l; cbn; apply _. Qed.
#[export] Instance Quiet_reserve msg : Quiet (try_reserve env msg).
Proof. unfold try_reserve. apply Quiet_bind; [apply _|]. intros s. destruct (reserve _ _); apply _. Qed.
#[export] Instance Quiet_fire_deferred n : Quiet (fire_deferred env n).
Proof. induction n; cbn; apply _. Qed.

Lemma succeeds_call e (Q : unit -> XactState -> Prop) s : Q tt (log_event e s) -> succeeds (call env e) Q s.
Proof. intros H [] s' Em. unfold call in Em. by injection Em as _ <-. Qed.
Lemma succeeds_note e (Q : unit -> XactState -> Prop) s : Q tt (log_event e s) -> succeeds (note e) Q s.
Proof. apply succeeds_put. Qed.

(** The call that sets the commit bits. *)
Definition commit_bits (sync : bool) (xid : Z) (children : list Z) : Event :=
  if sync then TransactionIdCommitTree xid children else TransactionIdAsyncCommitTree xid children.

(** From [h], the record is written, the log flushed if need be, the bits set. *)
Definition committed_from (sync : bool) (xid : Z) (children : list Z) (h h' : list Event) : Prop :=
  exists l3 l2 l1,
    h' = l3 ++ commit_bits sync xid children :: (if sync then XLogFlush else XLogSetAsyncXactLSN) :: l2
         ++ XactLogCommitRecord xid children :: l1 ++ h.

Ltac sstep :=
  lazymatch goal with
  | |- succeeds (mbnd _ _) _ _ => apply succeeds_bind
  | |- succeeds (early _ _) _ _ => apply succeeds_bind
  | |- succeeds (mret _) _ _ => apply succeeds_ret
  | |- succeeds (fall_through) _ _ => apply succeeds_ret
  | |- succeeds mget _ _ => apply succeeds_get
  | |- succeeds (put_current _) _ _ => apply succeeds_put
  | |- succeeds (mput _) _ _ => apply succeeds_put
  | |- succeeds (call _ (Call _)) _ _ => apply succeeds_quiet; [apply _ | intros ? ?]
  | |- succeeds (call _ _) _ _ => apply succeeds_call
  | |- succeeds (note XLogSetAsyncXactLSN) _ _ => apply succeeds_note
  | |- succeeds _ _ _ => apply succeeds_quiet; [apply _ | intros ? ?]
  end.

Lemma RecordTransactionCommit_order s :
  let xid := GetTopTransactionIdIfAny s in
  let children := child_xids (current s) in
  xid <> InvalidTransactionId ->
  succeeds (RecordTransactionCommit env)
    (fun latest s' => latest = TransactionIdLatest xid children /\ exists sync,
       committed_from sync xid children (events s) (events s') /\
       ((forall h, wrote_wal env h = true) -> SYNCHRONOUS_COMMIT_OFF < synchronous_commit s -> sync = true)) s.
Proof.
  intros xid children Hxid. unfold RecordTransactionCommit. do 2 sstep.
  fold xid. fold children. replace (xid =? InvalidTransactionId) with false by (symmetry; by apply Z.eqb_neq).
  cbn [negb]. do 5 (sstep; sstep). do 2 sstep. cbv zeta. sstep. cbn [negb]. do 9 sstep. do 2 sstep.
  match goal with |- context [if ?c then _ else _] => set (sync := c) end.
  assert (Hsync : (forall h, wrote_wal env h = true) -> SYNCHRONOUS_COMMIT_OFF < synchronous_commit s -> sync = true).
  { intros Hw Hs%Z.ltb_lt. subst sync. rewrite Hw. cbn in *. by rewrite Hs. }
  clearbody sync. sstep. destruct sync; cbn [when]; repeat sstep; (split; [done|]).
  - exists true. split; [|done]. exists (l9 ++ l8 ++ l7), (l6 ++ l5), (l4 ++ l3 ++ l2 ++ l1 ++ l0 ++ l).
    cbn. rewrite <- ?app_assoc. cbn. rewrite <- ?app_assoc. reflexivity.
  - exists false. split; [|done]. exists (l9 ++ l8 ++ l7), (l6 ++ l5), (l4 ++ l3 ++ l2 ++ l1 ++ l0 ++ l).
    cbn. rewrite <- ?app_assoc. cbn. rewrite <- ?app_assoc. reflexivity.
Qed.

(** More calls on top of [h]. *)
Definition on_top (h h' : list Event) : Prop := exists l, h' = l ++ h.

#[local] Instance on_top_stable h : PlainStable (on_top h).
Proof. intros e h' _ [l ->]. by exists (e :: l). Qed.

Definition committed_tail (sync : bool) (xid : Z) (children : list Z) (h h' : list Event) : Prop :=
  exists l2 l1 h1, committed_from sync xid children h h1 /\
    h' = l2 ++ ResourceOwnerReleaseLocks true true :: l1 ++ ProcArrayEndTransaction (TransactionIdLatest xid children) :: h1.

Lemma CommitTransaction_order s :
  subs s = [] -> block_state (top s) <> TBLOCK_PARALLEL_INPROGRESS ->
  let xid := GetTopTransactionIdIfAny s in
  let children := child_xids (top s) in
  xid <> InvalidTransactionId ->
  succeeds (CommitTransaction env)
    (fun _ s' => exists sync, committed_tail sync xid children (events s) (events s') /\
       ((forall h, wrote_wal env h = true) -> SYNCHRONOUS_COMMIT_OFF < synchronous_commit s -> sync = true)) s.
Proof.
  intros Hsubs Hb xid children Hxid. unfold CommitTransaction. unfold cur_block_state at 1. do 2 sstep. sstep. sstep. sstep.
  replace (block_state (current s)) with (block_state (top s)) by (unfold current; by rewrite Hsubs).
  rewrite bool_decide_eq_false_2 by done. cbn [when negb].
  do 10 (sstep; sstep). sstep. do 2 sstep. rewrite !logged_logged.
  match goal with |- context [logged ?l s] => set (L := l) end.
  set (s1 := on_current _ (logged L s)).
  assert (Hs1 : GetTopTransactionIdIfAny s1 = xid /\ child_xids (current s1) = children /\ events s1 = L ++ events s /\
    synchronous_commit s1 = synchronous_commit s).
  { subst s1. unfold on_current, current. cbn. rewrite Hsubs. cbn. by rewrite Hsubs. }
  destruct Hs1 as (Hs1x & Hs1c & Hs1e & Hs1s). clearbody s1. sstep.
  pose proof (RecordTransactionCommit_order s1) as Hrec. cbv zeta in Hrec. rewrite Hs1x, Hs1c, Hs1e, Hs1s in Hrec.
  eapply succeeds_conseq; [by apply Hrec|]. clear Hrec. intros latest s2 [-> (sync & Hfrom & Hsync)].
  assert (Hfrom' : committed_from sync xid children (events s) (events s2)).
  { destruct Hfrom as (m3 & m2 & m1 & ->). exists m3, m2, (m1 ++ L). by rewrite <- app_assoc. }
  clear Hfrom. unfold release_transaction_owner_before_locks, release_transaction_owner_locks.
  do 17 sstep. rewrite !logged_logged. match goal with |- context [logged ?l (log_event _ s2)] => set (L1 := l) end.
  do 3 sstep. unfold forget_transaction.
  apply (succeeds_keeps (on_top (ResourceOwnerReleaseLocks true true :: L1
           ++ ProcArrayEndTransaction (TransactionIdLatest xid children) :: events s2))).
  - keeps.
  - by exists l15.
  - intros _ s3 [l2' ->]. exists sync. split; [|done]. by exists l2', L1, (events s2).
Qed.
End Commit.

(** C11. A top-level commit that succeeds does things in this order: it writes the commit
    record of the transaction and its committed subtransactions, flushes the log (or, if
    the commit is asynchronous, says how far it must be flushed), sets the commit bits,
    leaves the process array, releases its locks.  With [synchronous_commit] on and
    something written, the log is flushed before the bits are set. *)
Theorem commit_order (env : XactEnv) (s s' : XactState) :
  let xid := GetTopTransactionIdIfAny s in
  let children := child_xids (top s) in
  subs s = [] -> block_state (top s) <> TBLOCK_PARALLEL_INPROGRESS -> xid <> InvalidTransactionId ->
  CommitTransaction env s = (Ok tt, s') ->
  exists (sync : bool) (l5 l4 l3 l2 l1 : list Event),
    events s' =
      l5 ++ ResourceOwnerReleaseLocks true true ::
      l4 ++ ProcArrayEndTransaction (TransactionIdLatest xid children) ::
      l3 ++ (if sync then [TransactionIdCommitTree xid children; XLogFlush]
             else [TransactionIdAsyncCommitTree xid children; XLogSetAsyncXactLSN]) ++
      l2 ++ XactLogCommitRecord xid children ::
      l1 ++ events s /\
    ((forall h, wrote_wal env h = true) -> SYNCHRONOUS_COMMIT_OFF < synchronous_commit s -> sync = true).
Proof.
  intros xid children Hs Hb Hx Hc.
  destruct (CommitTransaction_order env s Hs Hb Hx tt s' Hc) as (sync & (l5 & l4 & h & (l3 & l2 & l1 & ->) & ->) & Hsync).
  exists sync, l5, l4, l3, l2, l1. split; [|done]. by destruct sync.
Qed.

(** C4. Over a whole session, whatever the called components answer and whatever fails: no
    commit bit is set unless the commit record of exactly that transaction and those
    subtransactions was the last one written, and has been flushed (or handed to the WAL
    writer, for an asynchronous commit); and no abort bit unless the abort record came
    first. *)
Theorem wal_before_bits (env : XactEnv) (messages : list (list Stmt)) :
  Forall (Forall keeps_stmt) messages ->
  wal_first (events (snd (postgres_loop env messages new_XactState))).
Proof. intros Hm. by apply (keeps_postgres_loop env messages Hm). Qed.

(** ** Examples *)

Definition demo_open : XactState :=
  snd ((StartTransactionCommand (demo_env false) ;! GetCurrentTransactionId (demo_env false)) new_XactState).

Lemma commit_order_witness :
  GetTopTransactionIdIfAny demo_open <> InvalidTransactionId /\
  exists (sync : bool) (l5 l4 l3 l2 l1 : list Event),
    events (snd (CommitTransaction (demo_env false) demo_open)) =
      l5 ++ ResourceOwnerReleaseLocks true true ::
      l4 ++ ProcArrayEndTransaction (TransactionIdLatest (GetTopTransactionIdIfAny demo_open) (child_xids (top demo_open))) ::
      l3 ++ (if sync then [TransactionIdCommitTree (GetTopTransactionIdIfAny demo_open) (child_xids (top demo_open)); XLogFlush]
             else [TransactionIdAsyncCommitTree (GetTopTransactionIdIfAny demo_open) (child_xids (top demo_open)); XLogSetAsyncXactLSN]) ++
      l2 ++ XactLogCommitRecord (GetTopTransactionIdIfAny demo_open) (child_xids (top demo_open)) ::
      l1 ++ events demo_open /\
    ((forall h, wrote_wal (demo_env false) h = true) -> SYNCHRONOUS_COMMIT_OFF < synchronous_commit demo_open -> sync = true).
Proof.
  split; [vm_compute; discriminate|].
  apply (commit_order (demo_env false) demo_open (snd (CommitTransaction (demo_env false) demo_open))).
  - vm_compute. reflexivity.
  - vm_compute. discriminate.
  - vm_compute. discriminate.
  - rewrite (surjective_pairing (CommitTransaction _ _)) at 1. apply (f_equal2 pair); [vm_compute; reflexivity | reflexivity].
Defined.

Definition is_commit_bits (e : Event) : bool :=
  match e with TransactionIdCommitTree _ (_ :: _) => true | _ => false end.

(** The session commits a transaction with a committed subtransaction, and keeps to the rule. *)
Lemma wal_before_bits_witness :
  existsb is_commit_bits (events (snd (postgres_loop (demo_env false) (demo_messages false) new_XactState))) = true /\
  wal_first (events (snd (postgres_loop (demo_env false) (demo_messages false) new_XactState))).
Proof.
  split; [vm_compute; reflexivity|]. apply wal_before_bits.
  assert (Hw : keeps_stmt (demo_write false)) by (cbn [keeps_stmt demo_write]; unfold GetCurrentCommandId; keeps).
  assert (He : keeps_stmt demo_error) by (cbn [keeps_stmt demo_error]; keeps).
  repeat first [exact I | assumption | apply List.Forall_nil | apply List.Forall_cons].
Defined.
