(* ===== verification/XactIds.v ===== *)
(** * Is this transaction ours?

    [TransactionIdIsCurrentTransactionId] searches the ids of the committed
    subtransactions of every node by bisection; it agrees with plain membership as
    long as those ids were assigned in order and lie within half the id space. *)

From S2P Require Import Prelude Xid Transam XactState Xact.

(** Ids in the order of their assignment: 64-bit ids that grow and stay within the
    window in which 32-bit ids can be compared. *)
Definition in_order (fs : list Z) : Prop :=
  (forall i j f g, (i < j)%nat -> fs !! i = Some f -> fs !! j = Some g -> f < g < f + 2 ^ 31) /\
  Forall (fun f => FullTransactionId.is_normal f = true) fs.
Definition assigned_in_order (xids : list Z) : Prop := exists fs, xids = FullTransactionId.xid <$> fs /\ in_order fs.

Lemma in_order_precedes fs i j a b :
  in_order fs -> (FullTransactionId.xid <$> fs) !! i = Some a -> (FullTransactionId.xid <$> fs) !! j = Some b ->
  i <> j -> TransactionIdPrecedes a b = (i <? j)%nat.
Proof.
  intros [Ho Hn] Hi Hj Hij. rewrite list_lookup_fmap in Hi, Hj.
  destruct (fs !! i) as [f|] eqn:Ef; [|done]. destruct (fs !! j) as [g|] eqn:Eg; [|done]. cbn in Hi, Hj. simplify_eq.
  assert (Hf : FullTransactionId.is_normal f = true) by (by eapply Forall_lookup_1 in Hn).
  assert (Hg : FullTransactionId.is_normal g = true) by (by eapply Forall_lookup_1 in Hn).
  destruct (Nat.ltb_spec i j) as [Hlt|Hge].
  - pose proof (Ho i j f g Hlt Ef Eg). rewrite precedes_full; [lia | done | done | lia].
  - pose proof (Ho j i g f ltac:(lia) Eg Ef). rewrite precedes_full; [lia | done | done | lia].
Qed.

(** ** The bisection *)

Lemma bsearch_sound fuel l x low high :
  0 <= low -> high < Z.of_nat (length l) -> bsearch_xids fuel l x low high = true -> x ∈ l.
Proof.
  revert low high. induction fuel as [|fuel IH]; intros low high Hl Hh; cbn; [done|].
  destruct (low <=? high) eqn:Hle; [|done]. apply Z.leb_le in Hle.
  pose proof (Z.div_pos (high - low) 2 ltac:(lia) ltac:(lia)). assert ((high - low) / 2 <= high - low) by zdiv.
  destruct (l !! Z.to_nat (low + (high - low) / 2)) as [p|] eqn:Ep; [|apply lookup_ge_None in Ep; lia]. cbn.
  destruct (Z.eqb_spec p x) as [->|]; [intros _; by eapply list_elem_of_lookup_2|].
  destruct (TransactionIdPrecedes p x); apply IH; lia.
Qed.

Lemma bsearch_complete fs fuel k x low high :
  in_order fs -> 0 <= low -> high < Z.of_nat (length fs) -> low <= Z.of_nat k <= high ->
  (FullTransactionId.xid <$> fs) !! k = Some x -> high - low + 1 < Z.of_nat fuel ->
  bsearch_xids fuel (FullTransactionId.xid <$> fs) x low high = true.
Proof.
  intros Ho. revert low high. induction fuel as [|fuel IH]; intros low high Hl Hh Hk Hx Hf; [lia|]. cbn.
  replace (low <=? high) with true by (symmetry; apply Z.leb_le; lia).
  set (mid := low + (high - low) / 2). assert (Hmid : low <= mid <= high) by (subst mid; zdiv).
  destruct ((FullTransactionId.xid <$> fs) !! Z.to_nat mid) as [p|] eqn:Ep.
  2: { apply lookup_ge_None in Ep. rewrite length_fmap in Ep. lia. }
  cbn. destruct (Z.eqb_spec p x) as [|Hne]; [done|].
  assert (Hkm : Z.to_nat mid <> k) by (intros <-; congruence).
  rewrite (in_order_precedes fs _ _ _ _ Ho Ep Hx Hkm). destruct (Nat.ltb_spec (Z.to_nat mid) k); apply IH; try done; lia.
Qed.

Lemma binary_search_mem l x : assigned_in_order l -> binary_search_xids l x = bool_decide (x ∈ l).
Proof.
  intros (fs & -> & Ho). symmetry. unfold binary_search_xids. case_bool_decide as Hin.
  - apply list_elem_of_lookup in Hin as [k Hk]. symmetry. rewrite length_fmap.
    pose proof (lookup_lt_Some _ _ _ Hk) as Hlt. rewrite length_fmap in Hlt.
    apply (bsearch_complete fs _ k); try done; lia.
  - symmetry. apply not_true_iff_false. intros H. apply Hin. eapply bsearch_sound; [| |exact H]; lia.
Qed.

(** ** The stack *)

(** The ids of a node that has not been rolled back. *)
Definition owns (x : Z) (n : TransactionNode) : Prop :=
  state n <> TRANS_ABORT /\ FullTransactionId.is_valid (full_transaction_id n) = true /\
  (x = FullTransactionId.xid (full_transaction_id n) \/ x ∈ child_xids n).

#[local] Instance owns_dec x n : Decision (owns x n).
Proof. unfold owns. apply _. Defined.

Lemma xid_in_nodes_spec x ns :
  Forall (fun n => assigned_in_order (child_xids n)) ns -> xid_in_nodes x ns = bool_decide (Exists (owns x) ns).
Proof.
  induction 1 as [|n ns Hn _ IH]; cbn [xid_in_nodes]; [done|].
  assert (Hcons : bool_decide (Exists (owns x) (n :: ns)) = bool_decide (owns x n) || bool_decide (Exists (owns x) ns)).
  { rewrite <- bool_decide_or. apply bool_decide_ext. apply Exists_cons. }
  rewrite Hcons, <- IH. rewrite binary_search_mem by done.
  destruct (bool_decide_reflect (state n = TRANS_ABORT)) as [Ha|Ha].
  { rewrite (bool_decide_eq_false_2 (owns x n)); [done|]. by intros []. }
  destruct (FullTransactionId.is_valid _) eqn:Hv; cbn [negb].
  2: { rewrite (bool_decide_eq_false_2 (owns x n)); [done|]. intros (_ & ? & _). congruence. }
  destruct (Z.eqb_spec x (FullTransactionId.xid (full_transaction_id n))) as [Hx|Hx].
  { rewrite (bool_decide_eq_true_2 (owns x n)); [done|]. split; [done|]. split; [done|]. by left. }
  destruct (bool_decide_reflect (x ∈ child_xids n)) as [Hc|Hc].
  { rewrite (bool_decide_eq_true_2 (owns x n)); [done|]. split; [done|]. split; [done|]. by right. }
  rewrite (bool_decide_eq_false_2 (owns x n)); [done|]. intros (_ & _ & []); done.
Qed.

(** C13. The test for "is this id one of mine" (made on every tuple the backend looks at)
    answers exactly: yes for the top-level id and for the ids and committed children of
    every node of the stack that is not rolled back, no for everything else.  The
    bisection neither misses an id nor runs out of probes, also across the wrap-around of
    the id counter. *)
Theorem is_current_exact (x : Z) (s : XactState) :
  parallel_current_xids s = [] ->
  Forall (fun n => assigned_in_order (child_xids n)) (nodes_rev s) ->
  TransactionIdIsCurrentTransactionId x s = true <->
  TransactionIdIsNormal x = true /\ (x = GetTopTransactionIdIfAny s \/ Exists (owns x) (nodes_rev s)).
Proof.
  intros Hp Hn. unfold TransactionIdIsCurrentTransactionId. rewrite Hp, xid_in_nodes_spec by done.
  destruct (TransactionIdIsNormal x); cbn [negb]; [|naive_solver].
  destruct (Z.eqb_spec x (GetTopTransactionIdIfAny s)); [naive_solver|].
  rewrite bool_decide_eq_true. naive_solver.
Qed.

(** A transaction whose three committed subtransactions straddle the wrap-around. *)
Definition wrapped_state : XactState :=
  set_top_full_xid (2 ^ 32 - 7)
    (set_top (set_child_xids [2 ^ 32 - 6; 2 ^ 32 - 1; 5]
      (set_full_transaction_id (2 ^ 32 - 7) (set_state TRANS_INPROGRESS top_node))) new_XactState).

Lemma wrapped_in_order : assigned_in_order (child_xids (top wrapped_state)).
Proof.
  exists [2 ^ 32 - 6; 2 ^ 32 - 1; 2 ^ 32 + 5]. split; [reflexivity|]. split; [|by repeat constructor].
  intros i j f g Hij Hi Hj.
  destruct i as [|[|[|i]]]; destruct j as [|[|[|j]]]; cbn in Hi, Hj; try done; simplify_eq; lia.
Qed.

Lemma is_current_exact_witness :
  TransactionIdIsCurrentTransactionId 5 wrapped_state = true /\
  TransactionIdIsCurrentTransactionId 6 wrapped_state = false /\
  Exists (owns 5) (nodes_rev wrapped_state).
Proof.
  assert (Ho : Forall (fun n => assigned_in_order (child_xids n)) (nodes_rev wrapped_state))
    by (constructor; [apply wrapped_in_order | constructor]).
  split; [vm_compute; reflexivity|]. split; [vm_compute; reflexivity|].
  destruct (proj1 (is_current_exact 5 wrapped_state eq_refl Ho) ltac:(vm_compute; reflexivity)) as [_ [H|H]]; [|exact H].
  vm_compute in H. discriminate H.
Defined.
