(* ===== verification/XactParallel.v ===== *)
(** * The transaction state of a parallel worker: [access/transam/xact/src/engine.rs]

    The leader writes what a worker has to know of its transaction into shared memory;
    the worker starts a transaction of its own and takes that over.  Integers are in the
    byte order of the machine, little-endian here. *)

From stdpp Require Import sorting.
From S2P Require Import Prelude Xid Transam XactState Xact Session SessionDemo XactIds.

(** ** Bytes *)

(** [to_ne_bytes] and [from_ne_bytes] of an unsigned integer of [n] bytes. *)
Fixpoint to_ne_bytes (n : nat) (v : Z) : list Z :=
  match n with
  | O => []
  | S n => v mod 256 :: to_ne_bytes n (v / 256)
  end.
Fixpoint from_ne_bytes (bs : list Z) : Z :=
  match bs with
  | [] => 0
  | b :: bs => b + 256 * from_ne_bytes bs
  end.

(** [bytes\[from..to\]] *)
Definition slice (from to : nat) (bs : list Z) : list Z := take (to - from) (drop from bs).

(** ** The operations *)

Definition SERIALIZED_HEADER_SIZE : nat := 32.

(** Top-level node first. *)
Definition nodes (s : XactState) : list TransactionNode := top s :: reverse (subs s).

Definition node_xids (n : TransactionNode) : list Z :=
  (if FullTransactionId.is_valid (full_transaction_id n) then [FullTransactionId.xid (full_transaction_id n)] else [])
  ++ child_xids n.

Definition EstimateTransactionStateSpace (s : XactState) : nat :=
  SERIALIZED_HEADER_SIZE + 4 * list_sum (map (fun n => length (node_xids n)) (nodes s)).

Section Parallel.
Variable env : XactEnv.

(** The bytes written and the buffer [out] afterwards. *)
Definition SerializeTransactionState (out : list Z) : M XactState (nat * list Z) :=
  let! s := mget in
  let! xids :=
    match parallel_current_xids s with
    | _ :: _ => try_reserve env "out of memory serializing transaction state" ;! mret (parallel_current_xids s)
    | [] =>
        miter (fun _ => try_reserve env "out of memory serializing transaction state") (nodes s) ;!
        mret (merge_sort Z.le (concat (map node_xids (nodes s))))
    end in
  let total := (SERIALIZED_HEADER_SIZE + 4 * length xids)%nat in
  if (length out <? total)%nat then raise ERROR ERRCODE_INTERNAL_ERROR "transaction state buffer is too small"
  else
    mret (total,
      to_ne_bytes 4 (wrap32 (XactIsoLevel s))
      ++ [Z.b2z (XactDeferrable s)] ++ [0; 0; 0]
      ++ to_ne_bytes 8 (top_full_xid s)
      ++ to_ne_bytes 8 (full_transaction_id (current s))
      ++ to_ne_bytes 4 (command_id s)
      ++ to_ne_bytes 4 (wrap32 (Z.of_nat (length xids)))
      ++ concat (map (to_ne_bytes 4) xids)
      ++ drop total out).

(** The ids behind the header. *)
Fixpoint read_xids (n offset : nat) (bs : list Z) : list Z :=
  match n with
  | O => []
  | S n => from_ne_bytes (slice offset (offset + 4) bs) :: read_xids n (offset + 4) bs
  end.

Definition StartParallelWorkerTransaction (tstatespace : list Z) : M XactState unit :=
  StartTransaction env ;!
  if (length tstatespace <? SERIALIZED_HEADER_SIZE)%nat then raise ERROR ERRCODE_INTERNAL_ERROR "invalid serialized transaction state"
  else
    let n_xids := as_i32 (from_ne_bytes (slice 28 32 tstatespace)) in
    if n_xids <? 0 then raise ERROR ERRCODE_INTERNAL_ERROR "invalid serialized transaction state"
    else if (length tstatespace <? SERIALIZED_HEADER_SIZE + 4 * Z.to_nat n_xids)%nat
    then raise ERROR ERRCODE_INTERNAL_ERROR "invalid serialized transaction state"
    else
      try_reserve env "out of memory restoring transaction state" ;!
      let xids := read_xids (Z.to_nat n_xids) SERIALIZED_HEADER_SIZE tstatespace in
      mput (set_XactIsoLevel (as_i32 (from_ne_bytes (slice 0 4 tstatespace)))) ;!
      mput (set_XactDeferrable (negb (from_ne_bytes (slice 4 5 tstatespace) =? 0))) ;!
      mput (set_top_full_xid (from_ne_bytes (slice 8 16 tstatespace))) ;!
      put_current (set_full_transaction_id (from_ne_bytes (slice 16 24 tstatespace))) ;!
      mput (set_command_id (from_ne_bytes (slice 24 28 tstatespace))) ;!
      mput (set_parallel_current_xids xids) ;!
      become TBLOCK_PARALLEL_INPROGRESS.

Definition EndParallelWorkerTransaction : M XactState unit :=
  CommitTransaction env ;! become TBLOCK_DEFAULT.
End Parallel.

(** ** Bytes come back *)

Lemma length_to_ne_bytes n v : length (to_ne_bytes n v) = n.
Proof. revert v. induction n; intros v; cbn; [done|]. by rewrite IHn. Qed.

Lemma ne_bytes_roundtrip n v : 0 <= v < 256 ^ Z.of_nat n -> from_ne_bytes (to_ne_bytes n v) = v.
Proof.
  revert v. induction n as [|n IH]; intros v Hv; cbn; [change (256 ^ Z.of_nat 0) with 1 in Hv; lia|].
  rewrite Nat2Z.inj_succ, Z.pow_succ_r in Hv by lia. rewrite IH.
  - pose proof (Z.div_mod v 256 ltac:(lia)). lia.
  - split; [apply Z.div_pos; lia|]. apply Z.div_lt_upper_bound; lia.
Qed.

Lemma slice_app n pre l post :
  length pre = n -> slice n (n + length l) (pre ++ l ++ post) = l.
Proof.
  intros <-. unfold slice. rewrite drop_app_length.
  replace (length pre + length l - length pre)%nat with (length l) by lia. apply take_app_length.
Qed.

Lemma read_xids_app pre xids post :
  Forall is_u32 xids ->
  read_xids (length xids) (length pre) (pre ++ concat (map (to_ne_bytes 4) xids) ++ post) = xids.
Proof.
  intros H. revert pre. induction H as [|x xids Hx H IH]; intros pre; cbn [read_xids length map concat]; [done|].
  rewrite <- app_assoc. f_equal.
  - rewrite (slice_app (length pre) pre (to_ne_bytes 4 x)) by done. apply ne_bytes_roundtrip.
    unfold is_u32 in Hx. change (256 ^ Z.of_nat 4) with (2 ^ 32). lia.
  - specialize (IH (pre ++ to_ne_bytes 4 x)). rewrite length_app, length_to_ne_bytes, <- app_assoc in IH. exact IH.
Qed.

Lemma slices a d b c e n rest :
  let buf := to_ne_bytes 4 a ++ [d] ++ [0; 0; 0] ++ to_ne_bytes 8 b ++ to_ne_bytes 8 c ++ to_ne_bytes 4 e
             ++ to_ne_bytes 4 n ++ rest in
  slice 0 4 buf = to_ne_bytes 4 a /\ slice 4 5 buf = [d] /\ slice 8 16 buf = to_ne_bytes 8 b /\
  slice 16 24 buf = to_ne_bytes 8 c /\ slice 24 28 buf = to_ne_bytes 4 e /\ slice 28 32 buf = to_ne_bytes 4 n.
Proof. repeat split. Qed.

Lemma i32_roundtrip x : - 2 ^ 31 <= x < 2 ^ 31 -> as_i32 (from_ne_bytes (to_ne_bytes 4 (wrap32 x))) = x.
Proof.
  intros Hx. pose proof (wrap32_u32 x) as Hw. rewrite ne_bytes_roundtrip by (unfold is_u32 in Hw; cbn; lia).
  unfold as_i32, wrap32 in *. destruct (Z.ltb_spec (x mod 2 ^ 32) (2 ^ 31)); zdiv.
Qed.

(** ** What the worker takes over *)

(** The transaction of a leader that may start workers: no part of it has been rolled
    back, only nodes with an id have committed children, and everything fits its width. *)
Record leader_ok (s : XactState) : Prop := {
  leader_iso : - 2 ^ 31 <= XactIsoLevel s < 2 ^ 31;
  leader_top : is_u64 (top_full_xid s);
  leader_cur : is_u64 (full_transaction_id (current s));
  leader_cid : is_u32 (command_id s);
  leader_alone : parallel_current_xids s = [];
  leader_nodes : Forall (fun n => state n <> TRANS_ABORT /\ assigned_in_order (child_xids n) /\
                   (FullTransactionId.is_valid (full_transaction_id n) = false -> child_xids n = [])) (nodes_rev s);
  leader_few : Z.of_nat (length (concat (map node_xids (nodes s)))) < 2 ^ 31
}.

Lemma length_concat_sum {A B} (f : A -> list B) l : list_sum (map (fun x => length (f x)) l) = length (concat (map f l)).
Proof. induction l as [|x l IH]; cbn; [done|]. by rewrite length_app, <- IH. Qed.

Lemma elem_nodes n s : n ∈ nodes s <-> n ∈ nodes_rev s.
Proof. unfold nodes, nodes_rev. rewrite elem_of_cons, elem_of_app, list_elem_of_singleton, elem_of_reverse. tauto. Qed.

Lemma elem_xids x s :
  leader_ok s -> x ∈ concat (map node_xids (nodes s)) <-> Exists (owns x) (nodes_rev s).
Proof.
  intros H. rewrite list.Exists_exists. pose proof (leader_nodes s H) as Hn. rewrite list.Forall_forall in Hn.
  rewrite list_elem_of_In, in_concat. setoid_rewrite in_map_iff. setoid_rewrite <- list_elem_of_In. split.
  - intros (xs & (n & <- & Hin) & Hx). rewrite elem_nodes in Hin. exists n. split; [done|].
    destruct (Hn n Hin) as (Hs & _ & Hc). unfold node_xids in Hx. unfold owns.
    destruct (FullTransactionId.is_valid _); cbn in Hx; [set_solver | rewrite (Hc eq_refl) in Hx; set_solver].
  - intros (n & Hin & _ & Hv & Hx). exists (node_xids n). split; [exists n; by rewrite elem_nodes|].
    unfold node_xids. rewrite Hv. set_solver.
Qed.

Lemma xids_u32 s : leader_ok s -> Forall is_u32 (merge_sort Z.le (concat (map node_xids (nodes s)))).
Proof.
  intros H. rewrite merge_sort_Permutation. apply list.Forall_forall. intros x Hx.
  apply (elem_xids x s H), list.Exists_exists in Hx as (n & Hin & _ & _ & Hx).
  pose proof (leader_nodes s H) as Hn. rewrite list.Forall_forall in Hn. destruct (Hn n Hin) as (_ & (fs & Hfs & _) & _).
  assert (Hf : exists f, x = FullTransactionId.xid f).
  { destruct Hx as [->|Hx]; [by eexists|]. rewrite Hfs in Hx. apply list_elem_of_fmap in Hx as (f & -> & _). by eexists. }
  destruct Hf as [f ->]. apply wrap32_u32.
Qed.

(** The single node of the worker stays single while its transaction starts. *)
Definition alone {A} (m : M XactState A) : Prop := forall s, subs s = [] -> subs (snd (m s)) = [].

Lemma alone_bind {A B} (m : M XactState A) (k : A -> M XactState B) :
  alone m -> (forall a, alone (k a)) -> alone (mbnd m k).
Proof.
  intros Hm Hk s Hs. specialize (Hm s Hs). unfold mbnd. destruct (m s) as [[a|e|] s'] eqn:E; cbn in *; [by apply Hk | done | done].
Qed.
Lemma alone_put f : (forall s, subs s = [] -> subs (f s) = []) -> alone (mput f).
Proof. intros H s Hs. exact (H s Hs). Qed.
Lemma alone_current f : alone (put_current f).
Proof. intros s Hs. cbn. unfold on_current. by rewrite Hs. Qed.
Lemma alone_call env e : alone (call env e).
Proof. intros s Hs. exact Hs. Qed.
Lemma alone_ret {A} (a : A) : alone (mret a).
Proof. intros s Hs. exact Hs. Qed.
Lemma alone_calls env fns : alone (calls env fns).
Proof. induction fns; cbn; [apply alone_ret|]. apply alone_bind; [apply alone_call | done]. Qed.
Lemma alone_notes fns : alone (notes fns).
Proof. induction fns; cbn; [apply alone_ret|]. apply alone_bind; [by apply alone_put | done]. Qed.

Lemma StartTransaction_alone env : alone (StartTransaction env).
Proof.
  unfold StartTransaction. repeat (apply alone_bind; [|intros ?]).
  all: try (destruct (recovery_in_progress env); [apply alone_bind; [|intros ?]..]).
  all: first [apply alone_current | apply alone_calls | apply alone_notes | by apply alone_put].
Qed.

Lemma try_reserve_ok env msg s : (forall h, reserve env h = true) -> try_reserve env msg s = (Ok tt, s).
Proof. intros H. unfold try_reserve, mbnd, mget. cbn. by rewrite H. Qed.

Lemma reserve_all {A} env msg (l : list A) s :
  (forall h, reserve env h = true) -> miter (fun _ => try_reserve env msg) l s = (Ok tt, s).
Proof. intros H. induction l; cbn; [done|]. unfold mbnd. by rewrite try_reserve_ok. Qed.

(** What a worker has of the leader's transaction. *)
Definition takes_over (s w : XactState) : Prop :=
  XactIsoLevel w = XactIsoLevel s /\ XactDeferrable w = XactDeferrable s /\ top_full_xid w = top_full_xid s /\
  full_transaction_id (current w) = full_transaction_id (current s) /\ command_id w = command_id s /\
  Sorted Z.le (parallel_current_xids w) /\ parallel_current_xids w ≡ₚ concat (map node_xids (nodes s)).

(** The buffer the leader fills. *)
Definition state_bytes (s : XactState) (xids rest : list Z) : list Z :=
  to_ne_bytes 4 (wrap32 (XactIsoLevel s)) ++ [Z.b2z (XactDeferrable s)] ++ [0; 0; 0] ++ to_ne_bytes 8 (top_full_xid s)
  ++ to_ne_bytes 8 (full_transaction_id (current s)) ++ to_ne_bytes 4 (command_id s)
  ++ to_ne_bytes 4 (wrap32 (Z.of_nat (length xids))) ++ concat (map (to_ne_bytes 4) xids) ++ rest.

Lemma length_xid_bytes xids : length (concat (map (to_ne_bytes 4) xids)) = (4 * length xids)%nat.
Proof. induction xids as [|x xids IH]; cbn [map concat length]; [done|]. rewrite length_app, length_to_ne_bytes, IH. lia. Qed.

Lemma state_bytes_xids s xids rest :
  Forall is_u32 xids -> read_xids (length xids) 32 (state_bytes s xids rest) = xids.
Proof.
  intros H. exact (read_xids_app (to_ne_bytes 4 (wrap32 (XactIsoLevel s)) ++ [Z.b2z (XactDeferrable s)] ++ [0; 0; 0]
    ++ to_ne_bytes 8 (top_full_xid s) ++ to_ne_bytes 8 (full_transaction_id (current s)) ++ to_ne_bytes 4 (command_id s)
    ++ to_ne_bytes 4 (wrap32 (Z.of_nat (length xids)))) xids rest H).
Qed.

Lemma length_state_bytes s xids rest : length (state_bytes s xids rest) = (32 + 4 * length xids + length rest)%nat.
Proof. unfold state_bytes. rewrite !length_app, !length_to_ne_bytes, length_xid_bytes. cbn. lia. Qed.

Lemma serialize_fits env s out :
  leader_ok s -> (forall h, reserve env h = true) -> length out = EstimateTransactionStateSpace s ->
  let xids := merge_sort Z.le (concat (map node_xids (nodes s))) in
  SerializeTransactionState env out s = (Ok (length out, state_bytes s xids []), s).
Proof.
  intros Hs Hr Hlen. cbn zeta. unfold SerializeTransactionState, mbnd at 1, mget. rewrite (leader_alone s Hs).
  unfold mbnd at 1, mbnd at 1. rewrite reserve_all by done.
  unfold EstimateTransactionStateSpace in Hlen. rewrite length_concat_sum in Hlen.
  set (xids := merge_sort Z.le _). assert (Hx : length xids = length (concat (map node_xids (nodes s))))
    by (subst xids; by rewrite (merge_sort_Permutation Z.le)).
  cbn [mret]. rewrite <- Hx in Hlen.
  replace (_ <? _)%nat with false by (symmetry; apply Nat.ltb_ge; lia).
  rewrite drop_ge by lia. unfold mret. by rewrite Hlen.
Qed.

Lemma restore_reads env s xids rest w w1 :
  leader_ok s -> xids ≡ₚ concat (map node_xids (nodes s)) -> Sorted Z.le xids -> Forall is_u32 xids ->
  (forall h, reserve env h = true) -> StartTransaction env w = (Ok tt, w1) -> subs w1 = [] ->
  exists w', StartParallelWorkerTransaction env (state_bytes s xids rest) w = (Ok tt, w') /\
    takes_over s w' /\ subs w' = [] /\ block_state (current w') = TBLOCK_PARALLEL_INPROGRESS.
Proof.
  intros Hs Hp Hso Hu Hr Hst H1. unfold StartParallelWorkerTransaction, mbnd at 1. rewrite Hst.
  assert (Hn : Z.of_nat (length xids) < 2 ^ 31) by (rewrite Hp; apply (leader_few s Hs)).
  destruct (slices (wrap32 (XactIsoLevel s)) (Z.b2z (XactDeferrable s)) (top_full_xid s) (full_transaction_id (current s))
    (command_id s) (wrap32 (Z.of_nat (length xids))) (concat (map (to_ne_bytes 4) xids) ++ rest)) as (E1 & E2 & E3 & E4 & E5 & E6).
  fold (state_bytes s xids rest) in E1, E2, E3, E4, E5, E6.
  rewrite E1, E2, E3, E4, E5, E6, !i32_roundtrip, length_state_bytes, Nat2Z.id by (apply (leader_iso s Hs) || lia).
  rewrite !ne_bytes_roundtrip by (apply (leader_top s Hs) || apply (leader_cur s Hs) || apply (leader_cid s Hs)).
  replace (_ <? SERIALIZED_HEADER_SIZE)%nat with false by (symmetry; apply Nat.ltb_ge; unfold SERIALIZED_HEADER_SIZE; lia).
  replace (_ <? 0) with false by (symmetry; apply Z.ltb_ge; lia).
  replace (_ <? _)%nat with false by (symmetry; apply Nat.ltb_ge; unfold SERIALIZED_HEADER_SIZE; lia).
  unfold mbnd at 1. rewrite try_reserve_ok by done. unfold SERIALIZED_HEADER_SIZE. rewrite state_bytes_xids by done.
  assert (Hd : negb (from_ne_bytes [Z.b2z (XactDeferrable s)] =? 0) = XactDeferrable s) by (by destruct (XactDeferrable s)).
  eexists. split; [reflexivity|]. destruct w1; cbn in H1; subst. by repeat split.
Qed.

Lemma worker_is_current x s w :
  leader_ok s -> takes_over s w -> subs w = [] ->
  TransactionIdIsCurrentTransactionId x w = TransactionIdIsCurrentTransactionId x s.
Proof.
  intros Hs (_ & _ & Ht & Hc & _ & _ & Hp) Hw.
  assert (Hx : TransactionIdIsNormal x = true ->
    match parallel_current_xids w with
    | _ :: _ => bool_decide (x ∈ parallel_current_xids w)
    | [] => xid_in_nodes x (nodes_rev w)
    end = xid_in_nodes x (nodes_rev s)).
  { intros _. rewrite (xid_in_nodes_spec x (nodes_rev s)) by (eapply list.Forall_impl; [apply (leader_nodes s Hs)|]; naive_solver).
    destruct (parallel_current_xids w) as [|y l] eqn:El.
    - rewrite bool_decide_eq_false_2; [|rewrite <- elem_xids, <- Hp by done; set_solver].
      assert (Hv : FullTransactionId.is_valid (full_transaction_id (current s)) = false).
      { apply not_true_iff_false. intros Hv.
        assert (Hin : FullTransactionId.xid (full_transaction_id (current s)) ∈ concat (map node_xids (nodes s))).
        { apply elem_xids; [done|]. apply list.Exists_exists. exists (current s).
          assert (Hcur : current s ∈ nodes_rev s) by (unfold current, nodes_rev; destruct (subs s); set_solver).
          split; [done|]. pose proof (leader_nodes s Hs) as Hn. rewrite list.Forall_forall in Hn.
          split; [by apply Hn|]. split; [done|]. by left. }
        rewrite <- Hp in Hin. set_solver. }
      unfold nodes_rev. rewrite Hw. cbn. unfold current in Hc at 1. rewrite Hw in Hc. rewrite Hc, Hv.
      by case_bool_decide.
    - apply bool_decide_ext. by rewrite Hp, elem_xids. }
  unfold TransactionIdIsCurrentTransactionId, GetTopTransactionIdIfAny. rewrite Ht, (leader_alone s Hs).
  destruct (TransactionIdIsNormal x); cbn [negb]; [|done]. by rewrite Hx.
Qed.

(** C29. A parallel worker sees the leader's transaction.  The buffer the leader asks for is
    large enough and is filled; a worker that starts from it takes over isolation level,
    deferrability, ids and command id, has the ids sorted as its search needs them, and
    then calls exactly those transactions its own that the leader does. *)
Theorem worker_sees_leader env wenv s out w w1 :
  leader_ok s -> (forall h, reserve env h = true) -> (forall h, reserve wenv h = true) ->
  length out = EstimateTransactionStateSpace s -> subs w = [] -> StartTransaction wenv w = (Ok tt, w1) ->
  exists buf w',
    SerializeTransactionState env out s = (Ok (length out, buf), s) /\
    StartParallelWorkerTransaction wenv buf w = (Ok tt, w') /\
    block_state (current w') = TBLOCK_PARALLEL_INPROGRESS /\ takes_over s w' /\
    forall x, TransactionIdIsCurrentTransactionId x w' = TransactionIdIsCurrentTransactionId x s.
Proof.
  intros Hs Hr Hrw Hlen Hw Hst. pose proof (serialize_fits env s out Hs Hr Hlen) as Hser. cbn zeta in Hser.
  assert (H1 : subs w1 = []) by (pose proof (StartTransaction_alone wenv w Hw) as Ha; by rewrite Hst in Ha).
  destruct (restore_reads wenv s (merge_sort Z.le (concat (map node_xids (nodes s)))) [] w w1) as (w' & Hre & Ht & Hsub & Hb);
    [done | apply merge_sort_Permutation | apply (Sorted_merge_sort Z.le) | by apply xids_u32 | done..|].
  exists (state_bytes s (merge_sort Z.le (concat (map node_xids (nodes s)))) []), w'.
  repeat (split; [done|]). intros x. by apply worker_is_current.
Qed.

(** The transaction with three committed subtransactions, and a worker that starts afresh. *)
Lemma wrapped_leader : leader_ok wrapped_state.
Proof.
  split; unfold is_u64, is_u32; cbn -[Z.pow nodes].
  1-4: unfold InvalidFullTransactionId, XACT_READ_COMMITTED, FirstCommandId; lia.
  - done.
  - constructor; [|constructor]. split; [done|]. split; [apply wrapped_in_order | done].
  - vm_compute. reflexivity.
Qed.

Lemma worker_sees_leader_witness :
  exists buf w', StartParallelWorkerTransaction (demo_env false) buf new_XactState = (Ok tt, w') /\
    parallel_current_xids w' = [5; 2 ^ 32 - 7; 2 ^ 32 - 6; 2 ^ 32 - 1] /\
    TransactionIdIsCurrentTransactionId 5 w' = true.
Proof.
  destruct (worker_sees_leader (demo_env false) (demo_env false) wrapped_state (replicate 48 0) new_XactState
    (snd (StartTransaction (demo_env false) new_XactState)) wrapped_leader ltac:(done) ltac:(done) eq_refl eq_refl
    ltac:(vm_compute; reflexivity)) as (buf & w' & Hser & Hre & _ & _ & Hx).
  exists buf, w'. split; [exact Hre|]. rewrite Hx. split; [|vm_compute; reflexivity].
  vm_compute in Hser. injection Hser as <-. vm_compute in Hre. injection Hre as <-. vm_compute. reflexivity.
Defined.
